(* ===== verification/_CoqProject ===== *)
-Q . S2P
Prelude.v
Mailbox.v
PyData.v
PyValue.v
Change.v
LegacyBag.v
SubscriptionIndex.v
DeliveryDesk.v
DeskRoutes.v
GenropyRegister.v
GenropySpaCommander.v
GenropyWorker.v
WorkerTypes.v
Collects.v
Settles.v
Processes.v
WorkerPool.v
GlobalStore.v
ItemLocks.v
RegisterClient.v
DbEnv.v
ClientCommands.v
ServerStore.v
Copies.v
Recipe.v
