(* ===== verification/Prelude.v ===== *)
(** * genropy-asgi: the bridge that serves a legacy GenroPy site on an ASGI pool

    The program (src/src/genropy_asgi/, Python) lets an unmodified GenroPy site run on
    a pool of processes.  Each worker process hosts the site and keeps in its own
    memory what the legacy kept in a daemon: the registers of users, connections and
    pages, their stores (legacy Bags) and the queues of changes waiting for a page.
    One vertex, the commander, owns what crosses processes: who subscribes which table,
    what waits for a page of another process, and the one global dictionary.  A change
    is captured where it is born, travels through a slot or a lane to the desk of the
    vertex, and is handed to the page that wants it when the page's own worker
    collects.  What the development shows is, first, that on this road nothing is lost,
    nothing is delivered twice and nothing is reordered; then what the commands of
    the site's register do and answer, on every branch.

    ** The parts, the files and the code

    - Prelude.v: Python's exceptions, the two monads ([res], a call that returns or
      raises; [PyM], the same over a mutable state, which an exception leaves as
      changed as it was), [preserves] - what a body keeps on both branches - and the
      dotted paths of a Bag.
    - Mailbox.v: a machine seen as one queue, the laws its steps keep, in order or only
      counting, and what follows for any run: the interface the queues of LegacyBag.v,
      DeskRoutes.v and Collects.v implement.
    - PyData.v: [sorted], [heapq.merge] and the insertion-ordered [dict], as
      the language specifies them.  PyValue.v: the values that travel and the
      interfaces of the Bag ([BagApi], [BagLaws]) and of the process's zone ([LocalZone]).
      Change.v: the change and its coalescing key, and the wire codec ([Tytx], [TytxLaws]):
      a change at the other end of a wire is [trip_change] of the one sent.
    - LegacyBag.v (spa/legacy_bag.py): the collector that captures the writes on one
      Bag.  State: the watched prefixes, the pending list, the counter.
    - SubscriptionIndex.v (spa/subscription_index.py): the two maps of table
      subscriptions, refined to one relation.
    - DeliveryDesk.v (spa/delivery_desk.py): the index and the three queue maps, every
      route, and the desk as a machine of steps ([desk_step], [run_step]).
      DeskRoutes.v: its three queues as mailboxes, under every route.
    - GenropyRegister.v (spa/genropy_register.py): the three registers as maps of rows, the
      Bags and the collectors as a heap of named objects, the page's capture, the view
      onto a user's store, the login and the waking of a page.
    - GenropySpaCommander.v (spa/genropy_spa_commander.py): the vertex - the desk, the
      populations, the push tasks - and a relation whose steps create, send, deliver and
      lose the pushed source filters.
    - GenropyWorker.v (spa/genropy_worker.py): the process - registers, filter, slot,
      the lane to the desk, the folders of its connections - and every verb; what
      other threads do to the registers while a call is up is an argument of the verb.
    - WorkerTypes.v: the invariant of a worker's whole state, over a relation whose
      steps are the verbs.
    - Collects.v: one process with the collects of its requests under way together:
      [collect_page] cut in its three phases ([collect_ask], [collect_call],
      [collect_land]; [collect_page_phases] puts it together again), a slot and a reply in
      flight per request, the other verbs and the calls of other processes between any
      two phases; all that waits for a page is one mailbox.  Settles.v: what a
      landing answers, and the collect that leaves nothing waiting.  Processes.v: many such
      processes around the one desk, each of them the process of Collects.v among calls
      that come from elsewhere.
    - WorkerPool.v: the requests of many workers around one desk, any interleaving of
      their verbs, refined to the desk alone.
    - GlobalStore.v (siteregister/global_store_adapter.py): the dotted path onto the
      commander's dictionary and the turn a [with] block holds.
    - ItemLocks.v, RegisterClient.v, DbEnv.v, ClientCommands.v, ServerStore.v
      (siteregister/siteregister_client.py): the item locks with the retries of
      [__enter__]; the read commands; the database environment of a page, which is a
      read that may write; the commands that change something; the store a [with]
      block opens.
    - Copies.v: [ServerStore._copied] and [GlobalStoreAdapter.legacy_value] over objects
      that have an identity, for what copy and original still share.
    - Recipe.v (spa/config.py, spa/cli.py, spa/site_engine_factory.py,
      spa/genropy_spa_application.py, proxy/genropy_proxy.py): the environment, the
      command line and the document the pool is built from.

    A component is a Module; its state is a Record with the source's attributes, each
    method a definition of the source's name with the source's guards in the source's
    order.  The verb of a worker reaches the desk by [call_desk], which runs the desk's
    own route on the shared desk or is refused; the commands of the register run the
    worker's verbs ([on_worker]); a store runs the commands and the adapter.

    ** What the theorems show

    - Delivery: [collect_page_delivers], [desk_queues_keep_order] (any routes, in any order,
      [delivery_ledger] being its case for those that throw nothing away),
      [collect_merges_three_queues], [deposits_leave_once],
      [source_filter_loses_nothing] and, as a lemma of the desk,
      [exchange_files_then_answers]; and their composition over
      the pool, [pool_refines_desk] and [pool_delivers_once], from the commits of any
      worker to the collects of any other.
    - Interleaving: [collects_deliver_once] (one process) and [processes_deliver_once]
      (all of them): whatever the interleaving, an entry is handed to one collect at
      most, and to one or still waiting unless something addressed to it took it back or
      the landing that carried it raised; [landing_answers] says when a landing raises,
      [login_strands_a_collect] how it comes to with its page alive, and
      [collect_settles] that a collect with nobody in between leaves nothing waiting.
      [pool_delivers_once] counts what a landing that raised took with it.
      Order is kept inside a delivery and inside each queue; two collects of one page
      that cross may land in either order.
    - State: [verbs_keep_worker_typed] (every verb, returning or raising, keeps the rows,
      the heap, the queues, the slot and the desk well-formed), [drain_in_arrival_order],
      [index_refines_relation], [subscribeTable_agrees], [drops_leave_no_residue].
    - Capture: [write_reaches_watchers] ([collector_hears] is the collector by itself),
      [forwarded_write_is_captured], [store_window_moves], [set_datachange_lands], [on_datachange_files].
    - Moves of a user: [change_connection_user_follows], [replay_restores],
      and, as a lemma, [carried_store_followed].
    - The source filter over the pool: [filters_converge] (safety), [pushes_settle]
      (liveness: the pushes by themselves always end, and settled) and [subscribe_then_commit_waits_the_push], its window.
    - The stores: [global_write_then_read], [turn_is_atomic] (and [date_keeps_its_clock]),
      [store_write_then_read], [copies_are_private], [locks_exclude], [store_enter_ends]
      (both branches of [__enter__]).
    - The register's commands: [pages_answer_the_query], [filters_select_any],
      [dbenv_built], [second_pull_is_empty], [drop_page_once], [running_batch_wraps], and as
      lemmas [answer_is_projection], [refresh_moves_clocks_forward].
    - The recipe: [instance_becomes_pool].

    ** What is a parameter

    Code outside the repository is a class, its documented behaviour the laws beside it,
    and every theorem with such laws has a witness on a concrete instance: the legacy
    Bag ([BagApi]), TYTX ([Tytx]), the core of genro-asgi ([CoreRegistry],
    [CoreCommander], [CoreWorker], [CoreLifecycle], [CoreKeys], [GlobalStoreClient]),
    the typed texts and the defaults of the legacy ([TypedText], [ChangeDefaults],
    [LegacyPaths]), the methods of a site's environment object ([SiteEnv]), and of the
    platform the zone, the regular expressions, the file system and the reading of a
    float.

    No wire is taken for the identity.  What a change becomes on its way is
    [trip_change]: the key, the order and the delete mark are kept, the timestamp to
    the millisecond, a value or attribute as its own trip hands it back - exactly for
    None, a bool or an int, as an aware one for a naive datetime - and every theorem
    about delivery says of a change that crossed a wire that its trip arrives.
    [encodable_change] is what the codec has a word for; nothing is said of a change
    it has none for.  The global dictionary's road is [trip] for a key's value and
    [trip_leaf] inside a Bag; a call of the commander may raise, having done its work
    whole or not at all ([MasterLaws]), and the theorems say what is left then.

    ** Bounds

    No definition runs on fuel: the loops are over lists, or counted by the code itself
    ([LOCK_MAX_RETRY] attempts at an item's lock, and the loop is shown to end).  Python's integers
    are unbounded, and so are these; clocks are microseconds since the epoch, a
    duration's days and seconds split as [timedelta] splits them where the code reads
    one part of it.  Clock readings, answers of the lane and the other threads'
    doings are arguments, so a theorem holds for all of them.

    ** Not modelled

    - [Bag.walk], which [get_dbenv] runs over the Bag that holds the environment it is
      filling: nothing in the repository says which nodes are then visited, so the
      nodes the callback is handed are an argument.
    - [ServerStore.__getattr__] hands any other call to the third-party Bag.
    - Births and drops of rows are the core's; the bridge's part of them (the default
      fields, the detach, the folders, the announcement) is modelled, and
      WorkerTypes.v takes the registers that a login, a parcel or a drop of the core
      hands over as typed.
    - The no-ops of the register (dump, load, on_site_stop and the like), the lazily
      made attributes, logging, argparse and the legacy import shims of
      siteregister/: no state of their own.
    - Benchmarks, the superseded example configuration, tests, documents, portal and
      containers are not part of the served program.
    - Identity inside the queues: a queued change holds its value, not a reference;
      the bridge itself writes into no value it queued.  Where the site may write
      through what it received, Copies.v says how far. *)

From stdpp Require Export base gmap sets list strings sorting.
From Stdlib Require Export ZArith Lia Ascii.

#[global] Set Default Goal Selector "!".
#[global] Set Warnings "-clear-no-such-hyp".

(** ** Notation scope, tactics and hint databases of the development *)

Declare Scope py_scope.
Delimit Scope py_scope with py.
Open Scope string_scope.
Open Scope Z_scope.
Open Scope list_scope.
Open Scope py_scope.

Create HintDb gnr.
Create Rewrite HintDb gnr.

#[global] Arguments String.append !_ _ /.

(** ** Python's exceptions and the two monads the source is read in

    [res] is a call that returns or raises; [PyM S] threads the mutable state
    [S] through a sequence of such calls: what a statement changed before an
    exception stays changed, as it does in Python. *)

Inductive exn : Type :=
| KeyError
| TypeError
| ValueError
| AttributeError
| NotImplementedError
| RuntimeError
| ConnectionError
| TimeoutError
| CommanderCallFailed
| GlobalStoreCommitUnconfirmed
| GnrDaemonLocked.

#[export] Instance exn_eq_dec : EqDecision exn.
Proof. solve_decision. Defined.

Inductive res (A : Type) : Type :=
| Ok (a : A)
| Raise (e : exn).
Arguments Ok {A} _.
Arguments Raise {A} _.

#[export] Instance res_eq_dec `{EqDecision A} : EqDecision (res A).
Proof. solve_decision. Defined.

#[export] Instance res_ret : MRet res := @Ok.
#[export] Instance res_bind : MBind res :=
  λ A B f m, match m with Ok a => f a | Raise e => Raise e end.

#[export] Instance res_fmap : FMap res :=
  λ A B f m, match m with Ok a => Ok (f a) | Raise e => Raise e end.

Definition PyM (S A : Type) : Type := S → res A * S.

#[export] Instance pym_ret {S} : MRet (PyM S) := λ A a s, (Ok a, s).
#[export] Instance pym_bind {S} : MBind (PyM S) :=
  λ A B f m s,
    match m s with
    | (Ok a, s') => f a s'
    | (Raise e, s') => (Raise e, s')
    end.

Definition py_raise {S A} (e : exn) : PyM S A := λ s, (Raise e, s).
Definition py_get {S} : PyM S S := λ s, (Ok s, s).
Definition py_put {S} (s : S) : PyM S () := λ _, (Ok (), s).
Definition py_modify {S} (f : S → S) : PyM S () := λ s, (Ok (), f s).
Definition py_reads {S A} (f : S → A) : PyM S A := λ s, (Ok (f s), s).
(** A call on a part of the state that returns or raises. *)
Definition py_lift {S A} (f : S → res (A * S)) : PyM S A :=
  λ s, match f s with Ok (a, s') => (Ok a, s') | Raise e => (Raise e, s) end.

(** [for x in items: body(x)]: the first exception ends the loop. *)
Fixpoint py_for {S A} (l : list A) (body : A → PyM S ()) : PyM S () :=
  match l with
  | [] => mret ()
  | x :: rest => body x ≫= λ _, py_for rest body
  end.

Lemma pym_bind_unfold {S A B} (m : PyM S A) (f : A → PyM S B) s :
  (m ≫= f) s = match m s with
               | (Ok a, s') => f a s'
               | (Raise e, s') => (Raise e, s')
               end.
Proof. done. Qed.

(** What a sequence of calls keeps, whether it returns or raises: the rules an
    invariant is carried through a body by. *)
Definition preserves {S A} (I : S → Prop) (m : PyM S A) : Prop := ∀ s, I s → I (m s).2.

Section preserves.
Context {S : Type} (I : S → Prop).

Lemma preserves_ret {A} (a : A) : preserves I (mret a).
Proof. by intros s. Qed.

Lemma preserves_raise {A} e : preserves I (py_raise e : PyM S A).
Proof. by intros s. Qed.

Lemma preserves_reads {A} (f : S → A) : preserves I (py_reads f).
Proof. by intros s. Qed.

Lemma preserves_modify f : (∀ s, I s → I (f s)) → preserves I (py_modify f).
Proof. intros Hf s Hs. by apply Hf. Qed.

Lemma preserves_bind {A B} (m : PyM S A) (f : A → PyM S B) :
  preserves I m → (∀ a, preserves I (f a)) → preserves I (m ≫= f).
Proof.
  intros Hm Hf s Hs. rewrite pym_bind_unfold. specialize (Hm s Hs).
  destruct (m s) as [[a|e] s']; [by apply Hf | done].
Qed.

Lemma preserves_for {A} (l : list A) (body : A → PyM S ()) :
  (∀ x, preserves I (body x)) → preserves I (py_for l body).
Proof. intros Hb. induction l as [|x l IH]; [apply preserves_ret|]. by apply preserves_bind. Qed.
End preserves.
#[export] Hint Resolve preserves_ret preserves_raise preserves_reads preserves_bind preserves_for : gnr.

Lemma res_bind_ok {A B} (m : res A) (f : A → res B) b :
  m ≫= f = Ok b → ∃ a, m = Ok a ∧ f a = Ok b.
Proof. destruct m; [eauto | done]. Qed.

(** Split the branch a goal or a hypothesis is taking, closing the dead ones. *)
Ltac branch :=
  repeat (case_match || case_decide); simplify_eq/=; try done.

(** [bool_decide] and the boolean connectives turned into propositions. *)
Ltac bools :=
  repeat match goal with
  | H : bool_decide _ = true |- _ => apply bool_decide_eq_true in H
  | H : bool_decide _ = false |- _ => apply bool_decide_eq_false in H
  | H : (_ && _) = true |- _ => apply andb_true_iff in H as [? ?]
  | H : (_ || _) = false |- _ => apply orb_false_iff in H as [? ?]
  | H : negb _ = true |- _ => apply negb_true_iff in H
  | H : negb _ = false |- _ => apply negb_false_iff in H
  end.

(** ** Python strings: the dotted paths of a Bag and of a table name *)

Abbreviation dot := "."%char (only parsing).

(** [str.split(".")]: never empty. *)
Fixpoint split_dot (s : string) : list string :=
  match s with
  | EmptyString => [""]
  | String c s' =>
      if decide (c = dot) then "" :: split_dot s'
      else match split_dot s' with
           | [] => [String c ""]
           | h :: t => String c h :: t
           end
  end.

(** ["." .join(segments)]. *)
Fixpoint join_dot (l : list string) : string :=
  match l with
  | [] => ""
  | [s] => s
  | s :: l' => s +:+ "." +:+ join_dot l'
  end.

(** [head, _, rest = s.partition(".")]. *)
Fixpoint partition_dot (s : string) : string * string :=
  match s with
  | EmptyString => ("", "")
  | String c s' =>
      if decide (c = dot) then ("", s')
      else let '(h, r) := partition_dot s' in (String c h, r)
  end.

(** [s.startswith(p)]. *)
Definition startswith (s p : string) : bool := String.prefix p s.

(** [s.replace(".", "_")]. *)
Fixpoint dots_to_underscores (s : string) : string :=
  match s with
  | EmptyString => ""
  | String c s' => String (if decide (c = dot) then "_"%char else c) (dots_to_underscores s')
  end.

Fixpoint has_dot (s : string) : bool :=
  match s with
  | EmptyString => false
  | String c s' => bool_decide (c = dot) || has_dot s'
  end.

Lemma string_app_nil_r s : s +:+ "" = s.
Proof. induction s; simpl; congruence. Qed.

Lemma string_app_assoc s t u : (s +:+ t) +:+ u = s +:+ (t +:+ u).
Proof. induction s; simpl; congruence. Qed.

Lemma startswith_spec s p : startswith s p = true ↔ ∃ r, s = p +:+ r.
Proof.
  unfold startswith. revert s. induction p as [|c p IH]; intros s; simpl.
  - destruct s; split; eauto.
  - destruct s as [|d s]; simpl.
    + split; [done | intros [r Hr]; done].
    + destruct (ascii_dec c d) as [->|Hne].
      * rewrite IH. split; intros [r Hr]; exists r; simpl in *; congruence.
      * split; [done | intros [r Hr]; simpl in *; congruence].
Qed.

Lemma split_dot_ne s : split_dot s ≠ [].
Proof. destruct s as [|c s]; simpl; [done|]. by repeat case_match. Qed.

Lemma split_dot_app s t : split_dot (s +:+ String dot t) = split_dot s ++ split_dot t.
Proof.
  induction s as [|c s IH]; simpl.
  - done.
  - rewrite IH. case_decide; [done|].
    destruct (split_dot s) as [|h l] eqn:E; [by apply split_dot_ne in E | done].
Qed.

Lemma join_split_dot s : join_dot (split_dot s) = s.
Proof.
  induction s as [|c s IH]; simpl; [done|].
  destruct (split_dot s) as [|h l] eqn:E; [by apply split_dot_ne in E|].
  case_decide as Hc.
  - subst c. simpl in *. by rewrite IH.
  - destruct l; simpl in *; [congruence|]. by rewrite IH.
Qed.

Lemma split_dot_inj s t : split_dot s = split_dot t → s = t.
Proof. intros H. by rewrite <- (join_split_dot s), H, join_split_dot. Qed.

Lemma join_dot_app l k :
  l ≠ [] → k ≠ [] → join_dot (l ++ k) = join_dot l +:+ String dot (join_dot k).
Proof.
  intros Hl Hk. induction l as [|s l IH]; [done|].
  destruct l as [|s' l]; simpl in *.
  - destruct k; done.
  - rewrite IH by done. by rewrite !string_app_assoc.
Qed.

Lemma split_dot_no_dot s : has_dot s = false → split_dot s = [s].
Proof.
  induction s as [|c s IH]; simpl; [done|]. intros H. bools.
  rewrite IH by done. by case_decide.
Qed.

Lemma split_join_dot l :
  l ≠ [] → Forall (λ s, has_dot s = false) l → split_dot (join_dot l) = l.
Proof.
  intros Hne HF. induction HF as [|s l Hs HF IH]; [done|].
  destruct l as [|s' l]; simpl in *.
  - by apply split_dot_no_dot.
  - rewrite split_dot_app, split_dot_no_dot by done. simpl. f_equal. by apply IH.
Qed.

Lemma partition_dot_app k r : has_dot k = false → partition_dot (k +:+ String dot r) = (k, r).
Proof.
  induction k as [|c k IH]; simpl; [done|]. intros H. bools.
  rewrite decide_False by done. simpl in IH. by rewrite IH.
Qed.

Lemma partition_dot_no_dot k : has_dot k = false → partition_dot k = (k, "").
Proof.
  induction k as [|c k IH]; simpl; [done|]. intros H. bools.
  rewrite decide_False by done. by rewrite IH.
Qed.

Lemma partition_dot_key s : has_dot (partition_dot s).1 = false.
Proof.
  induction s as [|c s IH]; simpl; [done|]. case_decide; [done|].
  destruct (partition_dot s) as [h r] eqn:E; simpl in *.
  rewrite IH, orb_false_r. by apply bool_decide_eq_false.
Qed.

Lemma partition_dot_split s :
  split_dot s = (partition_dot s).1 ::
    (if has_dot s then split_dot (partition_dot s).2 else []).
Proof.
  induction s as [|c s IH]; simpl; [done|]. case_decide as Hc.
  - by subst.
  - rewrite bool_decide_eq_false_2 by done. simpl. rewrite IH.
    destruct (partition_dot s) as [h r]; done.
Qed.

(** ** A path under a prefix, on a segment boundary

    The same two-armed test is written in [LegacyBagCollector._under], in
    [DeliveryDesk._under], in the page capture and in the worker's prune. *)

Definition under (path prefix : string) : bool :=
  bool_decide (path = prefix) || startswith path (prefix +:+ ".").

Lemma under_refl p : under p p = true.
Proof. unfold under. by rewrite bool_decide_eq_true_2. Qed.

Lemma under_segments path prefix :
  under path prefix = true ↔ split_dot prefix `prefix_of` split_dot path.
Proof.
  unfold under. rewrite orb_true_iff, bool_decide_eq_true, startswith_spec. split.
  - intros [->|[r ->]]; [done|]. rewrite string_app_assoc. simpl.
    rewrite split_dot_app. by eexists.
  - intros [k Hk]. destruct k as [|x k].
    + left. apply split_dot_inj. by rewrite app_nil_r in Hk.
    + right. exists (join_dot (x :: k)).
      rewrite <- (join_split_dot path), Hk, join_dot_app, join_split_dot, string_app_assoc
        by (done || apply split_dot_ne).
      done.
Qed.

Lemma under_trans a b c : under a b = true → under b c = true → under a c = true.
Proof. rewrite !under_segments. intros. by etrans. Qed.
#[export] Hint Resolve under_refl : gnr.
