(* ===== verification/Mailbox.v ===== *)
(** * Mailbox: what a queue promises, whoever holds it

    The bridge keeps the same kind of queue in many places - the three of the desk,
    the row's, the collector's, a reply in flight - each with its own operations that
    file, hand over and throw away.  A mailbox is a machine with such a queue in it;
    its laws say what one step may do, and what follows for any run is proved once.
    LegacyBag.v has the pending list of a collector and DeskRoutes.v the desk's queues as
    mailboxes that keep their order; Collects.v has everything that waits for one page
    as a mailbox that only counts. *)

From S2P Require Export Prelude.

Module Mailbox.

(** How two accounts of the same entries are compared: one is a part of the other, or
    they are the same. *)
Record discipline (E : Type) : Type := Discipline {
  part_of : list E → list E → Prop;
  same_as : list E → list E → Prop;
  part_of_preorder : PreOrder part_of;
  same_as_preorder : PreOrder same_as;
  part_of_app : ∀ a b c d, part_of a b → part_of c d → part_of (a ++ c) (b ++ d);
  same_as_app : ∀ a b c d, same_as a b → same_as c d → same_as (a ++ c) (b ++ d)
}.
Arguments Discipline {E}.
Arguments part_of {E}.
Arguments same_as {E}.
#[export] Existing Instance part_of_preorder.
#[export] Existing Instance same_as_preorder.

(** The order counts, or only how many of each. *)
Definition in_order {E : Type} : discipline E :=
  Discipline sublist eq _ _ (λ _ _ _ _, sublist_app _ _ _ _) (λ a b c d, f_equal2 app (x1 := a) (y1 := b) (x2 := c) (y2 := d)).
Definition any_order {E : Type} : discipline E :=
  Discipline submseteq Permutation _ _ (λ _ _ _ _, submseteq_app _ _ _ _)
    (λ _ _ _ _ H1 H2, Permutation_app H1 H2).

(** A machine of states [S] and operations [O] seen as one queue of [E]: what waits in
    it, what an operation hands over and what it files; whether the operation throws
    nothing away; and the states the machine stays in. *)
Record mailbox (S O E : Type) : Type := MkMailbox {
  mb_step : S → O → S;
  mb_waiting : S → list E;
  mb_handed : S → O → list E;
  mb_filed : S → O → list E;
  mb_lossless : S → O → Prop;
  mb_good : S → Prop
}.
Arguments mb_step {S O E}.
Arguments mb_waiting {S O E}.
Arguments mb_handed {S O E}.
Arguments mb_filed {S O E}.
Arguments mb_lossless {S O E}.
Arguments mb_good {S O E}.

(** What the holder of a queue promises of an operation it accepts ([ok]). *)
Class Lawful {S O E} (d : discipline E) (m : mailbox S O E) (ok : S → O → Prop) : Prop := {
  mb_stays : ∀ s o, mb_good m s → ok s o → mb_good m (mb_step m s o);
  mb_part : ∀ s o, mb_good m s → ok s o →
    part_of d (mb_handed m s o ++ mb_waiting m (mb_step m s o)) (mb_waiting m s ++ mb_filed m s o);
  mb_exact : ∀ s o, mb_good m s → ok s o → mb_lossless m s o →
    same_as d (mb_handed m s o ++ mb_waiting m (mb_step m s o)) (mb_waiting m s ++ mb_filed m s o)
}.

Section runs.
Context {S O E : Type} (d : discipline E) (m : mailbox S O E) (ok : S → O → Prop) `{!Lawful d m ok}.

Definition run (s : S) (ops : list O) : S := foldl (mb_step m) s ops.

(** What the operations of a run come to, one after the other. *)
Fixpoint over {A} (f : S → O → list A) (s : S) (ops : list O) : list A :=
  match ops with
  | [] => []
  | o :: rest => f s o ++ over f (mb_step m s o) rest
  end.

Lemma over_app {A} (f : S → O → list A) s ops ops' :
  over f s (ops ++ ops') = over f s ops ++ over f (run s ops) ops'.
Proof. revert s. induction ops as [|o ops IH]; intros s; [done|]. simpl. by rewrite IH, app_assoc. Qed.

(** [P] holds of each operation of a run, in the state it finds. *)
Fixpoint all_along (P : S → O → Prop) (s : S) (ops : list O) : Prop :=
  match ops with
  | [] => True
  | o :: rest => P s o ∧ all_along P (mb_step m s o) rest
  end.

Definition all_lossless : S → list O → Prop := all_along (mb_lossless m).

Lemma all_along_always (P : S → O → Prop) s ops : (∀ s o, P s o) → all_along P s ops.
Proof. intros HP. revert s. induction ops as [|o ops IH]; intros s; [done|]. by split. Qed.

Lemma run_good ops s : mb_good m s → all_along ok s ops → mb_good m (run s ops).
Proof.
  revert s. induction ops as [|o ops IH]; intros s Hs; [done|]. intros [Ho Hops].
  apply IH; [by apply (mb_stays (d := d) (ok := ok)) | done].
Qed.

(** Over any run, what was handed over and then what still waits is a part of what
    waited and then what was filed. *)
Lemma run_part ops s :
  mb_good m s → all_along ok s ops →
  part_of d (over (mb_handed m) s ops ++ mb_waiting m (run s ops))
    (mb_waiting m s ++ over (mb_filed m) s ops).
Proof.
  revert s. induction ops as [|o ops IH]; intros s Hs; simpl; [by rewrite app_nil_r|].
  intros [Ho Hops]. pose proof (mb_stays (d := d) (ok := ok) s o Hs Ho) as Hs'.
  pose proof (mb_part (d := d) (ok := ok) s o Hs Ho) as H1.
  specialize (IH _ Hs' Hops). rewrite <- app_assoc.
  etrans; [by apply part_of_app; [reflexivity | exact IH]|].
  rewrite !app_assoc. by apply part_of_app.
Qed.

(** And all of it, when no operation of the run threw anything away. *)
Lemma run_exact ops s :
  mb_good m s → all_along ok s ops → all_lossless s ops →
  same_as d (over (mb_handed m) s ops ++ mb_waiting m (run s ops))
    (mb_waiting m s ++ over (mb_filed m) s ops).
Proof.
  revert s. induction ops as [|o ops IH]; intros s Hs; simpl; [by rewrite app_nil_r|].
  intros [Ho Hops] [Hl Hls]. pose proof (mb_stays (d := d) (ok := ok) s o Hs Ho) as Hs'.
  pose proof (mb_exact (d := d) (ok := ok) s o Hs Ho Hl) as H1.
  specialize (IH _ Hs' Hops Hls). rewrite <- app_assoc.
  etrans; [by apply same_as_app; [reflexivity | exact IH]|].
  rewrite !app_assoc. by apply same_as_app.
Qed.
End runs.
End Mailbox.
