(* ===== verification/PyData.v ===== *)
(** * The Python containers the source leans on

    [heapq.merge] of two iterables, [sorted] with a key, and the insertion-ordered
    [dict] with string keys, each as the language specifies it, with the lemmas
    the components share. *)

From S2P Require Export Prelude.

(** ** [sorted(items, key=...)]: the stable sort *)

Section sorting.
Context {A : Type} (key : A → Z).

Definition key_le (x y : A) : Prop := key x ≤ key y.
Definition key_sorted (l : list A) : Prop := StronglySorted key_le l.

Fixpoint insert_by (x : A) (l : list A) : list A :=
  match l with
  | [] => [x]
  | y :: l' => if key x <=? key y then x :: l else y :: insert_by x l'
  end.

Definition py_sorted (l : list A) : list A := foldr insert_by [] l.

(** ** [heapq.merge(first, second, key=...)]

    The heads are compared, the first iterable wins a tie, and nothing is
    sorted that was not. *)
Fixpoint heap_merge (l1 : list A) : list A → list A :=
  fix merge_into (l2 : list A) : list A :=
    match l1, l2 with
    | [], _ => l2
    | _, [] => l1
    | x :: l1', y :: l2' =>
        if key y <? key x then y :: merge_into l2' else x :: heap_merge l1' l2
    end.

Lemma heap_merge_nil_r l : heap_merge l [] = l.
Proof. by destruct l. Qed.

Lemma heap_merge_nil_l l : heap_merge [] l = l.
Proof. by destruct l. Qed.

Lemma heap_merge_cons x l1 y l2 :
  heap_merge (x :: l1) (y :: l2) =
    if key y <? key x then y :: heap_merge (x :: l1) l2 else x :: heap_merge l1 (y :: l2).
Proof. done. Qed.

#[local] Arguments heap_merge : simpl never.

Lemma insert_by_perm x l : insert_by x l ≡ₚ x :: l.
Proof.
  induction l as [|y l IH]; simpl; [done|]. case_match; [done|].
  rewrite IH. apply Permutation_swap.
Qed.

Lemma py_sorted_perm l : py_sorted l ≡ₚ l.
Proof. induction l as [|x l IH]; simpl; [done|]. by rewrite insert_by_perm, IH. Qed.

Lemma insert_by_sorted x l : key_sorted l → key_sorted (insert_by x l).
Proof.
  induction 1 as [|y l HS IH HF]; simpl; [repeat constructor|].
  destruct (Z.leb_spec (key x) (key y)) as [Hle|Hlt].
  - constructor; [by constructor|]. constructor; [done|].
    eapply Forall_impl; [exact HF|]. unfold key_le. lia.
  - constructor; [done|]. rewrite insert_by_perm. constructor; [unfold key_le; lia | done].
Qed.

Lemma py_sorted_sorted l : key_sorted (py_sorted l).
Proof. induction l; simpl; [constructor | by apply insert_by_sorted]. Qed.

Lemma insert_by_head x l : Forall (key_le x) l → insert_by x l = x :: l.
Proof.
  destruct 1 as [|y l Hy HF]; simpl; [done|].
  by rewrite (proj2 (Z.leb_le _ _) Hy).
Qed.

(** A list already in order is what [sorted] answers. *)
Lemma py_sorted_id l : key_sorted l → py_sorted l = l.
Proof.
  induction 1 as [|x l HS IH HF]; simpl; [done|]. by rewrite IH, insert_by_head.
Qed.

Lemma heap_merge_perm l1 l2 : heap_merge l1 l2 ≡ₚ l1 ++ l2.
Proof.
  revert l2. induction l1 as [|x l1 IH1]; intros l2; [by rewrite heap_merge_nil_l|].
  induction l2 as [|y l2 IH2]; [by rewrite heap_merge_nil_r, app_nil_r|].
  rewrite heap_merge_cons. case_match.
  - rewrite IH2. by rewrite <- Permutation_middle.
  - by rewrite IH1.
Qed.

Lemma heap_merge_length l1 l2 : length (heap_merge l1 l2) = (length l1 + length l2)%nat.
Proof. by rewrite heap_merge_perm, length_app. Qed.

Lemma heap_merge_sorted l1 l2 :
  key_sorted l1 → key_sorted l2 → key_sorted (heap_merge l1 l2).
Proof.
  intros H1. revert l2. induction H1 as [|x l1 HS1 IH1 HF1]; intros l2 H2.
  { by rewrite heap_merge_nil_l. }
  induction H2 as [|y l2 HS2 IH2 HF2].
  { rewrite heap_merge_nil_r. by constructor. }
  rewrite heap_merge_cons. destruct (Z.ltb_spec (key y) (key x)) as [Hlt|Hge].
  - constructor; [done|]. rewrite heap_merge_perm. simpl. constructor; [unfold key_le; lia|].
    apply Forall_app; split; [|done].
    eapply Forall_impl; [exact HF1|]. unfold key_le. lia.
  - constructor; [apply IH1; by constructor|]. rewrite heap_merge_perm.
    apply Forall_app; split; [done|]. constructor; [unfold key_le; lia|].
    eapply Forall_impl; [exact HF2|]. unfold key_le. lia.
Qed.

(** Each input keeps its own order in the merge, sorted or not. *)
Lemma heap_merge_sublist_l l1 l2 : l1 `sublist_of` heap_merge l1 l2.
Proof.
  revert l2. induction l1 as [|x l1 IH1]; intros l2; [apply sublist_nil_l|].
  induction l2 as [|y l2 IH2]; [by rewrite heap_merge_nil_r|].
  rewrite heap_merge_cons. case_match; [by apply sublist_cons | by apply sublist_skip].
Qed.

Lemma heap_merge_sublist_r l1 l2 : l2 `sublist_of` heap_merge l1 l2.
Proof.
  revert l2. induction l1 as [|x l1 IH1]; intros l2; [by rewrite heap_merge_nil_l|].
  induction l2 as [|y l2 IH2]; [apply sublist_nil_l|].
  rewrite heap_merge_cons. case_match; [by apply sublist_skip | by apply sublist_cons].
Qed.

(** The merge of two ordered lists is the stable sort of their concatenation:
    the single list that one queue would have been. *)
Lemma heap_merge_is_sorted l1 l2 :
  key_sorted l1 → key_sorted l2 → heap_merge l1 l2 = py_sorted (l1 ++ l2).
Proof.
  intros H1 H2. revert l2 H2. induction H1 as [|x l1 HS1 IH1 HF1]; intros l2 H2.
  { rewrite heap_merge_nil_l. by rewrite py_sorted_id. }
  change (py_sorted ((x :: l1) ++ l2)) with (insert_by x (py_sorted (l1 ++ l2))).
  rewrite <- IH1 by done.
  induction H2 as [|y l2 HS2 IH2 HF2].
  { rewrite !heap_merge_nil_r. by rewrite insert_by_head. }
  rewrite heap_merge_cons. destruct (Z.ltb_spec (key y) (key x)) as [Hlt|Hge].
  - rewrite IH2. destruct l1 as [|x' l1].
    + rewrite !heap_merge_nil_l. simpl. by rewrite (proj2 (Z.leb_gt _ _) Hlt).
    + apply Forall_cons in HF1 as [Hx _]. unfold key_le in Hx.
      rewrite (heap_merge_cons x'), (proj2 (Z.ltb_lt _ _)) by lia. simpl.
      by rewrite (proj2 (Z.leb_gt _ _) Hlt).
  - rewrite insert_by_head; [done|]. rewrite heap_merge_perm.
    apply Forall_app; split; [done|]. constructor; [unfold key_le; lia|].
    eapply Forall_impl; [exact HF2|]. unfold key_le. lia.
Qed.

(** Two insertions of different keys commute; so a prefix may be sorted first. *)
Lemma insert_by_comm x y l :
  key y < key x → insert_by y (insert_by x l) = insert_by x (insert_by y l).
Proof.
  intros Hlt. induction l as [|z l IH]; simpl.
  - by rewrite (proj2 (Z.leb_le _ _) (Z.lt_le_incl _ _ Hlt)), (proj2 (Z.leb_gt _ _) Hlt).
  - destruct (Z.leb_spec (key x) (key z)), (Z.leb_spec (key y) (key z)); simpl;
      repeat match goal with
      | |- context [key ?a <=? key ?b] => destruct (Z.leb_spec (key a) (key b)); simpl; try lia
      end; congruence.
Qed.

Lemma py_sorted_app_l l1 l2 : py_sorted (py_sorted l1 ++ l2) = py_sorted (l1 ++ l2).
Proof.
  assert (∀ x m, py_sorted (insert_by x m ++ l2) = insert_by x (py_sorted (m ++ l2))) as Hins.
  { intros x m. induction m as [|y m IH]; simpl; [done|].
    destruct (Z.leb_spec (key x) (key y)); simpl; [done|]. rewrite IH. by apply insert_by_comm. }
  induction l1 as [|x l1 IH]; simpl; [done|]. by rewrite Hins, IH.
Qed.
End sorting.

(** ** The insertion-ordered [dict] with string keys *)

Section dict.
Context {A : Type}.
Implicit Types d : list (string * A).

(** [d.get(k)]. *)
Fixpoint dict_get (k : string) d : option A :=
  match d with
  | [] => None
  | (k', v) :: d' => if decide (k = k') then Some v else dict_get k d'
  end.

(** [d[k] = v]: in place when the key is there, at the end otherwise. *)
Fixpoint dict_set (k : string) (v : A) d : list (string * A) :=
  match d with
  | [] => [(k, v)]
  | (k', v') :: d' => if decide (k = k') then (k, v) :: d' else (k', v') :: dict_set k v d'
  end.

(** [d.pop(k, None)], what is left. *)
Definition dict_pop (k : string) d : list (string * A) :=
  filter (λ kv, kv.1 ≠ k) d.

Definition dict_wf d : Prop := NoDup d.*1.

Lemma dict_get_set_eq k v d : dict_get k (dict_set k v d) = Some v.
Proof.
  induction d as [|[k' v'] d IH]; simpl; [by rewrite decide_True|].
  case_decide; simpl; [by rewrite decide_True | by rewrite decide_False].
Qed.

Lemma dict_get_set_ne k k' v d : k ≠ k' → dict_get k' (dict_set k v d) = dict_get k' d.
Proof.
  intros Hne. induction d as [|[k0 v0] d IH]; simpl; [by rewrite decide_False|].
  case_decide; subst; simpl; repeat case_decide; congruence.
Qed.

Lemma dict_get_pop_eq k d : dict_get k (dict_pop k d) = None.
Proof.
  unfold dict_pop. induction d as [|[k' v] d IH]; [done|].
  rewrite filter_cons. case_decide as H; simpl in *; [by rewrite decide_False | done].
Qed.

Lemma dict_get_pop_ne k k' d : k ≠ k' → dict_get k' (dict_pop k d) = dict_get k' d.
Proof.
  intros Hne. unfold dict_pop. induction d as [|[k0 v] d IH]; [done|].
  rewrite filter_cons. simpl. case_decide as H; simpl in *.
  - by rewrite IH.
  - rewrite IH, decide_False; [done | congruence].
Qed.

Lemma dict_pop_absent k d : dict_get k d = None → dict_pop k d = d.
Proof.
  unfold dict_pop. induction d as [|[k' v] d IH]; simpl; [done|].
  case_decide; [done|]. intros Hd. rewrite filter_cons, decide_True by (simpl; congruence).
  by rewrite IH.
Qed.

Lemma dict_pop_set_absent k v d : dict_get k d = None → dict_pop k (dict_set k v d) = d.
Proof.
  unfold dict_pop. induction d as [|[k' v'] d IH]; simpl; intros H.
  - rewrite filter_cons, decide_False; [done | by intros []].
  - destruct (decide (k = k')); [done|]. rewrite filter_cons, decide_True by (simpl; congruence).
    by rewrite IH.
Qed.
End dict.

#[export] Hint Resolve heap_merge_sorted py_sorted_sorted py_sorted_id : gnr.
#[export] Hint Rewrite @heap_merge_nil_l @heap_merge_nil_r : gnr.

(** ** Filters on lists *)

Lemma filter_filter {A} (P Q : A → Prop) `{∀ x, Decision (P x), ∀ x, Decision (Q x)} (l : list A) :
  filter P (filter Q l) = filter (λ x, P x ∧ Q x) l.
Proof.
  induction l as [|x l IH]; [done|].
  rewrite !filter_cons. repeat case_decide; try tauto;
    rewrite ?filter_cons; repeat case_decide; try tauto; congruence.
Qed.

Lemma filter_all {A} (P : A → Prop) `{∀ x, Decision (P x)} (l : list A) : Forall P l → filter P l = l.
Proof.
  induction 1 as [|x l Hx HF IH]; [done|]. by rewrite filter_cons, decide_True, IH.
Qed.

Lemma filter_none {A} (P : A → Prop) `{∀ x, Decision (P x)} (l : list A) :
  Forall (λ x, ¬ P x) l → filter P l = [].
Proof.
  induction 1 as [|x l Hx HF IH]; [done|]. by rewrite filter_cons, decide_False.
Qed.

Lemma Forall_sublist {A} (P : A → Prop) (l k : list A) : l `sublist_of` k → Forall P k → Forall P l.
Proof. intros Hs HF. rewrite Forall_forall in *. eauto using elem_of_sublist. Qed.

Lemma StronglySorted_filter {A} (R : A → A → Prop) (P : A → Prop) `{∀ x, Decision (P x)} (l : list A) :
  StronglySorted R l → StronglySorted R (filter P l).
Proof.
  induction 1 as [|x l HS IH HF]; [constructor|].
  rewrite filter_cons. case_decide; [|done]. constructor; [done|].
  apply Forall_forall. intros y Hy. apply list_elem_of_filter in Hy as [_ Hy].
  by eapply Forall_forall in HF.
Qed.

Lemma StronglySorted_snoc {A} (R : A → A → Prop) l x :
  StronglySorted R l → Forall (λ y, R y x) l → StronglySorted R (l ++ [x]).
Proof.
  induction 1 as [|y l HS IH HF]; simpl; intros Hx; [repeat constructor|].
  apply Forall_cons in Hx as [Hyx Hx]. constructor; [by apply IH|].
  apply Forall_app; split; [done | by constructor].
Qed.
#[export] Hint Resolve StronglySorted_filter StronglySorted_snoc : gnr.

(** ** [sorted] on strings: the code points' order, which is the order of the bytes *)

Definition str_le (a b : string) : Prop := String.leb a b = true.

#[export] Instance str_le_dec : RelDecision str_le.
Proof. unfold RelDecision, str_le. solve_decision. Defined.

Definition sorted_strings (l : list string) : list string := merge_sort str_le l.

Lemma sorted_strings_perm l : sorted_strings l ≡ₚ l.
Proof. apply merge_sort_Permutation. Qed.

Lemma sorted_strings_elem l s : s ∈ sorted_strings l ↔ s ∈ l.
Proof. by rewrite sorted_strings_perm. Qed.

Lemma list_to_set_sorted (s : gset string) :
  list_to_set (sorted_strings (elements s)) =@{gset string} s.
Proof.
  apply set_eq. intros x. by rewrite elem_of_list_to_set, sorted_strings_elem, elem_of_elements.
Qed.

(** ** A dict of queues: [setdefault(k, [])] and [pop(k, [])] *)

Definition queue_of {A} (m : gmap string (list A)) (k : string) : list A := default [] (m !! k).

Lemma queue_of_insert_eq {A} (m : gmap string (list A)) k q : queue_of (<[k := q]> m) k = q.
Proof. unfold queue_of. by rewrite lookup_insert_eq. Qed.

Lemma queue_of_insert_ne {A} (m : gmap string (list A)) k k' q :
  k ≠ k' → queue_of (<[k := q]> m) k' = queue_of m k'.
Proof. intros. unfold queue_of. by rewrite lookup_insert_ne. Qed.

Lemma queue_of_delete_eq {A} (m : gmap string (list A)) k : queue_of (delete k m) k = [].
Proof. unfold queue_of. by rewrite lookup_delete_eq. Qed.

Lemma queue_of_delete_ne {A} (m : gmap string (list A)) k k' :
  k ≠ k' → queue_of (delete k m) k' = queue_of m k'.
Proof. intros. unfold queue_of. by rewrite lookup_delete_ne. Qed.
Lemma queue_of_none {A} (m : gmap string (list A)) k : m !! k = None → queue_of m k = [].
Proof. unfold queue_of. by intros ->. Qed.
#[export] Hint Rewrite @queue_of_insert_eq @queue_of_delete_eq : gnr.

(** ** One entry of a dict updated in place, over and over *)

Lemma alter_alter `{Countable K} {A} (f g : A → A) (m : gmap K A) k :
  alter f k (alter g k m) = alter (λ x, f (g x)) k m.
Proof.
  apply map_eq. intros j. destruct (decide (k = j)) as [->|].
  - rewrite !lookup_alter_eq. by destruct (m !! j).
  - by rewrite !lookup_alter_ne.
Qed.

Lemma alter_self `{Countable K} {A} (m : gmap K A) k : alter (λ x, x) k m = m.
Proof.
  apply map_eq. intros j. destruct (decide (k = j)) as [->|].
  - rewrite lookup_alter_eq. by destruct (m !! j).
  - by rewrite lookup_alter_ne.
Qed.

Lemma foldl_alter `{Countable K} {A B} (g : A → B → A) (l : list B) (m : gmap K A) k :
  foldl (λ m x, alter (λ a, g a x) k m) m l = alter (λ a, foldl g a l) k m.
Proof.
  revert m. induction l as [|x l IH]; intros m; simpl; [by rewrite alter_self|].
  by rewrite IH, alter_alter.
Qed.

(** ** A dict as a finite map *)

Lemma dict_get_list_to_map {A} (d : list (string * A)) k :
  (list_to_map d : gmap string A) !! k = dict_get k d.
Proof.
  induction d as [|[k' v] d IH]; simpl; [done|]. case_decide as Hk.
  - subst. by rewrite lookup_insert_eq.
  - by rewrite lookup_insert_ne.
Qed.

Lemma dict_get_map_to_list {A} (m : gmap string A) k : dict_get k (map_to_list m) = m !! k.
Proof. by rewrite <- dict_get_list_to_map, list_to_map_to_list. Qed.

(** ** The keys of a dict *)

Lemma dict_set_keys {A} k (v : A) d :
  (dict_set k v d).*1 = if decide (k ∈ d.*1) then d.*1 else d.*1 ++ [k].
Proof.
  induction d as [|[k' v'] d IH]; cbn [dict_set fmap list_fmap fst].
  - rewrite decide_False; [done | apply not_elem_of_nil].
  - destruct (decide (k = k')) as [->|Hne]; cbn [fmap list_fmap fst].
    + rewrite decide_True by left. done.
    + rewrite IH. destruct (decide (k ∈ d.*1)) as [Hin|Hin].
      * rewrite decide_True by (by right). done.
      * rewrite decide_False; [done|]. intros [?|?]%elem_of_cons; done.
Qed.

Lemma dict_set_keys_elem {A} k (v : A) d k' : k' ∈ (dict_set k v d).*1 ↔ k' = k ∨ k' ∈ d.*1.
Proof.
  rewrite dict_set_keys. case_decide as Hk.
  - split; [by right | intros [->|]; done].
  - rewrite elem_of_app, list_elem_of_singleton. tauto.
Qed.

Lemma dict_set_wf {A} k (v : A) d : dict_wf d → dict_wf (dict_set k v d).
Proof.
  unfold dict_wf. rewrite dict_set_keys. case_decide as Hk; [done|]. intros HN.
  apply NoDup_app. split_and!; [done| |apply NoDup_singleton].
  intros x Hx Hx'. apply list_elem_of_singleton in Hx' as ->. done.
Qed.

Lemma dict_get_elem {A} k d : is_Some (dict_get k (d : list (string * A))) ↔ k ∈ d.*1.
Proof.
  induction d as [|[k' v] d IH]; simpl; [split; [by intros [] | by intros ?%elem_of_nil]|].
  rewrite elem_of_cons. case_decide as Hk; [split; [by left | eauto]|].
  rewrite IH. split; [by right | by intros [|]].
Qed.
Lemma dict_elem_get {A} (d : list (string * A)) k v :
  dict_wf d → (k, v) ∈ d ↔ dict_get k d = Some v.
Proof.
  unfold dict_wf. induction d as [|[k' v'] d IH]; cbn [fmap list_fmap fst]; intros HN.
  { by split; [intros ?%elem_of_nil|]. }
  apply NoDup_cons in HN as [Hk HN]. rewrite elem_of_cons, (IH HN). simpl. case_decide as E.
  - subst. split; [|by intros [= ->]; left]. intros [[= ->]|Hg]; [done|].
    destruct Hk. apply (IH HN) in Hg. by apply (list_elem_of_fmap_2 fst) in Hg.
  - split; [|by right]. by intros [[= -> ->]|].
Qed.

#[export] Hint Resolve dict_set_wf : gnr.
