(* ===== verification/PyValue.v ===== *)
(** * The values that travel, and the two things outside this repository they meet

    A Python value as the source tells its kinds apart ([isinstance] tests,
    truthiness), the data of a legacy Bag - its ordered nodes, which the source
    iterates - and the interfaces of what is not under src/: the legacy Bag's own
    operations ([BagApi]), the process's time zone ([LocalZone]) and the TYTX wire
    codec ([Tytx], in Change.v).  Clocks are integer microsecond ticks. *)

From S2P Require Export PyData.

#[global] Set Warnings "-register-all".

Inductive value : Type :=
| VNone
| VBool (b : bool)
| VInt (n : Z)
| VStr (s : string)
| VNaive (clock : Z)               (* a datetime with no tzinfo *)
| VAware (clock offset : Z)        (* a datetime with one: its wall clock, its utc offset *)
| VList (items : list value)
| VSet (items : list value)
| VDict (items : list (string * value))
| VBag (nodes : list (string * value * list (string * value)))
| VOther (tag : Z) (truth : bool). (* any other object: what it is, and its [bool()] *)

Definition attrs : Type := list (string * value).
Definition node : Type := string * value * attrs.
Definition bag : Type := list node.

Definition node_label (n : node) : string := n.1.1.
Definition node_value (n : node) : value := n.1.2.
Definition node_attr (n : node) : attrs := n.2.

(** The induction the nested lists need. *)
Section value_ind.
Variable P : value → Prop.
Hypothesis P_none : P VNone.
Hypothesis P_bool : ∀ b, P (VBool b).
Hypothesis P_int : ∀ n, P (VInt n).
Hypothesis P_str : ∀ s, P (VStr s).
Hypothesis P_naive : ∀ c, P (VNaive c).
Hypothesis P_aware : ∀ c o, P (VAware c o).
Hypothesis P_list : ∀ l, Forall P l → P (VList l).
Hypothesis P_set : ∀ l, Forall P l → P (VSet l).
Hypothesis P_dict : ∀ d, Forall (λ kv, P kv.2) d → P (VDict d).
Hypothesis P_bag : ∀ ns : bag,
  Forall (λ n, P (node_value n) ∧ Forall (λ kv, P kv.2) (node_attr n)) ns → P (VBag ns).
Hypothesis P_other : ∀ t b, P (VOther t b).

Fixpoint value_nested_ind (v : value) : P v :=
  match v with
  | VNone => P_none
  | VBool b => P_bool b
  | VInt n => P_int n
  | VStr s => P_str s
  | VNaive c => P_naive c
  | VAware c o => P_aware c o
  | VList l =>
      P_list l ((fix go l : Forall P l := match l with
                             | [] => List.Forall_nil _
                             | x :: l' => List.Forall_cons _ _ _ (value_nested_ind x) (go l')
                             end) l)
  | VSet l =>
      P_set l ((fix go l : Forall P l := match l with
                            | [] => List.Forall_nil _
                            | x :: l' => List.Forall_cons _ _ _ (value_nested_ind x) (go l')
                            end) l)
  | VDict d =>
      P_dict d ((fix go d : Forall (λ kv, P kv.2) d := match d with
                             | [] => List.Forall_nil _
                             | (k, x) :: d' =>
                                 List.Forall_cons _ (k, x) _ (value_nested_ind x) (go d')
                             end) d)
  | VBag ns =>
      P_bag ns
        ((fix go (ns : bag) :
            Forall (λ n, P (node_value n) ∧ Forall (λ kv, P kv.2) (node_attr n)) ns :=
            match ns with
            | [] => List.Forall_nil _
            | (k, x, a) :: ns' =>
                List.Forall_cons _ (k, x, a) _
                  (conj (value_nested_ind x)
                     ((fix goa a : Forall (λ kv, P kv.2) a :=
                                   match a with
                                    | [] => List.Forall_nil _
                                    | (k, x) :: a' =>
                                        List.Forall_cons _ (k, x) _ (value_nested_ind x) (goa a')
                                    end) a))
                  (go ns')
            end) ns)
  | VOther t b => P_other t b
  end.
End value_ind.

(** ** The legacy Bag's own operations

    [gnr.core.gnrbag.Bag] is a third-party class: its operations are parameters.
    A write or a delete answers the new nodes and the trigger events it raises,
    in the order it raises them. *)

Record node_event : Type := NodeEvent {
  ev_evt : string;               (* "ins", "del", "upd_value", "upd_attrs" *)
  ev_pathlist : list string;
  ev_label : string;
  ev_value : value;              (* the node's static value when the callback runs *)
  ev_attr : attrs;               (* the node's attributes when the callback runs *)
  ev_reason : option string
}.

Class BagApi : Type := {
  bag_getItem : bag → string → option value;
  bag_setItem : bag → string → value → option attrs → option string → bag * list node_event;
  bag_delItem : bag → string → option string → bag * list node_event;
  (* [getNode(path)], then what the caller does to the node object itself: no event *)
  bag_updateNode : bag → string → (value * attrs → value * attrs) → option bag;
  bag_bool : bag → bool
}.

(** The documented behaviour the source relies on, where a theorem needs it. *)
Class BagLaws `{BagApi} : Prop := {
  bag_get_set : ∀ b p v a r, p ≠ "" → bag_getItem (bag_setItem b p v a r).1 p = Some v;
  bag_get_set_other : ∀ b p q v a r,
    under p q = false → under q p = false →
    bag_getItem (bag_setItem b p v a r).1 q = bag_getItem b q;
  bag_get_del : ∀ b p r, p ≠ "" → bag_getItem (bag_delItem b p r).1 p = None;
  bag_get_del_other : ∀ b p q r,
    under p q = false → under q p = false →
    bag_getItem (bag_delItem b p r).1 q = bag_getItem b q
}.

(** [bool(value)]. *)
Definition truthy `{BagApi} (v : value) : bool :=
  match v with
  | VNone => false
  | VBool b => b
  | VInt n => negb (n =? 0)
  | VStr s => negb (bool_decide (s = ""))
  | VNaive _ | VAware _ _ => true
  | VList l | VSet l => match l with [] => false | _ => true end
  | VDict d => match d with [] => false | _ => true end
  | VBag ns => bag_bool ns
  | VOther _ b => b
  end.

(** ** [int(value)] *)

Definition is_space (c : ascii) : bool :=
  let n := nat_of_ascii c in
  bool_decide (n = 32%nat) || ((9 <=? n)%nat && (n <=? 13)%nat) || ((28 <=? n)%nat && (n <=? 31)%nat).

Fixpoint lstrip (s : string) : string :=
  match s with
  | EmptyString => ""
  | String c s' => if is_space c then lstrip s' else s
  end.

(** [s.strip()]: the trailing spaces go with the rest that is only spaces. *)
Fixpoint rstrip (s : string) : string :=
  match s with
  | EmptyString => ""
  | String c s' =>
      match rstrip s' with
      | EmptyString => if is_space c then "" else String c ""
      | t => String c t
      end
  end.

Definition strip (s : string) : string := rstrip (lstrip s).

Definition digit_value (c : ascii) : option Z :=
  let n := nat_of_ascii c in
  if (48 <=? n)%nat && (n <=? 57)%nat then Some (Z.of_nat n - 48) else None.

(** Decimal digits, an underscore allowed between two of them. *)
Fixpoint digits (s : string) (acc : Z) (after_digit : bool) : option Z :=
  match s with
  | EmptyString => if after_digit then Some acc else None
  | String c s' =>
      match digit_value c with
      | Some d => digits s' (acc * 10 + d) true
      | None => if bool_decide (c = "_"%char) && after_digit then digits s' acc false else None
      end
  end.

Definition int_of_string (s : string) : option Z :=
  match strip s with
  | String "-" s' => Z.opp <$> digits s' 0 false
  | String "+" s' => digits s' 0 false
  | s' => digits s' 0 false
  end.

Definition py_int (v : value) : res Z :=
  match v with
  | VInt n => Ok n
  | VBool b => Ok (if b then 1 else 0)
  | VStr s => match int_of_string s with Some n => Ok n | None => Raise ValueError end
  | _ => Raise TypeError
  end.

(** ** The process's time zone *)

Class LocalZone : Type := {
  local_offset : Z → Z;   (* the offset in force at a naive local clock *)
  utc_offset : Z → Z      (* the offset in force at a UTC instant *)
}.

(** A local clock the zone reads back as it stands: every one outside a
    daylight-saving gap. *)
Definition zone_reads_back `{LocalZone} (clock : Z) : Prop :=
  utc_offset (clock - local_offset clock) = local_offset clock.

(** [naive.astimezone()]: the process's zone attached, the clock kept. *)
Definition attach_local `{LocalZone} (clock : Z) : value := VAware clock (local_offset clock).

(** [aware.astimezone().replace(tzinfo=None)]: the naive local clock. *)
Definition naive_local `{LocalZone} (clock offset : Z) : Z :=
  let instant := clock - offset in instant + utc_offset instant.

Lemma naive_local_attach `{LocalZone} clock :
  zone_reads_back clock → naive_local clock (local_offset clock) = clock.
Proof. unfold zone_reads_back, naive_local. lia. Qed.

(** ** Instances for the witnesses

    A zone two hours east of Greenwich, and a Bag that keeps one node per dotted
    path and raises one event per write.  They serve the witnesses alone. *)
Module Witness.
#[local] Instance zone_east : LocalZone :=
  {| local_offset := λ _, 7200000000; utc_offset := λ _, 7200000000 |}.

Definition flat_get (b : bag) (p : string) : option value :=
  dict_get p (map (λ n, (node_label n, node_value n)) b).

Fixpoint flat_set (b : bag) (p : string) (v : value) (a : attrs) : bag :=
  match b with
  | [] => [(p, v, a)]
  | n :: b' => if decide (node_label n = p) then (p, v, a) :: b' else n :: flat_set b' p v a
  end.

Definition flat_del (b : bag) (p : string) : bag :=
  List.filter (λ n, negb (bool_decide (node_label n = p))) b.

#[local] Instance flat_bag : BagApi := {|
  bag_getItem := flat_get;
  bag_setItem b p v a r :=
    (flat_set b p v (default [] a),
     [NodeEvent (if flat_get b p is Some _ then "upd_value" else "ins")
        (if flat_get b p is Some _ then split_dot p else removelast (split_dot p))
        (List.last (split_dot p) "") v (default [] a) r]);
  bag_delItem b p r :=
    (flat_del b p,
     if flat_get b p is Some _
     then [NodeEvent "del" (removelast (split_dot p)) (List.last (split_dot p) "") VNone [] r]
     else []);
  bag_updateNode b p f :=
    if flat_get b p is Some _
    then Some (map (λ n, if decide (node_label n = p)
                         then let '(v, a) := f (node_value n, node_attr n) in (p, v, a)
                         else n) b)
    else None;
  bag_bool b := match b with [] => false | _ => true end
|}.

Lemma flat_get_set_eq b p v a : flat_get (flat_set b p v a) p = Some v.
Proof.
  unfold flat_get. induction b as [|n b IH]; simpl; [by rewrite decide_True|].
  case_decide; simpl; [by rewrite decide_True | by rewrite decide_False].
Qed.

Lemma flat_get_set_ne b p q v a : p ≠ q → flat_get (flat_set b p v a) q = flat_get b q.
Proof.
  unfold flat_get. intros Hne. induction b as [|n b IH]; simpl; [by rewrite decide_False|].
  destruct n as [[l x] a']; unfold node_label, node_value in *; simpl. repeat case_decide; simpl;
    repeat case_decide; simpl in *; congruence.
Qed.

Lemma flat_get_del_eq b p : flat_get (flat_del b p) p = None.
Proof.
  unfold flat_get, flat_del. induction b as [|[[l x] a] b IH]; [done|].
  unfold node_label, node_value in *; simpl in *. case_bool_decide; simpl; [done|].
  by rewrite decide_False.
Qed.

Lemma flat_get_del_ne b p q : p ≠ q → flat_get (flat_del b p) q = flat_get b q.
Proof.
  unfold flat_get, flat_del. intros Hne. induction b as [|[[l x] a] b IH]; [done|].
  unfold node_label, node_value in *; simpl in *.
  case_bool_decide; simpl; repeat case_decide; congruence.
Qed.

Lemma flat_bag_laws : BagLaws.
Proof.
  split; simpl; intros.
  - apply flat_get_set_eq.
  - apply flat_get_set_ne. intros ->. by rewrite under_refl in *.
  - apply flat_get_del_eq.
  - apply flat_get_del_ne. intros ->. by rewrite under_refl in *.
Qed.
End Witness.
