(* ===== verification/Change.v ===== *)
(** * The change: what every queue of the bridge holds

    The plain dict a collector builds and the queues carry, with its key, and the
    operations on a queue of them that the row, the desk and the collector share.
    [Tytx] is the wire codec, a third-party package. *)

From S2P Require Export PyValue.

Record change_key : Type := ChangeKey {
  k_path : string;
  k_reason : option string;
  k_fired : bool
}.

#[export] Instance change_key_eq_dec : EqDecision change_key.
Proof. solve_decision. Defined.

Record change : Type := Change {
  ch_key : change_key;
  ch_value : value;
  ch_attributes : option attrs;
  ch_delete : bool;
  ch_change_ts : Z;                (* aware UTC, as its timestamp *)
  ch_change_idx : Z;
  ch_arrival_ts : option Z         (* stamped by the row and by the desk *)
}.

Definition ch_path (c : change) : string := k_path (ch_key c).

Definition set_change_idx (i : Z) (c : change) : change :=
  Change (ch_key c) (ch_value c) (ch_attributes c) (ch_delete c) (ch_change_ts c) i
    (ch_arrival_ts c).

Definition set_arrival_ts (t : Z) (c : change) : change :=
  Change (ch_key c) (ch_value c) (ch_attributes c) (ch_delete c) (ch_change_ts c)
    (ch_change_idx c) (Some t).

(** [queue[:] = [p for p in queue if p["key"] != key]]. *)
Definition without_key (k : change_key) (queue : list change) : list change :=
  filter (λ p, ch_key p ≠ k) queue.

(** [queue[:] = [p for p in queue if not under(p["key"]["path"], prefix)]]. *)
Definition without_prefix (prefix : string) (queue : list change) : list change :=
  filter (λ p, under (ch_path p) prefix = false) queue.

(** [attributes or None] on a dict. *)
Definition or_none (a : attrs) : option attrs := match a with [] => None | _ => Some a end.

(** The pending changes of one key in a queue. *)
Definition pending_of (k : change_key) (queue : list change) : list change :=
  filter (λ p, ch_key p = k) queue.

Lemma pending_of_app k q r : pending_of k (q ++ r) = pending_of k q ++ pending_of k r.
Proof. apply filter_app. Qed.

Lemma pending_of_without k q : pending_of k (without_key k q) = [].
Proof.
  unfold pending_of, without_key. rewrite filter_filter. apply filter_none.
  apply Forall_forall. tauto.
Qed.

Lemma pending_of_without_ne k k' q :
  k ≠ k' → pending_of k' (without_key k q) = pending_of k' q.
Proof.
  intros Hne. unfold pending_of, without_key. rewrite filter_filter.
  apply list_filter_iff. intros c. split; [tauto|]. intros <-. by split.
Qed.

Lemma without_prefix_keeps prefix q c :
  c ∈ without_prefix prefix q ↔ c ∈ q ∧ under (ch_path c) prefix = false.
Proof. unfold without_prefix. rewrite list_elem_of_filter. tauto. Qed.

Lemma without_prefix_sublist prefix q : without_prefix prefix q `sublist_of` q.
Proof. apply sublist_filter. Qed.

Lemma without_key_sublist k q : without_key k q `sublist_of` q.
Proof. apply sublist_filter. Qed.

Lemma without_key_fresh k q : Forall (λ c, ch_key c ≠ k) q → without_key k q = q.
Proof. apply filter_all. Qed.

(** ** Numbering a delivery: [for index, change in enumerate(changes, start=n)] *)

Fixpoint number_from (n : Z) (l : list change) : list change :=
  match l with
  | [] => []
  | c :: l' => set_change_idx n c :: number_from (n + 1) l'
  end.

Lemma number_from_length n l : length (number_from n l) = length l.
Proof. revert n. induction l as [|c l IH]; intros n; simpl; congruence. Qed.

Lemma number_from_lookup n l i c :
  l !! i = Some c → number_from n l !! i = Some (set_change_idx (n + Z.of_nat i) c).
Proof.
  revert n i. induction l as [|c' l IH]; intros n [|i]; simpl; [done|done| |].
  - intros [= ->]. by rewrite Z.add_0_r.
  - intros H. rewrite (IH (n + 1) i H). do 2 f_equal. lia.
Qed.

Lemma number_from_forget {A} (f : change → A) n l :
  (∀ i c, f (set_change_idx i c) = f c) → map f (number_from n l) = map f l.
Proof.
  intros Hf. revert n. induction l as [|c l IH]; intros n; simpl; [done|].
  by rewrite Hf, IH.
Qed.

(** ** The wire codec

    TYTX is a third-party package, and a lossy one: a datetime crosses to the
    millisecond (tests/test_request_exchange.py), a naive one is read as UTC, a Bag rides
    its own typed XML.  So what a value and a timestamp are at the other end are
    operations of the class, and no theorem takes a trip for the identity. *)

Class Tytx : Type := {
  tytx : Type;
  to_tytx : change → tytx;
  from_tytx : tytx → change;
  to_tytx_list : list change → tytx;
  from_tytx_list : tytx → list change;
  encodable : value → bool;        (* the codec has a word for it *)
  trip_value : value → value;      (* the value at the other end *)
  trip_ts : Z → Z                  (* an aware timestamp at the other end *)
}.

Section trip.
Context `{Tytx}.

Definition encodable_change (c : change) : bool :=
  encodable (ch_value c) &&
  match ch_attributes c with None => true | Some a => forallb (λ kv, encodable kv.2) a end.

(** A change at the other end.  Its arrival is a float of seconds, its index an integer,
    its key three words: JSON's own. *)
Definition trip_change (c : change) : change :=
  Change (ch_key c) (trip_value (ch_value c))
    (map (λ kv, (kv.1, trip_value kv.2)) <$> ch_attributes c)
    (ch_delete c) (trip_ts (ch_change_ts c)) (ch_change_idx c) (ch_arrival_ts c).
End trip.

(** A value JSON has its own word for: it comes back as it was. *)
Definition json_word (v : value) : bool :=
  match v with VNone | VBool _ | VInt _ => true | _ => false end.

Class TytxLaws `{Tytx} : Prop := {
  tytx_change : ∀ c, encodable_change c = true → from_tytx (to_tytx c) = trip_change c;
  tytx_list : ∀ l, Forall (λ c, encodable_change c = true) l →
    from_tytx_list (to_tytx_list l) = map trip_change l;
  tytx_decoded : ∀ t, encodable_change (from_tytx t) = true;
  trip_ts_ms : ∀ t, trip_ts t mod 1000 = 0 ∧ Z.abs (trip_ts t - t) < 1000;
  trip_word : ∀ v, json_word v = true → trip_value v = v;
  trip_naive_utc : ∀ c, ∃ c', trip_value (VNaive c) = VAware c' 0 ∧ Z.abs (c' - c) < 1000
}.

Lemma encodable_stamped `{Tytx} t c : encodable_change (set_arrival_ts t c) = encodable_change c.
Proof. done. Qed.

Lemma trip_stamped `{Tytx} t c : trip_change (set_arrival_ts t c) = set_arrival_ts t (trip_change c).
Proof. done. Qed.

Lemma trip_encodable `{TytxLaws} c : encodable_change c = true → encodable_change (trip_change c) = true.
Proof. intros Hc. rewrite <- (tytx_change c Hc). apply tytx_decoded. Qed.
#[export] Hint Resolve trip_encodable : gnr.

(** What a timestamp loses, it loses on its first trip. *)
Lemma trip_ts_idem `{TytxLaws} t : trip_ts (trip_ts t) = trip_ts t.
Proof.
  destruct (trip_ts_ms t) as [H1' _]. destruct (trip_ts_ms (trip_ts t)) as [H2' H3'].
  apply Z.mod_divide in H1' as [a Ha], H2' as [b Hb]; lia.
Qed.

(** A change of words only comes back as it was, its clock to the millisecond: and a
    second trip takes nothing more. *)
Lemma trip_plain `{TytxLaws} c :
  json_word (ch_value c) = true → ch_attributes c = None →
  trip_change (trip_change c) = trip_change c ∧
  (trip_ts (ch_change_ts c) = ch_change_ts c → trip_change c = c).
Proof.
  intros Hv Ha. unfold trip_change. cbn. rewrite Ha, !(trip_word (ch_value c) Hv), trip_ts_idem. cbn.
  split; [done|]. intros ->. destruct c; cbn in *. by subst.
Qed.

(** The codec of the witnesses: it rounds to the millisecond, reads a naive datetime as
    UTC, and has no word for a set nor for an object of another kind. *)
Module TytxWitness.
Definition blank : change := Change (ChangeKey "" None false) VNone None false 0 0 None.

Definition millis (t : Z) : Z := (t + 500) / 1000 * 1000.

Fixpoint has_word (v : value) : bool :=
  match v with
  | VSet _ | VOther _ _ => false
  | VList l => forallb (λ x, has_word x) l
  | VDict d => forallb (λ kv, has_word kv.2) d
  | _ => true
  end.

Definition rounded (v : value) : value :=
  match v with
  | VNaive c => VAware (millis c) 0
  | VAware c o => VAware (millis (c - o)) 0
  | v => v
  end.

Definition round_change (c : change) : change :=
  Change (ch_key c) (rounded (ch_value c)) (map (λ kv, (kv.1, rounded kv.2)) <$> ch_attributes c)
    (ch_delete c) (millis (ch_change_ts c)) (ch_change_idx c) (ch_arrival_ts c).

Definition word_change (c : change) : bool :=
  has_word (ch_value c) &&
  match ch_attributes c with None => true | Some a => forallb (λ kv, has_word kv.2) a end.

#[local] Instance plain_tytx : Tytx := {|
  tytx := list change;
  to_tytx c := [round_change c];
  from_tytx t := match t with
                 | c :: _ => if word_change c then c else blank
                 | [] => blank
                 end;
  to_tytx_list l := map round_change l;
  from_tytx_list l := l;
  encodable := has_word;
  trip_value := rounded;
  trip_ts := millis
|}.

Lemma rounded_word v : has_word v = true → has_word (rounded v) = true.
Proof. by destruct v. Qed.

Lemma round_change_word c : word_change c = true → word_change (round_change c) = true.
Proof.
  unfold word_change. intros [Hv Ha]%andb_true_iff. apply andb_true_iff. cbn.
  split; [by apply rounded_word|]. destruct (ch_attributes c) as [a|]; cbn in *; [|done].
  rewrite forallb_forall in *. intros kv (kv' & <- & Hin)%in_map_iff. by apply rounded_word, Ha.
Qed.

Lemma millis_ms t : millis t mod 1000 = 0 ∧ Z.abs (millis t - t) < 1000.
Proof.
  unfold millis. split; [by rewrite Z.mod_mul|].
  pose proof (Z.div_mod (t + 500) 1000 ltac:(done)). pose proof (Z.mod_pos_bound (t + 500) 1000 ltac:(done)). lia.
Qed.

Lemma plain_tytx_laws : TytxLaws.
Proof.
  split; simpl.
  - intros c Hc. by rewrite round_change_word.
  - done.
  - intros [|c t]; [done|]. by destruct (word_change c) eqn:E.
  - apply millis_ms.
  - by intros [].
  - intros c. eexists. split; [done|]. apply millis_ms.
Qed.
End TytxWitness.
