(* ===== verification/LegacyBag.v ===== *)
(** * LegacyBagCollector: the datachange capture on a legacy Bag

    src/genropy_asgi/spa/legacy_bag.py.  The collector as a record, one definition
    per method, the well-formedness every method keeps, and what a run of Bag
    events leaves in the pending list. *)

From S2P Require Export Mailbox Change.

Module LegacyBagCollector.

(** The collector's own state.  The Bag it observes is named by the location of
    the Bag object; [subscriber_id] is built from [id(self)], so the collector's
    own location plays it and the record does not carry it. *)
Record collector : Type := Collector {
  col_bag : positive;
  col_paths : option (gset string);    (* None captures every write *)
  col_changes : list change;
  col_change_idx : Z
}.

(** [LegacyBagCollector.__init__]; the [bag.subscribe] it ends with is the
    allocation step of [GenropyRegister.new_collector]. *)
Definition init (bag_loc : positive) (paths : option (gset string)) : collector :=
  Collector bag_loc paths [] 0.

Definition _under (path prefix : string) : bool := under path prefix.

Definition _captures (self : collector) (path : string) : bool :=
  match col_paths self with
  | None => true
  | Some paths => bool_decide (set_Exists (λ p, _under path p = true) paths)
  end.

(** The full path of an event: [ins] and [del] carry the parent's pathlist. *)
Definition event_path (e : node_event) : string :=
  if decide (ev_evt e = "ins" ∨ ev_evt e = "del")
  then join_dot (ev_pathlist e ++ [ev_label e])
  else join_dot (ev_pathlist e).

Definition _build_change (now : Z) (path : string) (v : value) (attributes : option attrs)
    (reason : option string) (delete fired : bool) : change :=
  Change (ChangeKey path reason fired) v attributes delete now 0 None.

Definition _deposit (self : collector) (c : change) : collector :=
  let idx := col_change_idx self + 1 in
  Collector (col_bag self) (col_paths self) (col_changes self ++ [set_change_idx idx c]) idx.

(** [bool(attributes.pop("_fired", False))]. *)
Definition fired_flag `{BagApi} (a : attrs) : bool :=
  match dict_get "_fired" a with None => false | Some v => truthy v end.

Definition _on_event `{BagApi} (now : Z) (self : collector) (e : node_event) : collector :=
  let path := event_path e in
  if negb (_captures self path) then self
  else
    let delete := bool_decide (ev_evt e = "del") in
    let v := if delete then VNone else ev_value e in
    let fired := fired_flag (ev_attr e) in
    let attributes := dict_pop "_fired" (ev_attr e) in
    _deposit self (_build_change now path v (or_none attributes) (ev_reason e) delete fired).

Definition drain (reset : bool) (self : collector) : list change * collector :=
  (py_sorted ch_change_idx (col_changes self),
   if reset then Collector (col_bag self) (col_paths self) [] (col_change_idx self) else self).

Definition append (replace : bool) (c : change) (self : collector) : collector :=
  let self :=
    if replace
    then Collector (col_bag self) (col_paths self)
           (without_key (ch_key c) (col_changes self)) (col_change_idx self)
    else self in
  _deposit self c.

Definition drop (prefix : string) (self : collector) : collector :=
  Collector (col_bag self) (col_paths self) (without_prefix prefix (col_changes self))
    (col_change_idx self).

Definition reset (self : collector) : collector :=
  Collector (col_bag self) (col_paths self) [] (col_change_idx self).

Definition subscribe_path (prefix : string) (self : collector) : collector :=
  Collector (col_bag self) (Some ({[prefix]} ∪ default ∅ (col_paths self)))
    (col_changes self) (col_change_idx self).

Definition unsubscribe_path (prefix : string) (self : collector) : collector :=
  Collector (col_bag self) ((λ ps, ps ∖ {[prefix]}) <$> col_paths self)
    (col_changes self) (col_change_idx self).

Definition pending (self : collector) : nat := length (col_changes self).

(** ** Well-formedness: the indices grow along the list and none is ahead of the counter *)

Definition idx_lt (a b : change) : Prop := ch_change_idx a < ch_change_idx b.

Definition collector_wf (self : collector) : Prop :=
  StronglySorted idx_lt (col_changes self) ∧
  Forall (λ c, ch_change_idx c ≤ col_change_idx self) (col_changes self).

Lemma init_wf b ps : collector_wf (init b ps).
Proof. split; constructor. Qed.

Lemma deposit_wf self c : collector_wf self → collector_wf (_deposit self c).
Proof.
  intros [HS HF]. split; simpl.
  - apply StronglySorted_snoc; [done|]. eapply Forall_impl; [exact HF|].
    intros x Hx. unfold idx_lt. simpl in *. lia.
  - apply Forall_app; split; [|by repeat constructor].
    eapply Forall_impl; [exact HF|]. simpl. intros. lia.
Qed.

Lemma filtered_wf (P : change → Prop) `{∀ x, Decision (P x)} self ps :
  collector_wf self →
  collector_wf (Collector (col_bag self) ps (filter P (col_changes self)) (col_change_idx self)).
Proof.
  intros [HS HF]. split; simpl; [by apply StronglySorted_filter|].
  apply Forall_forall. intros c Hc. apply list_elem_of_filter in Hc as [_ Hc].
  by eapply Forall_forall in HF.
Qed.

Lemma idx_sorted_key l : StronglySorted idx_lt l → key_sorted ch_change_idx l.
Proof.
  induction 1 as [|c l HS IH HF]; constructor; [done|].
  eapply Forall_impl; [exact HF|]. unfold idx_lt, key_le. lia.
Qed.

Lemma on_event_wf `{BagApi} now self e : collector_wf self → collector_wf (_on_event now self e).
Proof. intros Hwf. unfold _on_event. case_match; [done | by apply deposit_wf]. Qed.

Lemma append_wf rep c self : collector_wf self → collector_wf (append rep c self).
Proof.
  intros Hwf. unfold append. apply deposit_wf. destruct rep; [|done]. by apply filtered_wf.
Qed.

Lemma drain_wf r self : collector_wf self → collector_wf (drain r self).2.
Proof. intros Hwf. unfold drain. destruct r; simpl; [split; constructor | done]. Qed.
#[export] Hint Resolve init_wf deposit_wf on_event_wf append_wf drain_wf : gnr.

(** The operations a collector is driven by, for the invariant over any sequence of them. *)
Inductive collector_op : Type :=
| OpEvent (now : Z) (e : node_event)
| OpAppend (replace : bool) (c : change)
| OpDrain (reset : bool)
| OpDrop (prefix : string)
| OpReset
| OpSubscribe (prefix : string)
| OpUnsubscribe (prefix : string).

Definition run_op `{BagApi} (self : collector) (op : collector_op) : collector :=
  match op with
  | OpEvent now e => _on_event now self e
  | OpAppend r c => append r c self
  | OpDrain r => (drain r self).2
  | OpDrop p => drop p self
  | OpReset => reset self
  | OpSubscribe p => subscribe_path p self
  | OpUnsubscribe p => unsubscribe_path p self
  end.

Lemma run_op_wf `{BagApi} self op : collector_wf self → collector_wf (run_op self op).
Proof.
  intros Hwf. destruct op; cbn [run_op]; auto with gnr.
  - by apply filtered_wf.
  - split; constructor.
Qed.

Lemma run_ops_wf `{BagApi} ops self : collector_wf self → collector_wf (foldl run_op self ops).
Proof. revert self. induction ops; simpl; auto using run_op_wf. Qed.

(** ** What the captures mean *)

Lemma captures_spec self path :
  _captures self path = true ↔
  match col_paths self with
  | None => True
  | Some ps => ∃ p, p ∈ ps ∧ split_dot p `prefix_of` split_dot path
  end.
Proof.
  unfold _captures. destruct (col_paths self) as [ps|]; [|done].
  rewrite bool_decide_eq_true. unfold set_Exists, _under.
  split; intros (p & Hp & Hu); exists p; by rewrite under_segments in *.
Qed.

Lemma captures_subscribe self p path :
  _captures (subscribe_path p self) path =
    under path p || match col_paths self with None => false | Some _ => _captures self path end.
Proof.
  unfold _captures, subscribe_path; simpl. apply Bool.eq_iff_eq_true.
  rewrite orb_true_iff. destruct (col_paths self) as [ps|]; simpl;
    rewrite !bool_decide_eq_true; unfold set_Exists, _under; set_solver.
Qed.

(** One event's contribution, as the change it deposits. *)
Definition event_change `{BagApi} (now : Z) (e : node_event) : change :=
  let delete := bool_decide (ev_evt e = "del") in
  _build_change now (event_path e) (if delete then VNone else ev_value e)
    (or_none (dict_pop "_fired" (ev_attr e))) (ev_reason e) delete (fired_flag (ev_attr e)).

Lemma on_event_eq `{BagApi} now self e :
  _on_event now self e =
    if _captures self (event_path e) then _deposit self (event_change now e) else self.
Proof. unfold _on_event. by destruct (_captures self _). Qed.

Lemma deposit_captures self c path : _captures (_deposit self c) path = _captures self path.
Proof. done. Qed.

(** A collector fed a run of events holds what it held, then one change per
    captured event, in order, numbered on from its counter. *)
Lemma on_events_spec `{BagApi} (now : Z) evs self :
  let captured := filter (λ e, _captures self (event_path e) = true) evs in
  col_changes (foldl (_on_event now) self evs) =
    col_changes self ++ number_from (col_change_idx self + 1) (map (event_change now) captured)
  ∧ col_change_idx (foldl (_on_event now) self evs) =
    col_change_idx self + Z.of_nat (length captured)
  ∧ col_paths (foldl (_on_event now) self evs) = col_paths self
  ∧ col_bag (foldl (_on_event now) self evs) = col_bag self.
Proof.
  revert self. induction evs as [|e evs IH]; intros self; simpl.
  { rewrite app_nil_r. repeat split; lia. }
  destruct (IH (_on_event now self e)) as (H1 & H2 & H3 & H4).
  rewrite H1, H2, H3, H4, on_event_eq, filter_cons. clear.
  destruct (_captures self (event_path e)) eqn:E; [rewrite decide_True by done | by rewrite decide_False].
  rewrite (list_filter_iff _ (λ e, _captures self (event_path e) = true)) by done.
  simpl. rewrite <- app_assoc. simpl. repeat split; lia.
Qed.

(** ** The counter never goes back *)

Lemma run_op_idx `{BagApi} self op : col_change_idx self ≤ col_change_idx (run_op self op).
Proof.
  destruct op; simpl; unfold _on_event, append, _deposit, drain; branch; lia.
Qed.

Lemma run_ops_idx `{BagApi} ops self : col_change_idx self ≤ col_change_idx (foldl run_op self ops).
Proof.
  revert self. induction ops as [|op ops IH]; intros self; simpl; [lia|].
  etrans; [apply run_op_idx | apply IH].
Qed.

(** ** The pending list as a mailbox

    A drain with reset hands the list over, one without only shows it. *)

Definition collector_box `{BagApi} : Mailbox.mailbox collector collector_op change := {|
  Mailbox.mb_step := run_op;
  Mailbox.mb_waiting := col_changes;
  Mailbox.mb_handed self op := match op with OpDrain true => (drain true self).1 | _ => [] end;
  Mailbox.mb_filed self op :=
    let numbered c := [set_change_idx (col_change_idx self + 1) c] in
    match op with
    | OpEvent now e => if _captures self (event_path e) then numbered (event_change now e) else []
    | OpAppend _ c => numbered c
    | _ => []
    end;
  Mailbox.mb_lossless self op :=
    match op with OpAppend true _ | OpDrop _ | OpReset => False | _ => True end;
  Mailbox.mb_good := collector_wf
|}.

#[export] Instance collector_box_lawful `{BagApi} : Mailbox.Lawful Mailbox.in_order collector_box (λ _ _, True).
Proof.
  assert (∀ self op, collector_wf self → Mailbox.mb_lossless collector_box self op →
    Mailbox.mb_handed collector_box self op ++ col_changes (run_op self op) =
    col_changes self ++ Mailbox.mb_filed collector_box self op) as HE.
  { intros self op [HS _] Hl. destruct op as [now e|[] c|[]|p| |p|p]; simpl in *; try done;
      rewrite ?app_nil_r; try done.
    - rewrite on_event_eq. case_match; [done | by rewrite app_nil_r].
    - by rewrite py_sorted_id by by apply idx_sorted_key. }
  split; cbn [Mailbox.mb_good Mailbox.mb_step Mailbox.mb_waiting collector_box Mailbox.part_of Mailbox.same_as
    Mailbox.in_order].
  - intros self op Hs _. by apply run_op_wf.
  - intros self op Hs _. destruct op as [now e|[] c|r|p| |p|p]; try (by rewrite HE).
    + simpl. apply sublist_app; [apply without_key_sublist | done].
    + simpl. rewrite app_nil_r. apply without_prefix_sublist.
    + apply sublist_nil_l.
  - intros self op Hs _ Hl. by apply HE.
Qed.

(** C14: whatever a collector has been through, a drain hands its pending changes
    in arrival order and untouched; their indices are strictly increasing; a
    drain with reset leaves nothing pending; and every index a later operation
    stamps is greater than all the ones this drain delivered. *)
Theorem drain_in_arrival_order `{BagApi} bag_loc paths ops later c :
  let self := foldl run_op (init bag_loc paths) ops in
  let '(delivered, self') := drain true self in
  delivered = col_changes self ∧ StronglySorted idx_lt delivered ∧ pending self' = 0%nat ∧
  Forall (λ d, ch_change_idx d < col_change_idx (_deposit (foldl run_op self' later) c)) delivered.
Proof.
  intros self. destruct (run_ops_wf ops (init bag_loc paths) (init_wf _ _)) as [HS HF].
  fold self in HS, HF. simpl. rewrite py_sorted_id by by apply idx_sorted_key.
  split_and!; try done. eapply Forall_impl; [exact HF|]. intros d Hd. simpl in Hd.
  pose proof (run_ops_idx later (Collector (col_bag self) (col_paths self) [] (col_change_idx self))).
  simpl in *. lia.
Qed.

(** A run of Bag events leaves, after what was pending, exactly one change per
    event whose path lies under a watched prefix on a segment boundary (every
    event, when no prefix is watched), in the order of the events and numbered
    on from the collector's counter. *)
Theorem collector_hears `{BagApi} now evs self :
  let watched := λ path, match col_paths self with
                         | None => True
                         | Some ps => ∃ p, p ∈ ps ∧ split_dot p `prefix_of` split_dot path
                         end in
  ∃ captured, captured `sublist_of` evs ∧
    (∀ e, e ∈ captured ↔ e ∈ evs ∧ watched (event_path e)) ∧
    col_changes (foldl (_on_event now) self evs) =
      col_changes self ++ number_from (col_change_idx self + 1) (map (event_change now) captured) ∧
    col_change_idx (foldl (_on_event now) self evs) =
      col_change_idx self + Z.of_nat (length captured).
Proof.
  intros watched. exists (filter (λ e, _captures self (event_path e) = true) evs).
  destruct (on_events_spec now evs self) as (H1 & H2 & _). split_and!; try done.
  - apply sublist_filter.
  - intros e. rewrite list_elem_of_filter, captures_spec. unfold watched. tauto.
Qed.

(** An append with replace leaves exactly one pending change of its key, the
    new one, and the pending changes of every other key as they were; without
    replace nothing already pending moves. *)
Theorem append_coalesces c self :
  (∀ k, pending_of k (col_changes (append true c self)) =
     if decide (k = ch_key c) then [set_change_idx (col_change_idx self + 1) c]
     else pending_of k (col_changes self)) ∧
  col_changes (append false c self) =
    col_changes self ++ [set_change_idx (col_change_idx self + 1) c].
Proof.
  split; [|done]. intros k. simpl. rewrite pending_of_app. unfold pending_of at 2.
  rewrite filter_cons, filter_nil. simpl. destruct (decide (k = ch_key c)) as [->|Hne].
  - by rewrite decide_True, pending_of_without.
  - rewrite decide_False by congruence. rewrite app_nil_r. by apply pending_of_without_ne.
Qed.

End LegacyBagCollector.
