(* ===== verification/SubscriptionIndex.v ===== *)
(** * SubscriptionIndex: who subscribes which table, both directions

    src/genropy_asgi/spa/subscription_index.py.  The two maps as a record, the
    three mutators and the two readers as the source writes them, and the
    refinement: the pair of maps implements one relation between pages and
    tables, canonically. *)

From S2P Require Export PyData.

Module Index.

Record index : Type := MkIndex {
  table_pages : gmap string (gset string);
  page_tables : gmap string (gset string)
}.

Definition empty_index : index := MkIndex ∅ ∅.

(** [subscribe]: both maps grow; the answer is whether the table key was created. *)
Definition subscribe (page_id table : string) (self : index) : bool * index :=
  let created := bool_decide (table_pages self !! table = None) in
  (created,
   MkIndex
     (<[table := {[page_id]} ∪ default ∅ (table_pages self !! table)]> (table_pages self))
     (<[page_id := {[table]} ∪ default ∅ (page_tables self !! page_id)]> (page_tables self))).

(** [_forget]: the pair leaves both maps, an emptied set goes with its key. *)
Definition _forget (page_id table : string) (self : index) : bool * index :=
  let '(deleted, tp) :=
    match table_pages self !! table with
    | None => (false, table_pages self)
    | Some pages =>
        let pages := pages ∖ {[page_id]} in
        if decide (pages = ∅) then (true, delete table (table_pages self))
        else (false, <[table := pages]> (table_pages self))
    end in
  let pt :=
    match page_tables self !! page_id with
    | None => page_tables self
    | Some tables =>
        let tables := tables ∖ {[table]} in
        if decide (tables = ∅) then delete page_id (page_tables self)
        else <[page_id := tables]> (page_tables self)
    end in
  (deleted, MkIndex tp pt).

Definition unsubscribe (page_id table : string) (self : index) : bool * index :=
  _forget page_id table self.

(** The loop of [drop_page]: [dropped = self._forget(...) or dropped]. *)
Fixpoint forget_tables (page_id : string) (tables : list string) (dropped : bool) (self : index)
    : bool * index :=
  match tables with
  | [] => (dropped, self)
  | table :: rest =>
      let '(deleted, self) := _forget page_id table self in
      forget_tables page_id rest (deleted || dropped) self
  end.

Definition drop_page (page_id : string) (self : index) : bool * index :=
  forget_tables page_id (elements (default ∅ (page_tables self !! page_id))) false self.

Definition pages_for (self : index) (table : string) : gset string :=
  default ∅ (table_pages self !! table).

Definition tables_for (self : index) (page_id : string) : gset string :=
  default ∅ (page_tables self !! page_id).

(** The global set the workers filter on: the keys of [table_pages]. *)
Definition known_tables (self : index) : gset string := dom (table_pages self).

(** ** The specification: one relation

    [R] holds [(page, table)] when the page wants the table. *)

Definition relation : Type := gset (string * string).

Definition wanted (R : relation) (table : string) : Prop := ∃ p, (p, table) ∈ R.

#[export] Instance wanted_dec R table : Decision (wanted R table).
Proof.
  refine (cast_if (decide (set_Exists (λ pt : string * string, pt.2 = table) R)));
    unfold wanted, set_Exists in *.
  - abstract (destruct s as ([p t] & Hin & <-); by exists p).
  - abstract (intros [p Hin]; apply n; by exists (p, table)).
Defined.

(** The two maps say the same thing as [R], and neither keeps an empty set. *)
Record represents (self : index) (R : relation) : Prop := Represents {
  rep_pages : ∀ t p, p ∈ pages_for self t ↔ (p, t) ∈ R;
  rep_tables : ∀ p t, t ∈ tables_for self p ↔ (p, t) ∈ R;
  rep_pages_ne : ∀ t, table_pages self !! t ≠ Some ∅;
  rep_tables_ne : ∀ p, page_tables self !! p ≠ Some ∅
}.

(** The relation read back from the maps. *)
Definition relation_of (self : index) : relation :=
  list_to_set
    ('(p, ts) ← map_to_list (page_tables self); (λ t, (p, t)) <$> elements (ts : gset string)).

(** A map from a key to a non-empty set is canonical for the sets it gives. *)
Lemma nonempty_map_eq (m1 m2 : gmap string (gset string)) :
  (∀ k, m1 !! k ≠ Some ∅) → (∀ k, m2 !! k ≠ Some ∅) →
  (∀ k x, x ∈ default ∅ (m1 !! k) ↔ x ∈ default ∅ (m2 !! k)) → m1 = m2.
Proof.
  intros H1 H2 Heq. apply map_eq. intros k. specialize (H1 k). specialize (H2 k).
  assert (default ∅ (m1 !! k) = default ∅ (m2 !! k)) as E by (apply set_eq; apply Heq).
  destruct (m1 !! k), (m2 !! k); simpl in *; congruence.
Qed.

Lemma represents_canonical self self' R :
  represents self R → represents self' R → self = self'.
Proof.
  intros [A1 A2 A3 A4] [B1 B2 B3 B4]. destruct self as [tp pt], self' as [tp' pt'].
  f_equal; apply nonempty_map_eq; try done; intros k x.
  - etrans; [apply (A1 k x) | symmetry; apply (B1 k x)].
  - etrans; [apply (A2 k x) | symmetry; apply (B2 k x)].
Qed.

Lemma represents_known self R t : represents self R → t ∈ known_tables self ↔ wanted R t.
Proof.
  intros [A1 _ A3 _]. unfold known_tables, wanted. rewrite elem_of_dom. split.
  - intros [s Hs]. specialize (A3 t). destruct (set_choose_or_empty s) as [[p Hp]|He].
    + exists p. apply A1. unfold pages_for. by rewrite Hs.
    + apply leibniz_equiv in He. congruence.
  - intros [p Hp]. apply A1 in Hp. unfold pages_for in Hp.
    destruct (table_pages self !! t); [done | set_solver].
Qed.

Lemma represents_empty : represents empty_index ∅.
Proof. split; unfold pages_for, tables_for; simpl; intros; rewrite ?lookup_empty; set_solver. Qed.
#[export] Hint Resolve represents_empty : gnr.

(** [insert] of a set grown by one, and of a set shrunk by one, seen through
    [default ∅]. *)
Lemma grow_lookup (m : gmap string (gset string)) k x k' y :
  y ∈ default ∅ (<[k := {[x]} ∪ default ∅ (m !! k)]> m !! k') ↔
  (k' = k ∧ y = x) ∨ y ∈ default ∅ (m !! k').
Proof.
  destruct (decide (k = k')) as [->|Hne].
  - rewrite lookup_insert_eq. simpl. rewrite elem_of_union, elem_of_singleton. tauto.
  - rewrite lookup_insert_ne by done. intuition congruence.
Qed.

Lemma shrink_lookup (m : gmap string (gset string)) k x k' y :
  y ∈ default ∅
    (match m !! k with
     | None => m
     | Some s => if decide (s ∖ {[x]} = ∅) then delete k m else <[k := s ∖ {[x]}]> m
     end !! k') ↔
  y ∈ default ∅ (m !! k') ∧ ¬ (k' = k ∧ y = x).
Proof.
  destruct (decide (k = k')) as [->|Hne].
  - destruct (m !! k') as [s|] eqn:E; simpl; [|rewrite E; set_solver].
    case_decide; [rewrite lookup_delete_eq | rewrite lookup_insert_eq]; simpl; set_solver.
  - destruct (m !! k) as [s|]; [case_decide|];
      rewrite ?lookup_delete_ne, ?lookup_insert_ne by done; intuition congruence.
Qed.

Lemma grow_nonempty (m : gmap string (gset string)) k x k' :
  (∀ k, m !! k ≠ Some ∅) → <[k := {[x]} ∪ default ∅ (m !! k)]> m !! k' ≠ Some ∅.
Proof.
  intros H. destruct (decide (k = k')) as [->|Hne];
    [rewrite lookup_insert_eq; intros [= E]; set_solver | by rewrite lookup_insert_ne].
Qed.

Lemma shrink_nonempty (m : gmap string (gset string)) k x k' :
  (∀ k, m !! k ≠ Some ∅) →
  match m !! k with
  | None => m
  | Some s => if decide (s ∖ {[x]} = ∅) then delete k m else <[k := s ∖ {[x]}]> m
  end !! k' ≠ Some ∅.
Proof.
  intros H. destruct (m !! k) as [s|]; [|done].
  case_decide; destruct (decide (k = k')) as [->|Hne];
    rewrite ?lookup_delete_eq, ?lookup_insert_eq, ?lookup_delete_ne, ?lookup_insert_ne
      by done; congruence.
Qed.

(** [_forget]'s two maps, each the shrink of its own. *)
Lemma forget_maps page_id table self :
  (_forget page_id table self).2 =
  MkIndex
    (match table_pages self !! table with
     | None => table_pages self
     | Some s => if decide (s ∖ {[page_id]} = ∅) then delete table (table_pages self)
                 else <[table := s ∖ {[page_id]}]> (table_pages self)
     end)
    (match page_tables self !! page_id with
     | None => page_tables self
     | Some s => if decide (s ∖ {[table]} = ∅) then delete page_id (page_tables self)
                 else <[page_id := s ∖ {[table]}]> (page_tables self)
     end).
Proof. unfold _forget. by repeat case_match; simplify_eq/=. Qed.

(** ** Refinement: each mutator is the one step of the relation *)

Lemma subscribe_refines self R p t :
  represents self R →
  represents (subscribe p t self).2 ({[(p, t)]} ∪ R) ∧
  (subscribe p t self).1 = bool_decide (¬ wanted R t).
Proof.
  intros HR. split.
  - destruct HR as [A1 A2 A3 A4]. split; simpl; intros.
    + unfold pages_for in *; simpl. rewrite grow_lookup, A1. set_solver.
    + unfold tables_for in *; simpl. rewrite grow_lookup, A2. set_solver.
    + by apply grow_nonempty.
    + by apply grow_nonempty.
  - simpl. apply bool_decide_ext. rewrite <- (represents_known _ _ _ HR).
    unfold known_tables. by rewrite not_elem_of_dom.
Qed.

Lemma forget_refines self R p t :
  represents self R →
  represents (_forget p t self).2 (R ∖ {[(p, t)]}) ∧
  (_forget p t self).1 = bool_decide (wanted R t ∧ ¬ wanted (R ∖ {[(p, t)]}) t).
Proof.
  intros HR. split.
  - destruct HR as [A1 A2 A3 A4]. rewrite forget_maps. split; simpl; intros.
    + unfold pages_for in *; simpl. rewrite shrink_lookup, A1. set_solver.
    + unfold tables_for in *; simpl. rewrite shrink_lookup, A2. set_solver.
    + by apply shrink_nonempty.
    + by apply shrink_nonempty.
  - destruct HR as [A1 A2 A3 A4]. unfold pages_for in *. unfold _forget, wanted.
    specialize (A1 t). specialize (A3 t).
    destruct (table_pages self !! t) as [s|]; simpl in *; symmetry.
    + case_decide as Hs; simpl.
      * apply bool_decide_eq_true. split.
        -- destruct (set_choose_or_empty s) as [[q Hq]|He];
             [exists q; by apply A1 | apply leibniz_equiv in He; congruence].
        -- intros [q Hq]. apply elem_of_difference in Hq as [Hq Hne]. apply A1 in Hq. set_solver.
      * apply bool_decide_eq_false. intros [_ Hn]. apply Hn.
        destruct (set_choose_L (s ∖ {[p]})) as [q Hq]; [done|]. exists q.
        apply elem_of_difference in Hq as [Hq Hne]. rewrite elem_of_difference.
        split; [by apply A1 | set_solver].
    + apply bool_decide_eq_false. intros [[q Hq] _]. apply A1 in Hq. set_solver.
Qed.

(** ** The answers: a mutator answers True exactly when the global set moved *)

Lemma subscribe_known p t self :
  known_tables (subscribe p t self).2 = {[t]} ∪ known_tables self ∧
  (subscribe p t self).1 = bool_decide (t ∉ known_tables self).
Proof.
  unfold known_tables; simpl. split; [by rewrite dom_insert_L|].
  apply bool_decide_ext. by rewrite not_elem_of_dom.
Qed.

Lemma forget_known p t self :
  let '(deleted, self') := _forget p t self in
  known_tables self' =
    (if deleted then known_tables self ∖ {[t]} else known_tables self) ∧
  (deleted = true → t ∈ known_tables self).
Proof.
  unfold _forget, known_tables. destruct (table_pages self !! t) as [s|] eqn:E; simpl; [|done].
  assert (t ∈ dom (table_pages self)) by (apply elem_of_dom; eauto).
  case_decide; simpl.
  - by rewrite dom_delete_L.
  - split; [|done]. rewrite dom_insert_L. set_solver.
Qed.

Lemma forget_tables_known p ts d self :
  let '(d', self') := forget_tables p ts d self in
  known_tables self' ⊆ known_tables self ∧
  d' = d || bool_decide (known_tables self' ≠ known_tables self).
Proof.
  revert d self. induction ts as [|t ts IH]; intros d self; simpl.
  { split; [done|]. rewrite bool_decide_eq_false_2 by tauto. by rewrite orb_false_r. }
  pose proof (forget_known p t self) as HF.
  destruct (_forget p t self) as [del self1]. destruct HF as [HK Hin].
  specialize (IH (del || d) self1).
  destruct (forget_tables p ts (del || d) self1) as [d' self']. destruct IH as [Hsub ->].
  split; [destruct del; set_solver|].
  destruct del; simpl.
  - rewrite bool_decide_eq_true_2; [by rewrite orb_true_r|]. specialize (Hin eq_refl). set_solver.
  - by rewrite HK.
Qed.

Lemma drop_page_known p self :
  let '(moved, self') := drop_page p self in
  known_tables self' ⊆ known_tables self ∧
  moved = bool_decide (known_tables self' ≠ known_tables self).
Proof. apply (forget_tables_known p _ false). Qed.

(** ** [drop_page] is the relation without the page, whatever the order of the loop *)

Definition without_page (p : string) (R : relation) : relation :=
  filter (λ pt : string * string, pt.1 ≠ p) R.

Lemma forget_tables_refines p ts d self R :
  represents self R →
  represents (forget_tables p ts d self).2
    (filter (λ pt : string * string, ¬ (pt.1 = p ∧ pt.2 ∈ ts)) R).
Proof.
  revert d self R. induction ts as [|t ts IH]; intros d self R HR; simpl.
  - assert (filter (λ pt : string * string, ¬ (pt.1 = p ∧ pt.2 ∈ [])) R = R) as ->; [|done].
    apply set_eq. intros pt. rewrite elem_of_filter. set_solver.
  - destruct (forget_refines self R p t HR) as [HR' _].
    destruct (_forget p t self) as [del self1]. simpl in HR'.
    specialize (IH (del || d) self1 _ HR').
    assert (filter (λ pt : string * string, ¬ (pt.1 = p ∧ pt.2 ∈ t :: ts)) R =
            filter (λ pt : string * string, ¬ (pt.1 = p ∧ pt.2 ∈ ts)) (R ∖ {[(p, t)]})) as ->;
      [|done].
    apply set_eq. intros [q u].
    rewrite !elem_of_filter, elem_of_difference, elem_of_singleton, elem_of_cons. simpl.
    split; [naive_solver|]. intros (H1 & H2 & H3). split; [|done].
    intros [-> [->|Hu]]; [by apply H3 | by apply H1].
Qed.

Lemma drop_page_refines p self R :
  represents self R → represents (drop_page p self).2 (without_page p R).
Proof.
  intros HR. pose proof (forget_tables_refines p
    (elements (default ∅ (page_tables self !! p))) false self R HR) as H.
  assert (without_page p R = filter (λ pt : string * string,
    ¬ (pt.1 = p ∧ pt.2 ∈ elements (default ∅ (page_tables self !! p)))) R) as ->; [|done].
  apply set_eq. intros [q t]. unfold without_page. rewrite !elem_of_filter. simpl.
  rewrite elem_of_elements. pose proof (rep_tables _ _ HR p t) as Ht. unfold tables_for in Ht.
  rewrite Ht. naive_solver.
Qed.
#[export] Hint Resolve drop_page_refines : gnr.

(** Any other order of the same loop leaves the very same two maps. *)
Lemma drop_page_any_order p ts self R :
  represents self R → (∀ t, t ∈ tables_for self p → t ∈ ts) →
  (forget_tables p ts false self).2 = (drop_page p self).2.
Proof.
  intros HR Hts. apply represents_canonical with (without_page p R); [|by apply drop_page_refines].
  pose proof (forget_tables_refines p ts false self R HR) as H.
  assert (without_page p R = filter (λ pt : string * string, ¬ (pt.1 = p ∧ pt.2 ∈ ts)) R)
    as ->; [|done].
  apply set_eq. intros [q t]. unfold without_page. rewrite !elem_of_filter. simpl.
  pose proof (rep_tables _ _ HR p t) as Ht. specialize (Hts t). naive_solver.
Qed.

(** ** Driving the index by any sequence of its mutators *)

Inductive index_op : Type :=
| Subscribe (page table : string)
| Unsubscribe (page table : string)
| DropPage (page : string).

Definition run_index (self : index) (op : index_op) : bool * index :=
  match op with
  | Subscribe p t => subscribe p t self
  | Unsubscribe p t => unsubscribe p t self
  | DropPage p => drop_page p self
  end.

Definition run_relation (R : relation) (op : index_op) : relation :=
  match op with
  | Subscribe p t => {[(p, t)]} ∪ R
  | Unsubscribe p t => R ∖ {[(p, t)]}
  | DropPage p => without_page p R
  end.

Lemma run_index_refines self R op :
  represents self R → represents (run_index self op).2 (run_relation R op).
Proof.
  intros HR. destruct op; simpl; [by apply subscribe_refines | by apply forget_refines |].
  by apply drop_page_refines.
Qed.

Lemma index_moves op self :
  (run_index self op).1 = bool_decide (known_tables (run_index self op).2 ≠ known_tables self).
Proof.
  destruct op as [p t|p t|p]; cbn [run_index].
  - destruct (subscribe_known p t self) as [-> ->]. apply bool_decide_ext. set_solver.
  - unfold unsubscribe. pose proof (forget_known p t self) as H.
    destruct (_forget p t self) as [[] s']; simpl in *; destruct H as [-> H].
    + rewrite bool_decide_eq_true_2; [done|]. specialize (H eq_refl). set_solver.
    + by rewrite bool_decide_eq_false_2 by tauto.
  - pose proof (drop_page_known p self) as H. by destruct (drop_page p self), H.
Qed.

(** C9: whatever sequence of subscriptions, unsubscriptions and page drops the
    index has been through, its two maps are one relation between pages and
    tables read in both directions - no window, no empty set left behind - and
    every mutator's answer says exactly whether the global table set moved. *)
Theorem index_refines_relation (ops : list index_op) (op : index_op) :
  let self := foldl (λ s o, (run_index s o).2) empty_index ops in
  represents self (foldl run_relation ∅ ops) ∧
  (run_index self op).1 = bool_decide (known_tables (run_index self op).2 ≠ known_tables self).
Proof.
  intros self. split.
  - subst self. generalize represents_empty. generalize empty_index as s.
    generalize (∅ : relation) as R. induction ops as [|o ops IH]; intros R s HR; simpl; [done|].
    by apply IH, run_index_refines.
  - apply index_moves.
Qed.

End Index.
