(* ===== verification/DeliveryDesk.v ===== *)
(** * DeliveryDesk: who subscribes what, and what waits for whom

    src/genropy_asgi/spa/delivery_desk.py.  The desk as a record of the index and
    the three queue maps; every route and every helper as a definition.  A desk
    operation that may announce the table set answers whether it did: the
    announcement itself is the commander's (GenropySpaCommander.v). *)

From S2P Require Export Change SubscriptionIndex.

Module Desk.
Import Index.

Definition STATE_KINDS : list string := ["page_store"; "user_store"; "connection_store"].

(** One table's batch as the worker shapes it; [arrival_ts] is the desk's stamp. *)
Record deposit : Type := Deposit {
  dep_table : string;
  dep_batch : value;
  dep_from_page_id : option string;
  dep_reason : option string;
  dep_ts : Z;
  dep_arrival_ts : option Z
}.

Definition stamp_deposit (now : Z) (d : deposit) : deposit :=
  Deposit (dep_table d) (dep_batch d) (dep_from_page_id d) (dep_reason d) (dep_ts d) (Some now).

Record desk : Type := MkDesk {
  page_subscriptions : index;
  page_datachange_map : gmap string (list change);
  page_dbevent_map : gmap string (list deposit);
  user_store_change_map : gmap string (list change)
}.

(** [DeliveryDesk.__init__]. *)
Definition new_desk : desk := MkDesk empty_index ∅ ∅ ∅.

Definition with_index (i : index) (self : desk) : desk :=
  MkDesk i (page_datachange_map self) (page_dbevent_map self) (user_store_change_map self).
Definition with_datachanges (m : gmap string (list change)) (self : desk) : desk :=
  MkDesk (page_subscriptions self) m (page_dbevent_map self) (user_store_change_map self).
Definition with_dbevents (m : gmap string (list deposit)) (self : desk) : desk :=
  MkDesk (page_subscriptions self) (page_datachange_map self) m (user_store_change_map self).
Definition with_store_changes (m : gmap string (list change)) (self : desk) : desk :=
  MkDesk (page_subscriptions self) (page_datachange_map self) (page_dbevent_map self) m.

(** The [subscribed_tables] property: the workers' source filter. *)
Definition subscribed_tables (self : desk) : list string :=
  sorted_strings (elements (known_tables (page_subscriptions self))).

Record desk_census : Type := DeskCensus {
  census_tables : list string;
  census_dbevents : gmap string nat;
  census_datachanges : gmap string nat;
  census_store_changes : gmap string nat
}.

Definition census (self : desk) : desk_census :=
  DeskCensus (subscribed_tables self) (length <$> page_dbevent_map self)
    (length <$> page_datachange_map self) (length <$> user_store_change_map self).

(** Each mutator answers [(announced, desk)]. *)
Definition record_page_table_subscriptions (page_id : string) (tables : list string)
    (self : desk) : bool * desk :=
  let '(created, i) :=
    foldl (λ '(acc, i) table,
      let '(c, i) := subscribe page_id table i in (acc ++ [c], i))
      ([], page_subscriptions self) tables in
  (existsb id created, with_index i self).

Record subscription_reply : Type := SubscriptionReply {
  sub_page_id : string;
  sub_table : string;
  sub_subscribe : bool
}.

Definition subscribe_table (page_id table : string) (subscribe_flag : bool) (self : desk)
    : subscription_reply * bool * desk :=
  let '(moved, i) :=
    if subscribe_flag then subscribe page_id table (page_subscriptions self)
    else unsubscribe page_id table (page_subscriptions self) in
  (SubscriptionReply page_id table subscribe_flag, moved, with_index i self).

(** ** Filing *)

(** The loop of [file_dbevent] over the subscribers' queues. *)
Definition append_deposit (d : deposit) (m : gmap string (list deposit)) (page_id : string)
    : gmap string (list deposit) :=
  <[page_id := queue_of m page_id ++ [d]]> m.

Definition file_dbevent (now : Z) (d : deposit) (self : desk) : desk :=
  let d := stamp_deposit now d in
  with_dbevents
    (foldl (append_deposit d) (page_dbevent_map self)
       (elements (pages_for (page_subscriptions self) (dep_table d))))
    self.

(** The header a verb shapes; [target] travels beside it, as it is resolved
    before anything is filed. *)
Record message `{Tytx} : Type := Message {
  m_op : option string;
  m_kind : string;
  m_filters : option string;
  m_replace : bool;
  m_change : option tytx;
  m_path : option string
}.
Arguments Message {_} _ _ _ _ _ _.

(** The population the vertex knows: [user_map] and [page_connection_map]. *)
Record population : Type := Population {
  pop_users : gset string;
  pop_pages : gset string
}.

Definition is_state_kind (kind : string) : bool := bool_decide (kind ∈ STATE_KINDS).

(** The queue a kind addresses, and the desk with that queue replaced. *)
Definition addressed_queue (kind target : string) (self : desk) : list change :=
  if is_state_kind kind then queue_of (user_store_change_map self) target
  else queue_of (page_datachange_map self) target.

Definition with_addressed_queue (kind target : string) (q : list change) (self : desk) : desk :=
  if is_state_kind kind
  then with_store_changes (<[target := q]> (user_store_change_map self)) self
  else with_datachanges (<[target := q]> (page_datachange_map self)) self.

Definition file_datachange `{Tytx} (now : Z) (target : string) (m : message) : PyM desk () :=
  λ self,
    match m_filters m with
    | Some _ => (Raise NotImplementedError, self)
    | None =>
        let queue := addressed_queue (m_kind m) target self in
        let file q := with_addressed_queue (m_kind m) target q self in
        if decide (m_op m = Some "reset_datachanges") then (Ok (), file [])
        else if decide (m_op m = Some "drop_datachanges") then
          match m_path m, queue with
          | Some path, _ => (Ok (), file (without_prefix path queue))
          | None, [] => (Ok (), file [])
          | None, _ => (Raise KeyError, file queue)
          end
        else
          match m_change m with
          | None => (Raise KeyError, file queue)
          | Some t =>
              let c := from_tytx t in
              let queue := if m_replace m then without_key (ch_key c) queue else queue in
              (Ok (), file (queue ++ [set_arrival_ts now c]))
          end
    end.

(** [on_datachange]: the answer's [filed]. *)
Definition on_datachange `{Tytx} (now : Z) (pop : population) (target : option string)
    (m : message) : PyM desk bool :=
  match target with
  | None => mret false
  | Some target =>
      let known :=
        if is_state_kind (m_kind m) then bool_decide (target ∈ pop_users pop)
        else bool_decide (target ∈ pop_pages pop) in
      if negb known then mret false
      else file_datachange now target m ≫= λ _, mret true
  end.

(** ** Draining *)

Definition drain_page_datachanges (page_id : string) (self : desk) : list change * desk :=
  (queue_of (page_datachange_map self) page_id,
   with_datachanges (delete page_id (page_datachange_map self)) self).

Definition drain_page_dbevents (page_id : string) (self : desk) : list deposit * desk :=
  (queue_of (page_dbevent_map self) page_id,
   with_dbevents (delete page_id (page_dbevent_map self)) self).

Definition drain_user_store_changes (user : string) (self : desk) : list change * desk :=
  (queue_of (user_store_change_map self) user,
   with_store_changes (delete user (user_store_change_map self)) self).

(** [for deposit in dbevents or (): self.file_dbevent(deposit)]; each filing
    reads the clock again, [clock] being its readings. *)
Fixpoint file_dbevents (clock : list Z) (dbevents : list deposit) (self : desk) : desk :=
  match dbevents with
  | [] => self
  | d :: rest => file_dbevents (tail clock) rest (file_dbevent (hd 0 clock) d self)
  end.

Record exchange_reply `{Tytx} : Type := ExchangeReply {
  ex_datachanges : tytx;
  ex_dbevents : list deposit;
  ex_store_changes : tytx
}.
Arguments ExchangeReply {_} _ _ _.

Definition exchange `{Tytx} (clock : list Z) (page_id user : string) (dbevents : list deposit)
    (self : desk) : exchange_reply * desk :=
  let self := file_dbevents clock dbevents self in
  let '(datachanges, self) := drain_page_datachanges page_id self in
  let '(dbevents, self) := drain_page_dbevents page_id self in
  let '(store_changes, self) := drain_user_store_changes user self in
  (ExchangeReply (to_tytx_list datachanges) dbevents (to_tytx_list store_changes), self).

(** The [deposit] route. *)
Definition deposit_route (clock : list Z) (dbevents : list deposit) (self : desk) : desk :=
  file_dbevents clock dbevents self.

Definition drop_page (page_id : string) (self : desk) : bool * desk :=
  let self := with_datachanges (delete page_id (page_datachange_map self)) self in
  let self := with_dbevents (delete page_id (page_dbevent_map self)) self in
  let '(dropped, i) := Index.drop_page page_id (page_subscriptions self) in
  (dropped, with_index i self).

Definition drop_user (user : string) (self : desk) : desk :=
  with_store_changes (delete user (user_store_change_map self)) self.

(** ** The frames: what an operation does not touch *)

Lemma foldl_append_deposit d ps m p :
  NoDup ps →
  queue_of (foldl (append_deposit d) m ps) p = queue_of m p ++ (if decide (p ∈ ps) then [d] else []).
Proof.
  intros Hnd. revert m. induction Hnd as [|q ps Hq Hnd IH]; intros m; cbn [foldl].
  { rewrite decide_False by set_solver. by rewrite app_nil_r. }
  rewrite IH. unfold append_deposit. destruct (decide (p = q)) as [->|Hne].
  - rewrite queue_of_insert_eq, (decide_False (P := q ∈ ps)) by done.
    rewrite decide_True by set_solver. by rewrite app_nil_r.
  - rewrite queue_of_insert_ne by done. f_equal. by repeat case_decide; set_solver.
Qed.

Lemma file_dbevent_queue now d self p :
  queue_of (page_dbevent_map (file_dbevent now d self)) p =
    queue_of (page_dbevent_map self) p ++
    (if decide (p ∈ pages_for (page_subscriptions self) (dep_table d))
     then [stamp_deposit now d] else []).
Proof.
  unfold file_dbevent. simpl. rewrite foldl_append_deposit by apply NoDup_elements.
  f_equal. repeat case_decide; set_solver.
Qed.

(** The stamped deposits a list of them brings to one page. *)
Fixpoint deposits_for (i : index) (p : string) (clock : list Z) (l : list deposit) : list deposit :=
  match l with
  | [] => []
  | d :: rest =>
      (if decide (p ∈ pages_for i (dep_table d)) then [stamp_deposit (hd 0 clock) d] else []) ++
      deposits_for i p (tail clock) rest
  end.

Lemma file_dbevents_frame clock l self :
  page_subscriptions (file_dbevents clock l self) = page_subscriptions self ∧
  page_datachange_map (file_dbevents clock l self) = page_datachange_map self ∧
  user_store_change_map (file_dbevents clock l self) = user_store_change_map self.
Proof.
  revert clock self. induction l as [|d l IH]; intros clock self; simpl; [done|].
  destruct (IH (tail clock) (file_dbevent (hd 0 clock) d self)) as (-> & -> & ->). done.
Qed.

Lemma file_dbevents_queue clock l self p :
  queue_of (page_dbevent_map (file_dbevents clock l self)) p =
    queue_of (page_dbevent_map self) p ++ deposits_for (page_subscriptions self) p clock l.
Proof.
  revert clock self. induction l as [|d l IH]; intros clock self; simpl; [by rewrite app_nil_r|].
  rewrite IH, file_dbevent_queue. simpl. by rewrite app_assoc.
Qed.

Lemma addressed_with kind target q self :
  addressed_queue kind target (with_addressed_queue kind target q self) = q.
Proof.
  unfold addressed_queue, with_addressed_queue. by destruct (is_state_kind kind);
    simpl; rewrite queue_of_insert_eq.
Qed.

Lemma addressed_with_other kind target kind' target' q self :
  is_state_kind kind ≠ is_state_kind kind' ∨ target ≠ target' →
  addressed_queue kind' target' (with_addressed_queue kind target q self) =
    addressed_queue kind' target' self.
Proof.
  unfold addressed_queue, with_addressed_queue. intros Hne.
  destruct (is_state_kind kind), (is_state_kind kind'); simpl; try done;
    rewrite queue_of_insert_ne; naive_solver.
Qed.

Lemma with_addressed_frame kind target q self :
  page_subscriptions (with_addressed_queue kind target q self) = page_subscriptions self ∧
  page_dbevent_map (with_addressed_queue kind target q self) = page_dbevent_map self.
Proof. unfold with_addressed_queue. by destruct (is_state_kind kind). Qed.

(** ** Filing one addressed write *)

Section filing.
Context `{TytxLaws}.

(** A [set_datachange] as [_route_datachange] shapes it. *)
Definition set_message (kind : string) (replace : bool) (c : change) : message :=
  Message (Some "set_datachange") kind None replace (Some (to_tytx c)) None.

Definition reset_message (kind : string) : message :=
  Message (Some "reset_datachanges") kind None false None None.

Definition drop_message (kind path : string) : message :=
  Message (Some "drop_datachanges") kind None false None (Some path).

Definition knows (pop : population) (kind target : string) : bool :=
  if is_state_kind kind then bool_decide (target ∈ pop_users pop)
  else bool_decide (target ∈ pop_pages pop).

(** The queue after an addressed message of each op. *)
Definition filed_queue (now : Z) (m : message) (c : change) (q : list change) : list change :=
  (if m_replace m then without_key (ch_key c) q else q) ++ [set_arrival_ts now c].

Lemma on_datachange_set now pop target kind rep c self :
  encodable_change c = true → knows pop kind target = true →
  on_datachange now pop (Some target) (set_message kind rep c) self =
    (Ok true,
     with_addressed_queue kind target
       (filed_queue now (set_message kind rep c) (trip_change c) (addressed_queue kind target self)) self).
Proof.
  intros Hsafe Hk. unfold on_datachange. simpl. unfold knows in Hk. rewrite Hk. simpl.
  rewrite pym_bind_unfold. unfold file_datachange. simpl.
  by rewrite (tytx_change c Hsafe).
Qed.

Lemma on_datachange_unknown now pop target m self :
  match target with None => True | Some t => knows pop (m_kind m) t = false end →
  on_datachange now pop target m self = (Ok false, self).
Proof.
  unfold on_datachange, knows. destruct target as [t|]; [|done]. by intros ->.
Qed.

End filing.

(** ** Every desk queue holds what the wire can carry *)

Definition desk_safe `{Tytx} (self : desk) : Prop :=
  (∀ p, Forall (λ c, encodable_change c = true) (queue_of (page_datachange_map self) p)) ∧
  (∀ u, Forall (λ c, encodable_change c = true) (queue_of (user_store_change_map self) u)).

Lemma new_desk_safe `{Tytx} : desk_safe new_desk.
Proof. split; intros; unfold queue_of; simpl; rewrite lookup_empty; constructor. Qed.

Lemma desk_safe_addressed `{Tytx} kind t self :
  desk_safe self → Forall (λ c, encodable_change c = true) (addressed_queue kind t self).
Proof. intros [H1 H2]. unfold addressed_queue. by case_match. Qed.

Lemma with_addressed_safe `{Tytx} kind t q self :
  desk_safe self → Forall (λ c, encodable_change c = true) q →
  desk_safe (with_addressed_queue kind t q self).
Proof.
  intros [H1 H2] Hq. unfold with_addressed_queue. case_match; split; simpl; try done;
    intros k; (destruct (decide (t = k)) as [->|];
      [by rewrite queue_of_insert_eq | by rewrite queue_of_insert_ne]).
Qed.

Lemma file_datachange_safe `{TytxLaws} now target m self :
  desk_safe self → desk_safe (file_datachange now target m self).2.
Proof.
  intros Hs. pose proof (desk_safe_addressed (m_kind m) target self Hs) as Hq.
  unfold file_datachange. repeat (case_match || case_decide); simpl; try done;
    apply with_addressed_safe; try done; try constructor.
  all: try (eapply Forall_sublist; [apply without_prefix_sublist | done]).
  - apply Forall_app; split; [|constructor; [apply tytx_decoded | constructor]].
    eapply Forall_sublist; [apply without_key_sublist | done].
  - apply Forall_app; split; [done|]. constructor; [apply tytx_decoded | constructor].
Qed.

(** ** The exchange *)

Lemma exchange_dbevents `{Tytx} clock p u evs self :
  ex_dbevents (exchange clock p u evs self).1 =
    queue_of (page_dbevent_map self) p ++ deposits_for (page_subscriptions self) p clock evs.
Proof. simpl. apply file_dbevents_queue. Qed.

Lemma exchange_changes `{TytxLaws} clock p u evs self :
  desk_safe self →
  from_tytx_list (ex_datachanges (exchange clock p u evs self).1) =
    map trip_change (queue_of (page_datachange_map self) p) ∧
  from_tytx_list (ex_store_changes (exchange clock p u evs self).1) =
    map trip_change (queue_of (user_store_change_map self) u).
Proof.
  intros [H1 H2]. simpl. destruct (file_dbevents_frame clock evs self) as (_ & -> & ->).
  by rewrite !tytx_list.
Qed.

Lemma exchange_after `{Tytx} clock p u evs self :
  let self' := (exchange clock p u evs self).2 in
  page_subscriptions self' = page_subscriptions self ∧
  page_datachange_map self' = delete p (page_datachange_map self) ∧
  user_store_change_map self' = delete u (user_store_change_map self) ∧
  page_dbevent_map self' !! p = None ∧
  ∀ q, q ≠ p → queue_of (page_dbevent_map self') q =
    queue_of (page_dbevent_map self) q ++ deposits_for (page_subscriptions self) q clock evs.
Proof.
  simpl. destruct (file_dbevents_frame clock evs self) as (-> & -> & ->).
  repeat split; [by rewrite lookup_delete_eq|].
  intros q Hq. rewrite queue_of_delete_ne by done. apply file_dbevents_queue.
Qed.

Lemma exchange_safe `{Tytx} clock p u evs self :
  desk_safe self → desk_safe (exchange clock p u evs self).2.
Proof.
  intros [H1 H2]. destruct (exchange_after clock p u evs self) as (_ & E1 & E2 & _).
  split; [rewrite E1 | rewrite E2]; intros k; unfold queue_of;
    rewrite lookup_delete; case_decide; simpl; try constructor; [apply H1 | apply H2].
Qed.
#[export] Hint Resolve exchange_safe file_datachange_safe new_desk_safe : gnr.

(** The exchange files the caller's own deposits first and answers after: the
    page gets what was waiting plus its own events of the tables it subscribes,
    its two queues and its user's store queue are retired whole, every other
    page's queue only grows by the deposits it subscribes, and nothing else moves. *)
Theorem exchange_files_then_answers `{TytxLaws} clock p u evs self :
  desk_safe self →
  let '(reply, self') := exchange clock p u evs self in
  let i := page_subscriptions self in
  ex_dbevents reply = queue_of (page_dbevent_map self) p ++ deposits_for i p clock evs ∧
  from_tytx_list (ex_datachanges reply) = map trip_change (queue_of (page_datachange_map self) p) ∧
  from_tytx_list (ex_store_changes reply) = map trip_change (queue_of (user_store_change_map self) u) ∧
  page_subscriptions self' = i ∧
  page_datachange_map self' = delete p (page_datachange_map self) ∧
  user_store_change_map self' = delete u (user_store_change_map self) ∧
  page_dbevent_map self' !! p = None ∧
  (∀ q, q ≠ p → queue_of (page_dbevent_map self') q =
    queue_of (page_dbevent_map self) q ++ deposits_for i q clock evs).
Proof.
  intros Hs. pose proof (exchange_dbevents clock p u evs self) as E1.
  destruct (exchange_changes clock p u evs self Hs) as [E2 E3].
  pose proof (exchange_after clock p u evs self) as E4.
  destruct (exchange clock p u evs self) as [reply self'].
  repeat split; try done; apply E4.
Qed.

(** ** The ledger: what reaches a page is what was filed for it *)

Section ledger.
Context `{TytxLaws}.

Inductive desk_step : Type :=
| StepWrite (now : Z) (target : string) (c : change)
| StepExchange (clock : list Z) (page user : string) (evs : list deposit)
| StepDeposit (clock : list Z) (evs : list deposit)
| StepSubscribe (page table : string) (b : bool).

Definition everybody (target : string) : population := Population ∅ {[target]}.

Definition run_step (self : desk) (st : desk_step) : desk :=
  match st with
  | StepWrite now t c =>
      (on_datachange now (everybody t) (Some t) (set_message "page" false c) self).2
  | StepExchange clock p u evs => (exchange clock p u evs self).2
  | StepDeposit clock evs => deposit_route clock evs self
  | StepSubscribe p t b => (subscribe_table p t b self).2
  end.

(** What one step hands to page [p], and what it files for it, as the wire will hand it. *)
Definition handed (p : string) (self : desk) (st : desk_step) : list change * list deposit :=
  match st with
  | StepExchange clock q u evs =>
      if decide (q = p)
      then let reply := (exchange clock q u evs self).1 in
           (from_tytx_list (ex_datachanges reply), ex_dbevents reply)
      else ([], [])
  | _ => ([], [])
  end.

Definition filed (p : string) (self : desk) (st : desk_step) : list change * list deposit :=
  match st with
  | StepWrite now t c =>
      (if decide (t = p) then [trip_change (set_arrival_ts now (trip_change c))] else [], [])
  | StepExchange clock _ _ evs | StepDeposit clock evs =>
      ([], deposits_for (page_subscriptions self) p clock evs)
  | StepSubscribe _ _ _ => ([], [])
  end.

Definition pair_app {A B} (x y : list A * list B) : list A * list B := (x.1 ++ y.1, x.2 ++ y.2).

Fixpoint collect_over (f : desk → desk_step → list change * list deposit)
    (self : desk) (steps : list desk_step) : list change * list deposit :=
  match steps with
  | [] => ([], [])
  | st :: rest => pair_app (f self st) (collect_over f (run_step self st) rest)
  end.

Definition waiting (p : string) (self : desk) : list change * list deposit :=
  (map trip_change (queue_of (page_datachange_map self) p), queue_of (page_dbevent_map self) p).

Definition step_safe (st : desk_step) : Prop :=
  match st with StepWrite _ _ c => encodable_change c = true | _ => True end.

Lemma pair_app_assoc {A B} (x y z : list A * list B) :
  pair_app (pair_app x y) z = pair_app x (pair_app y z).
Proof. unfold pair_app; simpl. by rewrite !app_assoc. Qed.

Lemma everybody_knows kind t : is_state_kind kind = false → knows (everybody t) kind t = true.
Proof. unfold knows. intros ->. apply bool_decide_eq_true. simpl. set_solver. Qed.

Lemma run_step_safe self st : desk_safe self → step_safe st → desk_safe (run_step self st).
Proof.
  intros Hs Hst. destruct st as [now t c|clock q u evs|clock evs|q t b]; cbn [run_step].
  - rewrite on_datachange_set by (done || by apply everybody_knows). simpl.
    apply with_addressed_safe; [done|]. apply Forall_app; split; [by apply desk_safe_addressed|].
    constructor; [by apply trip_encodable | constructor].
  - by apply exchange_safe.
  - unfold deposit_route. destruct (file_dbevents_frame clock evs self) as (_ & E1 & E2).
    by split; [rewrite E1 | rewrite E2]; apply Hs.
  - unfold subscribe_table. by case_match.
Qed.

(** One step: what it hands out, then what waits after it, is what waited
    before it, then what it files. *)
Lemma step_ledger p self st :
  desk_safe self → step_safe st →
  pair_app (handed p self st) (waiting p (run_step self st)) =
    pair_app (waiting p self) (filed p self st).
Proof.
  intros Hs Hst.
  destruct st as [now t c|clock q u evs|clock evs|q t b]; cbn [run_step handed filed].
  - rewrite on_datachange_set by (done || by apply everybody_knows).
    unfold pair_app, waiting, filed_queue; simpl.
    unfold with_addressed_queue, addressed_queue; simpl. rewrite !app_nil_r. f_equal.
    case_decide as Ht; [subst; by rewrite queue_of_insert_eq, map_app|].
    by rewrite queue_of_insert_ne, app_nil_r.
  - destruct (exchange_after clock q u evs self) as (_ & E1 & _ & E3 & E4).
    destruct (exchange_changes clock q u evs self Hs) as [E5 _].
    pose proof (exchange_dbevents clock q u evs self) as E6.
    unfold pair_app, waiting. rewrite E1. case_decide as Hq; cbn [fst snd].
    + subst q. rewrite E5, E6, queue_of_delete_eq, (queue_of_none _ _ E3).
      by rewrite !app_nil_r.
    + rewrite queue_of_delete_ne, E4 by done. by rewrite !app_nil_r.
  - unfold pair_app, waiting, deposit_route; simpl. destruct (file_dbevents_frame clock evs self) as (_ & -> & _).
    by rewrite file_dbevents_queue, app_nil_r.
  - unfold pair_app, waiting, subscribe_table. case_match; simpl. by rewrite !app_nil_r.
Qed.

(** Over any sequence of steps. *)
Lemma steps_ledger p steps self :
  desk_safe self → Forall step_safe steps →
  pair_app (collect_over (handed p) self steps) (waiting p (foldl run_step self steps)) =
    pair_app (waiting p self) (collect_over (filed p) self steps).
Proof.
  intros Hs HF. revert self Hs. induction HF as [|st steps Hst HF IH]; intros self Hs; simpl.
  { unfold pair_app; simpl. by rewrite !app_nil_r. }
  rewrite pair_app_assoc, IH by (by apply run_step_safe).
  by rewrite <- !pair_app_assoc, step_ledger.
Qed.

(** Over any sequence of writes, deposits, subscriptions and exchanges, what
    the exchanges handed to a page followed by what still waits for it is what
    was filed for it, in filing order - nothing lost, nothing twice, nothing
    reordered - for its datachanges and for its dbevents. *)
Theorem delivery_ledger p steps self :
  desk_safe self → Forall step_safe steps →
  pair_app (collect_over (handed p) self steps) (waiting p (foldl run_step self steps)) =
    pair_app (waiting p self) (collect_over (filed p) self steps).
Proof. apply steps_ledger. Qed.

End ledger.

(** ** Addressed writes *)

(** C11: a write is filed exactly when the vertex knows the target it names; as the
    wire carried it - same path, reason and marks, its clock within a millisecond of the
    writer's - and stamped with the desk's own clock it then joins the tail of that
    target's queue, in the place of its predecessors when it coalesces, so one change of
    its key is left; no other queue moves. An unknown target files nothing and gives
    birth to no queue. *)
Theorem on_datachange_files `{TytxLaws} now pop target kind rep c self :
  encodable_change c = true →
  let '(answer, self') := on_datachange now pop (Some target) (set_message kind rep c) self in
  answer = Ok (knows pop kind target) ∧
  (knows pop kind target = false → self' = self) ∧
  (knows pop kind target = true →
    let filed := set_arrival_ts now (trip_change c) in
    let q := addressed_queue kind target self in
    let q' := addressed_queue kind target self' in
    ch_key filed = ch_key c ∧ ch_delete filed = ch_delete c ∧
    Z.abs (ch_change_ts filed - ch_change_ts c) < 1000 ∧
    (json_word (ch_value c) = true → ch_value filed = ch_value c) ∧
    (∃ q0, q' = q0 ++ [filed] ∧ q0 `sublist_of` q ∧
       (∀ k, k ≠ ch_key c → pending_of k q0 = pending_of k q)) ∧
    pending_of (ch_key c) q' =
      (if rep then [] else pending_of (ch_key c) q) ++ [filed] ∧
    (∀ kind' target', is_state_kind kind ≠ is_state_kind kind' ∨ target ≠ target' →
       addressed_queue kind' target' self' = addressed_queue kind' target' self) ∧
    page_subscriptions self' = page_subscriptions self ∧
    page_dbevent_map self' = page_dbevent_map self).
Proof.
  intros Hsafe. destruct (knows pop kind target) eqn:Hk.
  - rewrite on_datachange_set by done. split; [done|]. split; [done|]. intros _. cbv zeta.
    destruct (with_addressed_frame kind target
      (filed_queue now (set_message kind rep c) (trip_change c) (addressed_queue kind target self)) self).
    rewrite addressed_with. unfold filed_queue; simpl. split_and!; try done.
    + apply trip_ts_ms.
    + apply trip_word.
    + eexists. split; [done|]. destruct rep; simpl; [|done].
      split; [apply without_key_sublist|]. intros k Hne. by apply pending_of_without_ne.
    + rewrite pending_of_app. f_equal; [by destruct rep; [apply pending_of_without|]|].
      apply filter_all. by repeat constructor.
    + intros. by apply addressed_with_other.
  - rewrite on_datachange_unknown by done. done.
Qed.

(** ** The announcements *)

Lemma subscribed_tables_eq self self' :
  subscribed_tables self = subscribed_tables self' ↔
  known_tables (page_subscriptions self) = known_tables (page_subscriptions self').
Proof.
  unfold subscribed_tables. split; [|by intros ->].
  intros E. by rewrite <- (list_to_set_sorted (known_tables _)), E, list_to_set_sorted.
Qed.

Lemma record_known page_id tables acc i :
  let '(created, i') :=
    foldl (λ '(acc, i) table, let '(c, i) := subscribe page_id table i in (acc ++ [c], i))
      (acc, i) tables in
  known_tables i' = known_tables i ∪ list_to_set tables ∧
  existsb id created = existsb id acc || bool_decide (known_tables i' ≠ known_tables i).
Proof.
  revert acc i. induction tables as [|t ts IH]; intros acc i; cbn [foldl].
  { split; [set_solver|]. rewrite bool_decide_eq_false_2 by tauto. by rewrite orb_false_r. }
  destruct (subscribe_known page_id t i) as [HK Hc].
  destruct (subscribe page_id t i) as [c i1]; cbn [fst snd] in *.
  specialize (IH (acc ++ [c]) i1).
  destruct (foldl _ (acc ++ [c], i1) ts) as [created i']. destruct IH as [IH1 IH2].
  split; [rewrite IH1, HK; simpl; set_solver|].
  rewrite IH2, existsb_app, HK, IH1, HK, Hc. simpl. rewrite orb_false_r, <- orb_assoc. f_equal.
  apply Bool.eq_iff_eq_true. rewrite orb_true_iff, !bool_decide_eq_true. unfold id.
  destruct (decide (t ∈ known_tables i)) as [Hin|Hin]; [|set_solver].
  replace ({[t]} ∪ known_tables i) with (known_tables i) by set_solver. tauto.
Qed.

(** The announcement of each mutator, on the index's own set. *)
Definition moved (self self' : desk) : bool :=
  bool_decide (known_tables (page_subscriptions self') ≠ known_tables (page_subscriptions self)).

Lemma record_announced p ts self :
  let '(announced, self') := record_page_table_subscriptions p ts self in
  announced = moved self self'.
Proof.
  unfold record_page_table_subscriptions, moved.
  pose proof (record_known p ts [] (page_subscriptions self)) as HK.
  destruct (foldl _ _ ts) as [created i']. by destruct HK as [_ ->].
Qed.

Lemma subscribe_announced p t b self :
  let '(_, announced, self') := subscribe_table p t b self in announced = moved self self'.
Proof.
  unfold subscribe_table, moved.
  pose proof (index_moves (if b then Subscribe p t else Unsubscribe p t)
                (page_subscriptions self)) as HM.
  destruct b; cbn [run_index] in HM; [destruct (subscribe p t _) | destruct (unsubscribe p t _)];
    simpl in *; by rewrite HM.
Qed.

Lemma drop_announced p self :
  let '(announced, self') := drop_page p self in announced = moved self self'.
Proof.
  unfold drop_page, moved. simpl.
  pose proof (index_moves (DropPage p) (page_subscriptions self)) as HM.
  cbn [run_index] in HM. destruct (Index.drop_page p _); simpl in *. by rewrite HM.
Qed.

Lemma moved_subscribed self self' :
  moved self self' = bool_decide (subscribed_tables self' ≠ subscribed_tables self).
Proof. unfold moved. apply bool_decide_ext. by rewrite subscribed_tables_eq. Qed.

(** The desk announces the table set to the workers exactly when it moved:
    at a page's announcement (once, however many tables it brings), at a
    subscription, at its closing, and at a page's drop. *)
Theorem announced_iff_moved self :
  (∀ page_id tables,
     let '(announced, self') := record_page_table_subscriptions page_id tables self in
     announced = bool_decide (subscribed_tables self' ≠ subscribed_tables self)) ∧
  (∀ page_id table b,
     let '(_, announced, self') := subscribe_table page_id table b self in
     announced = bool_decide (subscribed_tables self' ≠ subscribed_tables self)) ∧
  (∀ page_id,
     let '(announced, self') := drop_page page_id self in
     announced = bool_decide (subscribed_tables self' ≠ subscribed_tables self)).
Proof.
  split_and!.
  - intros p ts. pose proof (record_announced p ts self) as HA.
    destruct (record_page_table_subscriptions p ts self). by rewrite <- moved_subscribed.
  - intros p t b. pose proof (subscribe_announced p t b self) as HA.
    destruct (subscribe_table p t b self) as [[? ?] ?]. by rewrite <- moved_subscribed.
  - intros p. pose proof (drop_announced p self) as HA.
    destruct (drop_page p self). by rewrite <- moved_subscribed.
Qed.

(** ** Concrete inputs *)

Module DeskWitness.
#[local] Existing Instance TytxWitness.plain_tytx.
#[local] Existing Instance TytxWitness.plain_tytx_laws.

(** A change of the millisecond [ts]. *)
Definition a_change (path : string) (ts : Z) : change :=
  Change (ChangeKey path None false) (VInt ts) None false (1000 * ts) 0 None.
Definition a_deposit (table : string) (ts : Z) : deposit :=
  Deposit table (VInt ts) (Some "p1") None ts None.

(** Two pages on one table, one change and one event already waiting. *)
Definition busy_desk : desk :=
  run_step (run_step (run_step (run_step new_desk
    (StepSubscribe "p1" "t.a" true)) (StepSubscribe "p2" "t.a" true))
    (StepWrite 3 "p1" (a_change "x.y" 1))) (StepDeposit [4] [a_deposit "t.a" 2]).

Lemma busy_desk_safe : desk_safe busy_desk.
Proof. by repeat apply run_step_safe; try apply new_desk_safe. Qed.

Lemma exchange_files_then_answers_witness :
  map dep_arrival_ts (ex_dbevents (exchange [8] "p1" "anna" [a_deposit "t.a" 7] busy_desk).1)
    = [Some 4; Some 8].
Proof.
  pose proof (exchange_files_then_answers [8] "p1" "anna" [a_deposit "t.a" 7] busy_desk
    busy_desk_safe) as H.
  destruct (exchange _ _ _ _ _) as [reply self']. destruct H as [H _]. simpl. rewrite H.
  by vm_compute.
Defined.

Lemma delivery_ledger_witness :
  let steps := [StepExchange [8] "p1" "anna" [a_deposit "t.a" 7]; StepWrite 9 "p1" (a_change "z" 9)] in
  pair_app (collect_over (handed "p1") busy_desk steps)
      (waiting "p1" (foldl run_step busy_desk steps)) =
    pair_app (waiting "p1" busy_desk) (collect_over (filed "p1") busy_desk steps).
Proof. intros steps. apply delivery_ledger; [apply busy_desk_safe | by repeat constructor]. Defined.

Lemma on_datachange_files_witness :
  pending_of (ChangeKey "x.y" None false)
    (addressed_queue "page" "p1"
      (on_datachange 5 (everybody "p1") (Some "p1") (set_message "page" true (a_change "x.y" 6))
        busy_desk).2) = [set_arrival_ts 5 (a_change "x.y" 6)].
Proof.
  pose proof (on_datachange_files 5 (everybody "p1") "p1" "page" true (a_change "x.y" 6) busy_desk
    eq_refl) as H.
  destruct (on_datachange _ _ _ _ _) as [answer self']. destruct H as (_ & _ & H).
  destruct (H eq_refl) as (_ & _ & _ & _ & _ & H' & _). exact H'.
Defined.
End DeskWitness.

End Desk.
