(* ===== verification/DeskRoutes.v ===== *)
(** * DeskRoutes: every queue of the desk under every route

    DeliveryDesk.v states what each route does and the exact ledger of the routes that
    throw nothing away.  Here are all of them - the replacing write, the reset, the drop
    of a prefix, the departure of a page and of a user included - and the three queues
    of the desk as mailboxes: whatever is called, in whatever order, with whatever
    arguments, a queue hands over what was filed in it at most once and in its order. *)

From S2P Require Export Mailbox DeliveryDesk.

Module Routes.
Import Mailbox Index Desk.

(** ** The routes *)

Section routes.
Context `{TytxLaws}.

(** One CALL of the lane, or one of the departures the commander tells the desk. *)
Inductive route_call : Type :=
| CallOnDatachange (now : Z) (pop : population) (target : option string) (m : message)
| CallExchange (clock : list Z) (page_id user : string) (dbevents : list deposit)
| CallDeposit (clock : list Z) (dbevents : list deposit)
| CallSubscribe (page_id table : string) (b : bool)
| CallRecord (page_id : string) (tables : list string)
| CallDropPage (page_id : string)
| CallDropUser (user : string).

Definition run_route (self : desk) (c : route_call) : desk :=
  match c with
  | CallOnDatachange now pop target m => (on_datachange now pop target m self).2
  | CallExchange clock page_id user dbevents => (exchange clock page_id user dbevents self).2
  | CallDeposit clock dbevents => deposit_route clock dbevents self
  | CallSubscribe page_id table b => (subscribe_table page_id table b self).2
  | CallRecord page_id tables => (record_page_table_subscriptions page_id tables self).2
  | CallDropPage page_id => (Desk.drop_page page_id self).2
  | CallDropUser user => Desk.drop_user user self
  end.

(** ** The queues of changes: a page's, and a user's store *)

(** The queue named [key] among the users' store queues ([state]) or the pages'. *)
Definition queue_at (state : bool) (key : string) (self : desk) : list change :=
  if state then queue_of (user_store_change_map self) key
  else queue_of (page_datachange_map self) key.

(** The message addresses that queue, and somebody of that name is known. *)
Definition addresses (state : bool) (key : string) (pop : population) (target : option string)
    (m : message) : bool :=
  match target with
  | None => false
  | Some t => bool_decide (t = key) && Bool.eqb (is_state_kind (m_kind m)) state && knows pop (m_kind m) t
  end.

(** What a message does to the queue it addresses. *)
Definition message_queue (now : Z) (m : message) (q : list change) : list change :=
  match m_filters m with
  | Some _ => q
  | None =>
      if decide (m_op m = Some "reset_datachanges") then []
      else if decide (m_op m = Some "drop_datachanges")
      then match m_path m with None => q | Some path => without_prefix path q end
      else match m_change m with
           | None => q
           | Some t =>
               let c := from_tytx t in
               (if m_replace m then without_key (ch_key c) q else q) ++ [set_arrival_ts now c]
           end
  end.

(** What it files there. *)
Definition message_files (now : Z) (m : message) : list change :=
  match m_filters m, m_change m with
  | None, Some t =>
      if decide (m_op m = Some "reset_datachanges" ∨ m_op m = Some "drop_datachanges") then []
      else [set_arrival_ts now (from_tytx t)]
  | _, _ => []
  end.

(** It removes nothing that waits. *)
Definition message_keeps (m : message) : bool :=
  bool_decide (m_op m ≠ Some "reset_datachanges") && bool_decide (m_op m ≠ Some "drop_datachanges") &&
  negb (m_replace m).

(** A queue addressed by kind and name is replaced by what [f] makes of it. *)
Lemma queue_at_with state key kind t (f : list change → list change) self :
  queue_at state key (with_addressed_queue kind t (f (addressed_queue kind t self)) self) =
    if bool_decide (t = key) && Bool.eqb (is_state_kind kind) state
    then f (queue_at state key self) else queue_at state key self.
Proof.
  unfold queue_at, with_addressed_queue, addressed_queue.
  destruct state, (is_state_kind kind); simpl; rewrite ?andb_false_r, ?andb_true_r; try done;
    case_bool_decide as Ht; subst; by rewrite ?queue_of_insert_eq, ?queue_of_insert_ne.
Qed.

(** The whole [on_datachange], on every branch, as one equation on a queue. *)
Lemma on_datachange_queue state key now pop target m self :
  queue_at state key (on_datachange now pop target m self).2 =
    if addresses state key pop target m then message_queue now m (queue_at state key self)
    else queue_at state key self.
Proof.
  unfold on_datachange, addresses. destruct target as [t|]; [|done].
  fold (knows pop (m_kind m) t). destruct (knows pop (m_kind m) t); simpl; [|by rewrite andb_false_r].
  rewrite andb_true_r, pym_bind_unfold. unfold file_datachange, message_queue.
  destruct (m_filters m) as [f|]; simpl; [by case_match|].
  destruct (decide (m_op m = Some "reset_datachanges")); simpl; [by rewrite (queue_at_with _ _ _ _ (λ _, []))|].
  destruct (decide (m_op m = Some "drop_datachanges")); simpl.
  - destruct (m_path m) as [path|]; simpl; [by rewrite (queue_at_with _ _ _ _ (without_prefix path))|].
    pose proof (queue_at_with state key (m_kind m) t (λ q, q) self) as E.
    by destruct (addressed_queue (m_kind m) t self).
  - destruct (m_change m) as [c|]; simpl.
    + by rewrite (queue_at_with _ _ _ _ (λ q, (if m_replace m then without_key _ q else q) ++ _)).
    + exact (queue_at_with state key (m_kind m) t (λ q, q) self).
Qed.

(** It never touches the dbevents. *)
Lemma on_datachange_events now pop target m self :
  page_dbevent_map (on_datachange now pop target m self).2 = page_dbevent_map self.
Proof.
  unfold on_datachange. destruct target as [t|]; [|done]. case_match; [done|].
  rewrite pym_bind_unfold. unfold file_datachange.
  repeat case_match; simplify_eq/=; try done; apply with_addressed_frame.
Qed.

Lemma message_order now m q :
  message_queue now m q `sublist_of` q ++ message_files now m.
Proof.
  unfold message_queue, message_files. destruct (m_filters m); [by rewrite app_nil_r|].
  destruct (decide (m_op m = Some "reset_datachanges")); [apply sublist_nil_l|].
  destruct (decide (m_op m = Some "drop_datachanges")).
  - etrans; [|apply sublist_inserts_r, reflexivity]. destruct (m_path m); [apply without_prefix_sublist | done].
  - destruct (m_change m) as [t|]; [|by rewrite app_nil_r]. rewrite decide_False by tauto.
    apply sublist_app; [|done]. destruct (m_replace m); [apply without_key_sublist | done].
Qed.

Lemma message_exact now m q : message_keeps m = true → message_queue now m q = q ++ message_files now m.
Proof.
  unfold message_keeps, message_queue, message_files. intros Hk. bools.
  destruct (m_filters m); [by rewrite app_nil_r|]. rewrite !decide_False by tauto.
  destruct (m_change m) as [t|]; [|by rewrite app_nil_r]. rewrite decide_False by tauto.
  by match goal with Hr : m_replace m = false |- _ => rewrite Hr end.
Qed.

(** *** Every route keeps the desk safe *)

Lemma run_route_safe self c : desk_safe self → desk_safe (run_route self c).
Proof.
  intros Hs. destruct c as [now pop target m|clock p u evs|clock evs|p t b|p ts|p|u]; cbn [run_route].
  - unfold on_datachange. destruct target as [t|]; [|done]. case_match; [done|].
    rewrite pym_bind_unfold. pose proof (file_datachange_safe now t m self Hs) as Hf.
    by destruct (file_datachange now t m self) as [[[]|e] self'].
  - by apply exchange_safe.
  - unfold deposit_route. destruct (file_dbevents_frame clock evs self) as (_ & E1 & E2).
    by split; [rewrite E1 | rewrite E2]; apply Hs.
  - unfold subscribe_table. by case_match.
  - unfold record_page_table_subscriptions. by case_match.
  - unfold Desk.drop_page. destruct (Index.drop_page p _) as [d i]. destruct Hs as [H1 H2].
    split; simpl; [|done]. intros k. unfold queue_of. rewrite lookup_delete.
    case_decide; simpl; [constructor | apply H1].
  - destruct Hs as [H1 H2]. split; simpl; [done|]. intros k. unfold queue_of. rewrite lookup_delete.
    case_decide; simpl; [constructor | apply H2].
Qed.

(** ** The three mailboxes

    A change is accounted for as the wire hands it over: the desk keeps what came off the
    wire, and the exchange is one more trip. *)

Definition change_box (state : bool) (key : string) : mailbox desk route_call change := {|
  mb_step := run_route;
  mb_waiting self := map trip_change (queue_at state key self);
  mb_handed self c :=
    match c with
    | CallExchange clock p u evs =>
        if decide ((if state then u else p) = key)
        then let reply := (exchange clock p u evs self).1 in
             from_tytx_list (if state then ex_store_changes reply else ex_datachanges reply)
        else []
    | _ => []
    end;
  mb_filed self c :=
    match c with
    | CallOnDatachange now pop target m =>
        if addresses state key pop target m then map trip_change (message_files now m) else []
    | _ => []
    end;
  mb_lossless self c :=
    match c with
    | CallOnDatachange _ pop target m => addresses state key pop target m = true → message_keeps m = true
    | CallDropPage p => state = false → p ≠ key
    | CallDropUser u => state = true → u ≠ key
    | _ => True
    end;
  mb_good := desk_safe
|}.

Definition event_box (p : string) : mailbox desk route_call deposit := {|
  mb_step := run_route;
  mb_waiting self := queue_of (page_dbevent_map self) p;
  mb_handed self c :=
    match c with
    | CallExchange clock q u evs => if decide (q = p) then ex_dbevents (exchange clock q u evs self).1 else []
    | _ => []
    end;
  mb_filed self c :=
    match c with
    | CallExchange clock _ _ evs | CallDeposit clock evs => deposits_for (page_subscriptions self) p clock evs
    | _ => []
    end;
  mb_lossless self c := match c with CallDropPage q => q ≠ p | _ => True end;
  mb_good := desk_safe
|}.

(** An exchange on a queue of changes: the queue it names is handed whole, the others stay. *)
Lemma exchange_queue_at (state : bool) (key : string) clock (p u : string) evs (self : desk) :
  desk_safe self →
  (if decide ((if state then u else p) = key)
   then from_tytx_list (if state then ex_store_changes (exchange clock p u evs self).1
                        else ex_datachanges (exchange clock p u evs self).1)
   else []) ++ map trip_change (queue_at state key (exchange clock p u evs self).2) =
  map trip_change (queue_at state key self).
Proof.
  intros Hs. destruct (exchange_after clock p u evs self) as (_ & E1 & E2 & _).
  destruct (exchange_changes clock p u evs self Hs) as [E3 E4]. unfold queue_at.
  destruct state; [rewrite E2 | rewrite E1]; case_decide as Hk; subst;
    by rewrite ?queue_of_delete_eq, ?queue_of_delete_ne, ?app_nil_r, ?E3, ?E4.
Qed.

#[export] Instance change_box_lawful state key : Lawful in_order (change_box state key) (λ _ _, True).
Proof.
  assert (∀ self c, desk_safe self →
    (∀ now pop target m, c ≠ CallOnDatachange now pop target m) → mb_lossless (change_box state key) self c →
    mb_handed (change_box state key) self c ++ map trip_change (queue_at state key (run_route self c)) =
    map trip_change (queue_at state key self)) as Hquiet.
  { intros self c Hs Hno Hl. destruct c as [now pop target m|clock p u evs|clock evs|p t b|p ts|p|u]; simpl.
    - by destruct (Hno now pop target m).
    - by apply exchange_queue_at.
    - unfold deposit_route, queue_at. by destruct (file_dbevents_frame clock evs self) as (_ & -> & ->).
    - unfold subscribe_table. by destruct (if b then _ else _).
    - unfold record_page_table_subscriptions. by destruct (foldl _ _ _).
    - unfold Desk.drop_page, queue_at. destruct (Index.drop_page p _) as [d i]. simpl.
      destruct state; [done|]. by rewrite queue_of_delete_ne by by apply Hl.
    - unfold Desk.drop_user, queue_at. simpl. destruct state; [|done].
      by rewrite queue_of_delete_ne by by apply Hl. }
  split; cbn [mb_good mb_step mb_waiting change_box in_order part_of same_as].
  - intros self c Hs _. by apply run_route_safe.
  - intros self c Hs _. destruct c as [now pop target m|clock p u evs|clock evs|p t b|p ts|p|u].
    1: { simpl. rewrite on_datachange_queue. destruct (addresses state key pop target m);
           [rewrite <- map_app; by apply (fmap_sublist trip_change), message_order | by rewrite app_nil_r]. }
    1-4: rewrite Hquiet by done; by rewrite app_nil_r.
    all: simpl; rewrite app_nil_r; unfold Desk.drop_page, Desk.drop_user, queue_at.
    + destruct (Index.drop_page p _) as [d i]. simpl. destruct state; [done|].
      destruct (decide (p = key)) as [->|]; [rewrite queue_of_delete_eq; apply sublist_nil_l|].
      by rewrite queue_of_delete_ne.
    + simpl. destruct state; [|done].
      destruct (decide (u = key)) as [->|]; [rewrite queue_of_delete_eq; apply sublist_nil_l|].
      by rewrite queue_of_delete_ne.
  - intros self c Hs _ Hl. destruct c as [now pop target m|clock p u evs|clock evs|p t b|p ts|p|u].
    1: { simpl in *. rewrite on_datachange_queue. destruct (addresses state key pop target m);
           [by rewrite <- map_app, message_exact by auto | by rewrite app_nil_r]. }
    all: rewrite Hquiet by done; by rewrite app_nil_r.
Qed.

#[export] Instance event_box_lawful p : Lawful in_order (event_box p) (λ _ _, True).
Proof.
  assert (∀ self c, mb_lossless (event_box p) self c →
    mb_handed (event_box p) self c ++ queue_of (page_dbevent_map (run_route self c)) p =
    queue_of (page_dbevent_map self) p ++ mb_filed (event_box p) self c) as Hexact.
  { intros self c Hl. destruct c as [now pop target m|clock q u evs|clock evs|q t b|q ts|q|u];
      cbn [event_box mb_handed mb_filed mb_lossless run_route app] in *.
    - rewrite app_nil_r. apply (f_equal (λ m, queue_of m p)), on_datachange_events.
    - pose proof (exchange_dbevents clock q u evs self) as E.
      destruct (exchange_after clock q u evs self) as (_ & _ & _ & E3 & E4).
      case_decide as Hq; [subst q; by rewrite E, (queue_of_none _ _ E3), app_nil_r | by apply E4].
    - apply file_dbevents_queue.
    - unfold subscribe_table. case_match. by rewrite app_nil_r.
    - unfold record_page_table_subscriptions. case_match. by rewrite app_nil_r.
    - unfold Desk.drop_page. destruct (Index.drop_page q _) as [d i]. simpl.
      by rewrite queue_of_delete_ne, app_nil_r.
    - by rewrite app_nil_r. }
  split; cbn [mb_good mb_step mb_waiting event_box in_order part_of same_as].
  - intros self c Hs _. by apply run_route_safe.
  - intros self c _ _. destruct c as [| | | | |q|]; try (rewrite Hexact; done).
    destruct (decide (q = p)) as [->|Hq]; [|by rewrite Hexact].
    cbn [mb_handed mb_filed event_box run_route app]. rewrite app_nil_r. unfold Desk.drop_page.
    destruct (Index.drop_page p _) as [d i]. simpl. rewrite queue_of_delete_eq. apply sublist_nil_l.
  - intros self c _ _ Hl. by apply Hexact.
Qed.

(** C5: whatever routes are called, in whatever order and with whatever arguments,
    each of the three kinds of queue of the desk - a page's changes, a user's store
    changes, a page's dbevents - hands over, over the exchanges, what was filed in it,
    as the wire carries it, at most once and in filing order, what still waits being the
    rest; and it hands over and keeps ALL of it when no call addressed to it replaces,
    resets, drops a prefix or retires its owner. *)
Theorem desk_queues_keep_order calls self :
  desk_safe self →
  let self' := foldl run_route self calls in
  (∀ state key, let box := change_box state key in
    let came := over box (mb_handed box) self calls ++ map trip_change (queue_at state key self') in
    let went := map trip_change (queue_at state key self) ++ over box (mb_filed box) self calls in
    came `sublist_of` went ∧ (all_lossless box self calls → came = went)) ∧
  (∀ p, let box := event_box p in
    let came := over box (mb_handed box) self calls ++ queue_of (page_dbevent_map self') p in
    let went := queue_of (page_dbevent_map self) p ++ over box (mb_filed box) self calls in
    came `sublist_of` went ∧ (all_lossless box self calls → came = went)).
Proof.
  intros Hs self'. split.
  - intros state key box came went. split; [|intros Hl].
    + apply (run_part in_order box (λ _ _, True)); [done | by apply all_along_always].
    + apply (run_exact in_order box (λ _ _, True)); [done | by apply all_along_always | done].
  - intros p box came went. split; [|intros Hl].
    + apply (run_part in_order box (λ _ _, True)); [done | by apply all_along_always].
    + apply (run_exact in_order box (λ _ _, True)); [done | by apply all_along_always | done].
Qed.

End routes.

(** ** Concrete inputs *)

Module RoutesWitness.
#[local] Existing Instance TytxWitness.plain_tytx.
#[local] Existing Instance TytxWitness.plain_tytx_laws.
Import DeskWitness.

(** A store write and its successor, a replacing page write, an exchange, a reset. *)
Definition some_calls : list route_call := [
  CallOnDatachange 5 (Population {["anna"]} ∅) (Some "anna") (set_message "user_store" false (a_change "s.x" 5));
  CallOnDatachange 6 (everybody "p1") (Some "p1") (set_message "page" true (a_change "x.y" 6));
  CallOnDatachange 7 (Population {["anna"]} ∅) (Some "anna") (set_message "user_store" false (a_change "s.x" 7));
  CallExchange [8] "p1" "anna" [a_deposit "t.a" 8];
  CallOnDatachange 9 (everybody "p1") (Some "p1") (reset_message "page");
  CallDropPage "p2"].

Lemma desk_queues_keep_order_witness :
  let came b k := over (change_box b k) (mb_handed (change_box b k)) busy_desk some_calls in
  map ch_change_ts (came true "anna") = [5000; 7000] ∧ map ch_change_ts (came false "p1") = [6000] ∧
  map dep_ts (over (event_box "p1") (mb_handed (event_box "p1")) busy_desk some_calls) = [2; 8].
Proof.
  destruct (desk_queues_keep_order some_calls busy_desk busy_desk_safe) as [HC HE].
  destruct (HC true "anna") as [_ HA]. destruct (HC false "p1") as [HP _]. destruct (HE "p1") as [_ HE1].
  assert (all_lossless (change_box true "anna") busy_desk some_calls) as HL by
    (repeat split; try done; by intros ?).
  assert (all_lossless (event_box "p1") busy_desk some_calls) as HL' by
    (repeat split; try done; by intros ?).
  specialize (HA HL). specialize (HE1 HL').
  split_and!; by vm_compute.
Defined.
End RoutesWitness.
End Routes.
