(* ===== verification/GenropyRegister.v ===== *)
(** * GenropyRegistry and GenropyPageRow: the core registry with the site's page row

    src/genropy_asgi/spa/genropy_register.py.  The three registers as finite maps
    of rows, the Bag objects and the collectors as a heap of objects named by
    location - a page's view, its owner's store and a sibling's view alias one
    Bag - and every method of the two classes.  What the core registry does
    (genro-asgi, outside this repository) is the class [CoreRegistry]. *)

From S2P Require Export LegacyBag.

Module Registry.
Import LegacyBagCollector.

(** ** The state *)

(** Who a Bag calls back on an event: a page row's capture, or a collector. *)
Inductive subscriber : Type :=
| SubPage (page_id : string)       (* "page_store:<page_id>" *)
| SubView (view : positive).       (* "legacy_datachange_<id>" *)

#[export] Instance subscriber_eq_dec : EqDecision subscriber.
Proof. solve_decision. Defined.

Record bag_object : Type := BagObject {
  bo_nodes : bag;
  bo_subs : list subscriber
}.

Record page_row : Type := PageRow {
  page_register_item_id : string;
  page_connection_id : string;
  page_store : positive;
  page_datachanges : list change;
  page_datachanges_idx : Z;
  page_user_view : option positive;
  page_subscribed_paths : gset string;
  page_store_subscriptions : gset string;
  page_table_subscriptions : gset string;
  page_fields : gmap string value
}.

Record connection_row : Type := ConnectionRow {
  connection_register_item_id : string;
  connection_user : string;
  connection_pages : gset string;
  connection_fields : gmap string value;
  connection_data : option positive     (* the [data] alias: a connection has no store *)
}.

Record user_row : Type := UserRow {
  user_register_item_id : string;
  user_store : positive;
  user_connections : gset string;
  user_fields : gmap string value
}.

Record registry : Type := MkRegistry {
  user_register : gmap string user_row;
  connection_register : gmap string connection_row;
  page_register : gmap string page_row;
  stores : gmap positive bag_object;
  views : gmap positive collector
}.

Definition set_queue (q : list change) (idx : Z) (p : page_row) : page_row :=
  PageRow (page_register_item_id p) (page_connection_id p) (page_store p) q idx
    (page_user_view p) (page_subscribed_paths p) (page_store_subscriptions p)
    (page_table_subscriptions p) (page_fields p).
Definition set_user_view (v : option positive) (p : page_row) : page_row :=
  PageRow (page_register_item_id p) (page_connection_id p) (page_store p) (page_datachanges p)
    (page_datachanges_idx p) v (page_subscribed_paths p) (page_store_subscriptions p)
    (page_table_subscriptions p) (page_fields p).
Definition set_subscribed_paths (s : gset string) (p : page_row) : page_row :=
  PageRow (page_register_item_id p) (page_connection_id p) (page_store p) (page_datachanges p)
    (page_datachanges_idx p) (page_user_view p) s (page_store_subscriptions p)
    (page_table_subscriptions p) (page_fields p).
Definition set_store_subscriptions (s : gset string) (p : page_row) : page_row :=
  PageRow (page_register_item_id p) (page_connection_id p) (page_store p) (page_datachanges p)
    (page_datachanges_idx p) (page_user_view p) (page_subscribed_paths p) s
    (page_table_subscriptions p) (page_fields p).
Definition set_table_subscriptions (s : gset string) (p : page_row) : page_row :=
  PageRow (page_register_item_id p) (page_connection_id p) (page_store p) (page_datachanges p)
    (page_datachanges_idx p) (page_user_view p) (page_subscribed_paths p)
    (page_store_subscriptions p) s (page_fields p).

Definition with_pages (m : gmap string page_row) (r : registry) : registry :=
  MkRegistry (user_register r) (connection_register r) m (stores r) (views r).
Definition with_stores (m : gmap positive bag_object) (r : registry) : registry :=
  MkRegistry (user_register r) (connection_register r) (page_register r) m (views r).
Definition with_views (m : gmap positive collector) (r : registry) : registry :=
  MkRegistry (user_register r) (connection_register r) (page_register r) (stores r) m.

Definition put_page (p : page_row) (r : registry) : registry :=
  with_pages (<[page_register_item_id p := p]> (page_register r)) r.
Definition update_page (page_id : string) (f : page_row → page_row) (r : registry) : registry :=
  with_pages (alter f page_id (page_register r)) r.
Definition update_view (v : positive) (f : collector → collector) (r : registry) : registry :=
  with_views (alter f v (views r)) r.

(** ** The core registry: third-party, a parameter

    [page_user] walks page -> connection -> user and raises on a vanished link;
    [core_change_connection_user] is the re-labelling the bridge's override
    starts from. *)
Class CoreRegistry : Type := {
  page_user : string → registry → res string;
  core_change_connection_user :
    string → string → gmap string value → PyM registry connection_row
}.

(** The walk as [siteregister_client._page_owner] documents it: [KeyError] on the
    page, [TypeError] on the connection. *)
Class CoreRegistryLaws `{CoreRegistry} : Prop := {
  page_user_walk : ∀ page_id r,
    page_user page_id r =
      match page_register r !! page_id with
      | None => Raise KeyError
      | Some p =>
          match connection_register r !! page_connection_id p with
          | None => Raise TypeError
          | Some c => Ok (connection_user c)
          end
      end
}.

(** ** GenropyPageRow *)

(** [default_fields]: the core's row, then the page's own fields, empty. *)
Definition default_fields (item_id connection_id : string) (store : positive)
    (core_fields : gmap string value) : page_row :=
  PageRow item_id connection_id store [] 0 None ∅ ∅ ∅ core_fields.

(** [fields_left_behind] beyond the core's, and [fields_replayed]. *)
Definition fields_left_behind (core : gset string) : gset string := core ∪ {["user_view"]}.
Definition fields_replayed : list string :=
  ["subscribed_paths"; "store_subscriptions"; "table_subscriptions"].

Definition announcement_fields (p : page_row) : list string :=
  sorted_strings (elements (page_table_subscriptions p)).

(** ** GenropyRegistry: the store and the capture factories *)

Definition new_store (r : registry) : positive * registry :=
  let l := fresh (dom (stores r)) in
  (l, with_stores (<[l := BagObject [] []]> (stores r)) r).

(** [bag.subscribe(id, any=callback)] and [bag.unsubscribe(id, any=True)]. *)
Definition add_sub (s : subscriber) (o : bag_object) : bag_object :=
  if decide (s ∈ bo_subs o) then o else BagObject (bo_nodes o) (bo_subs o ++ [s]).
Definition remove_sub (s : subscriber) (o : bag_object) : bag_object :=
  BagObject (bo_nodes o) (filter (λ s', s' ≠ s) (bo_subs o)).

Definition bag_subscribe (l : positive) (s : subscriber) (r : registry) : registry :=
  with_stores (alter (add_sub s) l (stores r)) r.
Definition bag_unsubscribe (l : positive) (s : subscriber) (r : registry) : registry :=
  with_stores (alter (remove_sub s) l (stores r)) r.

(** [LegacyBagCollector(store, paths=paths)]: the object is born and attached. *)
Definition new_collector (store : positive) (paths : option (gset string)) (r : registry)
    : positive * registry :=
  let v := fresh (dom (views r)) in
  (v, bag_subscribe store (SubView v) (with_views (<[v := init store paths]> (views r)) r)).

(** [LegacyBagCollector.detach]: pending changes are left untouched. *)
Definition detach (v : positive) (r : registry) : registry :=
  match views r !! v with
  | None => r
  | Some c => bag_unsubscribe (col_bag c) (SubView v) r
  end.

(** ** The row's queue *)

Definition append_page_datachange (now : Z) (replace : bool) (c : change) (page : page_row)
    : page_row :=
  let q := if replace then without_key (ch_key c) (page_datachanges page)
           else page_datachanges page in
  let idx := page_datachanges_idx page + 1 in
  set_queue (q ++ [set_arrival_ts now (set_change_idx idx c)]) idx page.

Definition page_captures (page : page_row) (path : string) : bool :=
  bool_decide (set_Exists (λ p, under path p = true) (page_subscribed_paths page)).

(** The closure [on_event] of [subscribe_page_store]. *)
Definition page_on_event `{BagApi} (now : Z) (e : node_event) (page : page_row) : page_row :=
  if decide (ev_reason e = Some "autocreate") then page
  else
    let path := event_path e in
    if negb (page_captures page path) then page
    else
      let delete := bool_decide (ev_evt e = "del") in
      let attributes := dict_pop "_fired" (ev_attr e) in
      let fired := fired_flag (ev_attr e) in
      let c := Change (ChangeKey path (Some "serverChange") fired)
                 (if delete then VNone else ev_value e) (or_none attributes) delete now 0 None in
      append_page_datachange now false c page.

Definition subscribe_page_store (page : page_row) (r : registry) : registry :=
  bag_subscribe (page_store page) (SubPage (page_register_item_id page)) r.

Definition detach_page (page : page_row) (r : registry) : registry :=
  let r := bag_unsubscribe (page_store page) (SubPage (page_register_item_id page)) r in
  match page_user_view page with None => r | Some v => detach v r end.

(** ** A write on a Bag object, heard by everybody subscribed to it *)

Definition dispatch_one `{BagApi} (now : Z) (e : node_event) (r : registry) (s : subscriber)
    : registry :=
  match s with
  | SubPage page_id => update_page page_id (page_on_event now e) r
  | SubView v => update_view v (λ c, _on_event now c e) r
  end.

Definition dispatch `{BagApi} (now : Z) (l : positive) (r : registry) (e : node_event) : registry :=
  match stores r !! l with
  | None => r
  | Some o => foldl (dispatch_one now e) r (bo_subs o)
  end.

(** The Bag's own operation on the object at [l], then its events, in order. *)
Definition on_bag `{BagApi} (now : Z) (l : positive) (f : bag → bag * list node_event)
    (r : registry) : registry :=
  match stores r !! l with
  | None => r
  | Some o =>
      let '(nodes, events) := f (bo_nodes o) in
      foldl (dispatch now l) (with_stores (<[l := BagObject nodes (bo_subs o)]> (stores r)) r) events
  end.

(** ** The view onto the user's store *)

Section views.
Context `{CoreRegistry}.

Definition subscribe_store_path (page_id prefix : string) : PyM registry page_row := λ r,
  match page_register r !! page_id with
  | None => (Raise KeyError, r)
  | Some page =>
      let page := set_store_subscriptions ({[prefix]} ∪ page_store_subscriptions page) page in
      let r := with_pages (<[page_id := page]> (page_register r)) r in
      match page_user_view page with
      | None =>
          match page_user page_id r with
          | Raise e => (Raise e, r)
          | Ok user =>
              match user_register r !! user with
              | None => (Raise TypeError, r)
              | Some u =>
                  let '(v, r) := new_collector (user_store u) (Some {[prefix]}) r in
                  let page := set_user_view (Some v) page in
                  (Ok page, with_pages (<[page_id := page]> (page_register r)) r)
              end
          end
      | Some v => (Ok page, update_view v (subscribe_path prefix) r)
      end
  end.

(** [GenropyPageRow.replay_fields] on the row [page_id] of the registry. *)
Record parcel_fields : Type := ParcelFields {
  parcel_table_subscriptions : list string;
  parcel_subscribed_paths : list string;
  parcel_store_subscriptions : list string
}.

Definition replay_fields (page_id : string) (fields : parcel_fields) : PyM registry () :=
  py_modify (update_page page_id (λ p,
    set_table_subscriptions
      (list_to_set (parcel_table_subscriptions fields) ∪ page_table_subscriptions p) p)) ≫= λ _,
  py_modify (update_page page_id (λ p,
    set_subscribed_paths
      (list_to_set (parcel_subscribed_paths fields) ∪ page_subscribed_paths p) p)) ≫= λ _,
  py_for (parcel_store_subscriptions fields) (λ prefix,
    subscribe_store_path page_id prefix ≫= λ _, mret ()).

(** The detach, the fresh collector and the re-deposit that
    [change_connection_user] and [_install_carried_store] both write out. *)
Definition reattach_view (page_id : string) (page : page_row) (v : positive) (store : positive)
    (r : registry) : registry :=
  let r := detach v r in
  let held := match views r !! v with None => [] | Some c => col_changes c end in
  let '(w, r) := new_collector store (Some (page_store_subscriptions page)) r in
  let r := foldl (λ r c, update_view w (append false c) r) r held in
  update_page page_id (set_user_view (Some w)) r.

Definition follow_owner (store : positive) (page_id : string) : PyM registry () := λ r,
  match page_register r !! page_id with
  | None => (Raise TypeError, r)
  | Some page =>
      match page_user_view page with
      | None => (Ok (), r)
      | Some v =>
          match views r !! v with
          | None => (Ok (), r)
          | Some c =>
              if decide (col_bag c = store) then (Ok (), r)
              else (Ok (), reattach_view page_id page v store r)
          end
      end
  end.

Definition change_connection_user (connection_id user : string) (fields : gmap string value)
    : PyM registry connection_row :=
  core_change_connection_user connection_id user fields ≫= λ connection,
  py_reads (λ r, user_register r !! user) ≫= λ owner,
  match owner with
  | None => py_raise TypeError
  | Some u =>
      py_for (elements (connection_pages connection)) (follow_owner (user_store u)) ≫= λ _,
      mret connection
  end.
End views.

(** ** What a row, a view and a Bag owe one another *)

(** Who hears a Bag, over the whole heap. *)
Definition listens (r : registry) (v l : positive) : Prop :=
  ∃ o, stores r !! l = Some o ∧ SubView v ∈ bo_subs o.

(** A page's view exists, watches what the row says it watches, on the one Bag
    it is bound to, and is nobody else's. *)
Definition view_bound (r : registry) (page : page_row) : Prop :=
  match page_user_view page with
  | None => page_store_subscriptions page = ∅
  | Some v => ∃ c, views r !! v = Some c ∧ col_paths c = Some (page_store_subscriptions page)
                ∧ listens r v (col_bag c)
  end.

Record registry_wf (r : registry) : Prop := RegistryWf {
  wf_views : ∀ p page, page_register r !! p = Some page → view_bound r page;
  wf_views_inj : ∀ p q pp qq v,
    page_register r !! p = Some pp → page_register r !! q = Some qq →
    page_user_view pp = Some v → page_user_view qq = Some v → p = q;
  wf_listens : ∀ v l, listens r v l → ∃ c, views r !! v = Some c ∧ col_bag c = l
}.

(** What a step on the page [pid] leaves of everybody else. *)
Record framed (pid : string) (r r' : registry) : Prop := Framed {
  fr_users : user_register r' = user_register r;
  fr_connections : connection_register r' = connection_register r;
  fr_pages : ∀ q, q ≠ pid → page_register r' !! q = page_register r !! q;
  fr_page_dom : dom (page_register r') = dom (page_register r);
  fr_stores : dom (stores r') = dom (stores r);
  fr_views : ∀ v, v ∈ dom (views r) →
    (∀ page, page_register r !! pid = Some page → page_user_view page ≠ Some v) →
    views r' !! v = views r !! v ∧ ∀ l, listens r' v l ↔ listens r v l
}.

Lemma framed_refl pid r : framed pid r r.
Proof. by split. Qed.
#[export] Hint Resolve framed_refl : gnr.

(** A heap with one collector more: attached to [store], detached from [old]. *)
Definition heap_step (pid : string) (old : option (positive * positive)) (store w : positive)
    (c : collector) (f : page_row → page_row) (r : registry) : registry :=
  let st := match old with
            | None => stores r
            | Some (v, l) => alter (remove_sub (SubView v)) l (stores r)
            end in
  MkRegistry (user_register r) (connection_register r) (alter f pid (page_register r))
    (alter (add_sub (SubView w)) store st) (<[w := c]> (views r)).

Lemma add_sub_elem s t o : s ∈ bo_subs (add_sub t o) ↔ s = t ∨ s ∈ bo_subs o.
Proof.
  unfold add_sub. case_decide; simpl.
  - split; [by right | by intros [->|]].
  - rewrite elem_of_app, list_elem_of_singleton. tauto.
Qed.

Lemma remove_sub_elem s t o : s ∈ bo_subs (remove_sub t o) ↔ s ≠ t ∧ s ∈ bo_subs o.
Proof. unfold remove_sub; simpl. by rewrite list_elem_of_filter. Qed.

Lemma listens_alter (m : gmap positive bag_object) f l l' v :
  (∃ o, alter f l m !! l' = Some o ∧ SubView v ∈ bo_subs o) ↔
  ∃ o, m !! l' = Some o ∧
       SubView v ∈ bo_subs (if decide (l = l') then f o else o).
Proof.
  case_decide as Hl.
  - subst. rewrite lookup_alter_eq. destruct (m !! l'); simpl; naive_solver.
  - by rewrite lookup_alter_ne.
Qed.

Lemma heap_step_listens pid old store w c f r v l :
  listens (heap_step pid old store w c f r) v l ↔
  (v = w ∧ l = store ∧ is_Some (stores r !! store)) ∨
  (listens r v l ∧ (∀ u k, old = Some (u, k) → ¬ (v = u ∧ l = k))).
Proof.
  unfold listens, heap_step; simpl. rewrite listens_alter.
  destruct old as [[u k]|].
  - split.
    + intros (o & Ho & Hin).
      assert ((v = w ∧ l = store) ∨ SubView v ∈ bo_subs o) as Hd.
      { case_decide; [|by right]. apply add_sub_elem in Hin as [[= ->]|]; [left|right]; done. }
      assert (is_Some (stores r !! l)) as Hl.
      { destruct (decide (k = l)) as [->|]; [rewrite lookup_alter_eq in Ho | rewrite lookup_alter_ne in Ho by done];
          [destruct (stores r !! l); simplify_eq/= |]; eauto. }
      destruct Hd as [[-> ->]|Hd]; [by left|]. right.
      destruct (decide (k = l)) as [->|Hkl].
      * rewrite lookup_alter_eq in Ho. destruct (stores r !! l) as [o'|]; simplify_eq/=.
        apply list_elem_of_filter in Hd as [Hne Hd]. split; [eauto|]. intros ? ? [= <- <-] [-> _]. done.
      * rewrite lookup_alter_ne in Ho by done. split; [eauto|]. intros ? ? [= <- <-] [_ ->]. done.
    + intros [(-> & -> & [o Ho])|[(o & Ho & Hin) Hne]].
      * destruct (decide (k = store)) as [->|];
          [rewrite lookup_alter_eq, Ho | rewrite lookup_alter_ne, Ho by done]; simpl; eexists;
          (split; [done|]); rewrite decide_True by done; apply add_sub_elem; by left.
      * destruct (decide (k = l)) as [->|];
          [rewrite lookup_alter_eq, Ho | rewrite lookup_alter_ne, Ho by done]; simpl; eexists;
          (split; [done|]).
        -- assert (SubView v ∈ bo_subs (remove_sub (SubView u) o)).
           { apply remove_sub_elem. split; [|done]. intros [= ->]. by eapply Hne. }
           case_decide; [apply add_sub_elem; by right | done].
        -- case_decide; [apply add_sub_elem; by right | done].
  - split.
    + intros (o & Ho & Hin). case_decide as Hs; [|right; split; [eauto|done]].
      subst. apply add_sub_elem in Hin as [[= ->]|Hin]; [left; eauto | right; split; [eauto|done]].
    + intros [(-> & -> & [o Ho])|[(o & Ho & Hin) _]]; exists o; (split; [done|]).
      * rewrite decide_True by done. apply add_sub_elem. by left.
      * case_decide; [apply add_sub_elem; by right | done].
Qed.
(** The view a row leaves when it takes another: [old] is that view and its Bag. *)
Definition leaves (r : registry) (page : page_row) (old : option (positive * positive)) : Prop :=
  match old with
  | None => page_user_view page = None
  | Some (v, l) => page_user_view page = Some v ∧ ∃ c, views r !! v = Some c ∧ col_bag c = l
  end.

Lemma wf_view_alive r p page v :
  registry_wf r → page_register r !! p = Some page → page_user_view page = Some v →
  v ∈ dom (views r).
Proof.
  intros Hwf Hp Hv. pose proof (wf_views _ Hwf _ _ Hp) as HB. unfold view_bound in HB.
  rewrite Hv in HB. destruct HB as (c & Hc & _). apply elem_of_dom. eauto.
Qed.

Section heap_step.
Context (pid : string) (old : option (positive * positive)) (store w : positive) (c : collector).
Context (f : page_row → page_row) (r : registry) (page : page_row).
Context (Hwf : registry_wf r) (Hpage : page_register r !! pid = Some page).
Context (Hw : w ∉ dom (views r)) (Hstore : is_Some (stores r !! store)).
Context (Hold : leaves r page old) (Hbag : col_bag c = store).
Context (Hview : page_user_view (f page) = Some w).
Context (Hpaths : col_paths c = Some (page_store_subscriptions (f page))).

Let r' := heap_step pid old store w c f r.

Lemma heap_step_watches : listens r' w store.
Proof using Hstore. apply heap_step_listens. by left. Qed.

Lemma heap_step_others v l :
  v ∈ dom (views r) → page_user_view page ≠ Some v → listens r' v l ↔ listens r v l.
Proof using Hw Hold.
  intros Hv Hne. unfold r'. rewrite heap_step_listens. split.
  - intros [(-> & _)|[? _]]; done.
  - intros HL. right. split; [done|]. intros u k -> [-> _]. by destruct Hold.
Qed.

Lemma heap_step_framed : framed pid r r'.
Proof using Hw Hold Hpage.
  split; try done; simpl.
  - intros q Hq. by rewrite lookup_alter_ne.
  - by rewrite dom_alter_L.
  - destruct old as [[? ?]|]; by rewrite !dom_alter_L.
  - intros v Hv Hne. split; [rewrite lookup_insert_ne; [done | congruence]|].
    intros l. apply heap_step_others; [done | by apply Hne].
Qed.

(** Nothing hears a view the row has left. *)
Lemma heap_step_left v : page_user_view page = Some v → ∀ l, ¬ listens r' v l.
Proof using Hw Hold Hwf Hpage.
  intros Hv l HL. unfold r' in HL. apply heap_step_listens in HL as [(-> & _)|[HL Hne]].
  - apply Hw. by eapply wf_view_alive.
  - destruct old as [[u k]|]; [|simpl in Hold; congruence].
    destruct Hold as (Hu & c0 & Hc0 & <-). assert (u = v) as -> by congruence.
    destruct (wf_listens _ Hwf _ _ HL) as (c1 & Hc1 & <-). eapply Hne; [done|].
    split; congruence.
Qed.

Lemma heap_step_wf : registry_wf r'.
Proof using All.
  pose proof heap_step_framed as HF.
  assert (∀ q row, page_register r' !! q = Some row →
    (q = pid ∧ row = f page) ∨ (q ≠ pid ∧ page_register r !! q = Some row)) as Hrows.
  { intros q row. destruct (decide (q = pid)) as [->|Hq].
    - simpl. rewrite lookup_alter_eq, Hpage. intros [= <-]. by left.
    - rewrite (fr_pages _ _ _ HF) by done. by right. }
  split.
  - intros q row [[-> ->]|[Hq Hrow]]%Hrows; unfold view_bound.
    + rewrite Hview. exists c. split_and!; [simpl; by rewrite lookup_insert_eq|done|].
      rewrite Hbag. apply heap_step_watches.
    + pose proof (wf_views _ Hwf _ _ Hrow) as HB. unfold view_bound in HB.
      destruct (page_user_view row) as [v|] eqn:Hv; [|done].
      destruct HB as (c' & Hc' & Hp' & HL). assert (v ∈ dom (views r)) by (apply elem_of_dom; eauto).
      assert (page_user_view page ≠ Some v) as Hne.
      { intros Hpv. apply Hq. by eapply (wf_views_inj _ Hwf q pid). }
      exists c'. split_and!; [|done|by apply heap_step_others].
      simpl. rewrite lookup_insert_ne; [done | congruence].
  - intros p q pp qq v [[-> ->]|[Hp Hpp]]%Hrows [[-> ->]|[Hq Hqq]]%Hrows Hv1 Hv2; try done.
    + exfalso. apply Hw. rewrite Hview in Hv1. simplify_eq. by eapply wf_view_alive.
    + exfalso. apply Hw. rewrite Hview in Hv2. simplify_eq. by eapply wf_view_alive.
    + by eapply (wf_views_inj _ Hwf p q).
  - intros v l [(-> & -> & _)|[HL _]]%heap_step_listens.
    + exists c. simpl. by rewrite lookup_insert_eq.
    + destruct (wf_listens _ Hwf _ _ HL) as (c' & Hc' & <-). exists c'. simpl.
      rewrite lookup_insert_ne; [done|]. intros ->. apply Hw, elem_of_dom. eauto.
Qed.
End heap_step.

(** ** Re-attaching a view, as one heap step *)

Lemma redeposit_eq store ps held :
  foldl (λ c x, append false x c) (init store ps) held =
    Collector store ps (number_from 1 held) (Z.of_nat (length held)).
Proof.
  unfold init.
  assert (∀ l n, foldl (λ c x, append false x c) (Collector store ps l n) held =
    Collector store ps (l ++ number_from (n + 1) held) (n + Z.of_nat (length held))) as ->; [|done].
  induction held as [|x held IH]; intros l n; simpl.
  - rewrite app_nil_r. f_equal; lia.
  - unfold append, _deposit at 2; simpl. rewrite IH, <- app_assoc. simpl. f_equal; lia.
Qed.

Lemma foldl_update_view w (g : collector → change → collector) held r :
  foldl (λ r x, update_view w (λ c, g c x) r) r held =
    update_view w (λ c, foldl g c held) r.
Proof.
  revert r. induction held as [|x held IH]; intros r; simpl; unfold update_view, with_views in *.
  - destruct r; simpl. by rewrite alter_self.
  - rewrite IH; simpl. by rewrite alter_alter.
Qed.

(** The collector that takes over a view's place on another store. *)
Definition successor (store : positive) (page : page_row) (c : collector) : collector :=
  Collector store (Some (page_store_subscriptions page)) (number_from 1 (col_changes c))
    (Z.of_nat (length (col_changes c))).

Lemma reattach_view_eq pid page v store r c :
  views r !! v = Some c →
  reattach_view pid page v store r =
    let w := fresh (dom (views r)) in
    heap_step pid (Some (v, col_bag c)) store w (successor store page c)
      (set_user_view (Some w)) r.
Proof.
  intros Hc. unfold reattach_view, detach. rewrite Hc. simpl.
  rewrite (foldl_update_view _ (λ c x, append false x c)).
  unfold update_page, update_view, heap_step, with_views, with_pages, bag_subscribe, with_stores,
    bag_unsubscribe; simpl.
  f_equal. rewrite alter_insert_eq, redeposit_eq, Hc. done.
Qed.

(** The body both loops share: a view stays when [skip] says so of its collector. *)
Definition follow_view (skip : collector → bool) (store : positive) (pid : string)
    : PyM registry () := λ r,
  match page_register r !! pid with
  | None => (Raise TypeError, r)
  | Some page =>
      match page_user_view page with
      | None => (Ok (), r)
      | Some v =>
          match views r !! v with
          | None => (Ok (), r)
          | Some c => if skip c then (Ok (), r) else (Ok (), reattach_view pid page v store r)
          end
      end
  end.

(** What a page finds after its view has followed to [store]. *)
Definition followed (skip : collector → bool) (store : positive) (r r' : registry) (pid : string)
    : Prop :=
  ∃ page, page_register r !! pid = Some page ∧
  match page_user_view page with
  | None => page_register r' !! pid = Some page
  | Some v =>
      ∃ c, views r !! v = Some c ∧
      if skip c
      then page_register r' !! pid = Some page ∧ views r' !! v = Some c ∧ listens r' v (col_bag c)
      else (∀ l, ¬ listens r' v l) ∧ views r' !! v = Some c ∧
           ∃ w, w ≠ v ∧ page_register r' !! pid = Some (set_user_view (Some w) page) ∧
                views r' !! w = Some (successor store page c) ∧ listens r' w store
  end.

Lemma follow_view_step skip store pid page r :
  registry_wf r → page_register r !! pid = Some page → is_Some (stores r !! store) →
  ∃ r', follow_view skip store pid r = (Ok (), r') ∧ registry_wf r' ∧ framed pid r r' ∧
        followed skip store r r' pid.
Proof.
  intros Hwf Hp Hs. unfold follow_view, followed. rewrite Hp.
  destruct (page_user_view page) as [v|] eqn:Hv.
  2:{ exists r. split_and!; auto with gnr. exists page. by rewrite Hv. }
  pose proof (wf_views _ Hwf _ _ Hp) as HB. unfold view_bound in HB. rewrite Hv in HB.
  destruct HB as (c & Hc & Hps & HL). rewrite Hc. destruct (skip c) eqn:Hb.
  { exists r. split_and!; auto with gnr. exists page. rewrite Hv. split; [done|].
    exists c. rewrite Hb. auto. }
  rewrite (reattach_view_eq pid page v store r c Hc). simpl.
  set (w := fresh (dom (views r))). assert (w ∉ dom (views r)) as Hw by apply is_fresh.
  assert (leaves r page (Some (v, col_bag c))) as Hold by (simpl; eauto).
  assert (w ≠ v) as Hwv by (intros ->; apply Hw, elem_of_dom; eauto).
  eexists. split; [done|]. split_and!.
  - by apply (heap_step_wf pid _ store w _ _ r page).
  - by apply (heap_step_framed pid _ store w _ _ r page).
  - exists page. split; [done|]. rewrite Hv. exists c. rewrite Hb.
    split; [done|]. split; [|split].
    + by apply (heap_step_left pid _ store w _ _ r page).
    + simpl. by rewrite lookup_insert_ne.
    + exists w. split_and!; [done| | |].
      * simpl. by rewrite lookup_alter_eq, Hp.
      * simpl. by rewrite lookup_insert_eq.
      * by apply heap_step_watches.
Qed.

(** A page that has followed stays so while the others do. *)
Lemma followed_framed skip store r r1 r2 pid q :
  registry_wf r1 → framed q r1 r2 → q ≠ pid → is_Some (page_register r1 !! q) →
  followed skip store r r1 pid → followed skip store r r2 pid.
Proof.
  intros Hwf1 HF Hq [qq Hqq] (page & Hp & H). exists page. split; [done|].
  assert (∀ v row, page_register r1 !! pid = Some row → page_user_view row = Some v →
    views r2 !! v = views r1 !! v ∧ ∀ l, listens r2 v l ↔ listens r1 v l) as Hkeep.
  { intros v row Hrow Hv. apply (fr_views _ _ _ HF); [by eapply wf_view_alive|].
    intros p' Hp' Hv'. apply Hq. by eapply (wf_views_inj _ Hwf1 q pid). }
  rewrite !(fr_pages _ _ _ HF) by done.
  destruct (page_user_view page) as [v|] eqn:Hv; [|done].
  destruct H as (c & Hc & H). exists c. split; [done|]. destruct (skip c).
  - destruct H as (Hp1 & Hv1 & HL). destruct (Hkeep v page) as [-> ->]; done.
  - destruct H as (Hgone & Hv1 & w & Hw & Hp1 & Hw1 & HL).
    assert (∀ p', page_register r1 !! q = Some p' → page_user_view p' ≠ Some v) as Hnot.
    { intros p' Hp' Hv'. pose proof (wf_views _ Hwf1 _ _ Hp') as HB. unfold view_bound in HB.
      rewrite Hv' in HB. destruct HB as (c' & _ & _ & HL'). by eapply Hgone. }
    assert (v ∈ dom (views r1)) as Hd by (apply elem_of_dom; eauto).
    destruct (fr_views _ _ _ HF v Hd Hnot) as [-> HLv]. split; [|split; [done|]].
    + intros l HL2. apply HLv in HL2. by eapply Hgone.
    + exists w. destruct (Hkeep w (set_user_view (Some w) page)) as [-> ->]; done.
Qed.

(** The state of a loop over pages: those of [gone] have followed, nobody else moved. *)
Record followers (skip : collector → bool) (store : positive) (r0 : registry) (gone : list string)
    (r : registry) : Prop := Followers {
  fo_wf : registry_wf r;
  fo_users : user_register r = user_register r0;
  fo_connections : connection_register r = connection_register r0;
  fo_page_dom : dom (page_register r) = dom (page_register r0);
  fo_stores : dom (stores r) = dom (stores r0);
  fo_gone : ∀ p, p ∈ gone → followed skip store r0 r p;
  fo_pages : ∀ q, q ∉ gone → page_register r !! q = page_register r0 !! q;
  fo_views : ∀ q row v, q ∉ gone → page_register r0 !! q = Some row →
    page_user_view row = Some v → views r !! v = views r0 !! v
}.

Lemma followers_nil skip store r : registry_wf r → followers skip store r [] r.
Proof. split; try done. by intros p Hp%elem_of_nil. Qed.

Lemma followers_snoc skip store r0 gone r p :
  followers skip store r0 gone r → p ∉ gone → is_Some (page_register r0 !! p) →
  is_Some (stores r0 !! store) →
  ∃ r', follow_view skip store p r = (Ok (), r') ∧ followers skip store r0 (gone ++ [p]) r'.
Proof.
  intros [Hwf HU HC HP HS HG HR HV] Hp [page Hpage] Hs.
  assert (page_register r !! p = Some page) as Hrow by by rewrite HR.
  assert (is_Some (stores r !! store)) as Hs' by (apply elem_of_dom; rewrite HS; by apply elem_of_dom).
  destruct (follow_view_step skip store p page r Hwf Hrow Hs') as (r1 & Hr1 & Hwf1 & HF & Hfol).
  exists r1. split; [done|]. pose proof HF as [F1 F2 F3 F4 F5 F6].
  split; [done|congruence|congruence|congruence|congruence| | |].
  - intros q [Hq|Hq]%elem_of_app.
    + apply (followed_framed skip store r0 r r1 q p);
        [done|done|congruence|by rewrite Hrow|by apply HG].
    + apply list_elem_of_singleton in Hq as ->. destruct Hfol as (page' & Hp' & Hfol).
      assert (page' = page) as -> by congruence.
      exists page. split; [done|]. destruct (page_user_view page) as [v|] eqn:Hv; [|done].
      destruct Hfol as (c & Hc & Hfol). exists c. split; [|done].
      rewrite <- (HV p page v); done.
  - intros q Hq. rewrite not_elem_of_app, list_elem_of_singleton in Hq. destruct Hq as [Hq Hqp].
    rewrite F3; auto.
  - intros q row v Hq Hrow' Hv. rewrite not_elem_of_app, list_elem_of_singleton in Hq.
    destruct Hq as [Hq Hqp]. rewrite <- (HV q row v Hq Hrow' Hv).
    assert (page_register r !! q = Some row) as Hq' by by rewrite HR.
    apply F6; [by eapply (wf_view_alive r q row)|].
    intros p' Hp' Hv'. apply Hqp. symmetry. by apply (wf_views_inj _ Hwf p q p' row v).
Qed.

Lemma followers_loop skip store ps r0 gone r :
  followers skip store r0 gone r → NoDup (gone ++ ps) → is_Some (stores r0 !! store) →
  (∀ p, p ∈ ps → is_Some (page_register r0 !! p)) →
  ∃ r', py_for ps (follow_view skip store) r = (Ok (), r') ∧
        followers skip store r0 (gone ++ ps) r'.
Proof.
  revert r gone. induction ps as [|p ps IH]; intros r gone HF HND Hs Hps.
  { exists r. by rewrite app_nil_r. }
  assert (p ∉ gone) as Hp.
  { apply NoDup_app in HND as (_ & HN & _). intros Hin. by apply (HN p Hin), list_elem_of_here. }
  destruct (followers_snoc skip store r0 gone r p HF Hp (Hps p ltac:(left)) Hs) as (r1 & Hr1 & HF1).
  rewrite cons_middle, app_assoc in HND |- *.
  destruct (IH r1 (gone ++ [p]) HF1 HND Hs) as (r' & Hr' & HF'); [intros q Hq; apply Hps; by right|].
  exists r'. split; [|done]. simpl. by rewrite pym_bind_unfold, Hr1.
Qed.

Lemma py_for_ext {S A} (l : list A) (f g : A → PyM S ()) s :
  (∀ x s, f x s = g x s) → py_for l f s = py_for l g s.
Proof.
  intros Hfg. revert s. induction l as [|x l IH]; intros s; simpl; [done|].
  rewrite !pym_bind_unfold, Hfg. destruct (g x s) as [[u|e] s']; [apply IH | done].
Qed.

Definition on_store (store : positive) (c : collector) : bool := bool_decide (col_bag c = store).

Lemma follow_owner_view store pid r :
  follow_owner store pid r = follow_view (on_store store) store pid r.
Proof.
  unfold follow_owner, follow_view, on_store. repeat case_match; simplify_eq/=; try done;
    try case_bool_decide; simplify_eq/=; done.
Qed.

(** ** A login: every view of the connection's pages follows the new owner *)

(** C8: a login re-attaches the views: every page of the connection whose view
    watched another store gets a fresh view on the new owner's store, filtered on
    the very same prefixes and holding everything the old one held, in order and
    numbered from 1, while the old view is heard by no Bag any more; a view already
    on that store, a page with no view and every other page stay as they are; and
    the registry stays well-formed. *)
Theorem change_connection_user_follows `{CoreRegistry} cid user fields connection r0 r u :
  core_change_connection_user cid user fields r0 = (Ok connection, r) →
  registry_wf r → user_register r !! user = Some u → is_Some (stores r !! user_store u) →
  (∀ pid, pid ∈ connection_pages connection → is_Some (page_register r !! pid)) →
  ∃ r', change_connection_user cid user fields r0 = (Ok connection, r') ∧ registry_wf r' ∧
    (∀ pid, pid ∈ connection_pages connection → followed (on_store (user_store u)) (user_store u) r r' pid) ∧
    (∀ pid, pid ∉ connection_pages connection → page_register r' !! pid = page_register r !! pid).
Proof.
  intros Hcore Hwf Hu Hs Hpages. unfold change_connection_user.
  rewrite pym_bind_unfold, Hcore, pym_bind_unfold. unfold py_reads. rewrite Hu.
  destruct (followers_loop (on_store (user_store u)) (user_store u)
    (elements (connection_pages connection)) r [] r) as (r' & Hr' & HF').
  - by apply followers_nil.
  - apply NoDup_elements.
  - done.
  - intros p Hp. apply elem_of_elements in Hp. auto.
  - exists r'. rewrite pym_bind_unfold, (py_for_ext _ _ _ _ (follow_owner_view (user_store u))), Hr'.
    split_and!; [done|apply HF'| |].
    + intros p Hp. apply (fo_gone _ _ _ _ _ HF'). by apply elem_of_elements.
    + intros p Hp. apply (fo_pages _ _ _ _ _ HF'). simpl. by rewrite elem_of_elements.
Qed.

(** ** Opening and widening a page's view *)

(** The links the walk from a page to its owner's store goes through. *)
Definition owner_chain (r : registry) (pid : string) (u : user_row) : Prop :=
  ∃ page c, page_register r !! pid = Some page ∧
    connection_register r !! page_connection_id page = Some c ∧
    user_register r !! connection_user c = Some u ∧ is_Some (stores r !! user_store u).

Definition subscribed_row (v : positive) (prefix : string) (page : page_row) : page_row :=
  set_user_view (Some v)
    (set_store_subscriptions ({[prefix]} ∪ page_store_subscriptions page) page).

(** The view a page watches after one more prefix: the one it had, widened, or a
    new one on the owner's store. *)
Definition view_grown (store : positive) (prefix : string) (r r' : registry)
    (page : page_row) (v : positive) : Prop :=
  ∃ c', views r' !! v = Some c' ∧
  match page_user_view page with
  | Some v0 => v = v0 ∧ ∃ c, views r !! v0 = Some c ∧ c' = subscribe_path prefix c
  | None => (v ∉ dom (views r)) ∧ c' = init store (Some {[prefix]})
  end.

(** A row and its view change what they watch together. *)
Lemma repath_step r pid page v c f paths :
  registry_wf r → page_register r !! pid = Some page → page_user_view page = Some v →
  views r !! v = Some c →
  (col_paths c = Some (page_store_subscriptions page) →
   col_paths (f c) = Some paths ∧ col_bag (f c) = col_bag c) →
  let row := set_store_subscriptions paths page in
  let r' := update_view v f (with_pages (<[pid := row]> (page_register r)) r) in
  registry_wf r' ∧ framed pid r r'.
Proof.
  intros Hwf Hp Hv Hc Hf row r'.
  assert (∀ q qq, page_register r' !! q = Some qq →
    (q = pid ∧ qq = row) ∨ (q ≠ pid ∧ page_register r !! q = Some qq)) as Hrows.
  { intros q qq. simpl. destruct (decide (q = pid)) as [->|]; [rewrite lookup_insert_eq; naive_solver|].
    rewrite lookup_insert_ne by done. auto. }
  pose proof (wf_views _ Hwf _ _ Hp) as HB. unfold view_bound in HB. rewrite Hv in HB.
  destruct HB as (c0 & Hc0 & Hps & HL). simplify_eq. destruct (Hf Hps) as [Hfp Hfb].
  split; [split|].
  - intros q qq [[-> ->]|[Hq Hqq]]%Hrows; unfold view_bound; simpl.
    + rewrite Hv. exists (f c). rewrite lookup_alter_eq, Hc. split_and!; [done|done|by rewrite Hfb].
    + pose proof (wf_views _ Hwf _ _ Hqq) as HB. unfold view_bound in HB.
      destruct (page_user_view qq) as [w|] eqn:Hw; [|done].
      rewrite lookup_alter_ne; [done|]. intros ->. apply Hq. by eapply (wf_views_inj _ Hwf q pid).
  - intros q1 q2 p1 p2 w [[-> ->]|[Hq1 H1]]%Hrows [[-> ->]|[Hq2 H2]]%Hrows Hv1 Hv2; try done;
      simpl in *; by eapply (wf_views_inj _ Hwf).
  - intros w l HLw. destruct (wf_listens _ Hwf w l HLw) as (c1 & Hc1 & <-). simpl.
    destruct (decide (v = w)) as [->|]; [|rewrite lookup_alter_ne by done; by exists c1].
    rewrite lookup_alter_eq, Hc1. simpl. assert (c1 = c) as -> by congruence. by exists (f c).
  - split; try done; simpl.
    + intros q Hq. by rewrite lookup_insert_ne.
    + rewrite dom_insert_lookup_L; eauto.
    + intros w Hw Hne. rewrite lookup_alter_ne; [done|]. intros ->. by eapply Hne.
Qed.

Lemma owner_chain_framed r r' pid u page row :
  framed pid r r' → page_register r !! pid = Some page → page_register r' !! pid = Some row →
  page_connection_id row = page_connection_id page → owner_chain r pid u → owner_chain r' pid u.
Proof.
  intros HF Hp Hp' Hc (page0 & c & H0 & H1 & H2 & H3). simplify_eq. exists row, c.
  rewrite Hc, (fr_connections _ _ _ HF), (fr_users _ _ _ HF). split_and!; try done.
  apply elem_of_dom. rewrite (fr_stores _ _ _ HF). by apply elem_of_dom.
Qed.

Lemma subscribe_step `{CoreRegistryLaws} pid prefix r page u :
  registry_wf r → page_register r !! pid = Some page → owner_chain r pid u →
  ∃ v r', subscribe_store_path pid prefix r = (Ok (subscribed_row v prefix page), r') ∧
    page_register r' !! pid = Some (subscribed_row v prefix page) ∧
    registry_wf r' ∧ framed pid r r' ∧ owner_chain r' pid u ∧
    view_grown (user_store u) prefix r r' page v.
Proof.
  intros Hwf Hp Hchain. pose proof Hchain as (page0 & c & Hp0 & Hc & Hu & Hs). simplify_eq.
  unfold subscribe_store_path. rewrite Hp. cbn [page_user_view set_store_subscriptions].
  pose proof (wf_views _ Hwf _ _ Hp) as HB. unfold view_bound in HB.
  destruct (page_user_view page) as [v|] eqn:Hv.
  - destruct HB as (cv & Hcv & Hps & HL).
    assert (subscribed_row v prefix page =
      set_store_subscriptions ({[prefix]} ∪ page_store_subscriptions page) page) as Hrow
      by (unfold subscribed_row, set_user_view, set_store_subscriptions; simpl; by rewrite Hv).
    destruct (repath_step r pid page v cv (subscribe_path prefix)
      ({[prefix]} ∪ page_store_subscriptions page) Hwf Hp Hv Hcv) as [Hwf' HF].
    { intros Hcp. simpl. by rewrite Hcp. }
    exists v. eexists. rewrite Hrow. split; [done|].
    split; [simpl; by rewrite lookup_insert_eq|]. split_and!; [done|done| |].
    + apply (owner_chain_framed _ _ _ _ page
        (set_store_subscriptions ({[prefix]} ∪ page_store_subscriptions page) page) HF Hp); [|done..].
      simpl. by rewrite lookup_insert_eq.
    + exists (subscribe_path prefix cv). simpl. rewrite lookup_alter_eq, Hcv, Hv. eauto.
  - rewrite page_user_walk. cbn [page_register connection_register user_register with_pages].
    rewrite lookup_insert_eq. cbn [page_connection_id set_store_subscriptions]. rewrite Hc, Hu.
    set (w := fresh (dom (views r))). assert (w ∉ dom (views r)) as Hw by apply is_fresh.
    set (f := subscribed_row w prefix).
    assert (leaves r page None) as Hold by done.
    assert (col_paths (init (user_store u) (Some {[prefix]})) =
      Some (page_store_subscriptions (f page))) as Hpaths.
    { simpl. by rewrite HB, union_empty_r_L. }
    exists w, (heap_step pid None (user_store u) w (init (user_store u) (Some {[prefix]})) f r).
    assert (page_register (heap_step pid None (user_store u) w (init (user_store u) (Some {[prefix]})) f r)
      !! pid = Some (f page)) as Hrow' by (simpl; by rewrite lookup_alter_eq, Hp).
    split; [|split; [done|]].
    { unfold new_collector, heap_step, bag_subscribe, with_stores, with_views, with_pages; simpl.
      do 2 f_equal. rewrite (alter_alt_Some _ _ _ _ Hp), insert_insert_eq. done. }
    assert (framed pid r (heap_step pid None (user_store u) w (init (user_store u) (Some {[prefix]})) f r))
      as HF by by apply (heap_step_framed pid None (user_store u) w _ f r page).
    split_and!; [|done| |].
    + by apply (heap_step_wf pid None (user_store u) w _ f r page).
    + by eapply (owner_chain_framed r _ pid u page (f page)).
    + eexists. split; [simpl; by rewrite lookup_insert_eq|]. by rewrite Hv.
Qed.

(** ** The parcel: what a move carries is what the woken row subscribes again *)

Lemma put_fields_step pid page f r :
  registry_wf r → page_register r !! pid = Some page →
  (∀ p, page_user_view (f p) = page_user_view p ∧
        page_store_subscriptions (f p) = page_store_subscriptions p ∧
        page_connection_id (f p) = page_connection_id p) →
  registry_wf (update_page pid f r) ∧ framed pid r (update_page pid f r) ∧
  page_register (update_page pid f r) !! pid = Some (f page) ∧
  (∀ u, owner_chain r pid u → owner_chain (update_page pid f r) pid u).
Proof.
  intros Hwf Hp Hf. set (r' := update_page pid f r).
  assert (page_register r' !! pid = Some (f page)) as Hp' by (simpl; by rewrite lookup_alter_eq, Hp).
  assert (framed pid r r') as HF.
  { split; try done; simpl; [intros; by rewrite lookup_alter_ne | by rewrite dom_alter_L]. }
  assert (∀ q qq, page_register r' !! q = Some qq → ∃ q0, page_register r !! q = Some q0 ∧
    page_user_view qq = page_user_view q0 ∧
    page_store_subscriptions qq = page_store_subscriptions q0) as Hrows.
  { intros q qq Hq. destruct (decide (q = pid)) as [->|Hne].
    - exists page. rewrite Hp' in Hq. simplify_eq. destruct (Hf page) as (-> & -> & _). done.
    - rewrite (fr_pages _ _ _ HF) in Hq by done. eauto. }
  split_and!; [|done|done|].
  - split.
    + intros q qq (q0 & Hq0 & Hv & Hs)%Hrows. pose proof (wf_views _ Hwf _ _ Hq0) as HB.
      unfold view_bound in *. by rewrite Hv, Hs.
    + intros p q pp qq v (p0 & Hp0 & Hvp & _)%Hrows (q0 & Hq0 & Hvq & _)%Hrows H1 H2.
      apply (wf_views_inj _ Hwf p q p0 q0 v Hp0 Hq0); congruence.
    + apply (wf_listens _ Hwf).
  - intros u Hu. apply (owner_chain_framed r r' pid u page (f page) HF Hp Hp'); [|done]. apply Hf.
Qed.

(** The row after its user-store prefixes have been subscribed again. *)
Definition resubscribed (vw : option positive) (prefixes : list string) (page : page_row)
    : page_row :=
  set_user_view vw
    (set_store_subscriptions (list_to_set prefixes ∪ page_store_subscriptions page) page).

(** What a step on the page [pid] leaves of everybody else's rows and views. *)
Definition others_kept (pid : string) (r r' : registry) : Prop :=
  user_register r' = user_register r ∧ connection_register r' = connection_register r ∧
  ∀ q, q ≠ pid → page_register r' !! q = page_register r !! q ∧
    ∀ qq v, page_register r !! q = Some qq → page_user_view qq = Some v → views r' !! v = views r !! v.

Lemma others_kept_refl pid r : others_kept pid r r.
Proof. by split_and!. Qed.

Lemma others_kept_trans pid r1 r2 r3 :
  others_kept pid r1 r2 → others_kept pid r2 r3 → others_kept pid r1 r3.
Proof.
  intros (Hu & Hc & Hp) (Hu' & Hc' & Hp'). split_and!; [congruence..|].
  intros q Hq. destruct (Hp q Hq) as [E V], (Hp' q Hq) as [E' V']. split; [congruence|].
  intros qq v Hqq Hv. rewrite (V' qq v); [by apply (V qq)| by rewrite E | done].
Qed.

(** A framed step of a well-formed registry touches no other page's view. *)
Lemma framed_others pid page r r' :
  registry_wf r → page_register r !! pid = Some page → framed pid r r' → others_kept pid r r'.
Proof.
  intros Hwf Hp HF. split_and!; [apply HF..|].
  intros q Hq. split; [by apply (fr_pages _ _ _ HF)|]. intros qq v Hqq Hv.
  apply (fr_views _ _ _ HF v).
  - pose proof (wf_views _ Hwf _ _ Hqq) as HB. unfold view_bound in HB. rewrite Hv in HB.
    destruct HB as (c & Hc & _). by apply elem_of_dom_2 in Hc.
  - intros pp Hpp Hv'. apply Hq. by apply (wf_views_inj _ Hwf q pid qq pp v).
Qed.

(** The collector a page's view is, with nothing pending, on [store]. *)
Definition fresh_view (store : positive) (r : registry) (v : positive) : Prop :=
  ∃ c, views r !! v = Some c ∧ col_bag c = store ∧ col_changes c = [].

(** The view a replay leaves on a row that came without one: none when no prefix
    was carried, else a collector on the owner's store, attached to it, watching
    exactly the carried prefixes, with nothing pending. *)
Definition view_rebuilt (store : positive) (r' : registry) (vw : option positive)
    (prefixes : list string) : Prop :=
  match prefixes with
  | [] => vw = None
  | _ => ∃ v c, vw = Some v ∧ views r' !! v = Some c ∧ col_bag c = store ∧ col_changes c = [] ∧
           col_paths c = Some (list_to_set prefixes) ∧ listens r' v store
  end.

Lemma replay_store_loop `{CoreRegistryLaws} pid prefixes r page u :
  registry_wf r → page_register r !! pid = Some page → owner_chain r pid u →
  ∃ r' vw,
    py_for prefixes (λ prefix, subscribe_store_path pid prefix ≫= λ _, mret ()) r = (Ok (), r') ∧
    registry_wf r' ∧ page_register r' !! pid = Some (resubscribed vw prefixes page) ∧
    others_kept pid r r' ∧
    ((∀ v, page_user_view page = Some v → fresh_view (user_store u) r v) →
     match page_user_view page with
     | Some v => vw = Some v ∧ fresh_view (user_store u) r' v
     | None => if prefixes is [] then vw = None else ∃ v, vw = Some v ∧ fresh_view (user_store u) r' v
     end).
Proof.
  revert r page. induction prefixes as [|prefix rest IH]; intros r page Hwf Hp Hch; simpl.
  { exists r, (page_user_view page). split_and!; try done.
    - rewrite Hp. f_equal. unfold resubscribed, set_user_view, set_store_subscriptions; simpl.
      rewrite union_empty_l_L. by destruct page.
    - intros Hv. destruct (page_user_view page) as [v|]; [|done]. split; [done|]. by apply Hv. }
  destruct (subscribe_step pid prefix r page u Hwf Hp Hch)
    as (v & r1 & Hr1 & Hp1 & Hwf1 & HF & Hch1 & Hgrow).
  destruct (IH r1 _ Hwf1 Hp1 Hch1) as (r' & vw & Hr' & Hwf' & Hp' & Ho & Hvw).
  exists r', vw. rewrite !pym_bind_unfold, Hr1. split; [done|]. split; [done|]. split_and!.
  - rewrite Hp'. f_equal. unfold resubscribed, subscribed_row, set_user_view, set_store_subscriptions.
    simpl. f_equal. set_solver.
  - eapply others_kept_trans; [by eapply framed_others|done].
  - destruct Hgrow as (c' & Hc' & Hg). intros Hv.
    assert (vw = Some v ∧ fresh_view (user_store u) r' v) as [-> Hc].
    { apply Hvw. intros v' [= <-].
      exists c'. split; [done|]. destruct (page_user_view page) as [v0|].
      - destruct Hg as (-> & c & Hc & ->). destruct (Hv v0 eq_refl) as (c2 & Hc2 & Hb & Hn).
        simplify_eq. done.
      - by destruct Hg as [_ ->]. }
    destruct (page_user_view page) as [v0|]; [by destruct Hg as [-> _] | eauto].
Qed.

(** Of a well-formed row that watched nothing, the loop's view is the rebuilt one. *)
Lemma view_rebuilt_wf store r' pid prefixes page vw :
  registry_wf r' → page_store_subscriptions page = ∅ →
  page_register r' !! pid = Some (resubscribed vw prefixes page) →
  (if prefixes is [] then vw = None else ∃ v, vw = Some v ∧ fresh_view store r' v) →
  view_rebuilt store r' vw prefixes.
Proof.
  intros Hwf He Hp. unfold view_rebuilt. destruct prefixes as [|prefix rest]; [done|].
  intros (v & -> & c & Hc & Hb & Hn). exists v, c.
  destruct (wf_views _ Hwf _ _ Hp) as (c' & Hc' & Hps & HL). simpl in Hps. simplify_eq.
  split_and!; try done. rewrite Hps, He. f_equal. set_solver.
Qed.

(** C12: a woken page captures what it captured before it went to the deposit: the
    replay of its parcel leaves on the row the carried tables, own-store prefixes
    and user-store prefixes; when user-store prefixes were carried, one view, attached
    to the owner's store, watching exactly those prefixes with nothing pending, and
    when none was carried no view at all; a well-formed registry; and the user rows,
    the connection rows, every other page's row and view as they were. *)
Theorem replay_restores `{CoreRegistryLaws} pid fields r page u :
  registry_wf r → page_register r !! pid = Some page → owner_chain r pid u →
  page_user_view page = None →
  ∃ r' vw, replay_fields pid fields r = (Ok (), r') ∧ registry_wf r' ∧
    page_register r' !! pid = Some
      (resubscribed vw (parcel_store_subscriptions fields)
        (set_subscribed_paths
          (list_to_set (parcel_subscribed_paths fields) ∪ page_subscribed_paths page)
          (set_table_subscriptions
            (list_to_set (parcel_table_subscriptions fields) ∪ page_table_subscriptions page)
            page))) ∧
    view_rebuilt (user_store u) r' vw (parcel_store_subscriptions fields) ∧
    others_kept pid r r'.
Proof.
  intros Hwf Hp Hch Hv. unfold replay_fields. rewrite !pym_bind_unfold. unfold py_modify.
  rewrite pym_bind_unfold.
  set (f1 := λ p, set_table_subscriptions _ p). set (f2 := λ p, set_subscribed_paths _ p).
  destruct (put_fields_step pid page f1 r Hwf Hp ltac:(done)) as (Hwf1 & HF1 & Hp1 & Hch1).
  destruct (put_fields_step pid _ f2 _ Hwf1 Hp1 ltac:(done)) as (Hwf2 & HF2 & Hp2 & Hch2).
  destruct (replay_store_loop pid (parcel_store_subscriptions fields) _ _ u Hwf2 Hp2 (Hch2 _ (Hch1 _ Hch)))
    as (r' & vw & Hr' & Hwf' & Hp' & Ho & Hvw).
  exists r', vw. split; [done|]. split; [done|]. split; [done|].
  pose proof (wf_views _ Hwf _ _ Hp) as HB. unfold view_bound in HB. rewrite Hv in HB. split.
  - eapply view_rebuilt_wf; [done| |exact Hp'|]; [done|].
    simpl in Hvw. rewrite Hv in Hvw. by apply Hvw.
  - eapply others_kept_trans; [by eapply framed_others|].
    eapply others_kept_trans; [by eapply framed_others|done].
Qed.

(** ** A write on a Bag reaches the queues that watch it, once each *)

Section writes.
Context `{BagApi}.

(** The change an event leaves on a page's queue. *)
Definition page_change (now : Z) (e : node_event) : change :=
  let delete := bool_decide (ev_evt e = "del") in
  Change (ChangeKey (event_path e) (Some "serverChange") (fired_flag (ev_attr e)))
    (if delete then VNone else ev_value e) (or_none (dict_pop "_fired" (ev_attr e))) delete now 0
    None.

Definition page_hears (page : page_row) (e : node_event) : Prop :=
  ev_reason e ≠ Some "autocreate" ∧ page_captures page (event_path e) = true.

#[local] Instance page_hears_dec page e : Decision (page_hears page e).
Proof. unfold page_hears. solve_decision. Defined.

Lemma page_on_event_eq now e page :
  page_on_event now e page =
    if decide (page_hears page e)
    then append_page_datachange now false (page_change now e) page else page.
Proof.
  unfold page_on_event. destruct (decide (page_hears page e)) as [[Ha Hc]|Hn].
  - by rewrite decide_False, Hc.
  - case_decide as Ha; [done|]. destruct (page_captures page (event_path e)) eqn:Hc; [|done].
    by destruct Hn.
Qed.

Lemma page_on_events_spec now evs page :
  let heard := filter (page_hears page) evs in
  foldl (λ p e, page_on_event now e p) page evs =
    set_queue
      (page_datachanges page ++
        map (set_arrival_ts now)
          (number_from (page_datachanges_idx page + 1) (map (page_change now) heard)))
      (page_datachanges_idx page + Z.of_nat (length heard)) page.
Proof.
  revert page. induction evs as [|e evs IH]; intros page; cbn [foldl].
  { destruct page; unfold set_queue; simpl. rewrite app_nil_r. f_equal; lia. }
  rewrite IH, page_on_event_eq, filter_cons. clear IH. case_decide as Hh; [|done].
  unfold append_page_datachange; simpl.
  rewrite (list_filter_iff _ (page_hears page)) by done.
  unfold set_queue; simpl. rewrite <- app_assoc. simpl. f_equal; lia.
Qed.

Lemma dispatch_one_stores now e r s : stores (dispatch_one now e r s) = stores r.
Proof. by destruct s. Qed.

Lemma dispatch_events_stores now l evs r : stores (foldl (dispatch now l) r evs) = stores r.
Proof.
  revert r. induction evs as [|e evs IH]; intros r; [done|]. simpl. rewrite IH.
  unfold dispatch. destruct (stores r !! l) as [o|]; [|done]. generalize (bo_subs o). intros subs.
  revert r. clear IH. induction subs as [|s subs IH]; intros r; [done|].
  simpl. by rewrite IH, dispatch_one_stores.
Qed.

Lemma on_bag_stores now l f r o :
  stores r !! l = Some o →
  stores (on_bag now l f r) = <[l := BagObject (f (bo_nodes o)).1 (bo_subs o)]> (stores r).
Proof.
  intros Ho. unfold on_bag. rewrite Ho. destruct (f (bo_nodes o)) as [nodes evs].
  by rewrite dispatch_events_stores.
Qed.

Lemma dispatch_subs now e subs r :
  NoDup subs →
  let r' := foldl (dispatch_one now e) r subs in
  stores r' = stores r ∧
  (∀ p page, page_register r !! p = Some page →
     page_register r' !! p =
       Some (if decide (SubPage p ∈ subs) then page_on_event now e page else page)) ∧
  (∀ v c, views r !! v = Some c →
     views r' !! v = Some (if decide (SubView v ∈ subs) then _on_event now c e else c)).
Proof.
  intros HND. revert r. induction HND as [|s subs Hs HND IH]; intros r; cbn [foldl].
  { split_and!; [done| |]; intros; rewrite decide_False; done || apply not_elem_of_nil. }
  destruct (IH (dispatch_one now e r s)) as (H1 & H2 & H3).
  split_and!; [by rewrite H1, dispatch_one_stores| |].
  - intros p page Hp. destruct (decide (s = SubPage p)) as [->|Hne].
    + rewrite (H2 p (page_on_event now e page)) by (simpl; by rewrite lookup_alter_eq, Hp).
      by rewrite (decide_True (P := SubPage p ∈ _ :: _)), decide_False by (done || left).
    + rewrite (H2 p page).
      * f_equal. apply decide_ext. rewrite elem_of_cons. naive_solver.
      * destruct s; simpl; [|done]. rewrite lookup_alter_ne; [done | congruence].
  - intros v c Hv. destruct (decide (s = SubView v)) as [->|Hne].
    + rewrite (H3 v (_on_event now c e)) by (simpl; by rewrite lookup_alter_eq, Hv).
      by rewrite (decide_True (P := SubView v ∈ _ :: _)), decide_False by (done || left).
    + rewrite (H3 v c).
      * f_equal. apply decide_ext. rewrite elem_of_cons. naive_solver.
      * destruct s; simpl; [done|]. rewrite lookup_alter_ne; [done | congruence].
Qed.

Lemma dispatch_events now l o evs r :
  stores r !! l = Some o → NoDup (bo_subs o) →
  let r' := foldl (dispatch now l) r evs in
  stores r' = stores r ∧
  (∀ p page, page_register r !! p = Some page →
     page_register r' !! p =
       Some (if decide (SubPage p ∈ bo_subs o)
             then foldl (λ q e, page_on_event now e q) page evs else page)) ∧
  (∀ v c, views r !! v = Some c →
     views r' !! v =
       Some (if decide (SubView v ∈ bo_subs o) then foldl (_on_event now) c evs else c)).
Proof.
  intros Ho HND. revert r Ho. induction evs as [|e evs IH]; intros r Ho; cbn [foldl].
  { split_and!; [done| |]; intros; by case_decide. }
  assert (dispatch now l r e = foldl (dispatch_one now e) r (bo_subs o)) as ->
    by (unfold dispatch; by rewrite Ho).
  destruct (dispatch_subs now e (bo_subs o) r HND) as (H1 & H2 & H3).
  destruct (IH (foldl (dispatch_one now e) r (bo_subs o))) as (G1 & G2 & G3); [by rewrite H1|].
  split_and!; [by rewrite G1| |].
  - intros p page Hp. rewrite (G2 p _ (H2 p page Hp)). by case_decide.
  - intros v c Hv. rewrite (G3 v _ (H3 v c Hv)). by case_decide.
Qed.

Lemma on_bag_spec now l f r o nodes evs :
  stores r !! l = Some o → NoDup (bo_subs o) → f (bo_nodes o) = (nodes, evs) →
  let r' := on_bag now l f r in
  stores r' = <[l := BagObject nodes (bo_subs o)]> (stores r) ∧
  (∀ p page, page_register r !! p = Some page →
     let heard := filter (page_hears page) evs in
     page_register r' !! p = Some
       (if decide (SubPage p ∈ bo_subs o)
        then set_queue
               (page_datachanges page ++
                 map (set_arrival_ts now)
                   (number_from (page_datachanges_idx page + 1) (map (page_change now) heard)))
               (page_datachanges_idx page + Z.of_nat (length heard)) page
        else page)) ∧
  (∀ v c, views r !! v = Some c → ∃ c', views r' !! v = Some c' ∧
     col_changes c' =
       if decide (SubView v ∈ bo_subs o)
       then col_changes c ++ number_from (col_change_idx c + 1)
              (map (event_change now) (filter (λ e, _captures c (event_path e) = true) evs))
       else col_changes c).
Proof.
  intros Ho HND Hf r'. unfold r', on_bag. rewrite Ho, Hf.
  set (r1 := with_stores _ r).
  destruct (dispatch_events now l (BagObject nodes (bo_subs o)) evs r1) as (H1 & H2 & H3).
  { simpl. by rewrite lookup_insert_eq. }
  { done. }
  split_and!; [by rewrite H1| |].
  - intros p page Hp. rewrite (H2 p page Hp). simpl. by rewrite page_on_events_spec.
  - intros v c Hv. eexists. split; [apply (H3 v c Hv)|]. simpl. case_decide; [|done].
    apply on_events_spec.
Qed.

(** C13: one write on a Bag reaches every queue that watches it, once per event and
    in the order of the events: the page row subscribed to it queues, numbered on
    and stamped with the arrival, the events that are not autocreate and fall
    under one of its prefixes; a view queues those under its own; a row or a view
    that is not subscribed to that Bag, and every other Bag, do not move. *)
Theorem write_reaches_watchers now l f r o nodes evs :
  stores r !! l = Some o → NoDup (bo_subs o) → f (bo_nodes o) = (nodes, evs) →
  let r' := on_bag now l f r in
  stores r' = <[l := BagObject nodes (bo_subs o)]> (stores r) ∧
  (∀ p page, page_register r !! p = Some page →
     let heard := filter (page_hears page) evs in
     page_register r' !! p = Some
       (if decide (SubPage p ∈ bo_subs o)
        then set_queue
               (page_datachanges page ++
                 map (set_arrival_ts now)
                   (number_from (page_datachanges_idx page + 1) (map (page_change now) heard)))
               (page_datachanges_idx page + Z.of_nat (length heard)) page
        else page)) ∧
  (∀ v c, views r !! v = Some c → ∃ c', views r' !! v = Some c' ∧
     col_changes c' =
       if decide (SubView v ∈ bo_subs o)
       then col_changes c ++ number_from (col_change_idx c + 1)
              (map (event_change now) (filter (λ e, _captures c (event_path e) = true) evs))
       else col_changes c).
Proof. apply on_bag_spec. Qed.
End writes.

(** ** A decision procedure for the invariant, and the concrete registry of the witnesses *)

Definition view_of (o : bag_object) (v : positive) : Prop := SubView v ∈ bo_subs o.

Definition bound_check (r : registry) (page : page_row) : bool :=
  match page_user_view page with
  | None => bool_decide (page_store_subscriptions page = ∅)
  | Some v =>
      match views r !! v with
      | None => false
      | Some c =>
          bool_decide (col_paths c = Some (page_store_subscriptions page)) &&
          match stores r !! col_bag c with
          | None => false
          | Some o => bool_decide (SubView v ∈ bo_subs o)
          end
      end
  end.

Definition subs_check (r : registry) (l : positive) (o : bag_object) : bool :=
  forallb (λ s, match s with
                | SubPage _ => true
                | SubView v => bool_decide (col_bag <$> views r !! v = Some l)
                end) (bo_subs o).

Definition registry_check (r : registry) : bool :=
  bool_decide (map_Forall (λ _ page, bound_check r page = true) (page_register r)) &&
  bool_decide (map_Forall (λ p pp, map_Forall (λ q qq,
    p = q ∨ page_user_view pp = None ∨ page_user_view pp ≠ page_user_view qq)
    (page_register r)) (page_register r)) &&
  bool_decide (map_Forall (λ l o, subs_check r l o = true) (stores r)).

Lemma registry_check_wf r : registry_check r = true → registry_wf r.
Proof.
  unfold registry_check. intros H. bools. split.
  - intros p page Hp. assert (bound_check r page = true) as HB by eauto.
    unfold bound_check in HB. unfold view_bound. branch; bools.
    eexists. split_and!; [done|done|]. unfold listens. eauto.
  - intros p q pp qq v Hp Hq Hv1 Hv2.
    match goal with H : map_Forall _ (page_register r) |- _ =>
      destruct (H p pp Hp q qq Hq) as [?|[?|?]]; congruence end.
  - intros v l (o & Ho & Hin). assert (subs_check r l o = true) as HS by eauto.
    unfold subs_check in HS. rewrite forallb_forall in HS.
    specialize (HS (SubView v)). rewrite <- list_elem_of_In in HS. specialize (HS Hin). bools.
    destruct (views r !! v); simplify_eq/=; eauto.
Qed.

Module RegistryWitness.
#[local] Existing Instance Witness.flat_bag.

(** The core's own re-labelling: the connection takes the user's name. *)
#[local] Instance plain_core : CoreRegistry := {|
  page_user page_id r :=
    match page_register r !! page_id with
    | None => Raise KeyError
    | Some p =>
        match connection_register r !! page_connection_id p with
        | None => Raise TypeError
        | Some c => Ok (connection_user c)
        end
    end;
  core_change_connection_user cid user fields r :=
    match connection_register r !! cid with
    | None => (Raise KeyError, r)
    | Some c =>
        let c' := ConnectionRow (connection_register_item_id c) user (connection_pages c)
                    (fields ∪ connection_fields c) (connection_data c) in
        (Ok c', MkRegistry (user_register r) (<[cid := c']> (connection_register r))
                  (page_register r) (stores r) (views r))
    end
|}.

Lemma plain_core_laws : CoreRegistryLaws.
Proof. split. done. Qed.

Definition one_change : change :=
  Change (ChangeKey "prefs.theme" None false) (VStr "dark") None false 5 1 None.

(** A guest with one page watching its store, and the user it logs in as. *)
Definition login_registry : registry :=
  MkRegistry
    {["guest" := UserRow "guest" 1 {["c1"]} ∅; "anna" := UserRow "anna" 2 ∅ ∅]}
    {["c1" := ConnectionRow "c1" "guest" {["p1"; "p2"]} ∅ None]}
    {["p1" := PageRow "p1" "c1" 3 [] 0 (Some 7%positive) {["gui"]} {["prefs"]} ∅ ∅;
      "p2" := PageRow "p2" "c1" 4 [] 0 None ∅ ∅ ∅ ∅]}
    {[1%positive := BagObject [] [SubView 7]; 2%positive := BagObject [] [];
      3%positive := BagObject [] [SubPage "p1"]; 4%positive := BagObject [] [SubPage "p2"]]}
    {[7%positive := Collector 1 (Some {["prefs"]}) [one_change] 1]}.

Lemma login_registry_wf : registry_wf login_registry.
Proof. apply registry_check_wf. by vm_compute. Qed.

Definition logged_in : registry := (core_change_connection_user "c1" "anna" ∅ login_registry).2.

Lemma logged_in_wf : registry_wf logged_in.
Proof. apply registry_check_wf. by vm_compute. Qed.

Lemma change_connection_user_follows_witness :
  ∃ r', change_connection_user "c1" "anna" ∅ login_registry =
          (Ok (ConnectionRow "c1" "anna" {["p1"; "p2"]} ∅ None), r') ∧
        followed (on_store 2) 2 logged_in r' "p1".
Proof.
  destruct (change_connection_user_follows "c1" "anna" ∅
    (ConnectionRow "c1" "anna" {["p1"; "p2"]} ∅ None) login_registry logged_in (UserRow "anna" 2 ∅ ∅))
    as (r' & Hr' & _ & Hf & _).
  - by vm_compute.
  - apply logged_in_wf.
  - by vm_compute.
  - vm_compute. eauto.
  - intros pid Hpid. assert (pid = "p1" ∨ pid = "p2") as [->| ->] by set_solver; vm_compute; eauto.
  - exists r'. split; [exact Hr'|]. apply Hf. set_solver.
Defined.

Lemma replay_restores_witness :
  ∃ r' vw, replay_fields "p2" (ParcelFields ["t.a"] ["gui"] ["prefs"; "x.y"]) login_registry = (Ok (), r') ∧
    view_rebuilt 1 r' vw ["prefs"; "x.y"].
Proof.
  pose proof plain_core_laws as HL.
  destruct (replay_restores "p2" (ParcelFields ["t.a"] ["gui"] ["prefs"; "x.y"]) login_registry
    (PageRow "p2" "c1" 4 [] 0 None ∅ ∅ ∅ ∅) (UserRow "guest" 1 {["c1"]} ∅))
    as (r' & vw & Hr' & _ & _ & Hv & _).
  - apply login_registry_wf.
  - by vm_compute.
  - exists (PageRow "p2" "c1" 4 [] 0 None ∅ ∅ ∅ ∅), (ConnectionRow "c1" "guest" {["p1"; "p2"]} ∅ None).
    split_and!; vm_compute; eauto.
  - done.
  - exists r', vw. split; [exact Hr' | exact Hv].
Defined.

Lemma write_reaches_watchers_witness :
  col_changes <$> views (on_bag 9 1
    (λ b, bag_setItem b "prefs.lang" (VStr "it") None (Some "x")) login_registry) !! 7%positive
  = Some [one_change;
      Change (ChangeKey "prefs.lang" (Some "x") false) (VStr "it") None false 9 2 None].
Proof.
  destruct (write_reaches_watchers 9 1
    (λ b, bag_setItem b "prefs.lang" (VStr "it") None (Some "x")) login_registry
    (BagObject [] [SubView 7]) [("prefs.lang", VStr "it", [])]
    [NodeEvent "ins" ["prefs"] "lang" (VStr "it") [] (Some "x")]) as (_ & _ & HV).
  - by vm_compute.
  - apply NoDup_singleton.
  - by vm_compute.
  - destruct (HV 7%positive (Collector 1 (Some {["prefs"]}) [one_change] 1)) as (c' & Hc' & Hch);
      [by vm_compute|].
    rewrite Hc'. simpl. rewrite Hch. by vm_compute.
Defined.
End RegistryWitness.
End Registry.
