(* ===== verification/GenropySpaCommander.v ===== *)
(** * GenropySpaCommander: the vertex with the desk of a hosted site

    src/genropy_asgi/spa/genropy_spa_commander.py, and the order its pushes land
    on, [DeliveryOrders.subscribed_tables] of genropy_worker.py.  The vertex is
    the desk, the core's population maps and the push tasks; every verb is a
    definition, and the pushes - created, sent, delivered, lost - are steps of a
    relation over the vertex, the wires and the processes' source filters.  The
    core commander (genro-asgi) is the class [CoreCommander]. *)

From S2P Require Export DeliveryDesk.

Module Commander.
Import Index Desk.

(** ** The vertex *)

(** The core commander's own maps, as far as the bridge reads them. *)
Record core_maps : Type := CoreMaps {
  user_map : gset string;
  page_connection_map : gmap string string
}.

Record vertex : Type := MkVertex {
  delivery_desk : desk;
  core : core_maps;
  group_map : list (string * list string);        (* a group and its living workers *)
  subscribed_tables_push_tasks : list string      (* one per push not yet sent: its worker *)
}.

Definition with_desk (d : desk) (v : vertex) : vertex :=
  MkVertex d (core v) (group_map v) (subscribed_tables_push_tasks v).
Definition with_core (c : core_maps) (v : vertex) : vertex :=
  MkVertex (delivery_desk v) c (group_map v) (subscribed_tables_push_tasks v).
Definition with_groups (g : list (string * list string)) (v : vertex) : vertex :=
  MkVertex (delivery_desk v) (core v) g (subscribed_tables_push_tasks v).
Definition with_tasks (t : list string) (v : vertex) : vertex :=
  MkVertex (delivery_desk v) (core v) (group_map v) t.

Definition living_workers (v : vertex) : list string := concat (map snd (group_map v)).

(** [__init__]: the desk is born before the core's constructor runs. *)
Definition new_commander (c : core_maps) : vertex := MkVertex new_desk c [] [].

(** The core commander's verbs: third-party, parameters.  [core_drop_user] is
    given the vertex's own [drop_connection], which the core's demolition calls. *)
Class CoreCommander : Type := {
  core_on_new_page : string → core_maps → core_maps;
  core_drop_page : string → core_maps → core_maps;
  core_drop_connection : string → core_maps → core_maps;
  core_drop_user : (string → vertex → vertex) → string → vertex → bool * vertex;
  core_user_connections : string → vertex → list string;
  core_pool_census : Type;
  core_get_pool_census : core_maps → core_pool_census
}.

(** What the bridge's docstrings say of them. *)
Class CoreCommanderLaws `{CoreCommander} : Prop := {
  core_drop_connection_pages : ∀ cid m,
    page_connection_map (core_drop_connection cid m) =
      filter (λ po : string * string, po.2 ≠ cid) (page_connection_map m);
  core_drop_user_demolishes : ∀ dc user v,
    (core_drop_user dc user v).2 =
      with_core (core (core_drop_user dc user v).2)
        (foldl (λ v cid, dc cid v) v (core_user_connections user v))
}.

Section verbs.
Context `{CoreCommander}.

(** [push_subscribed_tables]: a task of its own, awaited by nobody. *)
Definition push_subscribed_tables (worker : string) (v : vertex) : vertex :=
  with_tasks (subscribed_tables_push_tasks v ++ [worker]) v.

Definition on_worker_presented (worker : string) (v : vertex) : vertex :=
  push_subscribed_tables worker v.

Definition broadcast_subscribed_tables (v : vertex) : vertex :=
  foldl (λ v group, foldl (λ v worker, push_subscribed_tables worker v) v (snd group))
    v (group_map v).

(** [DeliveryDesk._announce_subscribed_tables], where a desk verb calls it. *)
Definition _announce_subscribed_tables (announced : bool) (v : vertex) : vertex :=
  if announced then broadcast_subscribed_tables v else v.

Definition record_page_table_subscriptions (page_id : string) (tables : list string) (v : vertex)
    : vertex :=
  let '(announced, d) := Desk.record_page_table_subscriptions page_id tables (delivery_desk v) in
  _announce_subscribed_tables announced (with_desk d v).

(** [GenropyCommanderEnvelopeHandler.on_new_page]. *)
Definition on_new_page (page_id : string) (tables : list string) (v : vertex) : vertex :=
  record_page_table_subscriptions page_id tables
    (with_core (core_on_new_page page_id (core v)) v).

(** The desk's route, with its announcement. *)
Definition subscribe_table (page_id table : string) (flag : bool) (v : vertex)
    : subscription_reply * vertex :=
  let '(reply, announced, d) := Desk.subscribe_table page_id table flag (delivery_desk v) in
  (reply, _announce_subscribed_tables announced (with_desk d v)).

Definition desk_drop_page (page_id : string) (v : vertex) : vertex :=
  let '(announced, d) := Desk.drop_page page_id (delivery_desk v) in
  _announce_subscribed_tables announced (with_desk d v).

Definition drop_page (page_id : string) (v : vertex) : vertex :=
  desk_drop_page page_id (with_core (core_drop_page page_id (core v)) v).

Definition pages_of_connection (cid : string) (m : core_maps) : list string :=
  map fst (filter (λ po : string * string, po.2 = cid) (map_to_list (page_connection_map m))).

Definition drop_connection (cid : string) (v : vertex) : vertex :=
  let page_ids := pages_of_connection cid (core v) in
  let v := with_core (core_drop_connection cid (core v)) v in
  foldl (λ v page_id, desk_drop_page page_id v) v page_ids.

Definition drop_user (user : string) (v : vertex) : bool * vertex :=
  let '(had_state, v) := core_drop_user drop_connection user v in
  (had_state, with_desk (Desk.drop_user user (delivery_desk v)) v).

Definition get_pool_census (v : vertex) : core_pool_census * desk_census :=
  (core_get_pool_census (core v), census (delivery_desk v)).
End verbs.

(** ** What a broadcast leaves: one push per living worker *)

Lemma push_all_tasks ws v :
  foldl (λ v worker, push_subscribed_tables worker v) v ws =
    with_tasks (subscribed_tables_push_tasks v ++ ws) v.
Proof.
  revert v. induction ws as [|w ws IH]; intros v; simpl.
  - rewrite app_nil_r. by destruct v.
  - rewrite IH. unfold push_subscribed_tables, with_tasks; simpl. by rewrite <- app_assoc.
Qed.

Lemma broadcast_tasks v :
  broadcast_subscribed_tables v =
    with_tasks (subscribed_tables_push_tasks v ++ living_workers v) v.
Proof.
  unfold broadcast_subscribed_tables, living_workers. generalize (group_map v) as gs.
  intros gs. revert v. induction gs as [|[g ws] gs IH]; intros v; simpl.
  - rewrite app_nil_r. by destruct v.
  - rewrite push_all_tasks, IH. unfold with_tasks; simpl. by rewrite <- app_assoc.
Qed.

Lemma announce_desk b v : delivery_desk (_announce_subscribed_tables b v) = delivery_desk v.
Proof. unfold _announce_subscribed_tables. destruct b; [by rewrite broadcast_tasks | done]. Qed.

Lemma announce_groups b v : group_map (_announce_subscribed_tables b v) = group_map v.
Proof. unfold _announce_subscribed_tables. destruct b; [by rewrite broadcast_tasks | done]. Qed.

(** A vertex that moved, told everybody if the set of tables moved. *)
Definition tables_of (v : vertex) : gset string := known_tables (page_subscriptions (delivery_desk v)).

Record told (v v' : vertex) : Prop := Told {
  told_groups : group_map v' = group_map v;
  told_tasks : ∃ more, subscribed_tables_push_tasks v' = subscribed_tables_push_tasks v ++ more ∧
    (tables_of v' ≠ tables_of v → ∀ w, w ∈ living_workers v → w ∈ more)
}.

#[export] Instance told_preorder : PreOrder told.
Proof.
  split.
  - intros v. split; [done|]. exists []. rewrite app_nil_r. by split; [|intros []].
  - intros v1 v2 v3 [G1 (m1 & T1 & L1)] [G2 (m2 & T2 & L2)]. split; [congruence|].
    exists (m1 ++ m2). rewrite T2, T1, app_assoc. split; [done|]. intros Hne w Hw.
    apply elem_of_app. destruct (decide (tables_of v2 = tables_of v1)) as [He|He].
    + right. apply L2; [congruence|]. unfold living_workers in *. by rewrite G1.
    + left. by apply L1.
Qed.

(** A desk mutator with its announcement tells everybody, when the flag it
    answers is the one [Desk.announced_iff_moved] promises. *)
Lemma announce_told b d v :
  b = bool_decide (known_tables (page_subscriptions d) ≠ tables_of v) →
  told v (_announce_subscribed_tables b (with_desk d v)).
Proof.
  intros Hb. split; [by rewrite announce_groups|].
  unfold tables_of at 1. rewrite announce_desk. simpl. unfold _announce_subscribed_tables.
  destruct b.
  - rewrite broadcast_tasks. eexists. split; [done|]. by intros _.
  - exists []. rewrite app_nil_r. split; [done|]. symmetry in Hb. intros Hne. bools. tauto.
Qed.

Lemma core_told c v : told v (with_core c v).
Proof. split; [done|]. exists []. rewrite app_nil_r. split; [done|]. by intros []. Qed.
#[export] Hint Resolve core_told announce_told : gnr.

(** ** Every verb of the vertex tells everybody what moved *)

Lemma moved_tables v d : moved (delivery_desk v) d = bool_decide (known_tables (page_subscriptions d) ≠ tables_of v).
Proof. done. Qed.

Lemma foldl_told {A} (f : A → vertex → vertex) l v :
  (∀ x v, told v (f x v)) → told v (foldl (λ v x, f x v) v l).
Proof. intros Hf. revert v. induction l as [|x l IH]; intros v; simpl; [done|]. by etrans; [apply Hf|]. Qed.

Section told.
Context `{CoreCommander}.

Lemma record_told p ts v : told v (record_page_table_subscriptions p ts v).
Proof.
  unfold record_page_table_subscriptions. pose proof (record_announced p ts (delivery_desk v)) as HA.
  destruct (Desk.record_page_table_subscriptions p ts (delivery_desk v)). by apply announce_told.
Qed.

Lemma on_new_page_told p ts v : told v (on_new_page p ts v).
Proof. unfold on_new_page. by etrans; [apply core_told | apply record_told]. Qed.

Lemma subscribe_table_told p t b v : told v (subscribe_table p t b v).2.
Proof.
  unfold subscribe_table. pose proof (subscribe_announced p t b (delivery_desk v)) as HA.
  destruct (Desk.subscribe_table p t b (delivery_desk v)) as [[? ?] ?]. by apply announce_told.
Qed.

Lemma desk_drop_page_told p v : told v (desk_drop_page p v).
Proof.
  unfold desk_drop_page. pose proof (drop_announced p (delivery_desk v)) as HA.
  destruct (Desk.drop_page p (delivery_desk v)). by apply announce_told.
Qed.

Lemma drop_page_told p v : told v (drop_page p v).
Proof. unfold drop_page. by etrans; [apply core_told | apply desk_drop_page_told]. Qed.

Lemma drop_connection_told cid v : told v (drop_connection cid v).
Proof.
  unfold drop_connection. etrans; [apply core_told|]. apply foldl_told, desk_drop_page_told.
Qed.

Lemma drop_user_told `{!CoreCommanderLaws} user v : told v (drop_user user v).2.
Proof.
  unfold drop_user. pose proof (core_drop_user_demolishes drop_connection user v) as HL.
  destruct (core_drop_user drop_connection user v) as [b v']; simpl in *.
  transitivity v'; [|split; [done|]; exists []; rewrite app_nil_r; split; [done | by intros []]].
  rewrite HL. etrans; [|apply core_told]. apply foldl_told, drop_connection_told.
Qed.
End told.

(** ** The pushes, as steps of the whole pool *)

(** [DeliveryOrders.subscribed_tables]: the order replaces the worker's filter. *)
Definition orders_subscribed_tables (tables : list string) : gset string := list_to_set tables.

Record pool : Type := MkPool {
  pl_vertex : vertex;
  pl_wires : gmap string (list (list string));  (* what is on the way to each worker *)
  pl_filters : gmap string (gset string);       (* each worker's [subscribed_tables] *)
  pl_unreached : gset string                    (* whose last push found no wire *)
}.

Definition new_pool (c : core_maps) : pool := MkPool (new_commander c) ∅ ∅ ∅.

Inductive verb : Type :=
| NewPage (page_id : string) (tables : list string)
| SubscribeTable (page_id table : string) (flag : bool)
| DropPage (page_id : string)
| DropConnection (cid : string)
| DropUser (user : string).

Definition run_verb `{CoreCommander} (vb : verb) (v : vertex) : vertex :=
  match vb with
  | NewPage p ts => on_new_page p ts v
  | SubscribeTable p t b => (subscribe_table p t b v).2
  | DropPage p => drop_page p v
  | DropConnection cid => drop_connection cid v
  | DropUser u => (drop_user u v).2
  end.

(** [_push_subscribed_tables]: the set is read when the task runs; a wire that is
    gone is left alone. *)
Definition _push_subscribed_tables (reached : bool) (worker : string) (s : pool) : pool :=
  let tables := subscribed_tables (delivery_desk (pl_vertex s)) in
  if reached
  then MkPool (pl_vertex s) (<[worker := queue_of (pl_wires s) worker ++ [tables]]> (pl_wires s))
         (pl_filters s) (pl_unreached s ∖ {[worker]})
  else MkPool (pl_vertex s) (pl_wires s) (pl_filters s) ({[worker]} ∪ pl_unreached s).

Definition with_vertex (v : vertex) (s : pool) : pool :=
  MkPool v (pl_wires s) (pl_filters s) (pl_unreached s).

(** The core's own births and deaths of workers, then the seam it calls. *)
Definition present_worker (groups : list (string * list string)) (worker : string) (s : pool) : pool :=
  MkPool (on_worker_presented worker (with_groups groups (pl_vertex s)))
    (<[worker := []]> (pl_wires s)) (<[worker := ∅]> (pl_filters s)) (pl_unreached s ∖ {[worker]}).

Definition deliver (worker : string) (tables : list string) (rest : list (list string)) (s : pool)
    : pool :=
  MkPool (pl_vertex s) (<[worker := rest]> (pl_wires s))
    (<[worker := orders_subscribed_tables tables]> (pl_filters s)) (pl_unreached s).

Section pool.
Context `{CoreCommander}.

Inductive pool_step : pool → pool → Prop :=
| step_verb vb s : pool_step s (with_vertex (run_verb vb (pl_vertex s)) s)
| step_presented groups w s :
    w ∉ living_workers (pl_vertex s) →
    (∀ x, x ∈ concat (map snd groups) ↔ x = w ∨ x ∈ living_workers (pl_vertex s)) →
    pool_step s (present_worker groups w s)
| step_gone groups s :
    (∀ x, x ∈ concat (map snd groups) → x ∈ living_workers (pl_vertex s)) →
    pool_step s (with_vertex (with_groups groups (pl_vertex s)) s)
| step_push before w after reached s :
    subscribed_tables_push_tasks (pl_vertex s) = before ++ w :: after →
    pool_step s
      (_push_subscribed_tables reached w (with_vertex (with_tasks (before ++ after) (pl_vertex s)) s))
| step_deliver w tables rest s :
    pl_wires s !! w = Some (tables :: rest) →
    pool_step s (deliver w tables rest s).

Definition pool_tables (s : pool) : gset string := tables_of (pl_vertex s).

(** The filter a worker is headed for: the last set on its wire, or the one it has. *)
Definition newest (s : pool) (w : string) : gset string :=
  match last (queue_of (pl_wires s) w) with
  | Some tables => orders_subscribed_tables tables
  | None => default ∅ (pl_filters s !! w)
  end.

Definition pool_inv (s : pool) : Prop :=
  ∀ w, w ∈ living_workers (pl_vertex s) →
    w ∈ subscribed_tables_push_tasks (pl_vertex s) ∨ w ∈ pl_unreached s ∨
    newest s w = pool_tables s.

Lemma orders_tables d :
  orders_subscribed_tables (subscribed_tables d) = known_tables (page_subscriptions d).
Proof. apply list_to_set_sorted. Qed.

Lemma run_verb_told `{!CoreCommanderLaws} vb v : told v (run_verb vb v).
Proof.
  destruct vb; simpl; [apply on_new_page_told | apply subscribe_table_told | apply drop_page_told
    | apply drop_connection_told | by apply drop_user_told].
Qed.

Lemma newest_push reached w s w' :
  newest (_push_subscribed_tables reached w s) w' =
    if decide (w = w' ∧ reached = true) then pool_tables s else newest s w'.
Proof.
  unfold _push_subscribed_tables, newest. destruct reached; simpl.
  - destruct (decide (w = w')) as [->|Hne].
    + rewrite decide_True by done. rewrite queue_of_insert_eq, last_snoc. apply orders_tables.
    + rewrite decide_False by tauto. by rewrite queue_of_insert_ne.
  - rewrite decide_False; [done | intros []; done].
Qed.

Lemma newest_deliver w tables rest s w' :
  pl_wires s !! w = Some (tables :: rest) → newest (deliver w tables rest s) w' = newest s w'.
Proof.
  intros Hw. unfold newest, deliver; simpl. destruct (decide (w = w')) as [<-|Hne].
  - rewrite queue_of_insert_eq, lookup_insert_eq. unfold queue_of. rewrite Hw. simpl.
    by destruct rest as [|x rest] using rev_ind; [|rewrite last_snoc, app_comm_cons, last_snoc].
  - by rewrite queue_of_insert_ne, lookup_insert_ne.
Qed.

Lemma pool_step_inv `{!CoreCommanderLaws} s s' : pool_inv s → pool_step s s' → pool_inv s'.
Proof.
  intros Hinv Hst. destruct Hst as [vb s|groups w s Hw Hg|groups s Hg|before w after reached s Ht|w tables rest s Hq];
    intros x Hx.
  - destruct (run_verb_told vb (pl_vertex s)) as [HG (more & HT & HM)]. simpl in *.
    unfold living_workers in Hx. rewrite HG in Hx. rewrite HT, elem_of_app.
    destruct (decide (tables_of (run_verb vb (pl_vertex s)) = tables_of (pl_vertex s))) as [E|E].
    + destruct (Hinv x Hx) as [?|[?|Hn]]; [tauto | tauto|]. right; right.
      unfold newest, pool_tables in *; simpl in *. by rewrite E.
    + left; right. by apply HM.
  - simpl in *. rewrite elem_of_app, list_elem_of_singleton. unfold living_workers in Hx. simpl in Hx.
    apply Hg in Hx as [->|Hx]; [tauto|]. assert (x ≠ w) by congruence.
    destruct (Hinv x Hx) as [?|[?|Hn]]; [tauto | right; left; set_solver|]. right; right.
    unfold newest, pool_tables in *; simpl. by rewrite queue_of_insert_ne, lookup_insert_ne.
  - simpl in *. apply Hg in Hx. by destruct (Hinv x Hx) as [?|[?|Hn]]; auto.
  - unfold living_workers in Hx.
    assert (group_map (pl_vertex (_push_subscribed_tables reached w
      (with_vertex (with_tasks (before ++ after) (pl_vertex s)) s))) = group_map (pl_vertex s)) as E
      by by destruct reached.
    rewrite E in Hx. rewrite newest_push.
    assert (pool_tables (_push_subscribed_tables reached w
      (with_vertex (with_tasks (before ++ after) (pl_vertex s)) s)) = pool_tables s) as ->
      by by destruct reached.
    destruct (decide (w = x)) as [<-|Hne].
    + destruct reached; [right; right; by rewrite decide_True | right; left; simpl; set_solver].
    + rewrite decide_False by tauto.
      destruct (Hinv x Hx) as [Hin|[Hin|Hn]]; [left|right; left|right; right].
      * rewrite Ht in Hin. destruct reached; simpl; set_solver.
      * destruct reached; simpl; set_solver.
      * exact Hn.
  - rewrite newest_deliver by done. exact (Hinv x Hx).
Qed.

Lemma reachable_inv `{!CoreCommanderLaws} c s : rtc pool_step (new_pool c) s → pool_inv s.
Proof.
  assert (pool_inv (new_pool c)) as Hinit by by intros w Hw%elem_of_nil.
  intros Hr. induction Hr as [|s1 s2 s3 Hst Hr IH]; [done|]. apply IH. by eapply pool_step_inv.
Qed.

(** C15: whatever the vertex has been through - pages born and dropped, tables
    subscribed and left, workers born and gone, pushes sent, lost and delivered in
    any interleaving - a living worker that is neither awaiting a push, nor on a
    wire, nor cut off at its last push, filters on exactly the set of tables the
    desk holds: no transition of the set is ever missed. *)
Theorem filters_converge `{!CoreCommanderLaws} c s w :
  rtc pool_step (new_pool c) s → w ∈ living_workers (pl_vertex s) →
  w ∉ subscribed_tables_push_tasks (pl_vertex s) → queue_of (pl_wires s) w = [] →
  w ∉ pl_unreached s →
  default ∅ (pl_filters s !! w) = pool_tables s.
Proof.
  intros Hr Hw Ht Hq Hu. destruct (reachable_inv c s Hr w Hw) as [?|[?|Hn]]; [done|done|].
  unfold newest in Hn. by rewrite Hq in Hn.
Qed.

(** *** The pushes settle *)

Inductive push_step : pool → pool → Prop :=
| push_sent w after s :
    subscribed_tables_push_tasks (pl_vertex s) = w :: after →
    push_step s (_push_subscribed_tables true w (with_vertex (with_tasks after (pl_vertex s)) s))
| push_delivered w tables rest s :
    pl_wires s !! w = Some (tables :: rest) → push_step s (deliver w tables rest s).

Lemma push_step_pool s s' : push_step s s' → pool_step s s'.
Proof.
  intros [w after s0 Ht|w tables rest s0 Hq]; [by apply (step_push [] w after) | by apply step_deliver].
Qed.

(** What is still to be sent, each counted for its delivery too, or delivered. *)
Definition wire_load (wires : gmap string (list (list string))) : nat :=
  map_fold (λ _ q n, length q + n)%nat 0%nat wires.

Definition push_load (s : pool) : nat :=
  (2 * length (subscribed_tables_push_tasks (pl_vertex s)) + wire_load (pl_wires s))%nat.

Lemma wire_load_insert_new w q m :
  m !! w = None → (wire_load (<[w := q]> m) = length q + wire_load m)%nat.
Proof. intros Hw. unfold wire_load. rewrite map_fold_insert_L; [done| |done]. intros. lia. Qed.

Lemma wire_load_insert w q m :
  (wire_load (<[w := q]> m) + length (queue_of m w) = length q + wire_load m)%nat.
Proof.
  rewrite <-insert_delete_eq, wire_load_insert_new by apply lookup_delete_eq.
  unfold queue_of. destruct (m !! w) as [q0|] eqn:Hw; simpl; [|rewrite delete_id by done; lia].
  pose proof (wire_load_insert_new w q0 (delete w m) (lookup_delete_eq m w)) as E.
  rewrite insert_delete_id in E by done. lia.
Qed.

Lemma push_step_load s s' : push_step s s' → (push_load s' < push_load s)%nat.
Proof.
  intros [w after s0 Ht|w tables rest s0 Hq]; unfold push_load; simpl.
  - pose proof (wire_load_insert w (queue_of (pl_wires s0) w ++
      [subscribed_tables (delivery_desk (pl_vertex s0))]) (pl_wires s0)) as E.
    rewrite length_app in E. rewrite Ht. simpl in *. lia.
  - pose proof (wire_load_insert w rest (pl_wires s0)) as E.
    unfold queue_of in E. rewrite Hq in E. simpl in E. lia.
Qed.

Lemma pushes_end s : sn push_step s.
Proof.
  induction s as [s IH] using (induction_ltof1 _ push_load).
  constructor. intros s' Hs. by apply IH, push_step_load.
Qed.

(** What no push changes: the desk, the groups; and it cuts off nobody. *)
Record settled_from (s s' : pool) : Prop := SettledFrom {
  sf_desk : delivery_desk (pl_vertex s') = delivery_desk (pl_vertex s);
  sf_groups : group_map (pl_vertex s') = group_map (pl_vertex s);
  sf_unreached : pl_unreached s' ⊆ pl_unreached s
}.

Lemma pushes_settled_from s s' : rtc push_step s s' → settled_from s s'.
Proof.
  induction 1 as [s|s1 s2 s3 Hst _ [D G U]]; [by split|].
  destruct Hst; split; simpl in *; set_solver.
Qed.

(** With nothing to send nor to deliver, no push is owed and every wire is empty. *)
Lemma no_push_left s :
  nf push_step s →
  subscribed_tables_push_tasks (pl_vertex s) = [] ∧ ∀ w, queue_of (pl_wires s) w = [].
Proof.
  intros Hnf. split.
  - destruct (subscribed_tables_push_tasks (pl_vertex s)) as [|w after] eqn:Ht; [done|].
    destruct Hnf. eexists. by apply push_sent.
  - intros w. unfold queue_of. destruct (pl_wires s !! w) as [[|tables rest]|] eqn:Hw; [done| |done].
    destruct Hnf. eexists. by apply push_delivered.
Qed.

(** C16: the pushes settle by themselves: from any reachable state of the pool,
    sending the pending pushes and delivering what is on the wires - those steps
    alone, no further verb - always ends, in whatever order they are taken, and
    where nothing is left to send or deliver the filter of every living worker that
    was not cut off is the set of tables the desk held at the start. *)
Theorem pushes_settle `{!CoreCommanderLaws} c s :
  rtc pool_step (new_pool c) s →
  sn push_step s ∧
  ∀ s', rtc push_step s s' → nf push_step s' →
    pool_tables s' = pool_tables s ∧ group_map (pl_vertex s') = group_map (pl_vertex s) ∧
    ∀ w, w ∈ living_workers (pl_vertex s) → w ∉ pl_unreached s →
      default ∅ (pl_filters s' !! w) = pool_tables s.
Proof.
  intros Hr. split; [apply pushes_end|]. intros s' Hs Hnf.
  pose proof (pushes_settled_from s s' Hs) as [HD HG HU].
  assert (pool_tables s' = pool_tables s) as HT by (unfold pool_tables, tables_of; by rewrite HD).
  split_and!; [done|done|]. intros w Hw Hu. rewrite <-HT.
  assert (rtc pool_step s s') as Hp by (eapply rtc_subrel; [apply push_step_pool | done]).
  destruct (no_push_left s' Hnf) as [Ht Hq].
  destruct (reachable_inv c s' ltac:(by etrans) w) as [Hin|[Hin|Hn]].
  - unfold living_workers in *. by rewrite HG.
  - rewrite Ht in Hin. by apply elem_of_nil in Hin.
  - set_solver.
  - unfold newest in Hn. by rewrite Hq in Hn.
Qed.
End pool.

(** ** The drops leave nothing of the departed at the desk *)

Definition desk_indexed (d : desk) : Prop := ∃ R, represents (page_subscriptions d) R.

Definition forgotten (p : string) (d : desk) : Prop :=
  page_datachange_map d !! p = None ∧ page_dbevent_map d !! p = None ∧
  ∀ t, p ∉ pages_for (page_subscriptions d) t.

Definition kept (q : string) (d d' : desk) : Prop :=
  page_datachange_map d' !! q = page_datachange_map d !! q ∧
  page_dbevent_map d' !! q = page_dbevent_map d !! q ∧
  ∀ t, q ∈ pages_for (page_subscriptions d') t ↔ q ∈ pages_for (page_subscriptions d) t.

(** A desk that lost exactly the pages of [gone]. *)
Record lost (gone : string → Prop) (d d' : desk) : Prop := Lost {
  lost_indexed : desk_indexed d';
  lost_gone : ∀ p, gone p → forgotten p d';
  lost_kept : ∀ q, ¬ gone q → kept q d d';
  lost_stores : user_store_change_map d' = user_store_change_map d
}.

Lemma lost_nobody d : desk_indexed d → lost (λ _, False) d d.
Proof. intros Hi. split; try done; by intros ? []. Qed.

Lemma lost_trans g1 g2 d1 d2 d3 :
  (∀ p, Decision (g2 p)) →
  lost g1 d1 d2 → lost g2 d2 d3 → lost (λ p, g1 p ∨ g2 p) d1 d3.
Proof.
  intros Hdec [I1 G1 K1 S1] [I2 G2 K2 S2]. split; [done| | |congruence].
  - intros p Hp. destruct (Hdec p) as [Hg|Hg]; [by apply G2|].
    destruct Hp as [Hp|]; [|done]. destruct (G1 p Hp) as (F1 & F2 & F3).
    destruct (K2 p Hg) as (E1 & E2 & E3). split_and!; [congruence|congruence|].
    intros t Ht. by apply (F3 t), E3.
  - intros q Hq. destruct (K1 q ltac:(tauto)) as (E1 & E2 & E3).
    destruct (K2 q ltac:(tauto)) as (F1 & F2 & F3). split_and!; [congruence|congruence|].
    intros t. by rewrite F3, E3.
Qed.

Lemma lost_ext g g' d d' : (∀ p, g p ↔ g' p) → lost g d d' → lost g' d d'.
Proof.
  intros He [I G K S]. split; [done| | |done].
  - intros p Hp. by apply G, He.
  - intros q Hq. apply K. by rewrite He.
Qed.

Lemma desk_drop_lost p d : desk_indexed d → lost (λ x, x = p) d (Desk.drop_page p d).2.
Proof.
  intros [R HR]. pose proof (drop_page_refines p _ R HR) as HR'.
  unfold Desk.drop_page; simpl. destruct (Index.drop_page p (page_subscriptions d)) as [b i] eqn:E.
  simpl in *. split; simpl.
  - by exists (without_page p R).
  - intros x ->. split_and!; simpl; [by rewrite lookup_delete_eq..|].
    intros t Ht. apply (rep_pages _ _ HR') in Ht. unfold without_page in Ht.
    apply elem_of_filter in Ht as [Hne _]. done.
  - intros q Hq. split_and!; simpl; [by rewrite lookup_delete_ne..|].
    intros t. rewrite (rep_pages _ _ HR'), (rep_pages _ _ HR). unfold without_page.
    rewrite elem_of_filter. simpl. tauto.
  - done.
Qed.

Lemma vertex_drop_lost p v :
  desk_indexed (delivery_desk v) →
  lost (λ x, x = p) (delivery_desk v) (delivery_desk (desk_drop_page p v)).
Proof.
  intros Hi. unfold desk_drop_page. pose proof (desk_drop_lost p _ Hi) as HL.
  destruct (Desk.drop_page p (delivery_desk v)) as [b d]. by rewrite announce_desk.
Qed.

Lemma announce_core b v : core (_announce_subscribed_tables b v) = core v.
Proof. unfold _announce_subscribed_tables. destruct b; [by rewrite broadcast_tasks | done]. Qed.

Lemma desk_drop_core p v : core (desk_drop_page p v) = core v.
Proof. unfold desk_drop_page. destruct (Desk.drop_page _ _). by rewrite announce_core. Qed.

Lemma desk_drop_pages_lost ps v :
  desk_indexed (delivery_desk v) →
  let v' := foldl (λ v p, desk_drop_page p v) v ps in
  lost (λ x, x ∈ ps) (delivery_desk v) (delivery_desk v') ∧ core v' = core v.
Proof.
  revert v. induction ps as [|p ps IH]; intros v Hi; cbn [foldl].
  { split; [|done]. eapply lost_ext; [|by apply lost_nobody]. intros x. set_solver. }
  pose proof (vertex_drop_lost p v Hi) as HL.
  destruct (IH (desk_drop_page p v) (lost_indexed _ _ _ HL)) as [HL' HC].
  split; [|by rewrite HC, desk_drop_core].
  eapply lost_ext; [|eapply lost_trans; [|exact HL|exact HL']]; [|intros x; apply _].
  intros x. rewrite elem_of_cons. done.
Qed.

Section residue.
Context `{CoreCommanderLaws}.

Definition owned (v : vertex) (cids : list string) (p : string) : Prop :=
  ∃ cid, cid ∈ cids ∧ page_connection_map (core v) !! p = Some cid.

Lemma pages_of_connection_elem cid m p :
  p ∈ pages_of_connection cid m ↔ page_connection_map m !! p = Some cid.
Proof.
  unfold pages_of_connection. rewrite list_elem_of_fmap. split.
  - intros ([q o] & -> & Hin). apply list_elem_of_filter in Hin as [Ho Hin]. simpl in *. subst.
    by apply elem_of_map_to_list.
  - intros Hp. exists (p, cid). split; [done|]. apply list_elem_of_filter. split; [done|].
    by apply elem_of_map_to_list.
Qed.

Lemma drop_connection_lost cid v :
  desk_indexed (delivery_desk v) →
  lost (owned v [cid]) (delivery_desk v) (delivery_desk (drop_connection cid v)) ∧
  core (drop_connection cid v) = core_drop_connection cid (core v).
Proof.
  intros Hi. unfold drop_connection.
  destruct (desk_drop_pages_lost (pages_of_connection cid (core v))
    (with_core (core_drop_connection cid (core v)) v) Hi) as [HL HC].
  split; [|by rewrite HC]. eapply lost_ext; [|exact HL]. intros p. cbn beta.
  rewrite pages_of_connection_elem. unfold owned. set_solver.
Qed.

#[local] Instance owned_dec v cids p : Decision (owned v cids p).
Proof.
  destruct (page_connection_map (core v) !! p) as [cid|] eqn:E.
  - destruct (decide (cid ∈ cids)); [left; by exists cid | right; intros (c & ? & ?); congruence].
  - right. intros (c & ? & ?). congruence.
Defined.

Lemma drop_connections_lost cids v :
  desk_indexed (delivery_desk v) →
  lost (owned v cids) (delivery_desk v)
    (delivery_desk (foldl (λ v cid, drop_connection cid v) v cids)).
Proof.
  revert v. induction cids as [|cid cids IH]; intros v Hi; cbn [foldl].
  { eapply lost_ext; [|by apply lost_nobody]. intros x. unfold owned. set_solver. }
  destruct (drop_connection_lost cid v Hi) as [HL HC].
  specialize (IH (drop_connection cid v) (lost_indexed _ _ _ HL)).
  eapply lost_ext; [|eapply lost_trans; [|exact HL|exact IH]]; [|intros x; apply _].
  intros x. unfold owned. rewrite HC, core_drop_connection_pages. split.
  - intros [(c & Hc & Hx)|(c & Hc & Hx)]; exists c; (split; [set_solver|]); [done|].
    by apply map_lookup_filter_Some in Hx as [Hx _].
  - intros (c & Hc & Hx). destruct (decide (c = cid)) as [->|Hne].
    + left. exists cid. set_solver.
    + right. exists c. split; [set_solver|]. by apply map_lookup_filter_Some.
Qed.

(** C17: a drop leaves nothing of the departed at the desk and touches nobody else:
    after a page's drop its two queues and its subscriptions are gone; after a
    connection's, those of every page it owned; after a user's, those of every
    page of his connections and his store queue; every other page's queues and
    subscriptions are as they were. *)
Theorem drops_leave_no_residue v :
  desk_indexed (delivery_desk v) →
  (∀ p, lost (λ x, x = p) (delivery_desk v) (delivery_desk (drop_page p v))) ∧
  (∀ cid, lost (λ x, page_connection_map (core v) !! x = Some cid)
     (delivery_desk v) (delivery_desk (drop_connection cid v))) ∧
  (∀ user d, d = delivery_desk (drop_user user v).2 →
     user_store_change_map d = delete user (user_store_change_map (delivery_desk v)) ∧
     (∀ p, owned v (core_user_connections user v) p → forgotten p d) ∧
     (∀ q, ¬ owned v (core_user_connections user v) q → kept q (delivery_desk v) d)).
Proof.
  intros Hi. split_and!.
  - intros p. by apply (vertex_drop_lost p (with_core (core_drop_page p (core v)) v)).
  - intros cid. eapply lost_ext; [|by apply drop_connection_lost]. intros x. unfold owned. set_solver.
  - intros user d ->. unfold drop_user.
    pose proof (core_drop_user_demolishes drop_connection user v) as HD.
    destruct (core_drop_user drop_connection user v) as [b v'] eqn:E. cbn [snd] in HD |- *.
    pose proof (drop_connections_lost (core_user_connections user v) v Hi) as [_ HG HK HS].
    assert (delivery_desk v' = delivery_desk
      (foldl (λ v cid, drop_connection cid v) v (core_user_connections user v))) as HE
      by by rewrite HD.
    unfold Desk.drop_user; simpl. rewrite HE. split_and!; [by rewrite HS | exact HG | exact HK].
Qed.
End residue.

(** ** Concrete inputs *)

Module CommanderWitness.
#[local] Instance plain_commander : CoreCommander := {|
  core_on_new_page _ m := m;
  core_drop_page p m := CoreMaps (user_map m) (delete p (page_connection_map m));
  core_drop_connection cid m :=
    CoreMaps (user_map m) (filter (λ po : string * string, po.2 ≠ cid) (page_connection_map m));
  core_drop_user dc user v :=
    let v := foldl (λ v cid, dc cid v) v [user] in
    (true, with_core (CoreMaps (user_map (core v) ∖ {[user]}) (page_connection_map (core v))) v);
  core_user_connections user _ := [user];
  core_pool_census := nat;
  core_get_pool_census m := size (page_connection_map m)
|}.

Lemma plain_commander_laws : CoreCommanderLaws.
Proof. split; done. Qed.

Definition two_pages : core_maps := CoreMaps {["anna"]} {["p1" := "anna"; "p2" := "bob"]}.

(** A worker is born, a page subscribes a table while its first push is on the way. *)
Definition born : pool := present_worker [("main", ["w1"])] "w1" (new_pool two_pages).
Definition pushed : pool :=
  _push_subscribed_tables true "w1" (with_vertex (with_tasks [] (pl_vertex born)) born).
Definition subscribed : pool :=
  with_vertex (run_verb (SubscribeTable "p1" "t.a" true) (pl_vertex pushed)) pushed.

Lemma subscribed_reachable : rtc pool_step (new_pool two_pages) subscribed.
Proof.
  eapply rtc_l; [apply (step_presented [("main", ["w1"])] "w1")|].
  - intros Hw. by apply elem_of_nil in Hw.
  - intros x. simpl. rewrite list_elem_of_singleton, elem_of_nil. tauto.
  - eapply rtc_l; [apply (step_push [] "w1" [] true); reflexivity|].
    apply rtc_once. apply (step_verb (SubscribeTable "p1" "t.a" true)).
Qed.

Definition settled : pool :=
  deliver "w1" ["t.a"] [] (_push_subscribed_tables true "w1"
    (with_vertex (with_tasks [] (pl_vertex (deliver "w1" [] [["t.a"]] subscribed)))
      (deliver "w1" [] [] subscribed))).

Lemma settled_reachable : rtc pool_step (new_pool two_pages) settled.
Proof.
  etrans; [apply subscribed_reachable|].
  eapply rtc_l; [apply (step_deliver "w1" [] [] subscribed); by vm_compute|].
  eapply rtc_l; [apply (step_push [] "w1" [] true); by vm_compute|].
  apply rtc_once. apply step_deliver. by vm_compute.
Qed.

Lemma filters_converge_witness :
  default ∅ (pl_filters settled !! "w1") = {["t.a"]} ∧
  default ∅ (pl_filters settled !! "w1") = pool_tables settled.
Proof.
  pose proof plain_commander_laws as HL. split; [by vm_compute|].
  apply (filters_converge two_pages settled "w1").
  - apply settled_reachable.
  - by left.
  - intros Hw. by apply elem_of_nil in Hw.
  - by vm_compute.
  - intros Hw. vm_compute in Hw. done.
Defined.

Lemma pushes_settle_witness :
  rtc push_step subscribed settled ∧
  default ∅ (pl_filters settled !! "w1") = {["t.a"]}.
Proof.
  pose proof plain_commander_laws as HL.
  destruct (pushes_settle two_pages subscribed subscribed_reachable) as [_ Hend].
  assert (rtc push_step subscribed settled) as Hr.
  { eapply rtc_l; [apply (push_delivered "w1" [] [] subscribed); by vm_compute|].
    eapply rtc_l; [apply (push_sent "w1" []); by vm_compute|].
    apply rtc_once. apply push_delivered. by vm_compute. }
  split; [exact Hr|]. destruct (Hend settled Hr) as (_ & _ & Hw).
  - intros [s' Hs']. apply push_step_load in Hs'. vm_compute in Hs'. lia.
  - rewrite (Hw "w1"); [by vm_compute | by left |]. intros Hu. vm_compute in Hu. done.
Defined.

(** A user with a page that subscribes and has something waiting. *)
Definition busy_vertex : vertex :=
  with_desk (MkDesk (subscribe "p2" "t.a" (subscribe "p1" "t.a" empty_index).2).2
    {["p1" := [DeskWitness.a_change "x" 1]]} ∅ {["anna" := []]}) (new_commander two_pages).

Lemma busy_indexed : desk_indexed (delivery_desk busy_vertex).
Proof.
  exists ({[("p2", "t.a")]} ∪ ({[("p1", "t.a")]} ∪ ∅)).
  refine (proj1 (subscribe_refines _ _ "p2" "t.a" _)).
  exact (proj1 (subscribe_refines _ _ "p1" "t.a" represents_empty)).
Qed.

Lemma drops_leave_no_residue_witness :
  forgotten "p1" (delivery_desk (drop_user "anna" busy_vertex).2) ∧
  kept "p2" (delivery_desk busy_vertex) (delivery_desk (drop_user "anna" busy_vertex).2).
Proof.
  pose proof plain_commander_laws as HL.
  destruct (drops_leave_no_residue busy_vertex busy_indexed) as (_ & _ & HU).
  destruct (HU "anna" _ eq_refl) as (_ & HG & HK). split.
  - apply HG. exists "anna". split; [by left | by vm_compute].
  - apply HK. intros (cid & Hc & Hp). vm_compute in Hp. simplify_eq.
    apply list_elem_of_singleton in Hc. done.
Defined.
End CommanderWitness.
End Commander.
