(* ===== verification/GenropyWorker.v ===== *)
(** * GenropyWorker: the process that hosts the site

    src/genropy_asgi/spa/genropy_worker.py.  The worker as one state - its
    registers, its source filter, the slot of the request it is serving, the
    desk at the other end of its lane, the folders of its connections - and every
    verb the site calls on it.  A call up the lane either runs the desk's own
    route (DeliveryDesk.v) or raises [CommanderCallFailed]; what other threads do
    to the registers while a call is up is an argument of the verb. *)

From S2P Require Export DeliveryDesk GenropyRegister.
From Stdlib Require QArith.

Module Worker.
Import LegacyBagCollector Index Desk Registry.

(** ** The state *)

(** [GenropyRequestSlot]. *)
Record request_slot : Type := RequestSlot {
  sl_dbevents : list deposit;
  sl_own_dbevents : list deposit
}.

Definition build_request_slot : request_slot := RequestSlot [] [].

(** [add_worker_event("drop_page", user=, page_id=)]. *)
Record worker_event : Type := WorkerEvent {
  we_kind : string;
  we_user : string;
  we_page_id : string
}.

Record worker : Type := MkWorker {
  registers : registry;
  subscribed_tables : gset string;
  slot : request_slot;
  lane : desk;                          (* the vertex's desk *)
  lane_population : population;         (* whom the vertex knows *)
  disk : gset (list string);            (* folders under data/_connections *)
  worker_events : list worker_event
}.

Definition with_registers (r : registry) (w : worker) : worker :=
  MkWorker r (subscribed_tables w) (slot w) (lane w) (lane_population w) (disk w) (worker_events w).
Definition with_filter (f : gset string) (w : worker) : worker :=
  MkWorker (registers w) f (slot w) (lane w) (lane_population w) (disk w) (worker_events w).
Definition with_slot (s : request_slot) (w : worker) : worker :=
  MkWorker (registers w) (subscribed_tables w) s (lane w) (lane_population w) (disk w)
    (worker_events w).
Definition with_lane (d : desk) (w : worker) : worker :=
  MkWorker (registers w) (subscribed_tables w) (slot w) d (lane_population w) (disk w)
    (worker_events w).
Definition with_disk (d : gset (list string)) (w : worker) : worker :=
  MkWorker (registers w) (subscribed_tables w) (slot w) (lane w) (lane_population w) d
    (worker_events w).
Definition with_events (e : list worker_event) (w : worker) : worker :=
  MkWorker (registers w) (subscribed_tables w) (slot w) (lane w) (lane_population w) (disk w) e.

(** A step of the registers inside the worker. *)
Definition on_registers {A} (m : PyM registry A) : PyM worker A := λ w,
  let '(a, r) := m (registers w) in (a, with_registers r w).

(** [self.run_on_loop(self.call(path, payload))]: the desk's route runs and
    answers, or the lane refuses; an exception of the route is a refusal too, with
    what the route had already done left done. *)
Definition call_desk {A} (answered : bool) (route : PyM desk A) : PyM worker A := λ w,
  if answered
  then match route (lane w) with
       | (Ok a, d) => (Ok a, with_lane d w)
       | (Raise _, d) => (Raise CommanderCallFailed, with_lane d w)
       end
  else (Raise CommanderCallFailed, w).

(** A route that cannot raise. *)
Definition route_total {A} (f : desk → A * desk) : PyM desk A := λ d,
  let '(a, d) := f d in (Ok a, d).

Definition SIGNAL_KIND : string := "page".

(** [DeliveryOrders.subscribed_tables]. *)
Definition orders_subscribed_tables (tables : option (list string)) (w : worker) : worker :=
  with_filter (list_to_set (default [] tables)) w.

(** ** A change born elsewhere, on a legacy Bag *)

Section bags.
Context `{BagApi}.

Definition forwarded_attributes (c : change) : attrs :=
  let attributes := dict_set "_original_ts" (VAware (ch_change_ts c) 0) (default [] (ch_attributes c)) in
  if k_fired (ch_key c) then dict_set "_fired" (VBool true) attributes else attributes.

Definition apply_forwarded (now : Z) (store : positive) (c : change) : PyM registry () := λ r,
  let path := ch_path c in
  let reason := k_reason (ch_key c) in
  if ch_delete c then (Ok (), on_bag now store (λ b, bag_delItem b path reason) r)
  else
    let r := on_bag now store
               (λ b, bag_setItem b path (ch_value c) (Some (forwarded_attributes c)) reason) r in
    if k_fired (ch_key c) then
      match stores r !! store with
      | None => (Raise AttributeError, r)
      | Some o =>
          match bag_updateNode (bo_nodes o) path (λ '(_, a), (VNone, dict_pop "_fired" a)) with
          | None => (Raise AttributeError, r)
          | Some nodes => (Ok (), with_stores (<[store := BagObject nodes (bo_subs o)]> (stores r)) r)
          end
      end
    else (Ok (), r).
End bags.

(** ** The slot's two exits *)

Definition deliver_slot_deposits (answered : bool) (clock : list Z) (w : worker) : worker :=
  match sl_dbevents (slot w) with
  | [] => w
  | dbevents =>
      let '(_, w) :=
        call_desk answered (route_total (λ d, ((), deposit_route clock dbevents d))) w in
      with_slot (RequestSlot [] (sl_own_dbevents (slot w))) w
  end.

Definition on_request_served (answered : bool) (clock : list Z) (w : worker) : worker :=
  deliver_slot_deposits answered clock w.

(** ** Subscriptions *)

Section core.
Context `{CoreRegistry}.

Definition setStoreSubscription (page_id storename prefix : string) (active : bool)
    : PyM worker page_row := λ w,
  let r := registers w in
  match page_register r !! page_id with
  | None => (Raise KeyError, w)
  | Some page =>
      if decide (storename = "page") then
        let page :=
          set_subscribed_paths
            (if active then {[prefix]} ∪ page_subscribed_paths page
             else page_subscribed_paths page ∖ {[prefix]}) page in
        (Ok page, with_registers (with_pages (<[page_id := page]> (page_register r)) r) w)
      else if decide (storename = "user") then
        if active then on_registers (subscribe_store_path page_id prefix) w
        else
          match page_user_view page with
          | None => (Ok page, w)
          | Some v =>
              let page :=
                set_store_subscriptions (page_store_subscriptions page ∖ {[prefix]}) page in
              let r := with_pages (<[page_id := page]> (page_register r)) r in
              (Ok page, with_registers (update_view v (unsubscribe_path prefix) r) w)
          end
      else (Raise ValueError, w)
  end.

Definition subscribeTable (answered : bool) (table page_id : string) (subscribe : bool)
    : PyM worker subscription_reply :=
  (λ w,
    match page_register (registers w) !! page_id with
    | None => (Raise KeyError, w)
    | Some page =>
        let page :=
          set_table_subscriptions
            (if subscribe then {[table]} ∪ page_table_subscriptions page
             else page_table_subscriptions page ∖ {[table]}) page in
        (Ok (), with_registers
                  (with_pages (<[page_id := page]> (page_register (registers w))) (registers w)) w)
    end : res () * worker) ≫= λ _,
  call_desk answered (route_total (λ d,
    let '(reply, _, d) := Desk.subscribe_table page_id table subscribe d in (reply, d))) ≫= λ _,
  mret (SubscriptionReply page_id table subscribe).

(** ** The table events of a commit *)

Definition dbevent_deposit (now : Z) (table : string) (batch : value)
    (from_page_id reason : option string) : deposit :=
  Deposit table batch from_page_id reason now None.

(** The comprehension of [notifyDbEvents]; each deposit reads the clock. *)
Fixpoint announced_deposits `{BagApi} (clock : list Z) (dbevents : list (string * value))
    (reason page_id : option string) (local_only : bool) (filter : gset string) : list deposit :=
  match dbevents with
  | [] => []
  | (table, batch) :: rest =>
      if truthy batch && (local_only || bool_decide (table ∈ filter))
      then dbevent_deposit (hd 0 clock) table batch page_id reason ::
           announced_deposits (tail clock) rest reason page_id local_only filter
      else announced_deposits clock rest reason page_id local_only filter
  end.

Definition notifyDbEvents `{BagApi} (clock : list Z) (dbevents : list (string * value))
    (reason page_id : option string) (local_only : bool) (w : worker) : list string * worker :=
  let deposits :=
    announced_deposits clock dbevents reason page_id local_only (subscribed_tables w) in
  let s := slot w in
  let s := if local_only
           then RequestSlot (sl_dbevents s) (sl_own_dbevents s ++ deposits)
           else RequestSlot (sl_dbevents s ++ deposits) (sl_own_dbevents s) in
  (map dep_table deposits, with_slot s w).

(** ** The collect: the end of a request *)

(** [_arrival_order]. *)
Definition _arrival_order (c : change) : Z :=
  match ch_arrival_ts c with
  | Some arrival_ts => arrival_ts
  | None => ch_change_ts c
  end.

Record delivery : Type := Delivery {
  dl_datachanges : list change;
  dl_dbevents : list deposit
}.

(** The STATE writes the exchange brought back, onto the user's Bag. *)
Fixpoint apply_all `{BagApi} (clock : list Z) (store : positive) (changes : list change)
    : PyM registry () :=
  match changes with
  | [] => mret ()
  | c :: rest =>
      apply_forwarded (hd 0 clock) store c ≫= λ _, apply_all (tail clock) store rest
  end.

(** What is drained of one page, under its row's lock: the row's queue, the
    desk's, the view's. *)
Definition drain_page (page_id : string) (page : page_row) (desk_changes : list change)
    (r : registry) : list change * registry :=
  let datachanges := heap_merge _arrival_order (page_datachanges page) desk_changes in
  let r := with_pages (<[page_id := set_queue [] 0 page]> (page_register r)) r in
  match page_user_view page with
  | None => (datachanges, r)
  | Some v =>
      match views r !! v with
      | None => (datachanges, r)
      | Some c =>
          let '(drained, c) := drain true c in
          (heap_merge _arrival_order datachanges drained, with_views (<[v := c]> (views r)) r)
      end
  end.

Definition drain_reply (page_id : string) (desk_changes : list change)
    : PyM registry (list change) := λ r,
  match page_register r !! page_id with
  | None => (Raise KeyError, r)
  | Some page =>
      let '(datachanges, r) := drain_page page_id page desk_changes r in
      (Ok (number_from 1 datachanges), r)
  end.

Definition collect_reply `{BagApi, Tytx} (clock : list Z) (page_id user : string)
    (reply : exchange_reply) : PyM registry (list change) :=
  py_reads (λ r, (page_register r !! page_id, user_register r !! user)) ≫= λ '(page, user_item),
  match page, user_item with
  | None, _ => py_raise KeyError
  | _, None => py_raise TypeError
  | Some _, Some user_item =>
      apply_all clock (user_store user_item) (from_tytx_list (ex_store_changes reply)) ≫= λ _,
      drain_reply page_id (from_tytx_list (ex_datachanges reply))
  end.

(** [between] is what the other threads do to the registers while the exchange is
    up and no lock is held. *)
Definition collect_page `{BagApi, Tytx} (answered : bool) (desk_clock clock : list Z)
    (between : registry → registry) (page_id : string) : PyM worker delivery :=
  py_reads registers ≫= λ r,
  match page_register r !! page_id with
  | None => py_raise KeyError
  | Some _ =>
      py_lift (λ w, (λ u, (u, w)) <$> page_user page_id (registers w)) ≫= λ user,
      py_reads slot ≫= λ s,
      call_desk answered
        (route_total (exchange desk_clock page_id user (sl_dbevents s))) ≫= λ reply,
      py_modify (λ w, with_slot (RequestSlot [] (sl_own_dbevents (slot w))) w) ≫= λ _,
      py_modify (λ w, with_registers (between (registers w)) w) ≫= λ _,
      on_registers (collect_reply clock page_id user reply) ≫= λ datachanges,
      py_reads slot ≫= λ s,
      py_modify (with_slot (RequestSlot (sl_dbevents s) [])) ≫= λ _,
      mret (Delivery datachanges (ex_dbevents reply ++ sl_own_dbevents s))
  end.

(** ** The addressed writes *)

Record road : Type := Road {
  rd_local : bool;
  rd_filed : bool
}.

Definition _route_datachange `{Tytx} (answered : bool) (desk_now : Z) (identity : option string)
    (kind : string) (target filters : option string) (m : message) (act_on_row : page_row → page_row)
    : PyM worker road := λ w,
  if filters is Some _ then (Raise NotImplementedError, w)
  else if decide (kind ∈ STATE_KINDS ∧ kind ≠ "user_store") then (Raise NotImplementedError, w)
  else
    let page :=
      if decide (kind = SIGNAL_KIND)
      then target ≫= λ t, (λ p, (t, p)) <$> page_register (registers w) !! t
      else None in
    let to_desk : PyM worker road :=
      call_desk answered (on_datachange desk_now (lane_population w) target m) ≫= λ filed,
      mret (Road false filed) in
    match page with
    | None => to_desk w
    | Some (t, row) =>
        match page_user t (registers w) with
        | Raise e => (Raise e, w)
        | Ok owner =>
            if decide (Some owner = identity)
            then (Ok (Road true true), with_registers (update_page t act_on_row (registers w)) w)
            else to_desk w
        end
    end.

(** [_addressed_path], which names the write in the warning. *)
Definition _addressed_path `{Tytx} (m : message) : option string :=
  match m_path m with
  | Some p => Some p
  | None => ch_path ∘ from_tytx <$> m_change m
  end.

Record write_answer : Type := WriteAnswer {
  wa_target : option string;
  wa_filters : option string;
  wa_road : road
}.

Definition set_datachange `{Tytx} (answered : bool) (now desk_now : Z) (identity : option string)
    (c : tytx) (kind : string) (target filters : option string) (replace : bool)
    : PyM worker write_answer :=
  _route_datachange answered desk_now identity kind target filters
    (Message (Some "set_datachange") kind filters replace (Some c) None)
    (append_page_datachange now replace (from_tytx c)) ≫= λ road,
  mret (WriteAnswer target filters road).

Definition reset_datachanges `{Tytx} (answered : bool) (desk_now : Z) (identity : option string)
    (target filters : option string) : PyM worker write_answer :=
  _route_datachange answered desk_now identity SIGNAL_KIND target filters
    (Message (Some "reset_datachanges") SIGNAL_KIND filters false None None)
    (set_queue [] 0) ≫= λ road,
  mret (WriteAnswer target filters road).

(** The closure [prune] of [drop_datachanges]. *)
Definition prune (path : string) (page : page_row) : page_row :=
  set_queue (without_prefix path (page_datachanges page)) (page_datachanges_idx page) page.

Definition drop_datachanges `{Tytx} (answered : bool) (desk_now : Z) (identity : option string)
    (path : string) (target filters : option string) : PyM worker write_answer :=
  _route_datachange answered desk_now identity SIGNAL_KIND target filters
    (Message (Some "drop_datachanges") SIGNAL_KIND filters false None (Some path))
    (prune path) ≫= λ road,
  mret (WriteAnswer target filters road).
End core.

(** ** What the bridge adds to the core worker's own verbs *)

(** The core worker: third-party, parameters. *)
Class CoreWorker : Type := {
  core_install_carried_store : string → option positive → bool → PyM registry ();
  core_drop_page : string → string → PyM worker ();
  registry_drop_page : string → PyM registry ();      (* cascade=False *)
  core_drop_connection : string → string → PyM worker ();
  core_drop_user : string → PyM worker ();
  core_worker_census : Type;
  core_census : worker → core_worker_census
}.

(** The core verbs know nothing of the site's folders. *)
Class CoreWorkerLaws `{CoreWorker} : Prop := {
  core_drop_page_disk : ∀ i p w, disk (core_drop_page i p w).2 = disk w;
  core_drop_connection_disk : ∀ i c w, disk (core_drop_connection i c w).2 = disk w;
  core_drop_user_disk : ∀ u w, disk (core_drop_user u w).2 = disk w
}.

(** [shutil.rmtree(path, ignore_errors=True)]. *)
Definition rmtree (path : list string) (w : worker) : worker :=
  with_disk (filter (λ p, ¬ path `prefix_of` p) (disk w)) w.

Section core_verbs.
Context `{CoreRegistry, CoreWorker}.

(** The body of [_install_carried_store]'s loop: the view of one watching page. *)
Definition follow_carried (store : positive) (page_id : string) : PyM registry () := λ r,
  match page_register r !! page_id with
  | None => (Raise TypeError, r)
  | Some page =>
      match page_user_view page with
      | None => (Ok (), r)
      | Some v =>
          match views r !! v with
          | None => (Ok (), r)
          | Some _ => (Ok (), reattach_view page_id page v store r)
          end
      end
  end.

Definition follow_carried_connection (store : positive) (connection_id : string)
    : PyM registry () := λ r,
  match connection_register r !! connection_id with
  | None => (Raise TypeError, r)
  | Some c => py_for (elements (connection_pages c)) (follow_carried store) r
  end.

Definition _install_carried_store (user : string) (store : option positive) (resident : bool)
    : PyM registry () :=
  core_install_carried_store user store resident ≫= λ _,
  match store with
  | None => mret ()
  | Some store =>
      if resident then mret ()
      else
        py_reads (λ r, user_register r !! user) ≫= λ entry,
        match entry with
        | None => py_raise TypeError
        | Some entry => py_for (elements (user_connections entry)) (follow_carried_connection store)
        end
  end.

Definition worker_census (w : worker) : core_worker_census * list string :=
  (core_census w, sorted_strings (elements (subscribed_tables w))).

Definition add_worker_event (e : worker_event) (w : worker) : worker :=
  with_events (worker_events w ++ [e]) w.

(** The two arms of [drop_page]: the core's climb, or the page alone, announced. *)
Definition drop_rows (identity page_id : string) (cascade : bool) : PyM worker () :=
  if cascade then core_drop_page identity page_id
  else
    py_lift (λ w, (λ u, (u, w)) <$> page_user page_id (registers w)) ≫= λ user,
    on_registers (registry_drop_page page_id) ≫= λ _,
    py_modify (add_worker_event (WorkerEvent "drop_page" user page_id)).

Definition drop_page (identity page_id : string) (cascade : bool) : PyM worker () :=
  py_reads (λ w, page_register (registers w) !! page_id) ≫= λ page,
  match page with
  | None => mret ()
  | Some page =>
      let connection_id := page_connection_id page in
      drop_rows identity page_id cascade ≫= λ _,
      py_modify (λ w,
        match connection_register (registers w) !! connection_id with
        | None => rmtree [connection_id] w
        | Some _ => rmtree [connection_id; page_id] w
        end)
  end.

Definition drop_connection (identity connection_id : string) : PyM worker () :=
  core_drop_connection identity connection_id ≫= λ _,
  py_modify (rmtree [connection_id]).

Definition connections_of (user : string) (r : registry) : list string :=
  map fst (filter (λ kc : string * connection_row, connection_user kc.2 = user)
             (map_to_list (connection_register r))).

Definition drop_user (user : string) : PyM worker () :=
  py_reads (λ w, connections_of user (registers w)) ≫= λ connection_ids,
  core_drop_user user ≫= λ _,
  py_modify (λ w, foldl (λ w cid, rmtree [cid] w) w connection_ids).
End core_verbs.

(** ** The birth and the end of the process *)

Definition IDLE_FREEZE_LEGACY_KEY : string := "connection_max_age".
Definition IDLE_FREEZE_DEFAULT_SECONDS : Z := 7200.

(** What the constructor does to the site, in order. *)
Inductive site_call : Type :=
| CreateSite                   (* [_create_site]: the factory's [build_site] *)
| ReadCleanup                  (* [custom_config.getAttr("cleanup")] *)
| TakeRegister                 (* [site.register]: the client is materialized *)
| WrapDebugger                 (* [GnrDebuggedApplication] *)
| SettleResourcesDirs
| SettleStorage (name : string)
| Publish                      (* [site.spa_worker = self] *)
| OnSiteStop
| CoreExitProcess.

Record birth : Type := Birth {
  user_idle_freeze_minutes : QArith_base.Q;
  birth_calls : list site_call
}.

(** The idle valve read from the site's [<cleanup>]: [None] where it has no such section. *)
Definition idle_from_cleanup `{BagApi} (cleanup : option attrs) : res QArith_base.Q :=
  let v := default VNone (dict_get IDLE_FREEZE_LEGACY_KEY (default [] cleanup)) in
  let v := if truthy v then v else VInt IDLE_FREEZE_DEFAULT_SECONDS in
  (λ seconds, QArith_base.Qmake seconds 60) <$> py_int v.

(** [__init__], with [group_engine] told by whether one arrived. *)
Definition worker_init `{BagApi} (caller_idle : option QArith_base.Q) (group_engine debugger : bool)
    (cleanup : option attrs) : res birth :=
  let create := if group_engine then [] else [CreateSite] in
  let settle :=
    [TakeRegister] ++ (if debugger then [WrapDebugger] else []) ++
    [SettleResourcesDirs; SettleStorage "gnr"; SettleStorage "dojo"; Publish] in
  match caller_idle with
  | Some minutes => Ok (Birth minutes (create ++ settle))
  | None =>
      idle_from_cleanup cleanup ≫= λ minutes,
      Ok (Birth minutes (create ++ [ReadCleanup] ++ settle))
  end.

Definition exit_process : list site_call := [OnSiteStop; CoreExitProcess].

(** [pool_member]: a worker with a wire; [stream] is [None] on a bare construction. *)
Definition pool_member {A} (stream : option A) : bool := if stream is Some _ then true else false.

(** ** The addressed write takes one road *)

Section roads.
Context `{CoreRegistryLaws, TytxLaws}.

(** The target row is here and belongs to the caller's own user. *)
Definition own_row (w : worker) (ident : option string) (kind : string) (target : option string)
    (row : page_row) : Prop :=
  kind = SIGNAL_KIND ∧ ∃ t u, target = Some t ∧ page_register (registers w) !! t = Some row ∧
  page_user t (registers w) = Ok u ∧ ident = Some u.

(** The chain of a row that is here is whole. *)
Definition chain_whole (w : worker) (kind : string) (target : option string) : Prop :=
  kind = SIGNAL_KIND → ∀ t, target = Some t → is_Some (page_register (registers w) !! t) →
  ∃ u, page_user t (registers w) = Ok u.

Definition served_kind (kind : string) : Prop := kind ∈ STATE_KINDS → kind = "user_store".

Definition desk_road (answered : bool) (desk_now : Z) (target : option string) (m : message)
    : PyM worker road := λ w,
  (call_desk answered (on_datachange desk_now (lane_population w) target m) ≫= λ filed,
   mret (Road false filed)) w.

Lemma route_local answered dnow ident kind t m act row w :
  served_kind kind → own_row w ident kind (Some t) row →
  _route_datachange answered dnow ident kind (Some t) None m act w =
    (Ok (Road true true), with_registers (update_page t act (registers w)) w).
Proof.
  intros Hk (-> & ? & u & [= <-] & Hrow & Hu & ->). unfold _route_datachange.
  rewrite decide_False by (intros [Hin Hne]; by apply Hne, Hk).
  rewrite decide_True by done. simpl. rewrite Hrow. simpl. rewrite Hu. by rewrite decide_True.
Qed.

Lemma route_desk answered dnow ident kind target m act w :
  served_kind kind → chain_whole w kind target → (∀ row, ¬ own_row w ident kind target row) →
  _route_datachange answered dnow ident kind target None m act w =
    desk_road answered dnow target m w.
Proof.
  intros Hk Hc Hno. unfold _route_datachange.
  rewrite decide_False by (intros [Hin Hne]; by apply Hne, Hk).
  case_decide as HS; [|done]. destruct target as [t|]; simpl; [|done].
  destruct (page_register (registers w) !! t) as [row|] eqn:Hrow; simpl; [|done].
  destruct (Hc HS t eq_refl) as [u Hu]; [by rewrite Hrow|]. rewrite Hu.
  case_decide as Hu'; [|done]. destruct (Hno row). subst. unfold own_row. naive_solver.
Qed.

Lemma route_unserved answered dnow ident kind target filters m act w :
  is_Some filters ∨ ¬ served_kind kind →
  _route_datachange answered dnow ident kind target filters m act w =
    (Raise NotImplementedError, w).
Proof.
  intros [[f ->]|Hk]; [done|]. unfold _route_datachange. destruct filters; [done|].
  rewrite decide_True; [done|]. unfold served_kind in Hk.
  destruct (decide (kind ∈ STATE_KINDS)); [|tauto]. split; [done|]. intros ->. tauto.
Qed.

Lemma desk_road_set dnow kind t rep c w :
  encodable_change c = true →
  desk_road true dnow (Some t) (set_message kind rep c) w =
    (Ok (Road false (knows (lane_population w) kind t)),
     if knows (lane_population w) kind t
     then with_lane (with_addressed_queue kind t
            (filed_queue dnow (set_message kind rep c) (trip_change c) (addressed_queue kind t (lane w)))
            (lane w)) w
     else w).
Proof.
  intros Hs. unfold desk_road, call_desk. rewrite pym_bind_unfold.
  destruct (knows (lane_population w) kind t) eqn:Hk.
  - rewrite on_datachange_set by done. done.
  - rewrite on_datachange_unknown by done. by destruct w.
Qed.

End roads.

(** ** The deposits of a request *)

Section deposits.
Context `{BagApi, CoreRegistryLaws, TytxLaws}.

(** The commits a request announces, one [notifyDbEvents] each. *)
Record commit : Type := Commit {
  cm_clock : list Z;
  cm_dbevents : list (string * value);
  cm_reason : option string;
  cm_page_id : option string;
  cm_local_only : bool
}.

Definition run_commit (w : worker) (c : commit) : worker :=
  (notifyDbEvents (cm_clock c) (cm_dbevents c) (cm_reason c) (cm_page_id c) (cm_local_only c) w).2.

(** What the commits of one kind come to, in order. *)
Definition announced (local_only : bool) (filter_ : gset string) (cs : list commit) : list deposit :=
  c ← cs;
  if decide (cm_local_only c = local_only)
  then announced_deposits (cm_clock c) (cm_dbevents c) (cm_reason c) (cm_page_id c) local_only filter_
  else [].

Lemma run_commits_slot cs w :
  let w' := foldl run_commit w cs in
  w' = with_slot
    (RequestSlot (sl_dbevents (slot w) ++ announced false (subscribed_tables w) cs)
                 (sl_own_dbevents (slot w) ++ announced true (subscribed_tables w) cs)) w.
Proof.
  revert w. induction cs as [|c cs IH]; intros w; cbn [foldl].
  { unfold announced; simpl. rewrite !app_nil_r. destruct w as [r f [a b] l p d e]. done. }
  rewrite IH. unfold run_commit, notifyDbEvents, announced. rewrite !bind_cons.
  destruct (cm_local_only c); simpl; rewrite <- ?app_assoc; done.
Qed.

Lemma call_desk_answered {A} (f : desk → A * desk) w :
  call_desk true (route_total f) w = (Ok (f (lane w)).1, with_lane (f (lane w)).2 w).
Proof. unfold call_desk, route_total. by destruct (f (lane w)). Qed.

(** C20: a request's deposits leave it once. The commits lay on the slot what the
    filter lets through; at the end of a request that collected nothing, an
    answering desk files exactly those, in order, and the slot keeps none; a desk
    that refuses loses them, whole, and nothing is raised. The hidden
    transactions' own deposits never reach the desk, and a second delivery sends
    nothing. *)
Theorem deposits_leave_once cs answered clock w :
  slot w = build_request_slot →
  let w1 := foldl run_commit w cs in
  let ds := announced false (subscribed_tables w) cs in
  let w2 := on_request_served answered clock w1 in
  lane w1 = lane w ∧ sl_dbevents (slot w1) = ds ∧
  lane w2 = (if answered then file_dbevents clock ds (lane w) else lane w) ∧
  slot w2 = RequestSlot [] (announced true (subscribed_tables w) cs) ∧
  registers w2 = registers w ∧
  (∀ again clock', on_request_served again clock' w2 = w2).
Proof.
  intros Hslot w1 ds w2.
  assert (w1 = with_slot (RequestSlot ds (announced true (subscribed_tables w) cs)) w) as E1.
  { unfold w1. rewrite run_commits_slot, Hslot. done. }
  assert (w2 = with_slot (RequestSlot [] (announced true (subscribed_tables w) cs))
    (if answered then with_lane (file_dbevents clock ds (lane w)) w else w)) as E2.
  { unfold w2, on_request_served, deliver_slot_deposits. rewrite E1. cbn [slot with_slot sl_dbevents].
    destruct ds as [|d ds'] eqn:Eds; [by destruct answered, w|].
    destruct answered; [by rewrite call_desk_answered | done]. }
  rewrite E1, E2. split_and!; try done; by destruct answered.
Qed.

(** *** The source filter loses nothing *)

Definition deposit_body (d : deposit) : string * value * option string * option string :=
  (dep_table d, dep_batch d, dep_from_page_id d, dep_reason d).

Lemma announced_bodies clock clock' dbevents reason page_id f i p :
  known_tables i ⊆ f →
  ∀ dclock dclock',
  map deposit_body (deposits_for i p dclock (announced_deposits clock dbevents reason page_id false f)) =
  map deposit_body (deposits_for i p dclock' (announced_deposits clock' dbevents reason page_id true f)).
Proof.
  intros Hf. revert clock clock'. induction dbevents as [|[t b] rest IH]; intros clock clock' dc dc';
    simpl; [done|].
  destruct (truthy b); simpl; [|apply IH].
  case_bool_decide as Ht; simpl.
  - rewrite !map_app. f_equal; [by case_decide | apply IH].
  - rewrite decide_False; [apply IH|]. intros Hp. apply Ht, Hf.
    unfold pages_for in Hp. unfold known_tables. apply elem_of_dom.
    destruct (table_pages i !! t); [done | set_solver].
Qed.

(** C21: the source filter is transparent: while the worker's filter holds every
    table somebody subscribes, what reaches each page from a commit filtered at
    the source is what would reach it had every non-empty batch been sent to the
    desk - the same tables, batches, origins and reasons, in the same order. *)
Theorem source_filter_loses_nothing clock clock' dclock dclock' dbevents reason page_id p w :
  known_tables (page_subscriptions (lane w)) ⊆ subscribed_tables w →
  let sent := announced_deposits clock dbevents reason page_id false (subscribed_tables w) in
  let everything := announced_deposits clock' dbevents reason page_id true (subscribed_tables w) in
  map deposit_body (queue_of (page_dbevent_map (file_dbevents dclock sent (lane w))) p) =
  map deposit_body (queue_of (page_dbevent_map (file_dbevents dclock' everything (lane w))) p) ∧
  Forall (λ d, truthy (dep_batch d) = true ∧ dep_table d ∈ subscribed_tables w) sent.
Proof.
  intros Hf sent everything. split.
  - rewrite !file_dbevents_queue, !map_app. f_equal. by apply announced_bodies.
  - unfold sent. clear. revert clock. induction dbevents as [|[t b] rest IH]; intros clock; simpl; [constructor|].
    destruct (truthy b) eqn:Hb; simpl; [|apply IH].
    case_bool_decide; simpl; [|apply IH]. constructor; [done | apply IH].
Qed.
End deposits.

(** ** What a collect hands over *)

Section merge.

Definition view_changes (r : registry) (page : page_row) : list change :=
  match page_user_view page with
  | None => []
  | Some v => match views r !! v with
              | None => []
              | Some c => (drain true c).1
              end
  end.

Lemma drain_page_list pid page dq r :
  (drain_page pid page dq r).1 =
    heap_merge _arrival_order (heap_merge _arrival_order (page_datachanges page) dq)
      (view_changes r page).
Proof.
  unfold drain_page, view_changes. simpl. destruct (page_user_view page) as [v|];
    [destruct (views r !! v)|]; by autorewrite with gnr.
Qed.

Lemma drain_page_registry pid page dq r :
  let r' := (drain_page pid page dq r).2 in
  page_register r' = <[pid := set_queue [] 0 page]> (page_register r) ∧
  stores r' = stores r ∧ user_register r' = user_register r ∧
  connection_register r' = connection_register r ∧
  (∀ v, page_user_view page = Some v → views r' !! v = reset <$> views r !! v) ∧
  (∀ v, page_user_view page ≠ Some v → views r' !! v = views r !! v).
Proof.
  unfold drain_page; simpl. destruct (page_user_view page) as [v|]; [|split_and!; done].
  destruct (views r !! v) as [c|] eqn:Hv; simpl; split_and!; try done.
  - intros v' [= <-]. by rewrite lookup_insert_eq, Hv.
  - intros v' Hne. rewrite lookup_insert_ne; [done | congruence].
  - intros v' [= <-]. by rewrite Hv.
Qed.

(** One list out of three queues. *)
Lemma drain_merges pid page dq r :
  let delivered := (drain_page pid page dq r).1 in
  let queues := [page_datachanges page; dq; view_changes r page] in
  delivered ≡ₚ concat queues ∧
  (∀ q, q ∈ queues → q `sublist_of` delivered) ∧
  (Forall (key_sorted _arrival_order) queues → delivered = py_sorted _arrival_order (concat queues)).
Proof.
  cbv zeta. rewrite drain_page_list. simpl. rewrite app_nil_r. split_and!.
  - by rewrite !heap_merge_perm, app_assoc.
  - intros q Hq.
    assert (q = page_datachanges page ∨ q = dq ∨ q = view_changes r page) as [->|[->| ->]]
      by set_solver.
    + etrans; [|apply heap_merge_sublist_l]. apply heap_merge_sublist_l.
    + etrans; [|apply heap_merge_sublist_l]. apply heap_merge_sublist_r.
    + apply heap_merge_sublist_r.
  - intros HF. rewrite !Forall_cons in HF. destruct HF as (S1 & S2 & S3 & _).
    rewrite heap_merge_is_sorted by auto with gnr.
    rewrite heap_merge_is_sorted by done. rewrite app_assoc. by rewrite py_sorted_app_l.
Qed.

(** C18: one list out of three queues. What a collect hands over is the row's queue,
    the desk's and the view's, nothing lost and nothing twice, each in its own
    order; when each is in its own arrival order - as they grow - the result is
    the very list one queue receiving them all would hold: the stable sort on the
    arrival of their concatenation. The three are left empty, the row's index back
    at zero, and no other row or view moves. *)
Theorem collect_merges_three_queues pid page dq r :
  let '(delivered, r') := drain_page pid page dq r in
  let queues := [page_datachanges page; dq; view_changes r page] in
  delivered ≡ₚ concat queues ∧
  (∀ q, q ∈ queues → q `sublist_of` delivered) ∧
  (Forall (key_sorted _arrival_order) queues →
     delivered = py_sorted _arrival_order (concat queues)) ∧
  page_register r' = <[pid := set_queue [] 0 page]> (page_register r) ∧
  (∀ v, page_user_view page = Some v → views r' !! v = reset <$> views r !! v) ∧
  (∀ v, page_user_view page ≠ Some v → views r' !! v = views r !! v) ∧ stores r' = stores r.
Proof.
  destruct (drain_merges pid page dq r) as (H1 & H2 & H3).
  destruct (drain_page_registry pid page dq r) as (P1 & P2 & _ & _ & P3 & P4).
  destruct (drain_page pid page dq r) as [delivered r']. cbn [fst snd] in *. by split_and!.
Qed.
End merge.

(** ** The whole collect *)

Section collect.
Context `{BagApi, CoreRegistryLaws, TytxLaws}.

Lemma pym_bind_ok {S A B} (m : PyM S A) (f : A → PyM S B) s a s' :
  m s = (Ok a, s') → (m ≫= f) s = f a s'.
Proof. intros Hm. by rewrite pym_bind_unfold, Hm. Qed.

Lemma pym_bind_raise {S A B} (m : PyM S A) (f : A → PyM S B) s e s' :
  m s = (Raise e, s') → (m ≫= f) s = (Raise e, s').
Proof. intros Hm. by rewrite pym_bind_unfold, Hm. Qed.

Lemma collect_reply_ok clock pid user reply r u r2 page :
  is_Some (page_register r !! pid) → user_register r !! user = Some u →
  apply_all clock (user_store u) (from_tytx_list (ex_store_changes reply)) r = (Ok (), r2) →
  page_register r2 !! pid = Some page →
  collect_reply clock pid user reply r =
    let '(l, r3) := drain_page pid page (from_tytx_list (ex_datachanges reply)) r2 in
    (Ok (number_from 1 l), r3).
Proof.
  intros [p0 Hp0] Hu Ha Hp. unfold collect_reply. rewrite pym_bind_unfold. unfold py_reads.
  rewrite Hp0, Hu. rewrite (pym_bind_ok _ _ _ _ _ Ha). unfold drain_reply. by rewrite Hp.
Qed.

Lemma collect_page_start ans dclock clock between pid row user w :
  page_register (registers w) !! pid = Some row → page_user pid (registers w) = Ok user →
  collect_page ans dclock clock between pid w =
    (call_desk ans (route_total (exchange dclock pid user (sl_dbevents (slot w)))) ≫= λ reply,
      py_modify (λ w, with_slot (RequestSlot [] (sl_own_dbevents (slot w))) w) ≫= λ _,
      py_modify (λ w, with_registers (between (registers w)) w) ≫= λ _,
      on_registers (collect_reply clock pid user reply) ≫= λ datachanges,
      py_reads slot ≫= λ s,
      py_modify (with_slot (RequestSlot (sl_dbevents s) [])) ≫= λ _,
      mret (Delivery datachanges (ex_dbevents reply ++ sl_own_dbevents s))) w.
Proof.
  intros Hrow Hpu.
  assert (py_lift (λ w, (λ u, (u, w)) <$> page_user pid (registers w)) w = (Ok user, w)) as Hlift
    by (unfold py_lift; by rewrite Hpu).
  unfold collect_page. rewrite pym_bind_unfold. unfold py_reads at 1. rewrite Hrow.
  by rewrite (pym_bind_ok _ _ _ _ _ Hlift).
Qed.

Lemma collect_page_answered dclock clock between pid row user u r2 page w :
  let r1 := between (registers w) in
  page_register (registers w) !! pid = Some row → page_user pid (registers w) = Ok user →
  desk_safe (lane w) →
  is_Some (page_register r1 !! pid) → user_register r1 !! user = Some u →
  apply_all clock (user_store u) (map trip_change (queue_of (user_store_change_map (lane w)) user)) r1 =
    (Ok (), r2) →
  page_register r2 !! pid = Some page →
  let '(l, r3) :=
    drain_page pid page (map trip_change (queue_of (page_datachange_map (lane w)) pid)) r2 in
  ∃ w', collect_page true dclock clock between pid w =
     (Ok (Delivery (number_from 1 l)
        (queue_of (page_dbevent_map (lane w)) pid ++
         deposits_for (page_subscriptions (lane w)) pid dclock (sl_dbevents (slot w)) ++
         sl_own_dbevents (slot w))), w') ∧
     registers w' = r3 ∧ slot w' = build_request_slot ∧
     lane w' = (exchange dclock pid user (sl_dbevents (slot w)) (lane w)).2.
Proof.
  intros r1 Hrow Hpu Hsafe Hrow1 Hu Ha Hp.
  pose proof (exchange_dbevents dclock pid user (sl_dbevents (slot w)) (lane w)) as E1.
  destruct (exchange_changes dclock pid user (sl_dbevents (slot w)) (lane w) Hsafe) as [E2 E3].
  pose proof (call_desk_answered (exchange dclock pid user (sl_dbevents (slot w))) w) as Hcall.
  destruct (exchange dclock pid user (sl_dbevents (slot w)) (lane w)) as [reply d'] eqn:Ex.
  cbn [fst snd] in *.
  destruct (drain_page pid page (map _ (queue_of (page_datachange_map (lane w)) pid)) r2) as [l r3] eqn:Edr.
  rewrite (collect_page_start _ _ _ _ _ row user) by done.
  rewrite (pym_bind_ok _ _ _ _ _ Hcall).
  assert (collect_reply clock pid user reply r1 = (Ok (number_from 1 l), r3)) as Hc.
  { rewrite (collect_reply_ok clock pid user reply r1 u r2 page Hrow1 Hu), E2, Edr; [done| |done].
    by rewrite E3. }
  eexists. split.
  { cbv [mbind pym_bind py_modify py_reads mret pym_ret on_registers registers with_registers
      with_slot with_lane slot sl_own_dbevents sl_dbevents].
    fold (registers w) (slot w). fold r1. rewrite Hc. cbv beta iota. rewrite E1, <- app_assoc.
    reflexivity. }
  by cbn.
Qed.

(** C1: the collect, end to end. With the desk answering, a page gets one list, numbered
    from 1, of everything that waited for it - its row's queue, the desk's as the wire
    carries it, its view's after the user's store has received the writes the exchange
    brought back - nothing lost, nothing twice, each in its own order, and the stable
    sort on the arrivals when each is in its own; and the table events that waited at
    the desk followed by its own, the hidden transaction's last. The slot, the row, the
    view and the page's queues at the desk are left empty and no other row or view
    moves, whatever the other threads did meanwhile. With the desk refusing, the call
    raises and nothing at all has moved: the deposits are still on the slot. *)
Theorem collect_page_delivers dclock clock between pid row user u r2 page w :
  let r1 := between (registers w) in
  let wire queue := map trip_change queue in
  page_register (registers w) !! pid = Some row → page_user pid (registers w) = Ok user →
  desk_safe (lane w) →
  is_Some (page_register r1 !! pid) → user_register r1 !! user = Some u →
  apply_all clock (user_store u) (wire (queue_of (user_store_change_map (lane w)) user)) r1 = (Ok (), r2) →
  page_register r2 !! pid = Some page →
  let queues := [page_datachanges page; wire (queue_of (page_datachange_map (lane w)) pid);
                 view_changes r2 page] in
  (∃ l w', collect_page true dclock clock between pid w =
     (Ok (Delivery (number_from 1 l)
        (queue_of (page_dbevent_map (lane w)) pid ++
         deposits_for (page_subscriptions (lane w)) pid dclock (sl_dbevents (slot w)) ++
         sl_own_dbevents (slot w))), w') ∧
     (l ≡ₚ concat queues ∧ (∀ q, q ∈ queues → q `sublist_of` l) ∧
      (Forall (key_sorted _arrival_order) queues → l = py_sorted _arrival_order (concat queues))) ∧
     page_register (registers w') = <[pid := set_queue [] 0 page]> (page_register r2) ∧
     (∀ v, views (registers w') !! v =
        if decide (page_user_view page = Some v) then reset <$> views r2 !! v else views r2 !! v) ∧
     stores (registers w') = stores r2 ∧ slot w' = build_request_slot ∧
     queue_of (page_datachange_map (lane w')) pid = [] ∧
     queue_of (page_dbevent_map (lane w')) pid = [] ∧
     queue_of (user_store_change_map (lane w')) user = []) ∧
  collect_page false dclock clock between pid w = (Raise CommanderCallFailed, w).
Proof.
  intros r1 wire Hrow Hpu Hsafe Hrow1 Hu Ha Hp queues.
  pose proof (collect_page_answered dclock clock between pid row user u r2 page w
    Hrow Hpu Hsafe Hrow1 Hu Ha Hp) as HA.
  destruct (exchange_after dclock pid user (sl_dbevents (slot w)) (lane w)) as (_ & E4 & E5 & E6 & _).
  set (dq := map trip_change (queue_of (page_datachange_map (lane w)) pid)) in *.
  pose proof (drain_merges pid page dq r2) as HM.
  destruct (drain_page_registry pid page dq r2) as (P1 & P2 & _ & _ & P3 & P4).
  destruct (drain_page pid page dq r2) as [l r3]. destruct HA as (w' & Hw' & HR & HS & HL). split.
  - exists l, w'. cbn [fst snd] in *. rewrite HR, HL. split_and!; try done; try apply HM.
    + intros v. case_decide; auto.
    + by rewrite E4, queue_of_delete_eq.
    + by apply queue_of_none.
    + by rewrite E5, queue_of_delete_eq.
  - by rewrite (collect_page_start _ _ _ _ _ row user).
Qed.

(** *** A store write born elsewhere *)

(** What the write is to the Bag, and to everybody who listens to it. *)
Definition forwarded_op (c : change) (b : bag) : bag * list node_event :=
  if ch_delete c then bag_delItem b (ch_path c) (k_reason (ch_key c))
  else bag_setItem b (ch_path c) (ch_value c) (Some (forwarded_attributes c)) (k_reason (ch_key c)).

Lemma forwarded_heard now store c r o nodes evs r' :
  stores r !! store = Some o → NoDup (bo_subs o) → forwarded_op c (bo_nodes o) = (nodes, evs) →
  apply_forwarded now store c r = (Ok (), r') →
  (∀ v col, views r !! v = Some col → ∃ col', views r' !! v = Some col' ∧
     col_changes col' =
       if decide (SubView v ∈ bo_subs o)
       then col_changes col ++ number_from (col_change_idx col + 1)
              (map (event_change now) (filter (λ e, _captures col (event_path e) = true) evs))
       else col_changes col) ∧
  (∀ p page, page_register r !! p = Some page → ∃ page', page_register r' !! p = Some page' ∧
     page_user_view page' = page_user_view page) ∧
  ∃ o', stores r' !! store = Some o' ∧ bo_subs o' = bo_subs o ∧
    if negb (ch_delete c) && k_fired (ch_key c)
    then bag_updateNode nodes (ch_path c) (λ '(_, a), (VNone, dict_pop "_fired" a)) =
           Some (bo_nodes o')
    else bo_nodes o' = nodes.
Proof.
  intros Ho HND Hop Hap. set (rb := on_bag now store (forwarded_op c) r).
  destruct (on_bag_spec now store (forwarded_op c) r o nodes evs Ho HND Hop) as (HS & HP & HV).
  fold rb in HS, HP, HV.
  assert (stores rb !! store = Some (BagObject nodes (bo_subs o))) as HS' by (by rewrite HS, lookup_insert_eq).
  assert (views r' = views rb ∧ page_register r' = page_register rb ∧
    ∃ o', stores r' !! store = Some o' ∧ bo_subs o' = bo_subs o ∧
      if negb (ch_delete c) && k_fired (ch_key c)
      then bag_updateNode nodes (ch_path c) (λ '(_, a), (VNone, dict_pop "_fired" a)) = Some (bo_nodes o')
      else bo_nodes o' = nodes) as (-> & -> & Hrest).
  { clear HP HV HS Hop. subst rb. unfold apply_forwarded, forwarded_op in *.
    destruct (ch_delete c); simpl in *; [simplify_eq; split_and!; [done..|]; by eexists|].
    destruct (k_fired (ch_key c)); simpl in *; [|simplify_eq; split_and!; [done..|]; by eexists].
    rewrite HS' in Hap. simpl in Hap.
    destruct (bag_updateNode nodes (ch_path c) _) as [n'|] eqn:Hn; simplify_eq.
    split_and!; [done..|]. exists (BagObject n' (bo_subs o)). simpl. by rewrite lookup_insert_eq. }
  split_and!; [exact HV| |exact Hrest]. intros p page Hp. rewrite (HP p page Hp). eexists. split; [done|].
  by case_decide.
Qed.

(** The attributes a forwarded write sets: the change's own, its clock under
    [_original_ts] and, on a fired one, the mark the capture looks for. *)
Lemma forwarded_attributes_spec c k :
  dict_get k (forwarded_attributes c) =
    if decide (k = "_fired" ∧ k_fired (ch_key c) = true) then Some (VBool true)
    else if decide (k = "_original_ts") then Some (VAware (ch_change_ts c) 0)
    else dict_get k (default [] (ch_attributes c)).
Proof.
  unfold forwarded_attributes. destruct (k_fired (ch_key c)).
  - destruct (decide (k = "_fired")) as [->|Hk]; [by rewrite dict_get_set_eq, decide_True|].
    rewrite dict_get_set_ne, decide_False by (congruence || naive_solver).
    case_decide as Ho; [subst; by rewrite dict_get_set_eq | by rewrite dict_get_set_ne].
  - rewrite (decide_False (P := k = "_fired" ∧ false = true)) by naive_solver.
    case_decide as Ho; [subst; by rewrite dict_get_set_eq | by rewrite dict_get_set_ne].
Qed.

(** C22: a state write the exchange brings back is applied to the user's Bag under
    its own path and reason, with its own attributes, its clock beside them and the
    fired mark exactly when it is fired; every view watching that Bag - the page's own
    and its siblings' - captures the events it raises under the watched prefixes, once
    each; a fired write then leaves the node with no value and no fired mark. And it is
    applied before anything is drained: the landing that brought it hands the page,
    beside what its view already held, all of what the view captured of it. *)
Theorem forwarded_write_is_captured now store c r o nodes evs r' :
  stores r !! store = Some o → NoDup (bo_subs o) →
  (if ch_delete c then bag_delItem (bo_nodes o) (ch_path c) (k_reason (ch_key c))
   else bag_setItem (bo_nodes o) (ch_path c) (ch_value c) (Some (forwarded_attributes c))
          (k_reason (ch_key c))) = (nodes, evs) →
  apply_forwarded now store c r = (Ok (), r') →
  let captured col := map (event_change now) (filter (λ e, _captures col (event_path e) = true) evs) in
  (∀ k, dict_get k (forwarded_attributes c) =
     if decide (k = "_fired" ∧ k_fired (ch_key c) = true) then Some (VBool true)
     else if decide (k = "_original_ts") then Some (VAware (ch_change_ts c) 0)
     else dict_get k (default [] (ch_attributes c))) ∧
  (∀ v col, views r !! v = Some col →
     ∃ col', views r' !! v = Some col' ∧
       col_changes col' =
         if decide (SubView v ∈ bo_subs o)
         then col_changes col ++ number_from (col_change_idx col + 1) (captured col)
         else col_changes col) ∧
  (∃ o', stores r' !! store = Some o' ∧ bo_subs o' = bo_subs o ∧
     if negb (ch_delete c) && k_fired (ch_key c)
     then bag_updateNode nodes (ch_path c) (λ '(_, a), (VNone, dict_pop "_fired" a)) =
            Some (bo_nodes o')
     else bo_nodes o' = nodes) ∧
  (∀ pid user reply page u v col,
     page_register r !! pid = Some page → user_register r !! user = Some u → user_store u = store →
     from_tytx_list (ex_store_changes reply) = [c] →
     page_user_view page = Some v → views r !! v = Some col → SubView v ∈ bo_subs o →
     ∃ l r2, collect_reply [now] pid user reply r = (Ok l, r2) ∧
       map (set_change_idx 0) (col_changes col ++ captured col) ⊆+ map (set_change_idx 0) l).
Proof.
  intros Ho HND Hop Hap captured.
  destruct (forwarded_heard now store c r o nodes evs r' Ho HND Hop Hap) as (HV & HP & HO).
  split_and!; [apply forwarded_attributes_spec | exact HV | exact HO |].
  intros pid user reply page u v col Hp Hu <- Hc Hv Hcol Hin.
  destruct (HP pid page Hp) as (page' & Hp' & Hv'). destruct (HV v col Hcol) as (col' & Hcol' & E).
  rewrite decide_True in E by done.
  assert (apply_all [now] (user_store u) (from_tytx_list (ex_store_changes reply)) r = (Ok (), r')) as Ha
    by (rewrite Hc; cbn [apply_all hd]; by rewrite pym_bind_unfold, Hap).
  rewrite (collect_reply_ok [now] pid user reply r u r' page') by done.
  destruct (drain_merges pid page' (from_tytx_list (ex_datachanges reply)) r') as (_ & HS & _).
  destruct (drain_page pid page' _ r') as [l r2]. eexists _, r2. split; [done|].
  rewrite number_from_forget by done. cbn [fst] in HS.
  assert (map (set_change_idx 0) (col_changes col ++ captured col) =
    map (set_change_idx 0) (col_changes col')) as ->.
  { rewrite E, !map_app. f_equal. by rewrite number_from_forget. }
  apply (fmap_submseteq (set_change_idx 0)). etrans; [|apply sublist_submseteq, HS; right; right; left].
  unfold view_changes. rewrite Hv', Hv, Hcol'. apply Permutation_submseteq. symmetry. apply py_sorted_perm.
Qed.
End collect.

(** ** The row and the desk agree on a subscription *)

Section subscriptions.
Context `{BagApi, CoreRegistryLaws}.

(** C23: a table subscription moves the row first and the desk with it: when the
    call is answered, the page is among the table's subscribers at the desk exactly
    when the table is among the row's, no other page and no other table moved in
    either; when the lane refuses, the call raises with the row moved and the desk
    as it was; an unknown page moves nothing; and the process's own source filter
    is left alone in every case. *)
Theorem subscribeTable_agrees answered table pid b w R :
  represents (page_subscriptions (lane w)) R →
  let '(a, w') := subscribeTable answered table pid b w in
  subscribed_tables w' = subscribed_tables w ∧ slot w' = slot w ∧
  match page_register (registers w) !! pid with
  | None => a = Raise KeyError ∧ w' = w
  | Some row =>
      (∃ row', page_register (registers w') = <[pid := row']> (page_register (registers w)) ∧
         (∀ t, t ∈ page_table_subscriptions row' ↔
            if decide (t = table) then b = true else t ∈ page_table_subscriptions row) ∧
         page_datachanges row' = page_datachanges row) ∧
      if answered
      then a = Ok (SubscriptionReply pid table b) ∧
           (∀ p t, p ∈ pages_for (page_subscriptions (lane w')) t ↔
              if decide (t = table ∧ p = pid) then b = true
              else p ∈ pages_for (page_subscriptions (lane w)) t)
      else a = Raise CommanderCallFailed ∧ lane w' = lane w
  end.
Proof.
  intros HR. unfold subscribeTable. rewrite pym_bind_unfold.
  destruct (page_register (registers w) !! pid) as [row|] eqn:Hrow; [|by destruct w].
  set (row' := set_table_subscriptions _ row).
  assert (∀ t, t ∈ page_table_subscriptions row' ↔
    if decide (t = table) then b = true else t ∈ page_table_subscriptions row) as Hrow'.
  { intros t. simpl. case_decide as Ht; destruct b; set_solver. }
  rewrite pym_bind_unfold. destruct answered; cbn [call_desk].
  2:{ split_and!; try done. by exists row'. }
  unfold route_total, Desk.subscribe_table. cbn [lane with_registers].
  assert (represents (if b then subscribe pid table (page_subscriptions (lane w))
      else unsubscribe pid table (page_subscriptions (lane w))).2
    (if b then {[(pid, table)]} ∪ R else R ∖ {[(pid, table)]})) as HR'.
  { destruct b; [by apply subscribe_refines | by apply forget_refines]. }
  destruct (if b then subscribe pid table (page_subscriptions (lane w))
            else unsubscribe pid table (page_subscriptions (lane w))) as [moved i].
  cbn [snd] in HR'.
  assert (∀ p t, p ∈ pages_for i t ↔ if decide (t = table ∧ p = pid) then b = true
    else p ∈ pages_for (page_subscriptions (lane w)) t) as HP.
  { intros p t. rewrite (rep_pages _ _ HR' t p).
    case_decide as Hpt; [destruct Hpt as [-> ->]|rewrite (rep_pages _ _ HR t p)];
      destruct b; set_solver. }
  split_and!; [done|done| |done|exact HP]. by exists row'.
Qed.

(** C40: the interest is filed at once, the filter is not: a page that subscribes a
    table nobody subscribed and commits on it in the same request, before the
    commander's push reaches its process, announces nothing of that commit. *)
Theorem subscribe_then_commit_waits_the_push table pid clock batch reason w R row :
  represents (page_subscriptions (lane w)) R →
  page_register (registers w) !! pid = Some row → table ∉ subscribed_tables w →
  let w1 := (subscribeTable true table pid true w).2 in
  pid ∈ pages_for (page_subscriptions (lane w1)) table ∧
  notifyDbEvents clock [(table, batch)] reason (Some pid) false w1 = ([], w1) ∧
  (truthy batch = true → ∀ w2, w2 = orders_subscribed_tables (Some [table]) w1 →
     (notifyDbEvents clock [(table, batch)] reason (Some pid) false w2).1 = [table]).
Proof.
  intros HR Hrow Ht. unfold subscribeTable. rewrite pym_bind_unfold, Hrow, pym_bind_unfold.
  unfold call_desk, route_total, Desk.subscribe_table. cbn [lane with_registers].
  destruct (subscribe_refines _ _ pid table HR) as [HR' _].
  destruct (subscribe pid table (page_subscriptions (lane w))) as [moved i] eqn:Ei. simpl in HR'.
  split_and!; simpl.
  - apply (rep_pages _ _ HR'). set_solver.
  - unfold notifyDbEvents; simpl. rewrite bool_decide_eq_false_2 by done. rewrite andb_false_r. simpl.
    rewrite app_nil_r. by destruct w as [r f [d o] l p k e].
  - intros Hb w2 ->. unfold notifyDbEvents; simpl. rewrite Hb, bool_decide_eq_true_2 by set_solver.
    done.
Qed.
End subscriptions.

(** ** The parcel's store *)

Section carried.
Context `{CoreRegistry, CoreWorker}.

Definition pages_of_user (r : registry) (entry : user_row) : list string :=
  cid ← elements (user_connections entry);
  match connection_register r !! cid with
  | None => []
  | Some c => elements (connection_pages c)
  end.

Lemma follow_carried_view store pid r :
  follow_carried store pid r = follow_view (λ _, false) store pid r.
Proof.
  unfold follow_carried, follow_view. by repeat case_match.
Qed.

Lemma carried_connections store cids r0 gone r :
  followers (λ _, false) store r0 gone r → is_Some (stores r0 !! store) →
  (∀ cid, cid ∈ cids → ∃ c, connection_register r0 !! cid = Some c ∧
     ∀ p, p ∈ connection_pages c → is_Some (page_register r0 !! p)) →
  let pages := cid ← cids; match connection_register r0 !! cid with
                           | None => []
                           | Some c => elements (connection_pages c)
                           end in
  NoDup (gone ++ pages) →
  ∃ r', py_for cids (follow_carried_connection store) r = (Ok (), r') ∧
        followers (λ _, false) store r0 (gone ++ pages) r'.
Proof.
  revert gone r. induction cids as [|cid cids IH]; intros gone r HF Hs Hc; cbn zeta.
  { exists r. simpl. by rewrite app_nil_r. }
  destruct (Hc cid ltac:(left)) as (c & Hcid & Hpages). rewrite bind_cons, Hcid, app_assoc. intros HND.
  destruct (followers_loop (λ _, false) store (elements (connection_pages c)) r0 gone r HF)
    as (r1 & Hr1 & HF1); [by apply NoDup_app in HND as (? & _ & _)|done|..].
  { intros p Hp. apply Hpages. by apply elem_of_elements in Hp. }
  destruct (IH (gone ++ elements (connection_pages c)) r1 HF1 Hs) as (r' & Hr' & HF');
    [intros k Hk; apply Hc; by right | done|].
  exists r'. split; [|done]. simpl. rewrite pym_bind_unfold.
  unfold follow_carried_connection at 1. rewrite (fo_connections _ _ _ _ _ HF), Hcid.
  by rewrite (py_for_ext _ _ _ _ (follow_carried_view store)), Hr1.
Qed.

(** A parcel that lands on a user takes every watching page with it: after the
    core's swap each page of the user's connections with a view gets a fresh one
    on the carried Bag, with the same prefixes and everything the old one still
    held, and the old one is heard by no Bag; every other page stays as it is and
    the registry stays well-formed. An empty parcel, or a resident user, is the
    core's own swap and nothing else. *)
Theorem carried_store_followed user store r0 r entry :
  core_install_carried_store user (Some store) false r0 = (Ok (), r) →
  registry_wf r → user_register r !! user = Some entry → is_Some (stores r !! store) →
  (∀ cid, cid ∈ user_connections entry → ∃ c, connection_register r !! cid = Some c ∧
     ∀ p, p ∈ connection_pages c → is_Some (page_register r !! p)) →
  NoDup (pages_of_user r entry) →
  (∃ r', _install_carried_store user (Some store) false r0 = (Ok (), r') ∧ registry_wf r' ∧
     (∀ p, p ∈ pages_of_user r entry → followed (λ _, false) store r r' p) ∧
     (∀ p, p ∉ pages_of_user r entry → page_register r' !! p = page_register r !! p)) ∧
  (∀ st res rr, st = None ∨ res = true →
     _install_carried_store user st res rr = core_install_carried_store user st res rr).
Proof.
  intros Hcore Hwf Hu Hs Hc HND. split.
  - unfold _install_carried_store. rewrite pym_bind_unfold, Hcore, pym_bind_unfold.
    unfold py_reads. rewrite Hu.
    destruct (carried_connections store (elements (user_connections entry)) r [] r)
      as (r' & Hr' & HF'); [by apply followers_nil|done| |done|].
    { intros cid Hcid. apply Hc. by apply elem_of_elements. }
    exists r'. split; [done|]. split_and!; [apply HF'|apply HF'|apply HF'].
  - intros st res rr Hd. unfold _install_carried_store. rewrite pym_bind_unfold.
    destruct (core_install_carried_store user st res rr) as [[[]|e] rr']; [|done].
    destruct st as [l|]; [|done]. destruct Hd as [Hd| ->]; done.
Qed.
End carried.

(** ** The windows of a page onto its stores *)

Section windows.
Context `{CoreRegistryLaws}.

(** C24: a page's window onto its own store opens and closes exactly one prefix:
    after it, a write is captured when it lies under the new prefix or was already
    captured, or - at a closing - when another prefix still covers it. A window
    onto the user's store moves the row's set and the view's together, keeps what
    is pending, and leaves the registers well-formed. Any other store name is a
    ValueError that moves nothing. *)
Theorem store_window_moves pid prefix active w row u :
  registry_wf (registers w) → page_register (registers w) !! pid = Some row →
  owner_chain (registers w) pid u →
  (∃ row' w', setStoreSubscription pid "page" prefix active w = (Ok row', w') ∧
     registry_wf (registers w') ∧ page_register (registers w') !! pid = Some row' ∧
     page_datachanges row' = page_datachanges row ∧
     ∀ path, page_captures row' path = true ↔
       if active then under path prefix = true ∨ page_captures row path = true
       else ∃ q, q ∈ page_subscribed_paths row ∧ q ≠ prefix ∧ under path q = true) ∧
  (∃ row' w', setStoreSubscription pid "user" prefix active w = (Ok row', w') ∧
     registry_wf (registers w') ∧ page_register (registers w') !! pid = Some row' ∧
     page_store_subscriptions row' =
       (if active then {[prefix]} ∪ page_store_subscriptions row
        else page_store_subscriptions row ∖ {[prefix]}) ∧
     ∀ v c, page_user_view row = Some v → views (registers w) !! v = Some c →
       page_user_view row' = Some v ∧ ∃ c', views (registers w') !! v = Some c' ∧
       col_changes c' = col_changes c ∧ col_bag c' = col_bag c) ∧
  (∀ other, other ≠ "page" → other ≠ "user" →
     setStoreSubscription pid other prefix active w = (Raise ValueError, w)).
Proof.
  intros Hwf Hrow Hch. split_and!.
  - unfold setStoreSubscription. rewrite Hrow, decide_True by done.
    set (row' := set_subscribed_paths _ row).
    destruct (put_fields_step pid row (set_subscribed_paths (page_subscribed_paths row')) (registers w)
      Hwf Hrow ltac:(done)) as (Hwf' & _ & Hp' & _).
    exists row', (with_registers (with_pages (<[pid := row']> (page_register (registers w)))
      (registers w)) w).
    split; [done|]. split; [|split; [simpl; by rewrite lookup_insert_eq|split; [done|]]].
    + unfold update_page in Hwf'. rewrite (alter_alt_Some _ _ _ _ Hrow) in Hwf'. exact Hwf'.
    + intros path. unfold page_captures, row'.
      destruct active; simpl; rewrite !bool_decide_eq_true; unfold set_Exists.
      * split.
        -- intros (q & [Hq|Hq]%elem_of_union & Hu); [|by right; exists q].
           apply elem_of_singleton in Hq as ->. by left.
        -- intros [Hu|(q & Hq & Hu)]; [exists prefix | exists q]; (split; [|done]); set_solver.
      * split; intros (q & Hq & Hu); exists q; set_solver.
  - unfold setStoreSubscription. rewrite Hrow, decide_False, decide_True by done. destruct active.
    + unfold on_registers.
      destruct (subscribe_step pid prefix (registers w) row u Hwf Hrow Hch)
        as (v & r' & Hr' & Hp' & Hwf' & HF & _ & Hg).
      rewrite Hr'. eexists _, _. split; [done|]. split_and!; [done|done|done|].
      intros v0 c Hv0 Hc. destruct Hg as (c' & Hc' & Hg). rewrite Hv0 in Hg.
      destruct Hg as (-> & c0 & Hc0 & ->). simplify_eq. split; [done|]. eauto.
    + destruct (page_user_view row) as [v|] eqn:Hv.
      * pose proof (wf_views _ Hwf _ _ Hrow) as HB. unfold view_bound in HB. rewrite Hv in HB.
        destruct HB as (c & Hc & Hps & _).
        destruct (repath_step (registers w) pid row v c (unsubscribe_path prefix)
          (page_store_subscriptions row ∖ {[prefix]}) Hwf Hrow Hv Hc) as [Hwf' _].
        { intros Hcp. simpl. by rewrite Hcp. }
        eexists _, _. split; [done|]. split_and!;
          [done|simpl; by rewrite lookup_insert_eq|done|].
        intros v0 c0 [= <-] Hc0. simplify_eq. split; [done|]. simpl. rewrite lookup_alter_eq, Hc. eauto.
      * pose proof (wf_views _ Hwf _ _ Hrow) as HB. unfold view_bound in HB. rewrite Hv in HB.
        exists row, w. split_and!; [done|done|done|rewrite HB; set_solver|done].
  - intros other Hp Hu. unfold setStoreSubscription. by rewrite Hrow, !decide_False.
Qed.
End windows.

(** ** The folders follow the rows *)

Section folders.
Context `{CoreRegistry, CoreWorkerLaws}.

Lemma rmtree_disk path w p : p ∈ disk (rmtree path w) ↔ p ∈ disk w ∧ ¬ path `prefix_of` p.
Proof. simpl. rewrite elem_of_filter. tauto. Qed.

Lemma rmtrees_disk cids w p :
  p ∈ disk (foldl (λ w cid, rmtree [cid] w) w cids) ↔
    p ∈ disk w ∧ ∀ cid, cid ∈ cids → ¬ [cid] `prefix_of` p.
Proof.
  revert w. induction cids as [|cid cids IH]; intros w; cbn [foldl]; [set_solver|].
  rewrite IH, rmtree_disk. set_solver.
Qed.

Lemma drop_rows_disk ident pid cascade w : disk (drop_rows ident pid cascade w).2 = disk w.
Proof.
  unfold drop_rows. destruct cascade; [apply core_drop_page_disk|].
  rewrite pym_bind_unfold. unfold py_lift. destruct (page_user pid (registers w)); simpl; [|done].
  rewrite pym_bind_unfold. unfold on_registers. by destruct (registry_drop_page pid (registers w)) as [[]].
Qed.

(** The disk follows the rows: a dropped page takes the whole connection folder
    when the connection fell with it and its own subfolder otherwise, with or
    without cascade - the cascade-less drop announcing the page to the commander;
    a dropped connection takes its folder; a dropped user those of all the
    connections that were his; no other folder goes, and an unknown page drops
    nothing. *)
Theorem folders_follow_rows ident w :
  (∀ pid cascade row w', page_register (registers w) !! pid = Some row →
     drop_page ident pid cascade w = (Ok (), w') →
     ∀ p, p ∈ disk w' ↔ p ∈ disk w ∧
       ¬ (if connection_register (registers w') !! page_connection_id row is Some _
          then [page_connection_id row; pid] else [page_connection_id row]) `prefix_of` p) ∧
  (∀ pid row w', page_register (registers w) !! pid = Some row →
     drop_page ident pid false w = (Ok (), w') →
     ∃ user, page_user pid (registers w) = Ok user ∧
       registry_drop_page pid (registers w) = (Ok (), registers w') ∧
       worker_events w' = worker_events w ++ [WorkerEvent "drop_page" user pid]) ∧
  (∀ pid cascade, page_register (registers w) !! pid = None →
     drop_page ident pid cascade w = (Ok (), w)) ∧
  (∀ cid w', drop_connection ident cid w = (Ok (), w') →
     ∀ p, p ∈ disk w' ↔ p ∈ disk w ∧ ¬ [cid] `prefix_of` p) ∧
  (∀ user w', drop_user user w = (Ok (), w') →
     ∀ p, p ∈ disk w' ↔ p ∈ disk w ∧
       ∀ cid c, connection_register (registers w) !! cid = Some c → connection_user c = user →
         ¬ [cid] `prefix_of` p).
Proof.
  split_and!.
  - intros pid cascade row w' Hrow. unfold drop_page. rewrite pym_bind_unfold. unfold py_reads.
    rewrite Hrow, pym_bind_unfold.
    pose proof (drop_rows_disk ident pid cascade w) as Hdisk.
    destruct (drop_rows ident pid cascade w) as [[a|e] w1]; [|done]. cbn [snd] in Hdisk.
    rewrite <- Hdisk. intros [= <-] p. unfold py_modify.
    destruct (connection_register (registers w1) !! page_connection_id row) eqn:Hc;
      simpl; rewrite Hc, elem_of_filter; tauto.
  - intros pid row w' Hrow. unfold drop_page. rewrite pym_bind_unfold. unfold py_reads.
    rewrite Hrow, pym_bind_unfold. unfold drop_rows. rewrite pym_bind_unfold. unfold py_lift.
    destruct (page_user pid (registers w)) as [user|]; simpl; [|done].
    rewrite pym_bind_unfold. unfold on_registers.
    destruct (registry_drop_page pid (registers w)) as [[[]|] r]; [|done].
    intros [= <-]. exists user. unfold py_modify; simpl.
    by destruct (connection_register r !! page_connection_id row).
  - intros pid cascade Hrow. unfold drop_page. rewrite pym_bind_unfold. unfold py_reads.
    by rewrite Hrow.
  - intros cid w'. unfold drop_connection. rewrite pym_bind_unfold.
    pose proof (core_drop_connection_disk ident cid w) as HD.
    destruct (core_drop_connection ident cid w) as [[[]|] w1]; [|done]. simpl in HD.
    intros [= <-] p. by rewrite rmtree_disk, HD.
  - intros user w'. unfold drop_user. rewrite pym_bind_unfold. unfold py_reads.
    rewrite pym_bind_unfold. pose proof (core_drop_user_disk user w) as HD.
    destruct (core_drop_user user w) as [[[]|] w1]; [|done]. simpl in HD.
    intros [= <-] p. rewrite rmtrees_disk, HD. unfold connections_of. f_equiv.
    setoid_rewrite list_elem_of_fmap. split.
    + intros Hall cid c Hc Hcu. apply Hall. exists (cid, c). split; [done|].
      apply list_elem_of_filter. split; [done|]. by apply elem_of_map_to_list.
    + intros Hall cid ([k c] & -> & Hin). apply list_elem_of_filter in Hin as [Hu Hin].
      simpl in *. by apply (Hall k c); [apply elem_of_map_to_list|].
Qed.
End folders.

(** ** The birth *)

(** The caller's idle minutes win over the site's; a forked worker builds no site;
    the site is handed the worker only after its lazy state has settled. *)
Lemma worker_birth `{BagApi} caller group_engine debugger cleanup b :
  worker_init caller group_engine debugger cleanup = Ok b →
  (match caller with
   | Some minutes => user_idle_freeze_minutes b = minutes ∧ ReadCleanup ∉ birth_calls b
   | None => idle_from_cleanup cleanup = Ok (user_idle_freeze_minutes b)
   end) ∧
  (CreateSite ∈ birth_calls b ↔ group_engine = false) ∧
  ∃ before, birth_calls b = before ++ [Publish] ∧
    ∀ c, c ∈ [TakeRegister; SettleResourcesDirs; SettleStorage "gnr"; SettleStorage "dojo"] → c ∈ before.
Proof.
  unfold worker_init. destruct caller as [minutes|].
  - intros [= <-]. split_and!; [done| | |exists (removelast (birth_calls
      (Birth minutes ((if group_engine then [] else [CreateSite]) ++ [TakeRegister] ++
        (if debugger then [WrapDebugger] else []) ++
        [SettleResourcesDirs; SettleStorage "gnr"; SettleStorage "dojo"; Publish]))))];
      destruct group_engine, debugger; simpl; (split; [done|]) || idtac; set_solver.
  - destruct (idle_from_cleanup cleanup) as [q|] eqn:E; simpl; [|done]. intros [= <-]. simpl.
    split_and!; [done| |exists (removelast ((if group_engine then [] else [CreateSite]) ++
      [ReadCleanup; TakeRegister] ++ (if debugger then [WrapDebugger] else []) ++
      [SettleResourcesDirs; SettleStorage "gnr"; SettleStorage "dojo"; Publish]))];
      destruct group_engine, debugger; simpl; (split; [done|]) || idtac; set_solver.
Qed.

(** ** Concrete inputs *)

Module WorkerWitness.
#[local] Existing Instance Witness.flat_bag.
#[local] Existing Instance RegistryWitness.plain_core.
#[local] Existing Instance TytxWitness.plain_tytx.
#[local] Existing Instance TytxWitness.plain_tytx_laws.
Import DeskWitness RegistryWitness.

#[local] Instance plain_core_laws_here : CoreRegistryLaws := plain_core_laws.

(** A core worker whose drops take the rows and nothing else. *)
Definition forget_page (page_id : string) (r : registry) : registry :=
  with_pages (delete page_id (page_register r)) r.

#[local] Instance plain_worker : CoreWorker := {|
  core_install_carried_store user store resident := mret ();
  core_drop_page ident page_id := on_registers (py_modify (forget_page page_id));
  registry_drop_page page_id := py_modify (forget_page page_id);
  core_drop_connection ident cid := mret ();
  core_drop_user user := mret ();
  core_worker_census := nat;
  core_census w := size (page_register (registers w))
|}.

#[local] Instance plain_worker_laws : CoreWorkerLaws.
Proof. split; done. Qed.

Definition waiting_desk : desk :=
  with_store_changes {["guest" := [a_change "prefs.lang" 6]]} busy_desk.

Definition a_worker : worker :=
  MkWorker login_registry {["t.a"]} (RequestSlot [a_deposit "t.a" 7] [a_deposit "t.b" 8])
    waiting_desk (Population {["guest"]} {["p1"; "p9"]})
    {[ ["c1"]; ["c1"; "p1"]; ["c1"; "p2"]; ["c9"] ]} [].

Lemma waiting_desk_safe : desk_safe waiting_desk.
Proof.
  destruct busy_desk_safe as [H1 H2]. split; [exact H1|]. intros u. unfold queue_of; simpl.
  destruct (decide (u = "guest")) as [->|Hne].
  - rewrite lookup_singleton_eq. by repeat constructor.
  - rewrite lookup_singleton_ne by done. constructor.
Qed.


Lemma deposits_leave_once_witness :
  let w := with_slot build_request_slot a_worker in
  let cs := [Commit [3; 4] [("t.a", VInt 1); ("t.z", VInt 1); ("t.a", VNone)] None (Some "p1") false] in
  lane (on_request_served true [9] (foldl run_commit w cs)) =
    file_dbevents [9] [Deposit "t.a" (VInt 1) (Some "p1") None 3 None] (lane w).
Proof.
  intros w cs. destruct (deposits_leave_once cs true [9] w eq_refl) as (_ & _ & H & _).
  exact H.
Defined.

Lemma source_filter_loses_nothing_witness :
  let dbevents := [("t.a", VInt 1); ("t.z", VInt 1)] in
  map deposit_body (queue_of (page_dbevent_map (file_dbevents [9]
    (announced_deposits [3] dbevents None (Some "p1") false (subscribed_tables a_worker))
      (lane a_worker))) "p2") =
  map deposit_body (queue_of (page_dbevent_map (file_dbevents [9; 9]
    (announced_deposits [3; 4] dbevents None (Some "p1") true (subscribed_tables a_worker))
      (lane a_worker))) "p2").
Proof.
  intros dbevents.
  destruct (source_filter_loses_nothing [3] [3; 4] [9] [9; 9] dbevents None (Some "p1") "p2" a_worker)
    as [H _]; [|exact H].
  assert (bool_decide (known_tables (page_subscriptions (lane a_worker)) ⊆ subscribed_tables a_worker)
    = true) as Hb by by vm_compute.
  by apply bool_decide_eq_true in Hb.
Defined.

Definition collected : registry :=
  (apply_all [5] 1 [a_change "prefs.lang" 6] login_registry).2.

Lemma collect_page_delivers_witness :
  ∃ w', collect_page true [10; 11] [5] id "p1" a_worker =
    (Ok (Delivery
      [set_change_idx 1 (set_arrival_ts 3 (a_change "x.y" 1));
       set_change_idx 2 one_change;
       Change (ChangeKey "prefs.lang" None false) (VInt 6) (Some [("_original_ts", VAware 6000 0)])
         false 5 3 None]
      [stamp_deposit 4 (a_deposit "t.a" 2); stamp_deposit 10 (a_deposit "t.a" 7); a_deposit "t.b" 8]), w')
    ∧ slot w' = build_request_slot.
Proof.
  assert (is_Some (page_register login_registry !! "p1")) as Hp by by eexists.
  pose proof (collect_page_delivers [10; 11] [5] id "p1"
    (PageRow "p1" "c1" 3 [] 0 (Some 7%positive) {["gui"]} {["prefs"]} ∅ ∅) "guest"
    (UserRow "guest" 1 {["c1"]} ∅) collected
    (PageRow "p1" "c1" 3 [] 0 (Some 7%positive) {["gui"]} {["prefs"]} ∅ ∅) a_worker
    eq_refl eq_refl waiting_desk_safe Hp eq_refl ltac:(by vm_compute) ltac:(by vm_compute)) as HC.
  cbv zeta in HC. destruct HC as [(l & w' & Hw' & (_ & _ & Hl) & _ & _ & _ & Hs & _) _].
  exists w'. split; [|exact Hs]. rewrite Hw', Hl; [by vm_compute|].
  repeat constructor; by vm_compute.
Defined.

Lemma forwarded_write_is_captured_witness :
  let seen := Change (ChangeKey "prefs.lang" None false) (VInt 6) (Some [("_original_ts", VAware 6000 0)])
                false 5 0 None in
  ∃ l r2, collect_reply [5] "p1" "guest" (ExchangeReply [] [] [a_change "prefs.lang" 6]) login_registry =
      (Ok l, r2) ∧ [set_change_idx 0 one_change; seen] ⊆+ map (set_change_idx 0) l.
Proof.
  destruct (forwarded_write_is_captured 5 1 (a_change "prefs.lang" 6) login_registry
    (BagObject [] [SubView 7]) [("prefs.lang", VInt 6, [("_original_ts", VAware 6000 0)])]
    [NodeEvent "ins" ["prefs"] "lang" (VInt 6) [("_original_ts", VAware 6000 0)] None] collected)
    as (_ & _ & _ & HC).
  - by vm_compute.
  - apply NoDup_singleton.
  - by vm_compute.
  - by vm_compute.
  - exact (HC "p1" "guest" (ExchangeReply [] [] [a_change "prefs.lang" 6])
      (PageRow "p1" "c1" 3 [] 0 (Some 7%positive) {["gui"]} {["prefs"]} ∅ ∅)
      (UserRow "guest" 1 {["c1"]} ∅) 7%positive (Collector 1 (Some {["prefs"]}) [one_change] 1)
      eq_refl eq_refl eq_refl eq_refl eq_refl eq_refl ltac:(by left)).
Defined.

Lemma busy_index_represents :
  represents (page_subscriptions (lane a_worker)) ({[("p2", "t.a")]} ∪ ({[("p1", "t.a")]} ∪ ∅)).
Proof.
  refine (proj1 (subscribe_refines _ _ "p2" "t.a" _)).
  exact (proj1 (subscribe_refines _ _ "p1" "t.a" represents_empty)).
Qed.

Lemma subscribeTable_agrees_witness :
  (subscribeTable true "t.b" "p1" true a_worker).1 = Ok (SubscriptionReply "p1" "t.b" true).
Proof.
  pose proof (subscribeTable_agrees true "t.b" "p1" true a_worker _ busy_index_represents) as HA.
  destruct (subscribeTable _ _ _ _ _) as [a w']. by destruct HA as (_ & _ & _ & -> & _).
Defined.

Lemma subscribe_then_commit_waits_the_push_witness :
  let w1 := (subscribeTable true "t.b" "p1" true a_worker).2 in
  notifyDbEvents [3] [("t.b", VInt 1)] None (Some "p1") false w1 = ([], w1).
Proof.
  intros w1. destruct (subscribe_then_commit_waits_the_push "t.b" "p1" [3] (VInt 1) None a_worker _
    (PageRow "p1" "c1" 3 [] 0 (Some 7%positive) {["gui"]} {["prefs"]} ∅ ∅)
    busy_index_represents eq_refl) as (_ & H & _); [|exact H].
  intros Ht. vm_compute in Ht. done.
Defined.

Lemma carried_store_followed_witness :
  ∃ r', _install_carried_store "guest" (Some 2%positive) false login_registry = (Ok (), r') ∧
    followed (λ _, false) 2 login_registry r' "p1".
Proof.
  destruct (carried_store_followed "guest" 2 login_registry login_registry
    (UserRow "guest" 1 {["c1"]} ∅)) as [(r' & Hr' & _ & Hf & _) _].
  - done.
  - apply login_registry_wf.
  - by vm_compute.
  - by eexists.
  - intros cid Hcid. assert (cid = "c1") as -> by set_solver.
    exists (ConnectionRow "c1" "guest" {["p1"; "p2"]} ∅ None). split; [done|].
    intros p Hp. assert (p = "p1" ∨ p = "p2") as [->| ->] by set_solver; by eexists.
  - apply (bool_decide_unpack _). by vm_compute.
  - exists r'. split; [exact Hr'|]. apply Hf. apply (bool_decide_unpack _). by vm_compute.
Defined.

Lemma store_window_moves_witness :
  setStoreSubscription "p2" "temp" "x" true a_worker = (Raise ValueError, a_worker).
Proof.
  destruct (store_window_moves "p2" "x" true a_worker (PageRow "p2" "c1" 4 [] 0 None ∅ ∅ ∅ ∅)
    (UserRow "guest" 1 {["c1"]} ∅)) as (_ & _ & H).
  - apply login_registry_wf.
  - by vm_compute.
  - exists (PageRow "p2" "c1" 4 [] 0 None ∅ ∅ ∅ ∅), (ConnectionRow "c1" "guest" {["p1"; "p2"]} ∅ None).
    split_and!; vm_compute; eauto.
  - by apply H.
Defined.

Lemma folders_follow_rows_witness :
  ["c1"; "p1"] ∉ disk (drop_page "guest" "p1" false a_worker).2.
Proof.
  destruct (folders_follow_rows "guest" a_worker) as (H & _).
  specialize (H "p1" false (PageRow "p1" "c1" 3 [] 0 (Some 7%positive) {["gui"]} {["prefs"]} ∅ ∅)
    (drop_page "guest" "p1" false a_worker).2 eq_refl ltac:(by vm_compute) ["c1"; "p1"]).
  rewrite H. intros [_ Hn]. apply Hn. vm_compute. by exists [].
Defined.
End WorkerWitness.
End Worker.
