(* ===== verification/WorkerTypes.v ===== *)
(** * WorkerTypes: what is always true of a worker's state

    The shape genropy_register.py, legacy_bag.py and genropy_worker.py rely on
    without testing it, as one predicate over the worker - the rows of the three
    registers point at one another and at stores that exist, the views are bound as
    their rows say, every queue is numbered in order, the slot holds deposits the
    desk has not stamped, the desk holds what the wire carries - and the proof that
    every verb keeps it, on the branches that raise as on those that return. *)

From S2P Require Export GenropyWorker.

Module Types.
Import LegacyBagCollector Index Desk Registry Worker.

(** ** The rows *)

(** A row's queue is numbered as a collector's pending list is. *)
Definition queue_wf (page : page_row) : Prop :=
  collector_wf (Collector 1 None (page_datachanges page) (page_datachanges_idx page)).

Record rows_typed (r : registry) : Prop := RowsTyped {
  rt_page : ∀ p page, page_register r !! p = Some page → ∃ c,
    connection_register r !! page_connection_id page = Some c ∧ p ∈ connection_pages c;
  rt_connection : ∀ k c, connection_register r !! k = Some c → ∃ u,
    user_register r !! connection_user c = Some u ∧ k ∈ user_connections u;
  rt_listed_page : ∀ k c p, connection_register r !! k = Some c → p ∈ connection_pages c →
    ∃ page, page_register r !! p = Some page ∧ page_connection_id page = k;
  rt_listed_connection : ∀ n u k, user_register r !! n = Some u → k ∈ user_connections u →
    ∃ c, connection_register r !! k = Some c ∧ connection_user c = n;
  rt_user_store : ∀ n u, user_register r !! n = Some u → is_Some (stores r !! user_store u);
  rt_page_store : ∀ p page, page_register r !! p = Some page →
    page_register_item_id page = p ∧ is_Some (stores r !! page_store page);
  rt_queue : ∀ p page, page_register r !! p = Some page → queue_wf page
}.

(** The heap: a Bag calls each subscriber once, a collector numbers in order. *)
Record heap_typed (r : registry) : Prop := HeapTyped {
  ht_subs : ∀ l o, stores r !! l = Some o → NoDup (bo_subs o);
  ht_views : ∀ v c, views r !! v = Some c → collector_wf c
}.

Record registry_typed (r : registry) : Prop := RegistryTyped {
  rg_rows : rows_typed r;
  rg_heap : heap_typed r;
  rg_wf : registry_wf r
}.

(** ** The steps that leave the row tree alone *)

Definition row_like (a b : page_row) : Prop :=
  page_register_item_id b = page_register_item_id a ∧ page_connection_id b = page_connection_id a ∧
  page_store b = page_store a ∧ (queue_wf a → queue_wf b).

#[export] Instance row_like_preorder : PreOrder row_like.
Proof.
  split; [by intros a|]. intros a b c (H1 & H2 & H3 & H4) (G1 & G2 & G3 & G4).
  split_and!; [congruence..|auto].
Qed.

Record evolves (r r' : registry) : Prop := Evolves {
  ev_users : user_register r' = user_register r;
  ev_connections : connection_register r' = connection_register r;
  ev_pages : ∀ p, option_Forall2 row_like (page_register r !! p) (page_register r' !! p);
  ev_stores : ∀ l, is_Some (stores r !! l) → is_Some (stores r' !! l);
  ev_heap : heap_typed r → heap_typed r'
}.

#[export] Instance evolves_preorder : PreOrder evolves.
Proof.
  split.
  - intros r. by split.
  - intros a b c [H1 H2 H3 H4 H5] [G1 G2 G3 G4 G5]. split; [congruence..| |auto|auto].
    intros p. specialize (H3 p). specialize (G3 p).
    destruct H3; inversion G3; subst; constructor. by etrans.
Qed.

Lemma evolves_rows r r' : evolves r r' → rows_typed r → rows_typed r'.
Proof.
  intros [EU EC EP ES _] [T1 T2 T3 T4 T5 T6 T7].
  assert (∀ p page', page_register r' !! p = Some page' → ∃ page,
    page_register r !! p = Some page ∧ row_like page page') as Hback.
  { intros p page' Hp. specialize (EP p). rewrite Hp in EP. inversion EP; subst; eauto. }
  split; rewrite ?EU, ?EC; try done.
  - intros p page' (page & Hp & _ & E2 & _)%Hback. rewrite E2. by apply T1.
  - intros k c p Hk Hp. destruct (T3 k c p Hk Hp) as (page & Hpage & <-). specialize (EP p).
    rewrite Hpage in EP. inversion EP as [? page' (_ & E2 & _)|]; subst. eauto.
  - intros n u Hn. apply ES. by eapply T5.
  - intros p page' (page & Hp & E1 & _ & E3 & _)%Hback. rewrite E1, E3. destruct (T6 p page Hp). auto.
  - intros p page' (page & Hp & _ & _ & _ & E4)%Hback. apply E4. by eapply T7.
Qed.

(** The primitive steps. *)

Lemma evolves_alter pid f r : (∀ p, row_like p (f p)) → evolves r (update_page pid f r).
Proof.
  intros Hf. split; try done.
  - intros p. simpl. destruct (decide (p = pid)) as [->|];
      [rewrite lookup_alter_eq | by rewrite lookup_alter_ne].
    destruct (page_register r !! pid); simpl; by constructor.
  - intros [HS HV]. by split.
Qed.

Lemma evolves_row pid page page' r :
  page_register r !! pid = Some page → row_like page page' →
  evolves r (with_pages (<[pid := page']> (page_register r)) r).
Proof.
  intros Hp Hl. split; try done.
  - intros p. simpl. destruct (decide (p = pid)) as [->|];
      [rewrite lookup_insert_eq, Hp; by constructor | by rewrite lookup_insert_ne].
  - intros [HS HV]. by split.
Qed.

Lemma evolves_update_view v f r :
  (∀ c, collector_wf c → collector_wf (f c)) → evolves r (update_view v f r).
Proof.
  intros Hf. split; try done. intros [HS HV]. split; [done|]. simpl. intros u c.
  destruct (decide (v = u)) as [->|]; [rewrite lookup_alter_eq | rewrite lookup_alter_ne by done; apply HV].
  destruct (views r !! u) as [c0|] eqn:E; simpl; [|done]. intros [= <-]. eauto.
Qed.

Lemma evolves_new_view v c r : collector_wf c → evolves r (with_views (<[v := c]> (views r)) r).
Proof.
  intros Hc. split; try done. intros [HS HV]. split; [done|]. simpl. intros u c'.
  rewrite lookup_insert_Some. intros [[_ <-]|[_ ?]]; eauto.
Qed.

Lemma evolves_bag l f r :
  (∀ o, NoDup (bo_subs o) → NoDup (bo_subs (f o))) → evolves r (with_stores (alter f l (stores r)) r).
Proof.
  intros Hf. split; try done; simpl.
  - intros k [o Ho]. destruct (decide (l = k)) as [->|];
      [rewrite lookup_alter_eq, Ho; simpl; eauto | rewrite lookup_alter_ne by done; eauto].
  - intros [HS HV]. split; [|done]. simpl. intros k o.
    destruct (decide (l = k)) as [->|]; [rewrite lookup_alter_eq | rewrite lookup_alter_ne by done; apply HS].
    destruct (stores r !! k) as [o0|] eqn:E; simpl; [|done]. intros [= <-]. eauto.
Qed.

Lemma add_sub_nodup s o : NoDup (bo_subs o) → NoDup (bo_subs (add_sub s o)).
Proof.
  unfold add_sub. case_decide; [done|]. intros HN. simpl. apply NoDup_app. split; [done|].
  split; [set_solver | apply NoDup_singleton].
Qed.

Lemma remove_sub_nodup s o : NoDup (bo_subs o) → NoDup (bo_subs (remove_sub s o)).
Proof. apply NoDup_filter. Qed.

Lemma evolves_new_collector l ps r : evolves r (new_collector l ps r).2.
Proof.
  unfold new_collector. cbn [snd]. etrans; [apply evolves_new_view, init_wf|].
  apply evolves_bag, add_sub_nodup.
Qed.

Lemma evolves_detach v r : evolves r (detach v r).
Proof. unfold detach. destruct (views r !! v); [apply evolves_bag, remove_sub_nodup | done]. Qed.

Lemma evolves_foldl {B} (f : registry → B → registry) (l : list B) r :
  (∀ r x, evolves r (f r x)) → evolves r (foldl f r l).
Proof. intros Hf. revert r. induction l as [|x l IH]; intros r; [done|]. simpl. etrans; [apply Hf | apply IH]. Qed.

Lemma like_user_view v page : row_like page (set_user_view v page).
Proof. unfold row_like. split_and!; [done..|]. intros Hq. exact Hq. Qed.

Lemma like_tables ts page : row_like page (set_table_subscriptions ts page).
Proof. unfold row_like. split_and!; try done; intros Hq; exact Hq. Qed.

Lemma like_paths ps page : row_like page (set_subscribed_paths ps page).
Proof. unfold row_like. split_and!; try done; intros Hq; exact Hq. Qed.

Lemma like_watched ps page : row_like page (set_store_subscriptions ps page).
Proof. unfold row_like. split_and!; try done; intros Hq; exact Hq. Qed.

Lemma evolves_reattach pid page v l r : evolves r (reattach_view pid page v l r).
Proof.
  unfold reattach_view. pose proof (evolves_detach v r) as H1. revert H1.
  generalize (detach v r) as r1. intros r1 H1.
  pose proof (evolves_new_collector l (Some (page_store_subscriptions page)) r1) as H2.
  destruct (new_collector l _ r1) as [w r2]. etrans; [exact H1|]. etrans; [exact H2|].
  etrans; [|apply evolves_alter, like_user_view]. apply evolves_foldl. intros r3 c.
  apply evolves_update_view. auto with gnr.
Qed.

(** ** The steps that leave the bindings of the views alone too *)

Definition same_view (a b : page_row) : Prop :=
  page_user_view b = page_user_view a ∧ page_store_subscriptions b = page_store_subscriptions a.
Definition same_watch (c d : collector) : Prop := col_bag d = col_bag c ∧ col_paths d = col_paths c.
Definition same_callers (o o' : bag_object) : Prop := bo_subs o' = bo_subs o.

Record calm (r r' : registry) : Prop := Calm {
  ca_evolves : evolves r r';
  ca_pages : ∀ p, option_Forall2 same_view (page_register r !! p) (page_register r' !! p);
  ca_views : ∀ v, option_Forall2 same_watch (views r !! v) (views r' !! v);
  ca_stores : ∀ l, option_Forall2 same_callers (stores r !! l) (stores r' !! l)
}.

#[export] Instance same_view_preorder : PreOrder same_view.
Proof. unfold same_view. split; [by intros a|]. intros a b c [? ?] [? ?]. split; congruence. Qed.
#[export] Instance same_watch_preorder : PreOrder same_watch.
Proof. unfold same_watch. split; [by intros a|]. intros a b c [? ?] [? ?]. split; congruence. Qed.
#[export] Instance same_callers_preorder : PreOrder same_callers.
Proof. unfold same_callers. split; [by intros a|]. intros a b c ? ?. congruence. Qed.

Lemma option_Forall2_trans {A} (R : A → A → Prop) `{!Transitive R} (x y z : option A) :
  option_Forall2 R x y → option_Forall2 R y z → option_Forall2 R x z.
Proof. intros H1 H2. destruct H1; inversion H2; subst; constructor. by etrans. Qed.

#[export] Instance calm_preorder : PreOrder calm.
Proof.
  split.
  - intros r. by split.
  - intros a b c [H1 H2 H3 H4] [G1 G2 G3 G4].
    split; [by etrans | | |]; intros k.
    + apply (option_Forall2_trans same_view _ _ _ (H2 k) (G2 k)).
    + apply (option_Forall2_trans same_watch _ _ _ (H3 k) (G3 k)).
    + apply (option_Forall2_trans same_callers _ _ _ (H4 k) (G4 k)).
Qed.

Lemma forall2_back {A} (R : A → A → Prop) (x y : option A) b :
  option_Forall2 R x y → y = Some b → ∃ a, x = Some a ∧ R a b.
Proof. intros H ->. inversion H; subst; eauto. Qed.

Lemma forall2_on {A} (R : A → A → Prop) (x y : option A) a :
  option_Forall2 R x y → x = Some a → ∃ b, y = Some b ∧ R a b.
Proof. intros H ->. inversion H; subst; eauto. Qed.

Lemma calm_listens r r' v l : calm r r' → listens r' v l ↔ listens r v l.
Proof.
  intros [_ _ _ HS]. specialize (HS l). unfold listens. split; intros (o & Ho & Hin).
  - destruct (forall2_back _ _ _ _ HS Ho) as (o0 & H0 & E). exists o0. by rewrite <- E.
  - destruct (forall2_on _ _ _ _ HS Ho) as (o1 & H1 & E). exists o1. by rewrite E.
Qed.

Lemma calm_wf r r' : calm r r' → registry_wf r → registry_wf r'.
Proof.
  intros Hc [W1 W2 W3]. pose proof (calm_listens r r') as HL. pose proof Hc as [_ HP HV _]. split.
  - intros p page' Hp. destruct (forall2_back _ _ _ _ (HP p) Hp) as (page & Hpage & E1 & E2).
    specialize (W1 p page Hpage). unfold view_bound in *. rewrite E1, E2.
    destruct (page_user_view page) as [v|]; [|done]. destruct W1 as (c & Hv & Hps & Hl).
    destruct (forall2_on _ _ _ _ (HV v) Hv) as (d & Hd & F1 & F2). exists d.
    rewrite F2, F1, HL by done. done.
  - intros p q pp qq v Hp Hq Hvp Hvq.
    destruct (forall2_back _ _ _ _ (HP p) Hp) as (p0 & Hp0 & E1 & _).
    destruct (forall2_back _ _ _ _ (HP q) Hq) as (q0 & Hq0 & E2 & _).
    apply (W2 p q p0 q0 v Hp0 Hq0); congruence.
  - intros v l. rewrite HL by done. intros Hl. destruct (W3 v l Hl) as (c & Hv & <-).
    destruct (forall2_on _ _ _ _ (HV v) Hv) as (d & Hd & F1 & _). by exists d.
Qed.

Lemma calm_typed r r' : calm r r' → registry_typed r → registry_typed r'.
Proof.
  intros Hc [H1 H2 H3]. pose proof Hc as [HE _ _ _].
  split; [by eapply evolves_rows | by apply (ev_heap _ _ HE) | by eapply calm_wf].
Qed.

Lemma calm_alter pid f r :
  (∀ p, row_like p (f p) ∧ same_view p (f p)) → calm r (update_page pid f r).
Proof.
  intros Hf. split; [apply evolves_alter; intros p; apply Hf| |done|done].
  intros p. simpl. destruct (decide (p = pid)) as [->|];
    [rewrite lookup_alter_eq | by rewrite lookup_alter_ne].
  destruct (page_register r !! pid); simpl; constructor. apply Hf.
Qed.

Lemma calm_row pid page page' r :
  page_register r !! pid = Some page → row_like page page' → same_view page page' →
  calm r (with_pages (<[pid := page']> (page_register r)) r).
Proof.
  intros Hp Hl Hv. split; [by eapply evolves_row| |done|done].
  intros p. simpl. destruct (decide (p = pid)) as [->|];
    [rewrite lookup_insert_eq, Hp; by constructor | by rewrite lookup_insert_ne].
Qed.

Lemma calm_view v f r :
  (∀ c, collector_wf c → collector_wf (f c)) → (∀ c, same_watch c (f c)) → calm r (update_view v f r).
Proof.
  intros Hf Hw. split; [by apply evolves_update_view|done| |done].
  intros u. simpl. destruct (decide (v = u)) as [->|];
    [rewrite lookup_alter_eq | by rewrite lookup_alter_ne].
  destruct (views r !! u); simpl; by constructor.
Qed.

Lemma calm_set_view v c d r :
  views r !! v = Some c → collector_wf d → same_watch c d → calm r (with_views (<[v := d]> (views r)) r).
Proof.
  intros Hc Hd Hw. split; [by apply evolves_new_view|done| |done].
  intros u. simpl. destruct (decide (v = u)) as [->|];
    [rewrite lookup_insert_eq, Hc; by constructor | by rewrite lookup_insert_ne].
Qed.

Lemma calm_nodes l o nodes r :
  stores r !! l = Some o → calm r (with_stores (<[l := BagObject nodes (bo_subs o)]> (stores r)) r).
Proof.
  intros Ho. assert (<[l := BagObject nodes (bo_subs o)]> (stores r) =
    alter (λ o, BagObject nodes (bo_subs o)) l (stores r)) as -> by by rewrite (alter_alt_Some _ _ _ _ Ho).
  split; [by apply evolves_bag|done|done|]. intros k. simpl.
  destruct (decide (l = k)) as [->|]; [rewrite lookup_alter_eq, Ho; by constructor|].
  by rewrite lookup_alter_ne.
Qed.

Lemma calm_foldl {B} (f : registry → B → registry) (l : list B) r :
  (∀ r x, calm r (f r x)) → calm r (foldl f r l).
Proof. intros Hf. revert r. induction l as [|x l IH]; intros r; [done|]. simpl. etrans; [apply Hf | apply IH]. Qed.

(** *** The row's queue, and a write on a Bag *)

Lemma append_row now rep c page :
  row_like page (append_page_datachange now rep c page) ∧
  same_view page (append_page_datachange now rep c page).
Proof.
  split; [|done]. unfold row_like. split_and!; [done..|]. intros Hq.
  pose proof (append_wf rep (set_arrival_ts now c) _ Hq) as Ha. by destruct rep.
Qed.

Lemma event_row `{BagApi} now e page :
  row_like page (page_on_event now e page) ∧ same_view page (page_on_event now e page).
Proof. rewrite page_on_event_eq. case_decide; [apply append_row | done]. Qed.

Lemma prune_row path page : row_like page (prune path page) ∧ same_view page (prune path page).
Proof.
  split; [|done]. unfold row_like. split_and!; [done..|]. intros Hq.
  exact (filtered_wf _ _ None Hq).
Qed.

Lemma empty_row page : row_like page (set_queue [] 0 page) ∧ same_view page (set_queue [] 0 page).
Proof. split; [|done]. unfold row_like. split_and!; [done..|]. intros _. split; constructor. Qed.

Lemma calm_dispatch `{BagApi} now l e r : calm r (dispatch now l r e).
Proof.
  unfold dispatch. destruct (stores r !! l) as [o|]; [|done]. apply calm_foldl.
  intros r1 [p|v]; simpl.
  - apply calm_alter. intros p'. apply event_row.
  - apply calm_view; [auto with gnr|]. intros c. rewrite on_event_eq. by case_match.
Qed.

Lemma calm_on_bag `{BagApi} now l f r : calm r (on_bag now l f r).
Proof.
  unfold on_bag. destruct (stores r !! l) as [o|] eqn:Ho; [|done].
  destruct (f (bo_nodes o)) as [nodes evs]. etrans; [by apply calm_nodes|].
  apply calm_foldl. intros r1 e. apply calm_dispatch.
Qed.

(** ** The verbs on the registers *)

Section verbs.
Context `{BagApi, CoreRegistryLaws, TytxLaws}.

Lemma forwarded_calm r0 now store c : preserves (calm r0) (apply_forwarded now store c).
Proof.
  intros r Hr. unfold apply_forwarded. destruct (ch_delete c).
  { etrans; [exact Hr | apply calm_on_bag]. }
  set (r1 := on_bag _ _ _ r). assert (calm r0 r1) as Ev1 by (etrans; [exact Hr | apply calm_on_bag]).
  clearbody r1. destruct (k_fired (ch_key c)); [|done].
  destruct (stores r1 !! store) as [o|] eqn:Ho; [|done].
  destruct (bag_updateNode _ _ _) as [nodes|]; [|done].
  etrans; [exact Ev1|]. by apply calm_nodes.
Qed.

Lemma apply_all_calm r0 clock store cs : preserves (calm r0) (apply_all clock store cs).
Proof.
  revert clock. induction cs as [|c cs IH]; intros clock; [apply preserves_ret|]. cbn [apply_all].
  apply preserves_bind; [apply forwarded_calm | intros _; apply IH].
Qed.

Lemma drain_page_calm pid page dq r :
  page_register r !! pid = Some page → calm r (drain_page pid page dq r).2.
Proof.
  intros Hp. unfold drain_page. destruct (empty_row page) as [Hl Hs].
  pose proof (calm_row pid page _ r Hp Hl Hs) as Ev1. set (r1 := with_pages _ r) in *.
  destruct (page_user_view page) as [v|]; [|exact Ev1].
  clearbody r1. destruct (views r1 !! v) as [c|] eqn:Hc; [|exact Ev1].
  etrans; [exact Ev1|]. apply (calm_set_view v c); [done|split; constructor|done].
Qed.

Lemma drain_reply_calm r0 pid dq : preserves (calm r0) (drain_reply pid dq).
Proof.
  intros r Hr. unfold drain_reply. destruct (page_register r !! pid) as [page|] eqn:Hp; [|done].
  pose proof (drain_page_calm pid page dq r Hp) as Hd. destruct (drain_page pid page dq r) as [l r'].
  by etrans.
Qed.

Lemma collect_reply_calm r0 clock pid user reply :
  preserves (calm r0) (collect_reply clock pid user reply).
Proof.
  unfold collect_reply. apply preserves_bind; [apply preserves_reads|].
  intros [[page|] [u|]]; try apply preserves_raise.
  apply preserves_bind; [apply apply_all_calm | intros _; apply drain_reply_calm].
Qed.

(** *** The verbs that bind a view *)

Lemma typed_chain r pid page :
  rows_typed r → page_register r !! pid = Some page → ∃ u, owner_chain r pid u.
Proof.
  intros HR Hp. destruct (rt_page r HR pid page Hp) as (c & Hc & _).
  destruct (rt_connection r HR _ c Hc) as (u & Hu & _). exists u, page, c.
  split_and!; try done. by eapply rt_user_store.
Qed.

Lemma subscribe_evolves r0 pid prefix : preserves (evolves r0) (subscribe_store_path pid prefix).
Proof.
  intros r Hr. unfold subscribe_store_path. destruct (page_register r !! pid) as [page|] eqn:Hp; [|done].
  set (row := set_store_subscriptions _ page).
  assert (evolves r (with_pages (<[pid := row]> (page_register r)) r)) as Ev1
    by (eapply evolves_row; [done|]; apply like_watched).
  set (r1 := with_pages _ r) in *.
  assert (page_register r1 !! pid = Some row) as Hp1 by (simpl; by rewrite lookup_insert_eq).
  clearbody r1. destruct (page_user_view row) as [v|].
  { cbn [snd]. etrans; [exact Hr|]. etrans; [exact Ev1|]. by apply evolves_update_view. }
  destruct (page_user pid r1) as [u|e]; [|by etrans].
  destruct (user_register r1 !! u) as [ur|]; [|by etrans].
  pose proof (evolves_new_collector (user_store ur) (Some {[prefix]}) r1) as Ev2.
  destruct (new_collector _ _ r1) as [v r2] eqn:E. cbn [snd] in *.
  assert (page_register r2 !! pid = Some row) as Hp2.
  { unfold new_collector in E. injection E as _ <-. exact Hp1. }
  etrans; [exact Hr|]. etrans; [exact Ev1|]. etrans; [exact Ev2|].
  eapply evolves_row; [exact Hp2 | apply like_user_view].
Qed.

Lemma subscribe_typed pid prefix : preserves registry_typed (subscribe_store_path pid prefix).
Proof.
  intros r Hr. pose proof Hr as [HR HH HW].
  pose proof (subscribe_evolves r pid prefix r ltac:(done)) as HE.
  split; [by eapply evolves_rows | by apply (ev_heap _ _ HE)|].
  destruct (page_register r !! pid) as [page|] eqn:Hp.
  2: { unfold subscribe_store_path. by rewrite Hp. }
  destruct (typed_chain r pid page HR Hp) as [u Hu].
  destruct (subscribe_step pid prefix r page u HW Hp Hu) as (v & r' & E & _ & HW' & _). by rewrite E.
Qed.

Lemma update_typed pid f : (∀ p, row_like p (f p) ∧ same_view p (f p)) →
  preserves registry_typed (py_modify (update_page pid f)).
Proof. intros Hf r Hr. eapply calm_typed; [by apply calm_alter | done]. Qed.

Lemma replay_typed pid fields : preserves registry_typed (replay_fields pid fields).
Proof.
  unfold replay_fields.
  apply preserves_bind; [apply update_typed; intros p; split; [apply like_tables | done]|intros _].
  apply preserves_bind; [apply update_typed; intros p; split; [apply like_paths | done]|intros _].
  apply preserves_for. intros prefix. apply preserves_bind; [apply subscribe_typed | auto with gnr].
Qed.
(** *** The windows, the login and the carried store *)

Lemma window_typed pid storename prefix active w :
  registry_typed (registers w) →
  let w' := (setStoreSubscription pid storename prefix active w).2 in
  registry_typed (registers w') ∧ lane w' = lane w ∧ slot w' = slot w.
Proof.
  intros Hr. unfold setStoreSubscription.
  destruct (page_register (registers w) !! pid) as [page|] eqn:Hp; [|done].
  destruct (decide (storename = "page")).
  { simpl. split; [|done]. eapply calm_typed; [|exact Hr]. eapply calm_row; [done| |done].
    apply like_paths. }
  destruct (decide (storename = "user")); [|done]. destruct active.
  { pose proof (subscribe_typed pid prefix _ Hr) as Ht. unfold on_registers.
    by destruct (subscribe_store_path pid prefix (registers w)) as [a r']. }
  destruct (page_user_view page) as [v|] eqn:Hv; [|done]. simpl. split; [|done].
  pose proof Hr as [HR HH HW].
  pose proof (wf_views _ HW _ _ Hp) as HB. unfold view_bound in HB. rewrite Hv in HB.
  destruct HB as (c & Hc & Hps & _).
  set (row := set_store_subscriptions _ page).
  assert (evolves (registers w) (update_view v (unsubscribe_path prefix)
    (with_pages (<[pid := row]> (page_register (registers w))) (registers w)))) as HE.
  { etrans; [eapply evolves_row; [exact Hp | apply like_watched]|].
    by apply evolves_update_view. }
  split; [by eapply evolves_rows | by apply (ev_heap _ _ HE)|].
  apply (repath_step (registers w) pid page v c (unsubscribe_path prefix)
    (page_store_subscriptions page ∖ {[prefix]}) HW Hp Hv Hc).
  intros Hcp. simpl. by rewrite Hcp.
Qed.

Lemma follow_evolves r0 skip store pid : preserves (evolves r0) (follow_view skip store pid).
Proof.
  intros r Hr. unfold follow_view. destruct (page_register r !! pid) as [page|]; [|done].
  destruct (page_user_view page) as [v|]; [|done]. destruct (views r !! v) as [c|]; [|done].
  destruct (skip c); [done|]. etrans; [exact Hr | apply evolves_reattach].
Qed.

Lemma evolved_typed r r' : evolves r r' → registry_wf r' → registry_typed r → registry_typed r'.
Proof. intros HE HW [HR HH _]. split; [by eapply evolves_rows | by apply (ev_heap _ _ HE) | done]. Qed.

Lemma login_followers cid user fields connection r0 r :
  core_change_connection_user cid user fields r0 = (Ok connection, r) → registry_typed r →
  connection_register r !! cid = Some connection → connection_user connection = user →
  ∃ store r', change_connection_user cid user fields r0 = (Ok connection, r') ∧
    followers (on_store store) store r (elements (connection_pages connection)) r' ∧ evolves r r'.
Proof.
  intros Hcore [HR HH HW] Hc Hu.
  destruct (rt_connection r HR cid connection Hc) as (u & Hur & _). rewrite Hu in Hur.
  exists (user_store u). unfold change_connection_user. rewrite pym_bind_unfold, Hcore, pym_bind_unfold.
  unfold py_reads. rewrite Hur, pym_bind_unfold, (py_for_ext _ _ _ _ (follow_owner_view (user_store u))).
  destruct (followers_loop (on_store (user_store u)) (user_store u)
    (elements (connection_pages connection)) r [] r) as (r' & Hr' & HF').
  - by apply followers_nil.
  - apply NoDup_elements.
  - by eapply rt_user_store.
  - intros p Hp. apply elem_of_elements in Hp.
    destruct (rt_listed_page r HR cid connection p Hc Hp) as (page & Hpage & _). by rewrite Hpage.
  - pose proof (preserves_for (evolves r) (elements (connection_pages connection)) _
      (λ pid, follow_evolves r (on_store (user_store u)) (user_store u) pid) r ltac:(done)) as HE.
    rewrite Hr' in *. by exists r'.
Qed.

Lemma login_typed cid user fields connection r0 r :
  core_change_connection_user cid user fields r0 = (Ok connection, r) → registry_typed r →
  connection_register r !! cid = Some connection → connection_user connection = user →
  registry_typed (change_connection_user cid user fields r0).2.
Proof.
  intros Hcore Hr Hc Hu.
  destruct (login_followers cid user fields connection r0 r Hcore Hr Hc Hu) as (store & r' & -> & HF & HE).
  by apply (evolved_typed r); [|apply HF|].
Qed.

Lemma typed_pages_of_user r n entry :
  rows_typed r → user_register r !! n = Some entry → NoDup (pages_of_user r entry).
Proof.
  intros HR Hn. unfold pages_of_user. apply NoDup_bind; [| |apply NoDup_elements].
  - intros k1 k2 p _ _ Hp1 Hp2.
    destruct (connection_register r !! k1) as [c1|] eqn:E1; [|by apply elem_of_nil in Hp1].
    destruct (connection_register r !! k2) as [c2|] eqn:E2; [|by apply elem_of_nil in Hp2].
    apply elem_of_elements in Hp1, Hp2.
    destruct (rt_listed_page r HR k1 c1 p E1 Hp1) as (page1 & Hq1 & <-).
    destruct (rt_listed_page r HR k2 c2 p E2 Hp2) as (page2 & Hq2 & <-). congruence.
  - intros k _. destruct (connection_register r !! k); [apply NoDup_elements | constructor].
Qed.

Lemma carried_evolves `{CoreWorker} r0 store cid : preserves (evolves r0) (follow_carried_connection store cid).
Proof.
  intros r Hr. unfold follow_carried_connection. destruct (connection_register r !! cid) as [c|]; [|done].
  apply preserves_for; [|done]. intros pid r1 Hr1. rewrite follow_carried_view. by apply follow_evolves.
Qed.

Lemma carried_followers `{CoreWorker} user store r0 r entry :
  core_install_carried_store user (Some store) false r0 = (Ok (), r) → registry_typed r →
  user_register r !! user = Some entry → is_Some (stores r !! store) →
  ∃ r', _install_carried_store user (Some store) false r0 = (Ok (), r') ∧
    followers (λ _, false) store r (pages_of_user r entry) r' ∧ evolves r r'.
Proof.
  intros Hcore [HR HH HW] Hu Hs.
  unfold _install_carried_store. rewrite pym_bind_unfold, Hcore, pym_bind_unfold.
  unfold py_reads. rewrite Hu.
  destruct (carried_connections store (elements (user_connections entry)) r [] r)
    as (r' & Hr' & HF'); [by apply followers_nil|done| |by eapply typed_pages_of_user|].
  { intros cid Hcid. apply elem_of_elements in Hcid.
    destruct (rt_listed_connection r HR user entry cid Hu Hcid) as (c & Hc & _). exists c.
    split; [done|]. intros p Hp. destruct (rt_listed_page r HR cid c p Hc Hp) as (page & Hpage & _).
    by rewrite Hpage. }
  pose proof (preserves_for (evolves r) (elements (user_connections entry)) _
    (λ cid, carried_evolves r store cid) r ltac:(done)) as HE.
  rewrite Hr' in *. by exists r'.
Qed.

Lemma carried_typed `{CoreWorker} user store r0 r entry :
  core_install_carried_store user (Some store) false r0 = (Ok (), r) → registry_typed r →
  user_register r !! user = Some entry → is_Some (stores r !! store) →
  registry_typed (_install_carried_store user (Some store) false r0).2.
Proof.
  intros Hcore Hr Hu Hs.
  destruct (carried_followers user store r0 r entry Hcore Hr Hu Hs) as (r' & -> & HF & HE).
  by apply (evolved_typed r); [|apply HF|].
Qed.
End verbs.

(** ** The desk and the slot *)

Record desk_typed `{Tytx} (d : desk) : Prop := DeskTyped {
  dt_index : ∃ R, represents (page_subscriptions d) R;
  dt_stamped : ∀ p, Forall (λ e, is_Some (dep_arrival_ts e)) (queue_of (page_dbevent_map d) p);
  dt_wire : desk_safe d
}.

(** A deposit as the worker shapes it: a batch that is not empty, no stamp. *)
Definition unstamped `{BagApi} (e : deposit) : Prop :=
  truthy (dep_batch e) = true ∧ dep_arrival_ts e = None.

Definition slot_typed `{BagApi} (s : request_slot) : Prop :=
  Forall unstamped (sl_dbevents s) ∧ Forall unstamped (sl_own_dbevents s).

Record worker_typed `{BagApi, Tytx} (w : worker) : Prop := WorkerTyped {
  wt_registers : registry_typed (registers w);
  wt_slot : slot_typed (slot w);
  wt_lane : desk_typed (lane w)
}.

Lemma deposits_for_stamped i p clock l :
  Forall (λ e, is_Some (dep_arrival_ts e)) (deposits_for i p clock l).
Proof.
  revert clock. induction l as [|d l IH]; intros clock; simpl; [constructor|].
  apply Forall_app. split; [|done]. case_decide; repeat constructor. simpl. eauto.
Qed.

Lemma deposit_typed `{Tytx} clock l d : desk_typed d → desk_typed (file_dbevents clock l d).
Proof.
  intros [HI HS HW]. destruct (file_dbevents_frame clock l d) as (E1 & E2 & E3). split.
  - by rewrite E1.
  - intros p. rewrite file_dbevents_queue. apply Forall_app. split; [done | apply deposits_for_stamped].
  - destruct HW as [W1 W2]. split; [by rewrite E2 | by rewrite E3].
Qed.

Lemma exchange_typed `{Tytx} clock p u evs d : desk_typed d → desk_typed (exchange clock p u evs d).2.
Proof.
  intros [HI HS HW]. destruct (exchange_after clock p u evs d) as (E1 & _ & _ & E4 & E5). split.
  - by rewrite E1.
  - intros q. destruct (decide (q = p)) as [->|Hq]; [by rewrite (queue_of_none _ _ E4)|].
    rewrite E5 by done. apply Forall_app. split; [done | apply deposits_for_stamped].
  - by apply exchange_safe.
Qed.

Lemma subscribe_table_typed `{Tytx} p t b d : desk_typed d → desk_typed (subscribe_table p t b d).2.
Proof.
  intros [[R HR] HS HW]. unfold subscribe_table.
  assert (∃ R', represents (if b then subscribe p t (page_subscriptions d)
    else unsubscribe p t (page_subscriptions d)).2 R') as HR'.
  { destruct b; eexists; [by apply subscribe_refines | by apply forget_refines]. }
  by destruct (if b then _ else _) as [m i].
Qed.

Lemma filing_typed `{TytxLaws} now target m : preserves desk_typed (file_datachange now target m).
Proof.
  intros d [HI HS HW]. split; [| |by apply file_datachange_safe].
  all: unfold file_datachange; repeat (case_match || case_decide); simpl; try done;
    destruct (with_addressed_frame (m_kind m) target (addressed_queue (m_kind m) target d) d) as [E1 E2];
    unfold with_addressed_queue in *; by destruct (is_state_kind (m_kind m)).
Qed.

Lemma on_datachange_typed `{TytxLaws} now pop target m : preserves desk_typed (on_datachange now pop target m).
Proof.
  unfold on_datachange. destruct target as [t|]; [|apply preserves_ret].
  case_match; [apply preserves_ret|]. apply preserves_bind; [apply filing_typed | auto with gnr].
Qed.

Lemma route_total_typed `{Tytx} {A} (f : desk → A * desk) :
  (∀ d, desk_typed d → desk_typed (f d).2) → preserves desk_typed (route_total f).
Proof. intros Hf d Hd. unfold route_total. specialize (Hf d Hd). by destruct (f d). Qed.

(** ** Every verb of the worker *)

Section worker.
Context `{BagApi, CoreRegistryLaws, TytxLaws}.

Lemma calm_preserves {A} (m : PyM registry A) :
  (∀ r0, preserves (calm r0) m) → preserves registry_typed m.
Proof. intros Hm r Hr. eapply calm_typed; [by apply Hm | done]. Qed.

Lemma on_registers_typed {A} (m : PyM registry A) :
  preserves registry_typed m → preserves worker_typed (on_registers m).
Proof.
  intros Hm w [HR HS HL]. unfold on_registers. specialize (Hm _ HR).
  destruct (m (registers w)) as [a r']. by split.
Qed.

Lemma call_desk_typed {A} answered (route : PyM desk A) :
  preserves desk_typed route → preserves worker_typed (call_desk answered route).
Proof.
  intros Hr w [HR HS HL]. unfold call_desk. destruct answered; [|done]. specialize (Hr _ HL).
  destruct (route (lane w)) as [[a|e] d]; by split.
Qed.

Lemma registers_typed f w :
  (∀ r, registry_typed r → registry_typed (f r)) → worker_typed w →
  worker_typed (with_registers (f (registers w)) w).
Proof. intros Hf [HR HS HL]. split; [by apply Hf | done | done]. Qed.

Lemma slot_moves f w :
  (∀ s, slot_typed s → slot_typed (f s)) → worker_typed w → worker_typed (with_slot (f (slot w)) w).
Proof. intros Hf [HR HS HL]. split; [done | by apply Hf | done]. Qed.

Lemma page_user_typed pid :
  preserves worker_typed (py_lift (λ w, (λ u, (u, w)) <$> page_user pid (registers w))).
Proof. intros w Hw. unfold py_lift. by destruct (page_user pid (registers w)). Qed.

Lemma subscribeTable_typed answered table pid b : preserves worker_typed (subscribeTable answered table pid b).
Proof.
  apply preserves_bind.
  - intros w Hw. destruct (page_register (registers w) !! pid) as [page|] eqn:Hp; [|done].
    destruct Hw as [HR HS HL]. split; [|done|done]. eapply calm_typed; [|exact HR].
    eapply calm_row; [done | apply like_tables | done].
  - intros _. apply preserves_bind; [|auto with gnr]. apply call_desk_typed, route_total_typed.
    intros d Hd. pose proof (subscribe_table_typed pid table b d Hd) as Ht.
    by destruct (Desk.subscribe_table pid table b d) as [[? ?] ?].
Qed.

Lemma announced_unstamped clock dbevents reason pid lo f :
  Forall unstamped (announced_deposits clock dbevents reason pid lo f).
Proof.
  revert clock. induction dbevents as [|[t b] rest IH]; intros clock; simpl; [constructor|].
  destruct (truthy b) eqn:Hb; simpl; [|done]. destruct (lo || _); [|done]. by constructor.
Qed.

Lemma notify_typed clock dbevents reason pid lo w :
  worker_typed w → worker_typed (notifyDbEvents clock dbevents reason pid lo w).2.
Proof.
  intros [HR [S1 S2] HL]. unfold notifyDbEvents. cbn [snd]. split; [done| |done].
  destruct lo; split; simpl; try done; apply Forall_app; (split; [done|]); apply announced_unstamped.
Qed.

Lemma served_typed answered clock w : worker_typed w → worker_typed (on_request_served answered clock w).
Proof.
  intros Hw. unfold on_request_served, deliver_slot_deposits.
  destruct (sl_dbevents (slot w)) as [|e es]; [done|]. set (evs := e :: es).
  assert (preserves worker_typed (call_desk answered (route_total (λ d, ((), deposit_route clock evs d))))) as Hc.
  { apply call_desk_typed, route_total_typed. intros d Hd. by apply deposit_typed. }
  specialize (Hc w Hw). destruct (call_desk _ _ w) as [a w']. cbn [snd] in *.
  destruct Hc as [HR [_ HS] HL]. split; [done| |done]. split; simpl; [constructor | done].
Qed.

Lemma collect_typed answered dclock clock between pid :
  (∀ r, registry_typed r → registry_typed (between r)) →
  preserves worker_typed (collect_page answered dclock clock between pid).
Proof.
  intros Hb. unfold collect_page. apply preserves_bind; [apply preserves_reads|]. intros r.
  destruct (page_register r !! pid); [|apply preserves_raise].
  apply preserves_bind; [apply page_user_typed|]. intros user.
  apply preserves_bind; [apply preserves_reads|]. intros s.
  apply preserves_bind; [apply call_desk_typed, route_total_typed; intros; by apply exchange_typed|].
  intros reply. apply preserves_bind.
  { apply preserves_modify. intros w. apply (slot_moves (λ s, RequestSlot [] (sl_own_dbevents s))).
    intros s' [_ S2]. by split; [constructor|]. }
  intros _. apply preserves_bind; [apply preserves_modify; intros w; by apply registers_typed|].
  intros _. apply preserves_bind.
  { apply on_registers_typed, calm_preserves. intros r0. apply collect_reply_calm. }
  intros l w Hw. rewrite pym_bind_unfold. unfold py_reads at 1. rewrite pym_bind_unfold.
  unfold py_modify at 1. cbn [mret pym_ret snd].
  apply (slot_moves (λ s, RequestSlot (sl_dbevents s) [])); [|done]. intros s' [S1 _]. by split; [|constructor].
Qed.

Lemma route_typed answered dnow ident kind target filters m act :
  (∀ p, row_like p (act p) ∧ same_view p (act p)) →
  preserves worker_typed (_route_datachange answered dnow ident kind target filters m act).
Proof.
  intros Hact w Hw. unfold _route_datachange. destruct filters; [done|]. case_decide; [done|].
  assert (∀ pop, preserves worker_typed (call_desk answered (on_datachange dnow pop target m) ≫= λ filed,
    mret (Road false filed))) as Hd.
  { intros pop. apply preserves_bind; [apply call_desk_typed, on_datachange_typed | auto with gnr]. }
  destruct (if decide (kind = SIGNAL_KIND) then _ else None) as [[t row]|]; [|by apply Hd].
  destruct (page_user t (registers w)) as [owner|e]; [|done]. case_decide; [|by apply Hd].
  apply (registers_typed (update_page t act)); [|done]. intros r Hr.
  eapply calm_typed; [by apply calm_alter | done].
Qed.
(** *** The steps, and what any run of them keeps *)

(** The core's own part of a login, of the landing of a parcel and of a drop hands over
    rows that are typed, whether it returns or raises. *)
Definition core_login_typed (cid user : string) (fields : gmap string value) (r0 : registry) : Prop :=
  let '(a, r) := core_change_connection_user cid user fields r0 in
  registry_typed r ∧ ∀ connection, a = Ok connection →
    connection_register r !! cid = Some connection ∧ connection_user connection = user.

Definition core_carried_typed `{CoreWorker} (user : string) (store : option positive) (resident : bool)
    (r0 : registry) : Prop :=
  let '(a, r) := core_install_carried_store user store resident r0 in
  registry_typed r ∧ ∀ l, a = Ok () → store = Some l → resident = false →
    is_Some (user_register r !! user) ∧ is_Some (stores r !! l).

Definition core_drop_typed `{CoreWorker} (identity page_id : string) (cascade : bool) (w : worker) : Prop :=
  if cascade then worker_typed (core_drop_page identity page_id w).2
  else registry_typed (registry_drop_page page_id (registers w)).2.

(** What moves a worker: each verb with any argument and any answer of the lane, a
    write of the site on any live Bag, and the verbs the core begins, on the premise
    above. *)
Inductive worker_step `{CoreWorker} : worker → worker → Prop :=
| StepSubscribeTable answered table pid b w :
    worker_step w (subscribeTable answered table pid b w).2
| StepWindow pid storename path active w :
    worker_step w (setStoreSubscription pid storename path active w).2
| StepNotify clock dbevents reason pid local_only w :
    worker_step w (notifyDbEvents clock dbevents reason pid local_only w).2
| StepServed answered clock w : worker_step w (on_request_served answered clock w)
| StepCollect answered dclock clock between pid w :
    (∀ r, registry_typed r → registry_typed (between r)) →
    worker_step w (collect_page answered dclock clock between pid w).2
| StepSet answered now dnow ident c kind target filters replace w :
    worker_step w (set_datachange answered now dnow ident c kind target filters replace w).2
| StepReset answered dnow ident target filters w :
    worker_step w (reset_datachanges answered dnow ident target filters w).2
| StepDrop answered dnow ident path target filters w :
    worker_step w (drop_datachanges answered dnow ident path target filters w).2
| StepBag now store (f : bag → bag * list node_event) w :
    worker_step w (with_registers (on_bag now store f (registers w)) w)
| StepForward now store c w : worker_step w (on_registers (apply_forwarded now store c) w).2
| StepReplay pid fields w : worker_step w (on_registers (replay_fields pid fields) w).2
| StepLogin cid user fields w :
    core_login_typed cid user fields (registers w) →
    worker_step w (on_registers (change_connection_user cid user fields) w).2
| StepCarried user store resident w :
    core_carried_typed user store resident (registers w) →
    worker_step w (on_registers (_install_carried_store user store resident) w).2
| StepDropPage identity pid cascade w :
    core_drop_typed identity pid cascade w →
    worker_step w (drop_page identity pid cascade w).2
| StepDropConnection identity cid w :
    worker_typed (core_drop_connection identity cid w).2 →
    worker_step w (drop_connection identity cid w).2
| StepDropUser user w :
    worker_typed (core_drop_user user w).2 →
    worker_step w (drop_user user w).2
| StepOrder tables w : worker_step w (orders_subscribed_tables tables w).

Lemma answered_typed {A B} (m : PyM worker A) (f : A → B) :
  preserves worker_typed m → preserves worker_typed (m ≫= λ a, mret (f a)).
Proof. intros Hm. apply preserves_bind; auto with gnr. Qed.

Lemma registers_only {A} (m : PyM registry A) w :
  worker_typed w → registry_typed (m (registers w)).2 → worker_typed (on_registers m w).2.
Proof. intros [HR HS HL] Hm. unfold on_registers. destruct (m (registers w)) as [a r']. by split. Qed.

Lemma login_keeps cid user fields r0 :
  core_login_typed cid user fields r0 → registry_typed (change_connection_user cid user fields r0).2.
Proof.
  unfold core_login_typed. destruct (core_change_connection_user cid user fields r0) as [[c|e] r] eqn:Hcore.
  - intros [Hr Hc]. destruct (Hc c eq_refl). by eapply login_typed.
  - intros [Hr _]. unfold change_connection_user. by rewrite pym_bind_unfold, Hcore.
Qed.

Lemma carried_keeps `{CoreWorker} user store resident r0 :
  core_carried_typed user store resident r0 →
  registry_typed (_install_carried_store user store resident r0).2.
Proof.
  unfold core_carried_typed.
  destruct (core_install_carried_store user store resident r0) as [[[]|e] r] eqn:Hcore.
  2: { intros [Hr _]. unfold _install_carried_store. by rewrite pym_bind_unfold, Hcore. }
  intros [Hr Hs]. destruct store as [l|], resident;
    try (unfold _install_carried_store; by rewrite pym_bind_unfold, Hcore).
  destruct (Hs l eq_refl eq_refl eq_refl) as [[entry Hu] Hl]. by eapply carried_typed.
Qed.

(** *** The drops: the core's rows, then the folders *)

Lemma rmtree_typed path w : worker_typed w → worker_typed (rmtree path w).
Proof. intros [HR HS HL]. by split. Qed.

Lemma drop_page_typed `{CoreWorker} identity pid cascade w :
  worker_typed w → core_drop_typed identity pid cascade w →
  worker_typed (drop_page identity pid cascade w).2.
Proof.
  intros Hw Hc. unfold drop_page. rewrite pym_bind_unfold. unfold py_reads at 1.
  destruct (page_register (registers w) !! pid) as [page|]; [|done]. rewrite pym_bind_unfold.
  assert (worker_typed (drop_rows identity pid cascade w).2) as Hd.
  { unfold drop_rows, core_drop_typed in *. destruct cascade; [done|]. rewrite pym_bind_unfold.
    unfold py_lift. destruct (page_user pid (registers w)) as [u|e]; [|done]. cbn [fmap res_fmap].
    rewrite pym_bind_unfold. pose proof (registers_only (registry_drop_page pid) w Hw Hc) as Hr.
    destruct (on_registers (registry_drop_page pid) w) as [[[]|e] w1]; [|done].
    destruct Hr as [HR HS HL]. by split. }
  destruct (drop_rows identity pid cascade w) as [[[]|e] w1]; [|done]. cbn [snd] in *. unfold py_modify.
  cbn [snd]. destruct (connection_register (registers w1) !! page_connection_id page); by apply rmtree_typed.
Qed.

Lemma step_typed `{CoreWorker} w w' : worker_step w w' → worker_typed w → worker_typed w'.
Proof.
  intros Hstep Hw. destruct Hstep.
  - by apply subscribeTable_typed.
  - destruct (window_typed pid storename path active w (wt_registers _ Hw)) as (Hr & El & Es).
    destruct Hw as [_ HS HL]. split; [done | by rewrite Es | by rewrite El].
  - by apply notify_typed.
  - by apply served_typed.
  - by apply collect_typed.
  - apply answered_typed; [|done]. apply route_typed. intros p. apply append_row.
  - apply answered_typed; [|done]. apply route_typed. intros p. apply empty_row.
  - apply answered_typed; [|done]. apply route_typed. intros p. apply prune_row.
  - apply (registers_typed (on_bag now store f)); [|done]. intros r Hr.
    eapply calm_typed; [apply calm_on_bag | done].
  - apply on_registers_typed; [|done]. apply calm_preserves. intros r0. apply forwarded_calm.
  - apply on_registers_typed; [apply replay_typed | done].
  - apply registers_only; [done|]. by apply login_keeps.
  - apply registers_only; [done|]. by apply carried_keeps.
  - by apply drop_page_typed.
  - unfold drop_connection. rewrite pym_bind_unfold.
    destruct (core_drop_connection identity cid w) as [[[]|e] w1]; [by apply rmtree_typed | done].
  - unfold drop_user. rewrite pym_bind_unfold. unfold py_reads at 1. rewrite pym_bind_unfold.
    destruct (core_drop_user user w) as [[[]|e] w1]; [|done]. cbn [snd] in *. unfold py_modify. cbn [snd].
    generalize (connections_of user (registers w)). intros cids.
    match goal with Hc : worker_typed w1 |- _ => revert w1 Hc end.
    induction cids as [|cid cids IH]; intros w1 Hw1; [done|]. cbn [foldl]. by apply IH, rmtree_typed.
  - by destruct Hw.
Qed.

(** C7: a worker stays well-typed through any run of its verbs - the drops of a page, a
    connection and a user among them - whatever their arguments, whatever the lane
    answers and whichever of them raise half way, the core's own part of a login, a
    parcel or a drop handing over typed rows: its
    rows name rows and stores that are there and are named back by them, each page
    is at its own key, a view watches what its row says on the one Bag that calls
    it and belongs to no other page, no Bag calls anybody twice, every pending list
    is numbered strictly upwards below its counter; the slot holds batches that are
    not empty and carry no stamp; and the desk's index is a relation, its waiting
    deposits are all stamped and its waiting changes are ones the codec has a word
    for. *)
Theorem verbs_keep_worker_typed `{CoreWorker} w w' :
  rtc worker_step w w' → worker_typed w → worker_typed w'.
Proof. induction 1 as [w|w1 w2 w3 Hst _ IH]; [done|]. intros Hw. apply IH. by eapply step_typed. Qed.

(** In a typed worker the walks the verbs do not guard have nothing to fall on: every
    page has an owner, a window of a page opens and closes, a parcel replays. *)
Lemma typed_walks w pid page :
  worker_typed w → page_register (registers w) !! pid = Some page →
  (∃ u, page_user pid (registers w) = Ok u) ∧
  (∀ prefix, ∃ row, (subscribe_store_path pid prefix (registers w)).1 = Ok row).
Proof.
  intros [Hr _ _] Hp. destruct (typed_chain _ _ _ (rg_rows _ Hr) Hp) as [u Hu]. split.
  - rewrite page_user_walk, Hp. destruct Hu as (page' & c & Hp' & Hc & _). simplify_eq. rewrite Hc. eauto.
  - intros prefix.
    destruct (subscribe_step pid prefix _ page u (rg_wf _ Hr) Hp Hu) as (v & r' & E & _). rewrite E. eauto.
Qed.
End worker.

(** ** A decision procedure, and concrete inputs *)

(** The rows of a registry with nothing queued. *)
Definition page_check (r : registry) (p : string) (page : page_row) : bool :=
  match connection_register r !! page_connection_id page with
  | None => false
  | Some c => bool_decide (p ∈ connection_pages c)
  end && bool_decide (page_register_item_id page = p) && bool_decide (is_Some (stores r !! page_store page)) &&
  bool_decide (page_datachanges page = []).

Definition connection_check (r : registry) (k : string) (c : connection_row) : bool :=
  match user_register r !! connection_user c with
  | None => false
  | Some u => bool_decide (k ∈ user_connections u)
  end &&
  bool_decide (set_Forall (λ p, page_connection_id <$> page_register r !! p = Some k) (connection_pages c)).

Definition user_check (r : registry) (n : string) (u : user_row) : bool :=
  bool_decide (is_Some (stores r !! user_store u)) &&
  bool_decide (set_Forall (λ k, connection_user <$> connection_register r !! k = Some n) (user_connections u)).

Definition rows_check (r : registry) : bool :=
  bool_decide (map_Forall (λ p page, page_check r p page = true) (page_register r)) &&
  bool_decide (map_Forall (λ k c, connection_check r k c = true) (connection_register r)) &&
  bool_decide (map_Forall (λ n u, user_check r n u = true) (user_register r)).

Lemma rows_check_typed r : rows_check r = true → rows_typed r.
Proof.
  unfold rows_check. intros Hall. bools.
  assert (∀ p page, page_register r !! p = Some page → page_check r p page = true) as HP by eauto.
  assert (∀ k c, connection_register r !! k = Some c → connection_check r k c = true) as HC by eauto.
  assert (∀ n u, user_register r !! n = Some u → user_check r n u = true) as HU by eauto.
  unfold page_check, connection_check, user_check in *. split.
  - intros p page Hp. specialize (HP p page Hp). bools. branch; bools; eauto.
  - intros k c Hk. specialize (HC k c Hk). bools. branch; bools; eauto.
  - intros k c p Hk Hp. specialize (HC k c Hk). bools.
    match goal with Hs : set_Forall _ _ |- _ => specialize (Hs p Hp); apply fmap_Some in Hs as (page & ? & ->) end.
    eauto.
  - intros n u k Hn Hk. specialize (HU n u Hn). bools.
    match goal with Hs : set_Forall _ _ |- _ => specialize (Hs k Hk); apply fmap_Some in Hs as (c & ? & ->) end.
    eauto.
  - intros n u Hn. specialize (HU n u Hn). by bools.
  - intros p page Hp. specialize (HP p page Hp). by bools.
  - intros p page Hp. specialize (HP p page Hp). bools. unfold queue_wf.
    match goal with Hq : page_datachanges page = [] |- _ => rewrite Hq end. split; constructor.
Qed.

Module TypesWitness.
#[local] Existing Instance Witness.flat_bag.
#[local] Existing Instance RegistryWitness.plain_core.
#[local] Existing Instance TytxWitness.plain_tytx.
#[local] Existing Instance TytxWitness.plain_tytx_laws.
#[local] Existing Instance WorkerWitness.plain_core_laws_here.
#[local] Existing Instance WorkerWitness.plain_worker.
Import DeskWitness WorkerWitness RegistryWitness.

Lemma login_registry_typed : registry_typed login_registry.
Proof.
  split; [by apply rows_check_typed; vm_compute| |apply login_registry_wf]. split.
  - intros l o Ho. assert (map_Forall (λ _ o, NoDup (bo_subs o)) (stores login_registry)) as HF.
    { apply (bool_decide_unpack _). by vm_compute. }
    by apply (HF l).
  - intros v c Hc. simpl in Hc. apply lookup_singleton_Some in Hc as [_ <-].
    split; [repeat constructor|]. repeat constructor; simpl; lia.
Qed.

Definition typed_worker : worker := with_lane new_desk a_worker.

Lemma typed_worker_typed : worker_typed typed_worker.
Proof.
  split; [apply login_registry_typed | by repeat constructor |]. split.
  - exists ∅. apply represents_empty.
  - intros p. unfold queue_of; simpl. rewrite lookup_empty. constructor.
  - apply new_desk_safe.
Qed.

(** A subscription the lane refuses, a window, a commit, a collect of the page. *)
Definition after_a_day : worker :=
  (collect_page true [9] [10] id "p1"
    (notifyDbEvents [5] [("t.a", VInt 5)] None (Some "p1") false
      (setStoreSubscription "p2" "user" "x.y" true
        (subscribeTable false "t.b" "p1" true typed_worker).2).2).2).2.

Lemma verbs_keep_worker_typed_witness :
  worker_typed after_a_day ∧ page_user_view <$> page_register (registers after_a_day) !! "p2" = Some (Some 8%positive).
Proof.
  split; [|by vm_compute].
  apply (verbs_keep_worker_typed typed_worker after_a_day); [|apply typed_worker_typed].
  eapply rtc_l; [apply (StepSubscribeTable false "t.b" "p1" true)|].
  eapply rtc_l; [apply (StepWindow "p2" "user" "x.y" true)|].
  eapply rtc_l; [apply (StepNotify [5] [("t.a", VInt 5)] None (Some "p1") false)|].
  apply rtc_once, (StepCollect true [9] [10] id "p1"). auto.
Defined.
End TypesWitness.
End Types.
