(* ===== verification/Collects.v ===== *)
(** * Collects: the requests of one process, interleaved

    [collect_page] of src/genropy_asgi/spa/genropy_worker.py takes the registers' lock
    twice and calls the desk between the two: GenropyWorker.v has it as one verb with
    the rest of the world as an argument.  Here its three phases are steps of their
    own, each request of the process has its own slot and its own reply in flight, and
    the other requests' writes, commits and collects - of the same page too - and the
    other processes' calls at the desk come between any two of them.  Everything that
    waits for one page, wherever it waits, is one mailbox (Mailbox.v). *)

From S2P Require Export DeskRoutes WorkerTypes.

Module Collects.
Import Mailbox LegacyBagCollector Index Desk Routes Registry Worker Types.

(** ** The three phases of a collect *)

Section phases.
Context `{BagApi, CoreRegistry, Tytx}.

(** Under the lock: the page is here, and whose it is. *)
Definition collect_ask (page_id : string) : PyM worker string :=
  py_reads registers ≫= λ r,
  match page_register r !! page_id with
  | None => py_raise KeyError
  | Some _ => py_lift (λ w, (λ u, (u, w)) <$> page_user page_id (registers w))
  end.

(** With no lock held: the slot's deposits go up, what waits comes back. *)
Definition collect_call (answered : bool) (desk_clock : list Z) (page_id user : string)
    : PyM worker exchange_reply :=
  py_reads slot ≫= λ s,
  call_desk answered (route_total (exchange desk_clock page_id user (sl_dbevents s))) ≫= λ reply,
  py_modify (λ w, with_slot (RequestSlot [] (sl_own_dbevents (slot w))) w) ≫= λ _,
  mret reply.

(** Under the lock again: the store writes applied, the page drained. *)
Definition collect_land (clock : list Z) (page_id user : string) (reply : exchange_reply)
    : PyM worker delivery :=
  on_registers (collect_reply clock page_id user reply) ≫= λ datachanges,
  py_reads slot ≫= λ s,
  py_modify (with_slot (RequestSlot (sl_dbevents s) [])) ≫= λ _,
  mret (Delivery datachanges (ex_dbevents reply ++ sl_own_dbevents s)).

(** The phases, the others in between, are the verb. *)
Lemma collect_page_phases answered dclock clock between pid w :
  collect_page answered dclock clock between pid w =
    (collect_ask pid ≫= λ user,
     collect_call answered dclock pid user ≫= λ reply,
     py_modify (λ w, with_registers (between (registers w)) w) ≫= λ _,
     collect_land clock pid user reply) w.
Proof.
  cbv [collect_page collect_ask collect_call collect_land mbind pym_bind py_reads py_modify py_raise
    mret pym_ret].
  destruct (page_register (registers w) !! pid); [|done].
  destruct (py_lift _ w) as [[user|e] w1]; [|done].
  by destruct (call_desk _ _ w1) as [[reply|e] w2].
Qed.
End phases.

(** ** The process *)

(** A request's collect between two of its phases. *)
Inductive flight `{Tytx} : Type :=
| Asked (page_id user : string)
| Answered (page_id user : string) (reply : exchange_reply).

(** The worker, a slot per request - the worker's own field is the one being served -
    and the collects under way. *)
Record process `{Tytx} : Type := Process {
  pr_worker : worker;
  pr_slots : gmap nat request_slot;
  pr_flights : gmap nat flight
}.
Arguments Process {_} _ _ _.

Section process.
Context `{BagApi, CoreRegistryLaws, CoreWorker, TytxLaws}.

Definition slot_of (i : nat) (pr : process) : request_slot :=
  default build_request_slot (pr_slots pr !! i).

(** A verb called by request [i], on its own slot. *)
Definition on_request {A} (i : nat) (m : PyM worker A) (pr : process) : res A * process :=
  let '(a, w) := m (with_slot (slot_of i pr) (pr_worker pr)) in
  (a, Process w (<[i := slot w]> (pr_slots pr)) (pr_flights pr)).

Definition with_flight (i : nat) (f : option flight) (pr : process) : process :=
  Process (pr_worker pr) (pr_slots pr) (partial_alter (λ _, f) i (pr_flights pr)).

Inductive act : Type :=
| Ask (i : nat) (page_id : string)
| Call (i : nat) (answered : bool) (desk_clock : list Z)
| Land (i : nat) (clock : list Z)
| Commits (i : nat) (c : commit)
| Served (i : nat) (answered : bool) (clock : list Z)
| Writes (i : nat) (answered : bool) (now desk_now : Z) (identity : option string) (c : tytx)
    (kind : string) (target filters : option string) (replace : bool)
| Resets (i : nat) (answered : bool) (desk_now : Z) (identity target filters : option string)
| Drops (i : nat) (answered : bool) (desk_now : Z) (identity : option string) (path : string)
    (target filters : option string)
| BagWrite (now : Z) (store : positive) (f : bag → bag * list node_event)
| Subscribes (i : nat) (answered : bool) (table page_id : string) (b : bool)
| Order (tables : option (list string))
| Window (i : nat) (page_id storename prefix : string) (active : bool)
| Login (i : nat) (connection_id user : string) (fields : gmap string value)
| Replay (page_id : string) (fields : parcel_fields)
| Carried (user : string) (store : option positive) (resident : bool)
| CoreMoves (f : registry → registry)
| Route (c : route_call).

Definition run_act (pr : process) (a : act) : process :=
  match a with
  | Ask i p =>
      match pr_flights pr !! i, on_request i (collect_ask p) pr with
      | None, (Ok user, pr) => with_flight i (Some (Asked p user)) pr
      | None, (Raise _, pr) => pr
      | Some _, _ => pr
      end
  | Call i answered dclock =>
      match pr_flights pr !! i with
      | Some (Asked p user) =>
          match on_request i (collect_call answered dclock p user) pr with
          | (Ok reply, pr) => with_flight i (Some (Answered p user reply)) pr
          | (Raise _, pr) => with_flight i None pr
          end
      | _ => pr
      end
  | Land i clock =>
      match pr_flights pr !! i with
      | Some (Answered p user reply) =>
          with_flight i None (on_request i (collect_land clock p user reply) pr).2
      | _ => pr
      end
  | Commits i c => (on_request i (λ w, (Ok (), run_commit w c)) pr).2
  | Served i answered clock => (on_request i (λ w, (Ok (), on_request_served answered clock w)) pr).2
  | Writes i answered now dnow ident c kind target filters replace =>
      (on_request i (set_datachange answered now dnow ident c kind target filters replace) pr).2
  | Resets i answered dnow ident target filters =>
      (on_request i (reset_datachanges answered dnow ident target filters) pr).2
  | Drops i answered dnow ident path target filters =>
      (on_request i (drop_datachanges answered dnow ident path target filters) pr).2
  | Subscribes i answered table p b => (on_request i (subscribeTable answered table p b) pr).2
  | Order tables =>
      Process (orders_subscribed_tables tables (pr_worker pr)) (pr_slots pr) (pr_flights pr)
  | Window i p storename path active => (on_request i (setStoreSubscription p storename path active) pr).2
  | Login i cid user fields => (on_request i (on_registers (change_connection_user cid user fields)) pr).2
  | Replay p fields =>
      Process (on_registers (replay_fields p fields) (pr_worker pr)).2 (pr_slots pr) (pr_flights pr)
  | Carried user store resident =>
      Process (on_registers (_install_carried_store user store resident) (pr_worker pr)).2
        (pr_slots pr) (pr_flights pr)
  | CoreMoves f =>
      Process (with_registers (f (registers (pr_worker pr))) (pr_worker pr)) (pr_slots pr) (pr_flights pr)
  | BagWrite now store f =>
      Process (with_registers (on_bag now store f (registers (pr_worker pr))) (pr_worker pr))
        (pr_slots pr) (pr_flights pr)
  | Route c =>
      Process (with_lane (run_route (lane (pr_worker pr)) c) (pr_worker pr)) (pr_slots pr) (pr_flights pr)
  end.
End process.

(** ** What waits for a page in its process *)

Section waiting.
Context `{BagApi, CoreRegistryLaws, TytxLaws}.

#[local] Existing Instance page_hears_dec.

(** Numbers aside: a collect numbers what it hands over anew. *)
Definition unnumbered : list change → list change := map (set_change_idx 0).

(** The row's queue and the pending list of its view. *)
Definition row_waits (p : string) (r : registry) : list change :=
  match page_register r !! p with None => [] | Some page => page_datachanges page end.

Definition page_view (p : string) (r : registry) : option positive :=
  match page_register r !! p with None => None | Some page => page_user_view page end.

Definition view_waits (p : string) (r : registry) : list change :=
  match page_view p r with
  | None => []
  | Some v => match views r !! v with None => [] | Some c => col_changes c end
  end.

Definition pending (p : string) (r : registry) : list change :=
  unnumbered (row_waits p r ++ view_waits p r).

(** What an operation [f] on the Bag at [l] makes the page's row and its view capture. *)
Definition row_hears (p : string) (now : Z) (o : bag_object) (evs : list node_event) (r : registry)
    : list change :=
  match page_register r !! p with
  | None => []
  | Some page =>
      if decide (SubPage p ∈ bo_subs o)
      then map (λ e, set_arrival_ts now (page_change now e)) (filter (page_hears page) evs) else []
  end.

Definition view_hears (p : string) (now : Z) (o : bag_object) (evs : list node_event) (r : registry)
    : list change :=
  match page_view p r with
  | None => []
  | Some v =>
      match views r !! v with
      | None => []
      | Some c =>
          if decide (SubView v ∈ bo_subs o)
          then map (event_change now) (filter (λ e, _captures c (event_path e) = true) evs) else []
      end
  end.

Definition heard (p : string) (now : Z) (l : positive) (f : bag → bag * list node_event) (r : registry)
    : list change :=
  match stores r !! l with
  | None => []
  | Some o => let evs := (f (bo_nodes o)).2 in row_hears p now o evs r ++ view_hears p now o evs r
  end.

#[export] Instance unnumbered_perm : Proper ((≡ₚ) ==> (≡ₚ)) unnumbered.
Proof. intros l k E. by apply Permutation_map. Qed.

Lemma unnumbered_from n l : unnumbered (number_from n l) = unnumbered l.
Proof. by apply number_from_forget. Qed.

Lemma unnumbered_app l k : unnumbered (l ++ k) = unnumbered l ++ unnumbered k.
Proof. apply map_app. Qed.

Lemma unnumbered_stamped now n l :
  unnumbered (map (set_arrival_ts now) (number_from n l)) = unnumbered (map (set_arrival_ts now) l).
Proof. revert n. induction l as [|c l IH]; intros n; [done|]. simpl. by rewrite IH. Qed.

Lemma unnumbered_map {A} (f : A → change) l :
  (∀ x, set_change_idx 0 (f x) = f x) → unnumbered (map f l) = map f l.
Proof. intros Hf. unfold unnumbered. rewrite map_map. by apply map_ext. Qed.

Lemma on_bag_missing now l f r : stores r !! l = None → on_bag now l f r = r.
Proof. unfold on_bag. by intros ->. Qed.

(** The row's queue grows by what the row hears, the view's list by what the view hears. *)
Lemma on_bag_waits p now l f r :
  heap_typed r → pending p (on_bag now l f r) ≡ₚ pending p r ++ heard p now l f r.
Proof.
  intros Hr. unfold heard. destruct (stores r !! l) as [o|] eqn:Ho.
  2: { by rewrite on_bag_missing, app_nil_r. }
  destruct (on_bag_spec now l f r o (f (bo_nodes o)).1 (f (bo_nodes o)).2 Ho (ht_subs _ Hr _ _ Ho))
    as (_ & HP & HV); [by destruct (f _)|].
  pose proof (ca_pages _ _ (calm_on_bag now l f r) p) as HC.
  pose proof (ca_views _ _ (calm_on_bag now l f r)) as HW.
  set (r' := on_bag now l f r) in *. set (evs := (f (bo_nodes o)).2) in *. clearbody r'.
  assert (page_view p r' = page_view p r) as Ev.
  { unfold page_view. by destruct HC as [? ? [-> _]|]. }
  assert (unnumbered (row_waits p r') = unnumbered (row_waits p r) ++ row_hears p now o evs r) as E1.
  { unfold row_waits, row_hears. destruct (page_register r !! p) as [page|] eqn:Hp.
    2: { by inversion HC. }
    rewrite (HP p page Hp). case_decide; simpl; [|by rewrite app_nil_r].
    rewrite unnumbered_app. f_equal. rewrite unnumbered_stamped, map_map. by apply unnumbered_map. }
  assert (unnumbered (view_waits p r') = unnumbered (view_waits p r) ++ view_hears p now o evs r) as E2.
  { unfold view_waits, view_hears. rewrite Ev. destruct (page_view p r) as [v|]; [|done].
    destruct (views r !! v) as [c|] eqn:Hv.
    - destruct (HV v c Hv) as (c' & -> & ->). case_decide; [|by rewrite app_nil_r].
      rewrite unnumbered_app, unnumbered_from. f_equal. by apply unnumbered_map.
    - specialize (HW v). rewrite Hv in HW. by inversion HW. }
  unfold pending. rewrite !unnumbered_app, E1, E2. solve_Permutation.
Qed.

(** *** The store writes a reply brings, and the drain *)

(** The one Bag operation of [apply_forwarded]. *)
Definition forwarded_write (c : change) : bag → bag * list node_event := λ b,
  if ch_delete c then bag_delItem b (ch_path c) (k_reason (ch_key c))
  else bag_setItem b (ch_path c) (ch_value c) (Some (forwarded_attributes c)) (k_reason (ch_key c)).

(** What the page hears of the store writes, down to the one that raises. *)
Fixpoint heard_all (p : string) (clock : list Z) (store : positive) (cs : list change) (r : registry)
    : list change :=
  match cs with
  | [] => []
  | c :: rest =>
      heard p (hd 0 clock) store (forwarded_write c) r ++
      match apply_forwarded (hd 0 clock) store c r with
      | (Ok _, r') => heard_all p (tail clock) store rest r'
      | (Raise _, _) => []
      end
  end.

Definition heard_reply (p : string) (clock : list Z) (page_id user : string) (reply : exchange_reply)
    (r : registry) : list change :=
  match page_register r !! page_id, user_register r !! user with
  | Some _, Some u => heard_all p clock (user_store u) (from_tytx_list (ex_store_changes reply)) r
  | _, _ => []
  end.

Lemma forwarded_waits p now store c r :
  heap_typed r →
  pending p (apply_forwarded now store c r).2 ≡ₚ pending p r ++ heard p now store (forwarded_write c) r.
Proof.
  intros Hr. rewrite <- on_bag_waits by done. unfold apply_forwarded, forwarded_write.
  destruct (ch_delete c); [done|]. set (r1 := on_bag _ _ _ r). destruct (k_fired (ch_key c)); [|done].
  destruct (stores r1 !! store) as [o|]; [|done]. by destruct (bag_updateNode _ _ _).
Qed.

Lemma calm_heap r r' : calm r r' → heap_typed r → heap_typed r'.
Proof. intros Hc. apply (ev_heap _ _ (ca_evolves _ _ Hc)). Qed.

Lemma apply_all_waits p clock store cs r :
  heap_typed r →
  pending p (apply_all clock store cs r).2 ≡ₚ pending p r ++ heard_all p clock store cs r.
Proof.
  revert clock r. induction cs as [|c cs IH]; intros clock r Hr; simpl; [by rewrite app_nil_r|].
  pose proof (forwarded_waits p (hd 0 clock) store c r Hr) as E.
  pose proof (calm_heap _ _ (forwarded_calm r (hd 0 clock) store c r ltac:(done)) Hr) as Hr'.
  rewrite pym_bind_unfold. destruct (apply_forwarded _ store c r) as [[[]|e] r']; cbn [snd] in *.
  - rewrite IH, E, app_assoc by done. done.
  - by rewrite E, app_nil_r.
Qed.

(** The drain hands over all that waits for its page, and leaves every other's alone. *)
Lemma drain_waits pid page dq r :
  registry_wf r → page_register r !! pid = Some page →
  let '(l, r') := drain_page pid page dq r in
  unnumbered l ≡ₚ unnumbered dq ++ pending pid r ∧ pending pid r' = [] ∧
  ∀ q, q ≠ pid → pending q r' = pending q r.
Proof.
  intros Hwf Hp. pose proof (drain_page_list pid page dq r) as HL.
  destruct (drain_page_registry pid page dq r) as (EP & _ & _ & _ & EV & EO).
  destruct (drain_page pid page dq r) as [l r']. cbn [fst snd] in *. unfold pending. split_and!.
  - assert (view_changes r page ≡ₚ view_waits pid r) as Hv.
    { unfold view_changes, view_waits, page_view. rewrite Hp. destruct (page_user_view page) as [v|]; [|done].
      destruct (views r !! v); [|done]. simpl. apply py_sorted_perm. }
    rewrite HL, !heap_merge_perm, Hv. unfold row_waits. rewrite Hp, !unnumbered_app. solve_Permutation.
  - unfold row_waits, view_waits, page_view. rewrite EP, lookup_insert_eq. simpl.
    destruct (page_user_view page) as [v|] eqn:Ev; [|done]. rewrite EV by done. by destruct (views r !! v).
  - intros q Hq. unfold row_waits, view_waits, page_view. rewrite EP, lookup_insert_ne by done.
    destruct (page_register r !! q) as [qq|] eqn:Hqq; [|done].
    destruct (page_user_view qq) as [v|] eqn:Ev; [|done]. rewrite EO; [done|].
    intros Ev'. by eapply Hq, (wf_views_inj _ Hwf q pid).
Qed.

Lemma collect_reply_waits p clock pid user reply r :
  registry_typed r →
  let '(a, r') := collect_reply clock pid user reply r in
  (if decide (pid = p)
   then match a with
        | Ok l => unnumbered l ++ pending p r' ≡ₚ
            unnumbered (from_tytx_list (ex_datachanges reply)) ++ pending p r ++
            heard_reply p clock pid user reply r
        | Raise _ => pending p r' ≡ₚ pending p r ++ heard_reply p clock pid user reply r
        end
   else pending p r' ≡ₚ pending p r ++ heard_reply p clock pid user reply r).
Proof.
  intros Hr. unfold collect_reply, heard_reply. rewrite pym_bind_unfold. unfold py_reads.
  destruct (page_register r !! pid) as [page|] eqn:Hp; [|simpl; case_decide; by rewrite app_nil_r].
  destruct (user_register r !! user) as [u|]; [|simpl; case_decide; by rewrite app_nil_r].
  rewrite pym_bind_unfold. set (cs := from_tytx_list (ex_store_changes reply)).
  pose proof (apply_all_waits p clock (user_store u) cs r (rg_heap _ Hr)) as E.
  pose proof (apply_all_calm r clock (user_store u) cs r ltac:(done)) as HC.
  destruct (apply_all _ _ cs r) as [[[]|e] r1]; cbn [snd] in *; [|by case_decide].
  pose proof (calm_wf _ _ HC (rg_wf _ Hr)) as Hwf.
  destruct (forall2_on _ _ _ _ (ca_pages _ _ HC pid) Hp) as (page1 & Hp1 & _).
  unfold drain_reply. rewrite Hp1.
  pose proof (drain_waits pid page1 (from_tytx_list (ex_datachanges reply)) r1 Hwf Hp1) as HD.
  destruct (drain_page _ _ _ _) as [l r2]. destruct HD as (D1 & D2 & D3). case_decide as Hq.
  - subst p. by rewrite unnumbered_from, D1, D2, E, app_nil_r.
  - by rewrite D3, E by done.
Qed.

(** *** A row moved by itself *)

Lemma update_waits p t (f : page_row → page_row) row r :
  (∀ page, page_user_view (f page) = page_user_view page) → page_register r !! t = Some row →
  pending p (update_page t f r) =
    if decide (t = p) then unnumbered (page_datachanges (f row) ++ view_waits p r) else pending p r.
Proof.
  intros Hf Hrow. unfold pending, row_waits, view_waits, page_view. simpl. case_decide as Ht.
  - subst t. by rewrite lookup_alter_eq, Hrow; simpl; rewrite Hf.
  - by rewrite lookup_alter_ne.
Qed.

(** *** The verbs that move views: nothing that waits is touched *)

Lemma pending_ext p r r' :
  row_waits p r' = row_waits p r → view_waits p r' = view_waits p r → pending p r' = pending p r.
Proof. unfold pending. by intros -> ->. Qed.

Lemma pending_row p pid page page' r :
  page_register r !! pid = Some page → page_datachanges page' = page_datachanges page →
  page_user_view page' = page_user_view page →
  pending p (with_pages (<[pid := page']> (page_register r)) r) = pending p r.
Proof.
  intros Hp Hd Hv. apply pending_ext; unfold row_waits, view_waits, page_view; simpl;
    (destruct (decide (pid = p)) as [->|]; [rewrite lookup_insert_eq, Hp | by rewrite lookup_insert_ne]);
    [done | by rewrite Hv].
Qed.

Lemma pending_alter p pid (f : page_row → page_row) r :
  (∀ page, page_datachanges (f page) = page_datachanges page ∧ page_user_view (f page) = page_user_view page) →
  pending p (update_page pid f r) = pending p r.
Proof.
  intros Hf. apply pending_ext; unfold row_waits, view_waits, page_view; simpl;
    (destruct (decide (pid = p)) as [->|]; [rewrite lookup_alter_eq | by rewrite lookup_alter_ne]);
    (destruct (page_register r !! p) as [page|]; [simpl | done]); destruct (Hf page) as [E1 E2].
  - exact E1.
  - by rewrite E2.
Qed.

Lemma pending_view p v f r :
  (∀ c, col_changes (f c) = col_changes c) → pending p (update_view v f r) = pending p r.
Proof.
  intros Hf. apply pending_ext; [done|]. unfold view_waits, page_view. simpl.
  destruct (page_register r !! p) as [page|]; [|done]. destruct (page_user_view page) as [u|]; [|done].
  destruct (decide (v = u)) as [->|]; [rewrite lookup_alter_eq | by rewrite lookup_alter_ne].
  destruct (views r !! u); simpl; [apply Hf | done].
Qed.

Lemma pending_framed p pid r r' : registry_wf r → framed pid r r' → p ≠ pid → pending p r' = pending p r.
Proof.
  intros Hwf HF Hne. unfold pending, row_waits, view_waits, page_view.
  rewrite (fr_pages _ _ _ HF) by done. destruct (page_register r !! p) as [page|] eqn:Hp; [|done].
  destruct (page_user_view page) as [v|] eqn:Hv; [|done].
  destruct (fr_views _ _ _ HF v) as [-> _]; [by eapply wf_view_alive| |done].
  intros page' Hp' Hv'. by eapply Hne, (wf_views_inj _ Hwf p pid).
Qed.

Lemma pending_subscribe p r0 pid prefix :
  preserves (λ r, registry_typed r ∧ pending p r = pending p r0) (subscribe_store_path pid prefix).
Proof.
  intros r [Hr E]. split; [by apply subscribe_typed|]. rewrite <- E. clear E.
  pose proof Hr as [HR HH HW]. destruct (page_register r !! pid) as [page|] eqn:Hp.
  2: { unfold subscribe_store_path. by rewrite Hp. }
  destruct (typed_chain r pid page HR Hp) as [u Hu].
  destruct (subscribe_step pid prefix r page u HW Hp Hu) as (v & r' & -> & Hrow & _ & HF & _ & HG).
  cbn [snd]. destruct (decide (p = pid)) as [->|Hne]; [|by eapply pending_framed].
  destruct HG as (c' & Hc' & HG). unfold pending, row_waits, view_waits, page_view.
  rewrite Hrow, Hp. simpl. rewrite Hc'. destruct (page_user_view page) as [v0|].
  - destruct HG as (-> & c & -> & ->). done.
  - by destruct HG as (_ & ->).
Qed.

Lemma pending_window p pid storename prefix active w :
  registry_typed (registers w) →
  pending p (registers (setStoreSubscription pid storename prefix active w).2) = pending p (registers w).
Proof.
  intros Hr. unfold setStoreSubscription.
  destruct (page_register (registers w) !! pid) as [page|] eqn:Hp; [|done].
  destruct (decide (storename = "page")); [by eapply pending_row|].
  destruct (decide (storename = "user")); [|done]. destruct active.
  - destruct (pending_subscribe p (registers w) pid prefix (registers w)) as [_ E]; [done|].
    unfold on_registers. by destruct (subscribe_store_path pid prefix (registers w)) as [a r'].
  - destruct (page_user_view page) as [v|]; [|done]. cbn [snd registers with_registers].
    rewrite pending_view by done. by eapply pending_row.
Qed.

Lemma pending_replay p r0 pid fields :
  preserves (λ r, registry_typed r ∧ pending p r = pending p r0) (replay_fields pid fields).
Proof.
  assert (∀ f, (∀ page, row_like page (f page) ∧ same_view page (f page)) →
    (∀ page, page_datachanges (f page) = page_datachanges page) →
    preserves (λ r, registry_typed r ∧ pending p r = pending p r0) (py_modify (update_page pid f))) as Hup.
  { intros f Hf Hd. apply preserves_modify. intros r [Hr E]. split; [by apply (update_typed pid f Hf r)|].
    rewrite pending_alter; [done|]. intros page. split; [apply Hd | apply Hf]. }
  unfold replay_fields.
  apply preserves_bind; [apply Hup; [intros page; split; [apply like_tables | done] | done]|intros _].
  apply preserves_bind; [apply Hup; [intros page; split; [apply like_paths | done] | done]|intros _].
  apply preserves_for. intros prefix. apply preserves_bind; [apply pending_subscribe | auto with gnr].
Qed.

(** A login and a carried store take the views elsewhere with everything they held. *)
Lemma pending_followers p skip store r0 gone r :
  followers skip store r0 gone r → pending p r = pending p r0.
Proof.
  intros HF. unfold pending, row_waits, view_waits, page_view.
  destruct (decide (p ∈ gone)) as [Hin|Hout].
  - destruct (fo_gone _ _ _ _ _ HF p Hin) as (page & Hp & Hfol). rewrite Hp.
    destruct (page_user_view page) as [v|] eqn:Ev; [|by rewrite Hfol, Ev].
    destruct Hfol as (c & Hc & Hfol). rewrite Hc. destruct (skip c).
    + destruct Hfol as (-> & HV & _). by rewrite Ev, HV.
    + destruct Hfol as (_ & _ & w & _ & -> & Hw & _). simpl. rewrite Hw. simpl.
      by rewrite !unnumbered_app, unnumbered_from.
  - rewrite (fo_pages _ _ _ _ _ HF p Hout). destruct (page_register r0 !! p) as [page|] eqn:Hp; [|done].
    destruct (page_user_view page) as [v|] eqn:Ev; [|done].
    by rewrite (fo_views _ _ _ _ _ HF p page v Hout Hp Ev).
Qed.

(** What the core's own part of the two owes: rows that are typed and name one another,
    and no queue touched. *)
Definition core_login_sound (cid user : string) (fields : gmap string value) (r0 : registry) : Prop :=
  let '(a, r) := core_change_connection_user cid user fields r0 in
  registry_typed r ∧ (∀ p, pending p r = pending p r0) ∧
  ∀ connection, a = Ok connection →
    connection_register r !! cid = Some connection ∧ connection_user connection = user.

Definition core_carried_sound `{CoreWorker} (user : string) (store : option positive) (resident : bool)
    (r0 : registry) : Prop :=
  let '(a, r) := core_install_carried_store user store resident r0 in
  registry_typed r ∧ (∀ p, pending p r = pending p r0) ∧
  ∀ l, a = Ok () → store = Some l → resident = false →
    is_Some (user_register r !! user) ∧ is_Some (stores r !! l).

Lemma login_waits cid user fields r0 :
  core_login_sound cid user fields r0 →
  let r := (change_connection_user cid user fields r0).2 in
  registry_typed r ∧ ∀ p, pending p r = pending p r0.
Proof.
  unfold core_login_sound. destruct (core_change_connection_user cid user fields r0) as [[c|e] r] eqn:Hcore.
  - intros (Hr & HP & Hc). destruct (Hc c eq_refl) as [Hc1 Hc2].
    pose proof (login_typed cid user fields c r0 r Hcore Hr Hc1 Hc2) as Ht.
    destruct (login_followers cid user fields c r0 r Hcore Hr Hc1 Hc2) as (store & r' & E & HF & _).
    rewrite E in *. split; [done|]. intros p. cbn [snd]. rewrite <- HP. by eapply pending_followers.
  - intros (Hr & HP & _). unfold change_connection_user. by rewrite pym_bind_unfold, Hcore.
Qed.

Lemma carried_waits `{CoreWorker} user store resident r0 :
  core_carried_sound user store resident r0 →
  let r := (_install_carried_store user store resident r0).2 in
  registry_typed r ∧ ∀ p, pending p r = pending p r0.
Proof.
  unfold core_carried_sound.
  destruct (core_install_carried_store user store resident r0) as [[[]|e] r] eqn:Hcore.
  2: { intros (Hr & HP & _). unfold _install_carried_store. by rewrite pym_bind_unfold, Hcore. }
  intros (Hr & HP & Hs). destruct store as [l|], resident;
    try (unfold _install_carried_store; by rewrite pym_bind_unfold, Hcore).
  destruct (Hs l eq_refl eq_refl eq_refl) as [[entry Hu] Hl].
  pose proof (carried_typed user l r0 r entry Hcore Hr Hu Hl) as Ht.
  destruct (carried_followers user l r0 r entry Hcore Hr Hu Hl) as (r' & E & HF & _).
  rewrite E in *. split; [done|]. intros p. cbn [snd]. rewrite <- HP. by eapply pending_followers.
Qed.
End waiting.

(** ** What waits for a page wherever it waits *)

Section ledger.
Context `{BagApi, CoreRegistryLaws, CoreWorker, TytxLaws}.

Definition entry : Type := change + deposit.

Definition entries (cs : list change) (es : list deposit) : list entry :=
  map inl (unnumbered cs) ++ map inr es.

Definition flight_waits (p : string) (f : flight) : list entry :=
  match f with
  | Answered q _ reply =>
      if decide (q = p) then entries (from_tytx_list (ex_datachanges reply)) (ex_dbevents reply) else []
  | Asked _ _ => []
  end.

Definition flying (p : string) (fs : gmap nat flight) : list entry :=
  map_to_list fs ≫= λ '(_, f), flight_waits p f.

(** The desk's two queues of the page, as its mailboxes have them. *)
Definition desk_waits (p : string) (d : desk) : list entry :=
  entries (mb_waiting (change_box false p) d) (mb_waiting (event_box p) d).
Definition desk_hands (p : string) (d : desk) (c : route_call) : list entry :=
  entries (mb_handed (change_box false p) d c) (mb_handed (event_box p) d c).
Definition desk_files (p : string) (d : desk) (c : route_call) : list entry :=
  entries (mb_filed (change_box false p) d c) (mb_filed (event_box p) d c).

Lemma entries_app cs cs' es es' :
  entries (cs ++ cs') (es ++ es') ≡ₚ entries cs es ++ entries cs' es'.
Proof. unfold entries. rewrite unnumbered_app, !map_app. solve_Permutation. Qed.

Lemma entries_part cs cs' es es' :
  cs `sublist_of` cs' → es `sublist_of` es' → entries cs es ⊆+ entries cs' es'.
Proof.
  intros Hc He. unfold entries, unnumbered. apply submseteq_app; apply sublist_submseteq.
  - rewrite !map_map. by apply (fmap_sublist (λ c, inl (set_change_idx 0 c))).
  - by apply (fmap_sublist inr).
Qed.

Lemma flying_put p i f fs : flying p (<[i := f]> fs) ≡ₚ flight_waits p f ++ flying p (delete i fs).
Proof.
  unfold flying. rewrite <- insert_delete_eq, map_to_list_insert by apply lookup_delete_eq. done.
Qed.

Lemma flying_take p i f fs :
  fs !! i = Some f → flying p fs ≡ₚ flight_waits p f ++ flying p (delete i fs).
Proof. intros Hf. unfold flying. by rewrite <- (map_to_list_delete _ i f Hf). Qed.

Lemma desk_part p d c :
  desk_safe d →
  desk_hands p d c ++ desk_waits p (run_route d c) ⊆+ desk_waits p d ++ desk_files p d c.
Proof.
  intros Hd. unfold desk_hands, desk_waits, desk_files. rewrite <- !entries_app. apply entries_part.
  - exact (mb_part (d := in_order) (m := change_box false p) (ok := λ _ _, True) d c Hd I).
  - exact (mb_part (d := in_order) (m := event_box p) (ok := λ _ _, True) d c Hd I).
Qed.

Lemma desk_exact p d c :
  desk_safe d → mb_lossless (change_box false p) d c → mb_lossless (event_box p) d c →
  desk_hands p d c ++ desk_waits p (run_route d c) ≡ₚ desk_waits p d ++ desk_files p d c.
Proof.
  intros Hd Hc He. unfold desk_hands, desk_waits, desk_files. rewrite <- !entries_app.
  pose proof (mb_exact (d := in_order) (m := change_box false p) (ok := λ _ _, True) d c Hd I Hc) as E1.
  pose proof (mb_exact (d := in_order) (m := event_box p) (ok := λ _ _, True) d c Hd I He) as E2.
  simpl in E1, E2. simpl. by rewrite E1, E2.
Qed.

(** *** The mailbox of a page *)

Definition waiting (p : string) (pr : process) : list entry :=
  flying p (pr_flights pr) ++ map inl (pending p (registers (pr_worker pr))) ++
  desk_waits p (lane (pr_worker pr)).

Definition delivered (dl : delivery) : list entry := entries (dl_datachanges dl) (dl_dbevents dl).

(** What the landing of request [i] answers, and for which page. *)
Definition landed (i : nat) (clock : list Z) (pr : process) : option (string * res delivery) :=
  match pr_flights pr !! i with
  | Some (Answered q u reply) => Some (q, (on_request i (collect_land clock q u reply) pr).1)
  | _ => None
  end.

Definition handed (p : string) (pr : process) (a : act) : list entry :=
  match a with
  | Land i clock =>
      match landed i clock pr with
      | Some (q, Ok dl) => if decide (q = p) then delivered dl else []
      | _ => []
      end
  | _ => []
  end.

Definition write_message (kind : string) (filters : option string) (replace : bool) (c : tytx) : message :=
  Message (Some "set_datachange") kind filters replace (Some c) None.

(** What an addressed write files for the page, by the road it answers it took: [added]
    on its row, or what the message leaves at the desk. *)
Definition addressed_files (p : string) (w : worker) (a : res road) (dnow : Z) (target : option string)
    (m : message) (added : list change) : list entry :=
  match a with
  | Ok (Road true _) => if decide (target = Some p) then entries added [] else []
  | Ok (Road false _) => desk_files p (lane w) (CallOnDatachange dnow (lane_population w) target m)
  | Raise _ => []
  end.

Definition filed (p : string) (pr : process) (a : act) : list entry :=
  let w := pr_worker pr in
  match a with
  | Call i true dclock =>
      match pr_flights pr !! i with
      | Some (Asked q u) => desk_files p (lane w) (CallExchange dclock q u (sl_dbevents (slot_of i pr)))
      | _ => []
      end
  | Land i clock =>
      match pr_flights pr !! i with
      | Some (Answered q u reply) =>
          map inl (heard_reply p clock q u reply (registers w)) ++
          match landed i clock pr with
          | Some (_, Ok _) => if decide (q = p) then entries [] (sl_own_dbevents (slot_of i pr)) else []
          | _ => []
          end
      | _ => []
      end
  | Served i true clock => desk_files p (lane w) (CallDeposit clock (sl_dbevents (slot_of i pr)))
  | Writes i answered now dnow ident c kind target filters replace =>
      let verb := set_datachange answered now dnow ident c kind target filters replace in
      addressed_files p w (wa_road <$> (on_request i verb pr).1) dnow target
        (write_message kind filters replace c) [set_arrival_ts now (from_tytx c)]
  | BagWrite now l f => map inl (heard p now l f (registers w))
  | Route c => desk_files p (lane w) c
  | _ => []
  end.

(** The act takes back nothing that waits for the page: a landing of its own returns,
    a write on it does not replace, nobody resets or drops its queue. *)
Definition lossless (p : string) (pr : process) (a : act) : Prop :=
  match a with
  | Land i clock => ∀ q e, landed i clock pr = Some (q, Raise e) → q ≠ p
  | Writes _ _ _ _ _ _ _ target _ replace => target = Some p → replace = false
  | Resets _ _ _ _ target _ | Drops _ _ _ _ _ target _ => target ≠ Some p
  | CoreMoves f => pending p (f (registers (pr_worker pr))) ≡ₚ pending p (registers (pr_worker pr))
  | Route c =>
      mb_lossless (change_box false p) (lane (pr_worker pr)) c ∧
      mb_lossless (event_box p) (lane (pr_worker pr)) c
  | _ => True
  end.

(** The page lives here - no other process collects it - and the core does its part: the
    births and the drops of rows, which are its own, hand over typed rows and put
    nothing in a queue; the page may be among those that go. *)
Definition sound (p : string) (pr : process) (a : act) : Prop :=
  match a with
  | Login _ cid user fields => core_login_sound cid user fields (registers (pr_worker pr))
  | Carried user store resident => core_carried_sound user store resident (registers (pr_worker pr))
  | CoreMoves f =>
      let r := registers (pr_worker pr) in registry_typed (f r) ∧ pending p (f r) ⊆+ pending p r
  | Route (CallExchange _ q _ _) => q ≠ p
  | _ => True
  end.

Definition process_good (pr : process) : Prop :=
  registry_typed (registers (pr_worker pr)) ∧ desk_safe (lane (pr_worker pr)).

Definition page_box (p : string) : mailbox process act entry := {|
  mb_step := run_act;
  mb_waiting := waiting p;
  mb_handed := handed p;
  mb_filed := filed p;
  mb_lossless := lossless p;
  mb_good := process_good
|}.

(** *** The verbs, as moves of the registers and of the desk *)

Lemma land_spec clock q u reply w :
  let '(a, w') := collect_land clock q u reply w in
  let '(b, r') := collect_reply clock q u reply (registers w) in
  registers w' = r' ∧ lane w' = lane w ∧
  a = (λ l, Delivery l (ex_dbevents reply ++ sl_own_dbevents (slot w))) <$> b.
Proof.
  unfold collect_land. rewrite pym_bind_unfold. unfold on_registers.
  by destruct (collect_reply clock q u reply (registers w)) as [[l|e] r'].
Qed.

Lemma call_spec answered dclock q u w :
  let '(a, w') := collect_call answered dclock q u w in
  registers w' = registers w ∧
  if answered
  then let '(reply, d) := exchange dclock q u (sl_dbevents (slot w)) (lane w) in
       a = Ok reply ∧ lane w' = d
  else a = Raise CommanderCallFailed ∧ lane w' = lane w.
Proof.
  unfold collect_call. rewrite pym_bind_unfold. unfold py_reads. rewrite pym_bind_unfold.
  destruct answered; [|done]. rewrite call_desk_answered. by destruct (exchange _ _ _ _ _).
Qed.

(** The road of an addressed write: the row, the desk, or nowhere. *)
Lemma route_spec answered dnow ident kind target filters m act w :
  let '(a, w') := _route_datachange answered dnow ident kind target filters m act w in
  (∃ t row, a = Ok (Road true true) ∧ target = Some t ∧ page_register (registers w) !! t = Some row ∧
     registers w' = update_page t act (registers w) ∧ lane w' = lane w) ∨
  (answered = true ∧ filters = None ∧ registers w' = registers w ∧
     lane w' = run_route (lane w) (CallOnDatachange dnow (lane_population w) target m) ∧
     a = match (on_datachange dnow (lane_population w) target m (lane w)).1 with
         | Ok filed => Ok (Road false filed)
         | Raise _ => Raise CommanderCallFailed
         end) ∨
  (∃ e, a = Raise e ∧ registers w' = registers w ∧ lane w' = lane w).
Proof.
  unfold _route_datachange. destruct filters; [right; right; by eexists|].
  case_decide; [right; right; by eexists|].
  set (desk_road := call_desk answered _ ≫= _).
  assert (let '(a, w') := desk_road w in
    (answered = true ∧ None = (None : option string) ∧ registers w' = registers w ∧
      lane w' = run_route (lane w) (CallOnDatachange dnow (lane_population w) target m) ∧
      a = match (on_datachange dnow (lane_population w) target m (lane w)).1 with
          | Ok filed => Ok (Road false filed)
          | Raise _ => Raise CommanderCallFailed
          end) ∨ (∃ e, a = Raise e ∧ registers w' = registers w ∧ lane w' = lane w)) as HD.
  { unfold desk_road, call_desk. rewrite pym_bind_unfold. destruct answered; cbv beta iota; [|right; by eexists].
    cbn [run_route]. destruct (on_datachange _ _ _ _ _) as [[f|e] d]; by left. }
  clearbody desk_road.
  destruct (if decide (kind = SIGNAL_KIND) then _ else None) as [[t row]|] eqn:Ht.
  2: { destruct (desk_road w) as [a w']. right. exact HD. }
  case_decide; [|done]. destruct target as [t0|]; [|done]. simpl in Ht.
  destruct (page_register (registers w) !! t0) as [row0|] eqn:Hrow; [|done]. simpl in Ht. simplify_eq.
  destruct (page_user t (registers w)) as [owner|e]; [|right; right; by eexists].
  destruct (decide (Some owner = ident)); [left; by exists t, row|]. destruct (desk_road w) as [a w']. right. exact HD.
Qed.

(** *** Act by act *)

Record accounts (p : string) (pr : process) (a : act) : Prop := Accounts {
  ac_good : process_good (run_act pr a);
  ac_part : handed p pr a ++ waiting p (run_act pr a) ⊆+ waiting p pr ++ filed p pr a;
  ac_exact : lossless p pr a → handed p pr a ++ waiting p (run_act pr a) ≡ₚ waiting p pr ++ filed p pr a
}.

Lemma accounts_exact p pr a :
  process_good (run_act pr a) →
  handed p pr a ++ waiting p (run_act pr a) ≡ₚ waiting p pr ++ filed p pr a → accounts p pr a.
Proof. intros Hg E. split; [done | by rewrite E | done]. Qed.

Lemma good_moves pr pr' :
  calm (registers (pr_worker pr)) (registers (pr_worker pr')) →
  desk_safe (lane (pr_worker pr')) → process_good pr → process_good pr'.
Proof. intros Hc Hd [Hr _]. split; [by eapply calm_typed | done]. Qed.

(** A request's verb that moves neither the registers nor the desk. *)
Lemma waiting_still p pr pr' :
  registers (pr_worker pr') = registers (pr_worker pr) → lane (pr_worker pr') = lane (pr_worker pr) →
  flying p (pr_flights pr') ≡ₚ flying p (pr_flights pr) → waiting p pr' ≡ₚ waiting p pr.
Proof. unfold waiting. by intros -> -> ->. Qed.

Lemma ask_frame q w : (collect_ask q w).2 = w.
Proof.
  unfold collect_ask. rewrite pym_bind_unfold. unfold py_reads, py_lift, py_raise.
  destruct (page_register (registers w) !! q); [|done]. by destruct (page_user q (registers w)).
Qed.

Lemma ask_accounts p pr i q : process_good pr → accounts p pr (Ask i q).
Proof.
  intros Hg. cbn. unfold on_request. pose proof (ask_frame q (with_slot (slot_of i pr) (pr_worker pr))) as E.
  assert (registers (pr_worker (run_act pr (Ask i q))) = registers (pr_worker pr) ∧
    lane (pr_worker (run_act pr (Ask i q))) = lane (pr_worker pr) ∧
    flying p (pr_flights (run_act pr (Ask i q))) ≡ₚ flying p (pr_flights pr)) as (E1 & E2 & E3).
  { cbn [run_act]. unfold on_request. destruct (pr_flights pr !! i) eqn:Hi; [done|].
    destruct (collect_ask q _) as [[u|e] w']; cbn in E; subst w'; cbn; [|done]. split_and!; [done..|].
    change (flying p (<[i := Asked q u]> (pr_flights pr)) ≡ₚ flying p (pr_flights pr)).
    rewrite flying_put. cbn. by rewrite delete_id. }
  apply accounts_exact.
  - apply (good_moves pr); [by rewrite E1 | by rewrite E2; apply Hg | done].
  - cbn [handed filed app]. rewrite app_nil_r. by apply waiting_still.
Qed.

Lemma call_accounts p pr i answered dclock : process_good pr → accounts p pr (Call i answered dclock).
Proof.
  intros Hg. destruct (pr_flights pr !! i) as [[q u|q u reply]|] eqn:Hi.
  2,3: apply accounts_exact; cbn [run_act handed filed]; rewrite Hi; [done|];
    by destruct answered; rewrite app_nil_r.
  pose proof (call_spec answered dclock q u (with_slot (slot_of i pr) (pr_worker pr))) as HC.
  pose proof (flying_take p i _ _ Hi) as EF. cbn [flight_waits app] in EF.
  destruct (collect_call answered dclock q u _) as [a w'] eqn:Ea. destruct HC as [E1 HC].
  cbn [slot with_slot lane registers] in *. destruct answered.
  - pose proof (desk_exact p (lane (pr_worker pr))
      (CallExchange dclock q u (sl_dbevents (slot_of i pr))) (proj2 Hg) I I) as ED.
    assert (lane w' = run_route (lane (pr_worker pr)) (CallExchange dclock q u (sl_dbevents (slot_of i pr)))) as El.
    { cbn [run_route]. destruct (exchange _ _ _ _ _). by destruct HC as [_ ->]. }
    assert (∃ reply, a = Ok reply ∧ flight_waits p (Answered q u reply) =
      desk_hands p (lane (pr_worker pr)) (CallExchange dclock q u (sl_dbevents (slot_of i pr)))) as (reply & -> & Ef).
    { unfold desk_hands. cbn [mb_handed change_box event_box flight_waits].
      destruct (exchange _ _ _ _ _) as [reply d]. destruct HC as [-> _]. exists reply. split; [done|].
      by case_decide. }
    assert (run_act pr (Call i true dclock) = with_flight i (Some (Answered q u reply))
      (Process w' (<[i := slot w']> (pr_slots pr)) (pr_flights pr))) as ER.
    { cbn [run_act]. rewrite Hi. unfold on_request. by rewrite Ea. }
    apply accounts_exact; rewrite ER.
    + apply (good_moves pr); [by cbn; rewrite E1|cbn; rewrite El; by apply run_route_safe, Hg|done].
    + cbn [handed filed app]. rewrite Hi. unfold waiting. cbn [pr_flights pr_worker with_flight].
      change (partial_alter (λ _, Some (Answered q u reply)) i (pr_flights pr)) with
        (<[i := Answered q u reply]> (pr_flights pr)).
      rewrite flying_put, Ef, E1, El, EF, <- !app_assoc, <- ED. solve_Permutation.
  - destruct HC as [-> El].
    assert (run_act pr (Call i false dclock) = with_flight i None
      (Process w' (<[i := slot w']> (pr_slots pr)) (pr_flights pr))) as ER.
    { cbn [run_act]. rewrite Hi. unfold on_request. by rewrite Ea. }
    apply accounts_exact; rewrite ER.
    + apply (good_moves pr); [by cbn; rewrite E1|cbn; rewrite El; by apply Hg|done].
    + cbn [handed filed app]. rewrite app_nil_r. by apply waiting_still.
Qed.

Lemma map_inl_perm (l k : list change) : l ≡ₚ k → map inl l ≡ₚ (map inl k : list entry).
Proof. intros E. by apply Permutation_map. Qed.

Lemma landing_adds_up {A} (l pend' dq pend hears es own fly d : list A) :
  l ++ pend' ≡ₚ dq ++ pend ++ hears →
  l ++ es ++ own ++ fly ++ pend' ++ d ≡ₚ dq ++ es ++ fly ++ pend ++ d ++ hears ++ own.
Proof.
  intros E. etrans; [|etrans; [apply (Permutation_app_tail (es ++ own ++ fly ++ d) E)|]]; solve_Permutation.
Qed.

(** A landing: what it answers, what it leaves, and the ledger of the drain. *)
Lemma land_facts p pr i clock q u reply :
  process_good pr → pr_flights pr !! i = Some (Answered q u reply) →
  ∃ b left, process_good (run_act pr (Land i clock)) ∧
    landed i clock pr =
      Some (q, (λ l, Delivery l (ex_dbevents reply ++ sl_own_dbevents (slot_of i pr))) <$> b) ∧
    waiting p (run_act pr (Land i clock)) =
      flying p (delete i (pr_flights pr)) ++ map inl left ++ desk_waits p (lane (pr_worker pr)) ∧
    let hears := heard_reply p clock q u reply (registers (pr_worker pr)) in
    match b with
    | Ok l =>
        if decide (q = p)
        then unnumbered l ++ left ≡ₚ unnumbered (from_tytx_list (ex_datachanges reply)) ++
               pending p (registers (pr_worker pr)) ++ hears
        else left ≡ₚ pending p (registers (pr_worker pr)) ++ hears
    | Raise _ => left ≡ₚ pending p (registers (pr_worker pr)) ++ hears
    end.
Proof.
  intros Hg Hi. set (w := with_slot (slot_of i pr) (pr_worker pr)).
  pose proof (land_spec clock q u reply w) as HL.
  pose proof (collect_reply_waits p clock q u reply (registers w) (proj1 Hg)) as HR.
  pose proof (collect_reply_calm (registers w) clock q u reply (registers w) ltac:(done)) as HC.
  destruct (collect_land clock q u reply w) as [a w'] eqn:Ea.
  destruct (collect_reply clock q u reply (registers w)) as [b r']. destruct HL as (E1 & E2 & ->).
  cbn [snd] in HC. subst r'. exists b, (pending p (registers w')).
  assert (run_act pr (Land i clock) = with_flight i None
    (Process w' (<[i := slot w']> (pr_slots pr)) (pr_flights pr))) as ER.
  { cbn [run_act]. rewrite Hi. unfold on_request. by fold w; rewrite Ea. }
  rewrite ER. split_and!.
  - apply (good_moves pr); [exact HC | cbn; rewrite E2; by apply Hg | done].
  - unfold landed, on_request. rewrite Hi. by fold w; rewrite Ea.
  - unfold waiting. cbn. by rewrite E2.
  - destruct b; by case_decide.
Qed.

Lemma land_accounts p pr i clock : process_good pr → accounts p pr (Land i clock).
Proof.
  intros Hg. destruct (pr_flights pr !! i) as [[q u|q u reply]|] eqn:Hi.
  1,3: apply accounts_exact; cbn [run_act handed filed]; unfold landed; rewrite Hi; [done|];
    by rewrite app_nil_r.
  pose proof (flying_take p i _ _ Hi) as EF. cbn [flight_waits] in EF.
  destruct (land_facts p pr i clock q u reply Hg Hi) as (b & left & Hg' & EL & EW & HR). cbn zeta in HR.
  set (hears := heard_reply p clock q u reply (registers (pr_worker pr))) in *.
  assert ((∀ e, b = Raise e → q ≠ p) → handed p pr (Land i clock) ++ waiting p (run_act pr (Land i clock)) ≡ₚ
    waiting p pr ++ filed p pr (Land i clock)) as EX.
  { intros Hb. rewrite EW. cbn [handed filed]. rewrite EL, Hi. fold hears. unfold waiting. rewrite EF.
    destruct b as [l|e]; cbn [fmap res_fmap]; case_decide as Hq;
      apply map_inl_perm in HR; rewrite ?map_app in HR.
    - unfold delivered, entries in *. cbn [dl_datachanges dl_dbevents unnumbered map app].
      rewrite map_app, <- !app_assoc. by apply landing_adds_up.
    - rewrite HR. solve_Permutation.
    - by destruct (Hb e eq_refl).
    - rewrite HR. solve_Permutation. }
  split; [done| |].
  - destruct b as [l|e]; [by rewrite EX|]. destruct (decide (q = p)) as [->|Hq]; [|by rewrite EX].
    rewrite EW. cbn [handed filed]. rewrite EL, Hi. fold hears. unfold waiting. rewrite EF, decide_True by done.
    cbn [fmap res_fmap app]. rewrite (map_inl_perm _ _ HR), map_app, app_nil_r, <- !app_assoc.
    apply submseteq_inserts_l, Permutation_submseteq. solve_Permutation.
  - intros HLoss. apply EX. intros e ->. apply (HLoss q e). by rewrite EL.
Qed.

Lemma commits_accounts p pr i c : process_good pr → accounts p pr (Commits i c).
Proof.
  intros Hg. apply accounts_exact; cbn [run_act handed filed app].
  - by apply (good_moves pr); [| apply Hg |].
  - rewrite app_nil_r. by apply waiting_still.
Qed.

Lemma served_moves answered clock w :
  let w' := on_request_served answered clock w in
  registers w' = registers w ∧
  lane w' = if answered then run_route (lane w) (CallDeposit clock (sl_dbevents (slot w))) else lane w.
Proof.
  unfold on_request_served, deliver_slot_deposits. cbn [run_route]. unfold deposit_route.
  destruct (sl_dbevents (slot w)) as [|e es]; [by destruct answered|].
  destruct answered; [by rewrite call_desk_answered | done].
Qed.

Lemma served_accounts p pr i answered clock : process_good pr → accounts p pr (Served i answered clock).
Proof.
  intros Hg. destruct (served_moves answered clock (with_slot (slot_of i pr) (pr_worker pr))) as [E1 E2].
  cbn [slot lane registers with_slot] in E1, E2.
  apply accounts_exact; [apply (good_moves pr)|]; cbn [run_act on_request snd pr_worker]; try done.
  - by rewrite E1.
  - rewrite E2. destruct answered; [by apply run_route_safe, Hg | by apply Hg].
  - cbn [handed app]. destruct answered; cbn [filed].
    2: { rewrite app_nil_r. by apply waiting_still. }
    unfold waiting. cbn [pr_flights pr_worker]. rewrite E1, E2.
    rewrite <- !app_assoc, <- (desk_exact p _ (CallDeposit clock _) (proj2 Hg) I I). done.
Qed.

Lemma bag_accounts p pr now l f : process_good pr → accounts p pr (BagWrite now l f).
Proof.
  intros Hg. apply accounts_exact; cbn [run_act handed filed app].
  - apply (good_moves pr); [apply calm_on_bag | apply Hg | done].
  - unfold waiting. cbn [pr_flights pr_worker registers with_registers lane].
    rewrite (map_inl_perm _ _ (on_bag_waits p now l f _ (rg_heap _ (proj1 Hg)))), map_app. solve_Permutation.
Qed.

(** A verb that only moves rows and views. *)
Lemma views_accounts p pr a :
  registry_typed (registers (pr_worker (run_act pr a))) →
  pending p (registers (pr_worker (run_act pr a))) = pending p (registers (pr_worker pr)) →
  lane (pr_worker (run_act pr a)) = lane (pr_worker pr) → pr_flights (run_act pr a) = pr_flights pr →
  handed p pr a = [] → filed p pr a = [] → process_good pr → accounts p pr a.
Proof.
  intros Hr EP El Efl Eh Ef [_ Hd]. apply accounts_exact; [split; [done | by rewrite El]|].
  rewrite Eh, Ef, app_nil_r. unfold waiting. by rewrite EP, El, Efl.
Qed.

Lemma on_registers_moves {A} (m : PyM registry A) w :
  registers (on_registers m w).2 = (m (registers w)).2 ∧ lane (on_registers m w).2 = lane w.
Proof. unfold on_registers. by destruct (m (registers w)). Qed.

Lemma on_request_moves {A} i (m : PyM worker A) pr :
  let w := with_slot (slot_of i pr) (pr_worker pr) in
  pr_worker (on_request i m pr).2 = (m w).2 ∧ pr_flights (on_request i m pr).2 = pr_flights pr.
Proof. unfold on_request. by destruct (m _). Qed.

Lemma window_accounts p pr i q storename path active :
  process_good pr → accounts p pr (Window i q storename path active).
Proof.
  intros Hg. destruct (on_request_moves i (setStoreSubscription q storename path active) pr) as [Ew Efl].
  destruct (window_typed q storename path active (with_slot (slot_of i pr) (pr_worker pr)) (proj1 Hg))
    as (Hr & El & _).
  apply views_accounts; try done; cbn [run_act]; rewrite Ew; [done| |done].
  exact (pending_window p q storename path active (with_slot (slot_of i pr) (pr_worker pr)) (proj1 Hg)).
Qed.

Lemma subscribe_spec answered table q b w :
  let w' := (subscribeTable answered table q b w).2 in
  registers w' = update_page q (λ page, set_table_subscriptions
    (if b then {[table]} ∪ page_table_subscriptions page else page_table_subscriptions page ∖ {[table]}) page)
    (registers w) ∧
  lane w' = if answered && bool_decide (is_Some (page_register (registers w) !! q))
            then run_route (lane w) (CallSubscribe q table b) else lane w.
Proof.
  unfold subscribeTable. rewrite pym_bind_unfold.
  destruct (page_register (registers w) !! q) as [page|] eqn:Hq; simpl.
  - rewrite pym_bind_unfold. unfold call_desk, route_total. unfold update_page.
    rewrite (alter_alt_Some _ _ _ _ Hq). destruct answered; [|done]. cbn [lane with_registers].
    cbn [andb run_route].
    by destruct (Desk.subscribe_table q table b (lane w)) as [[reply m] d].
  - rewrite andb_false_r. split; [|done].
    unfold update_page, with_pages. destruct w as [[u c pg st vw] fl sl ln pop dk ev]. simpl in *. f_equal.
    apply map_eq. intros k. destruct (decide (q = k)) as [->|]; [|by rewrite lookup_alter_ne].
    by rewrite lookup_alter_eq, Hq.
Qed.

Lemma subscribe_accounts p pr i answered table q b :
  process_good pr → accounts p pr (Subscribes i answered table q b).
Proof.
  intros Hg. destruct (on_request_moves i (subscribeTable answered table q b) pr) as [Ew Efl].
  destruct (subscribe_spec answered table q b (with_slot (slot_of i pr) (pr_worker pr))) as [Er El].
  cbn [registers lane with_slot] in Er, El.
  assert (desk_safe (lane (pr_worker (run_act pr (Subscribes i answered table q b)))) ∧
    desk_waits p (lane (pr_worker (run_act pr (Subscribes i answered table q b)))) ≡ₚ
      desk_waits p (lane (pr_worker pr))) as [Hd Hw].
  { cbn [run_act]. rewrite Ew, El. destruct (answered && _); [|by split; [apply Hg|]].
    split; [by apply run_route_safe, Hg|].
    pose proof (desk_exact p _ (CallSubscribe q table b) (proj2 Hg) I I) as E.
    unfold desk_hands, desk_files in E. cbn in E. by rewrite app_nil_r in E. }
  apply accounts_exact; [apply (good_moves pr)|]; try done; cbn [run_act handed filed app] in *;
    rewrite ?Ew, ?Efl, ?Er in *.
  - apply calm_alter. intros page. split; [apply like_tables | done].
  - rewrite app_nil_r. unfold waiting. rewrite Ew, Efl, Hw, Er, pending_alter; [done|].
    intros page. by split.
Qed.

Lemma login_accounts p pr i cid user fields :
  process_good pr → sound p pr (Login i cid user fields) → accounts p pr (Login i cid user fields).
Proof.
  intros Hg Hs. destruct (login_waits cid user fields _ Hs) as [Hr HP].
  destruct (on_request_moves i (on_registers (change_connection_user cid user fields)) pr) as [Ew Efl].
  destruct (on_registers_moves (change_connection_user cid user fields)
    (with_slot (slot_of i pr) (pr_worker pr))) as [Er El].
  apply views_accounts; try done; cbn [run_act]; rewrite Ew; [by rewrite Er | by rewrite Er, HP | by rewrite El].
Qed.

Lemma replay_accounts p pr q fields : process_good pr → accounts p pr (Replay q fields).
Proof.
  intros Hg. destruct (on_registers_moves (replay_fields q fields) (pr_worker pr)) as [Er El].
  destruct (pending_replay p (registers (pr_worker pr)) q fields (registers (pr_worker pr))) as [Hr HP].
  { by split; [apply Hg|]. }
  apply views_accounts; try done; cbn [run_act pr_worker]; by rewrite ?Er.
Qed.

Lemma carried_accounts p pr user store resident :
  process_good pr → sound p pr (Carried user store resident) → accounts p pr (Carried user store resident).
Proof.
  intros Hg Hs. destruct (carried_waits user store resident _ Hs) as [Hr HP].
  destruct (on_registers_moves (_install_carried_store user store resident) (pr_worker pr)) as [Er El].
  apply views_accounts; try done; cbn [run_act pr_worker]; by rewrite ?Er.
Qed.

Lemma core_accounts p pr f : process_good pr → sound p pr (CoreMoves f) → accounts p pr (CoreMoves f).
Proof.
  intros [_ Hd] [Hr HP]. split; cbn [run_act handed filed app lossless]; rewrite ?app_nil_r.
  - by split.
  - apply submseteq_skips_l, submseteq_app; [|done]. by apply (fmap_submseteq (inl : change → entry)).
  - intros E. unfold waiting. cbn [pr_worker pr_flights registers lane with_registers]. by rewrite E.
Qed.

Lemma route_accounts p pr c : process_good pr → sound p pr (Route c) → accounts p pr (Route c).
Proof.
  intros Hg Hc. assert (desk_hands p (lane (pr_worker pr)) c = []) as Eh.
  { unfold desk_hands. destruct c; try done. cbn. cbn in Hc. by rewrite !decide_False. }
  split; cbn [run_act handed filed app].
  - apply (good_moves pr); [done | by apply run_route_safe, Hg | done].
  - pose proof (desk_part p _ c (proj2 Hg)) as HP. rewrite Eh in HP. unfold waiting. cbn [pr_flights pr_worker].
    rewrite <- !app_assoc. by apply submseteq_skips_l, submseteq_skips_l.
  - intros [H1' H2']. pose proof (desk_exact p _ c (proj2 Hg) H1' H2') as HE. rewrite Eh in HE.
    unfold waiting. cbn [pr_flights pr_worker]. cbn [app] in HE. rewrite <- !app_assoc, <- HE. done.
Qed.

(** *** The addressed writes *)

(** The message is one the desk takes without raising. *)
Definition taken (m : message) : Prop :=
  ∀ now pop target d, ∃ b, (on_datachange now pop target m d).1 = Ok b.

(** A move of a row's queue that leaves what it watches alone, and adds [added]. *)
Record queue_move (f : page_row → page_row) (added : list change) : Prop := QueueMove {
  qm_calm : ∀ page, row_like page (f page) ∧ same_view page (f page);
  qm_part : ∀ page, unnumbered (page_datachanges (f page)) ⊆+
    unnumbered (page_datachanges page) ++ unnumbered added
}.

Lemma row_move_waits p t f added row r :
  queue_move f added → page_register r !! t = Some row →
  let files := if decide (Some t = Some p) then unnumbered added else [] in
  pending p (update_page t f r) ⊆+ pending p r ++ files ∧
  ((t = p → unnumbered (page_datachanges (f row)) = unnumbered (page_datachanges row) ++ unnumbered added) →
   pending p (update_page t f r) ≡ₚ pending p r ++ files).
Proof.
  intros [HC HP] Hrow. cbv zeta. rewrite (update_waits p t f row r) by (done || intros page; apply HC).
  destruct (decide (t = p)) as [->|Ht].
  2: { rewrite (decide_False (P := Some t = Some p)) by congruence. by rewrite app_nil_r. }
  rewrite (decide_True (P := Some p = Some p)) by done. unfold pending, row_waits. rewrite Hrow, !unnumbered_app. split.
  - etrans; [by apply submseteq_app; [apply HP|]|]. apply Permutation_submseteq. solve_Permutation.
  - intros ->; [|done]. solve_Permutation.
Qed.

Lemma entries_row (P : Prop) `{!Decision P} added :
  (if decide P then entries added [] else []) = map inl (if decide P then unnumbered added else []).
Proof. case_decide; [apply app_nil_r | done]. Qed.

Lemma addressed_waits p answered dnow ident kind target filters m f added w :
  queue_move f added → (filters = None → taken m) → registry_typed (registers w) → desk_safe (lane w) →
  let '(a, w') := _route_datachange answered dnow ident kind target filters m f w in
  let files := addressed_files p w a dnow target m added in
  let before := map inl (pending p (registers w)) ++ desk_waits p (lane w) in
  let after := map inl (pending p (registers w')) ++ desk_waits p (lane w') in
  calm (registers w) (registers w') ∧ desk_safe (lane w') ∧ after ⊆+ before ++ files ∧
  ((target = Some p → message_keeps m = true ∧ ∀ page,
      unnumbered (page_datachanges (f page)) = unnumbered (page_datachanges page) ++ unnumbered added) →
   after ≡ₚ before ++ files).
Proof.
  intros Hf Hm Hr Hd. pose proof (route_spec answered dnow ident kind target filters m f w) as HS.
  destruct (_route_datachange _ _ _ _ _ _ _ _ w) as [a w'].
  destruct HS as [(t & row & -> & -> & Hrow & -> & ->)|[(-> & Hfi & -> & -> & Ha)|(e & -> & -> & ->)]];
    cbn zeta.
  - destruct (row_move_waits p t f added row _ Hf Hrow) as [HP HE].
    cbn [addressed_files]. rewrite entries_row. split_and!; [by apply calm_alter, Hf|done|..].
    + apply (fmap_submseteq (inl : change → entry)) in HP. etrans; [by apply submseteq_app; [exact HP|]|].
      rewrite fmap_app. apply Permutation_submseteq. unfold fmap, list_fmap. solve_Permutation.
    + intros Hl. apply map_inl_perm in HE; [|intros ->; by apply Hl].
      rewrite HE, map_app. solve_Permutation.
  - destruct (Hm Hfi dnow (lane_population w) target (lane w)) as [b Hb]. rewrite Hb in Ha. subst a.
    set (c := CallOnDatachange dnow (lane_population w) target m).
    assert (desk_hands p (lane w) c = []) as Eh by done.
    pose proof (desk_part p _ c Hd) as HP. pose proof (desk_exact p _ c Hd) as HE. rewrite Eh in HP, HE.
    split_and!; [done|by apply run_route_safe|..]; cbn [addressed_files]; fold c; rewrite <- !app_assoc.
    + by apply submseteq_skips_l.
    + intros Hl. rewrite <- HE; [done| |done]. simpl. unfold addresses. destruct target as [t|]; [|done].
      intros Ha. bools. subst t. by apply Hl.
  - split_and!; try done; by rewrite app_nil_r.
Qed.

(** The three verbs: what each does to the row's queue, and that the desk takes it. *)

Lemma write_move now rep c : queue_move (append_page_datachange now rep c) [set_arrival_ts now c].
Proof.
  split; [intros page; apply append_row|]. intros page. simpl. rewrite unnumbered_app.
  apply submseteq_app; [|done]. destruct rep; [|done].
  apply (fmap_submseteq (set_change_idx 0)), sublist_submseteq, without_key_sublist.
Qed.

Lemma reset_move : queue_move (set_queue [] 0) [].
Proof. split; [apply empty_row|]. intros page. apply submseteq_nil_l. Qed.

Lemma prune_move path : queue_move (prune path) [].
Proof.
  split; [apply prune_row|]. intros page. rewrite app_nil_r.
  apply (fmap_submseteq (set_change_idx 0)), sublist_submseteq, without_prefix_sublist.
Qed.

Lemma taken_write kind rep c : taken (write_message kind None rep c).
Proof.
  intros now pop [t|] d; [|by exists false]. unfold on_datachange.
  destruct (negb _); [by exists false|]. by exists true.
Qed.

Lemma taken_reset : taken (reset_message SIGNAL_KIND).
Proof.
  intros now pop [t|] d; [|by exists false]. unfold on_datachange.
  destruct (negb _); [by exists false|]. by exists true.
Qed.

Lemma taken_drop path : taken (drop_message SIGNAL_KIND path).
Proof.
  intros now pop [t|] d; [|by exists false]. unfold on_datachange.
  destruct (negb _); [by exists false|]. by exists true.
Qed.

(** A verb that is the road and an answer made of it. *)
Lemma addressed_accounts p pr a i answered dnow ident kind target filters m f added
    (verb : PyM worker write_answer) :
  process_good pr → queue_move f added → (filters = None → taken m) →
  verb = (_route_datachange answered dnow ident kind target filters m f ≫= λ road,
          mret (WriteAnswer target filters road)) →
  run_act pr a = (on_request i verb pr).2 → handed p pr a = [] →
  filed p pr a =
    addressed_files p (pr_worker pr) (wa_road <$> (on_request i verb pr).1) dnow target m added →
  (lossless p pr a → target = Some p → message_keeps m = true ∧ ∀ page,
     unnumbered (page_datachanges (f page)) = unnumbered (page_datachanges page) ++ unnumbered added) →
  accounts p pr a.
Proof.
  intros Hg Hf Hm -> Hrun Hh Hfi Hl. set (w := with_slot (slot_of i pr) (pr_worker pr)).
  pose proof (addressed_waits p answered dnow ident kind target filters m f added w Hf Hm
    (proj1 Hg) (proj2 Hg)) as HW.
  unfold on_request in Hrun, Hfi. fold w in Hrun, Hfi. rewrite pym_bind_unfold in Hrun, Hfi.
  destruct (_route_datachange _ _ _ _ _ _ _ _ w) as [b w'] eqn:Er. destruct HW as (HC & HD & HP & HE).
  change (addressed_files p w) with (addressed_files p (pr_worker pr)) in *.
  assert (filed p pr a = addressed_files p (pr_worker pr) b dnow target m added) as Ef.
  { rewrite Hfi. by destruct b. }
  assert (pr_worker (run_act pr a) = w' ∧ pr_flights (run_act pr a) = pr_flights pr) as [Ew Efl].
  { rewrite Hrun. by destruct b. }
  split; [by apply (good_moves pr); rewrite ?Ew|..]; rewrite Hh, Ef; unfold waiting; rewrite Ew, Efl;
    cbn [app]; rewrite <- (app_assoc (flying _ _)).
  - by apply submseteq_skips_l.
  - intros Hlo. by rewrite HE by (by apply Hl).
Qed.

Lemma addressed_nothing p w a dnow target m :
  m_change m = None → addressed_files p w a dnow target m [] = [].
Proof.
  intros Hm. unfold addressed_files, desk_files. destruct a as [[[] b]|e]; [by case_decide| |done].
  unfold change_box, event_box. cbn [mb_filed]. unfold message_files. rewrite Hm.
  by destruct (addresses _ _ _ _ _), (m_filters m).
Qed.

Lemma act_accounts p pr a : process_good pr → sound p pr a → accounts p pr a.
Proof.
  intros Hg Ha. destruct a.
  - by apply ask_accounts.
  - by apply call_accounts.
  - by apply land_accounts.
  - by apply commits_accounts.
  - by apply served_accounts.
  - eapply addressed_accounts; [done|apply write_move| |done..|].
    + intros ->. apply taken_write.
    + intros Hl Ht. cbn in Hl. rewrite (Hl Ht). split; [done|]. intros page. simpl. by rewrite unnumbered_app.
  - eapply addressed_accounts; [done|apply reset_move| |done..| |].
    + intros ->. apply taken_reset.
    + by rewrite addressed_nothing.
    + intros Hl Ht. by destruct Hl.
  - eapply addressed_accounts; [done|apply (prune_move path)| |done..| |].
    + intros ->. apply taken_drop.
    + by rewrite addressed_nothing.
    + intros Hl Ht. by destruct Hl.
  - by apply bag_accounts.
  - by apply subscribe_accounts.
  - by apply views_accounts; try done; apply Hg.
  - by apply window_accounts.
  - by apply login_accounts.
  - by apply replay_accounts.
  - by apply carried_accounts.
  - by apply core_accounts.
  - by apply route_accounts.
Qed.

#[export] Instance page_box_lawful p : Lawful any_order (page_box p) (sound p).
Proof.
  split; intros pr a Hg Ha; destruct (act_accounts p pr a Hg Ha) as [H1' H2' H3'];
    [exact H1' | exact H2' | exact H3'].
Qed.

(** C3: the requests of a process may interleave their collects in any way - two
    collects of one page under way at once, writes on every Bag, commits, addressed
    writes and other processes' calls at the desk between any two phases - and
    everything that comes to wait for a page, in its row, its view, its queues at the
    desk or a reply in flight, is handed to one collect of that page at most, and to
    exactly one or still waiting when nothing addressed to it replaced, reset or
    dropped and no landing of its own raised. *)
Theorem collects_deliver_once p acts pr :
  process_good pr → all_along (page_box p) (sound p) pr acts →
  let pr' := foldl run_act pr acts in
  let came := over (page_box p) (handed p) pr acts ++ waiting p pr' in
  let went := waiting p pr ++ over (page_box p) (filed p) pr acts in
  came ⊆+ went ∧ (all_lossless (page_box p) pr acts → came ≡ₚ went).
Proof.
  intros Hg Ha pr' came went. split; [|intros Hl].
  - by apply (run_part any_order (page_box p) (sound p)).
  - by apply (run_exact any_order (page_box p) (sound p)).
Qed.

(** *** A login while a collect of the same browser is at the desk *)

(** The exchange leaves nothing of the page at the desk. *)
Lemma settled_desk dclock p u evs d : desk_waits p (exchange dclock p u evs d).2 = [].
Proof.
  pose proof (exchange_after dclock p u evs d) as (_ & X1 & _ & X2 & _).
  destruct (exchange _ _ _ _ _) as [reply d']. cbn [snd] in *.
  unfold desk_waits. cbn. by rewrite X1, queue_of_delete_eq, (queue_of_none _ _ X2).
Qed.

Lemma ask_ok p u row w :
  page_register (registers w) !! p = Some row → page_user p (registers w) = Ok u →
  collect_ask p w = (Ok u, w).
Proof.
  intros Hp Hu. unfold collect_ask. rewrite pym_bind_unfold. unfold py_reads, py_lift. by rewrite Hp, Hu.
Qed.

(** The state a request leaves between its call and its landing. *)
Lemma gone_up p u row i dclock pr :
  pr_flights pr !! i = None → page_register (registers (pr_worker pr)) !! p = Some row →
  page_user p (registers (pr_worker pr)) = Ok u →
  let '(reply, d) := exchange dclock p u (sl_dbevents (slot_of i pr)) (lane (pr_worker pr)) in
  let pr' := foldl run_act pr [Ask i p; Call i true dclock] in
  registers (pr_worker pr') = registers (pr_worker pr) ∧ lane (pr_worker pr') = d ∧
  pr_flights pr' = <[i := Answered p u reply]> (pr_flights pr).
Proof.
  intros Hi Hp Hu. set (w := with_slot (slot_of i pr) (pr_worker pr)).
  assert (run_act pr (Ask i p) = Process w (<[i := slot w]> (pr_slots pr)) (<[i := Asked p u]> (pr_flights pr))) as E1.
  { cbn [run_act]. rewrite Hi. unfold on_request. fold w. by rewrite (ask_ok p u row w). }
  cbn [foldl]. rewrite E1. cbn [run_act pr_flights]. rewrite lookup_insert_eq. unfold on_request.
  cbn [pr_worker pr_slots]. assert (slot_of i (Process w (<[i := slot w]> (pr_slots pr))
    (<[i := Asked p u]> (pr_flights pr))) = slot w) as -> by (unfold slot_of; cbn; by rewrite lookup_insert_eq).
  pose proof (call_spec true dclock p u (with_slot (slot w) w)) as HC.
  destruct (collect_call true dclock p u (with_slot (slot w) w)) as [a w']. destruct HC as [Er HC].
  cbn in HC. cbn [exchange fst snd]. destruct HC as [-> El].
  unfold with_flight. cbn [pr_worker pr_flights]. split_and!; [exact Er | exact El |].
  exact (insert_insert_eq (pr_flights pr) i _ _).
Qed.

(** C33: the landing asks for the user the page had when the collect was asked. When a
    login of the same browser - served by another request while the collect is at the
    desk - retires that user's row, the landing raises [TypeError], an exception the
    verb does not announce, with the page still there under its new owner; what the
    exchange had brought back is gone from the desk and handed to nobody, while the
    row's queue and the view keep all they held. *)
Theorem login_strands_a_collect pr i j p u row cid user fields dclock clock :
  process_good pr → pr_flights pr !! i = None →
  page_register (registers (pr_worker pr)) !! p = Some row →
  page_user p (registers (pr_worker pr)) = Ok u →
  core_login_sound cid user fields (registers (pr_worker pr)) →
  let r1 := (change_connection_user cid user fields (registers (pr_worker pr))).2 in
  is_Some (page_register r1 !! p) → user_register r1 !! u = None →
  let pr1 := foldl run_act pr [Ask i p; Call i true dclock; Login j cid user fields] in
  let pr2 := run_act pr1 (Land i clock) in
  landed i clock pr1 = Some (p, Raise TypeError) ∧ registers (pr_worker pr2) = r1 ∧
  pr_flights pr2 = pr_flights pr ∧ desk_waits p (lane (pr_worker pr2)) = [] ∧
  waiting p pr2 ≡ₚ flying p (pr_flights pr) ++ map inl (pending p (registers (pr_worker pr))).
Proof.
  intros Hg Hi Hp Hu Hs r1 [row1 Hp1] Hu1 pr1 pr2.
  pose proof (gone_up p u row i dclock pr Hi Hp Hu) as HG.
  pose proof (settled_desk dclock p u (sl_dbevents (slot_of i pr)) (lane (pr_worker pr))) as Ed.
  destruct (exchange _ _ _ _ _) as [reply d]. cbn [snd] in Ed.
  set (pr0 := foldl run_act pr [Ask i p; Call i true dclock]) in *. destruct HG as (G1 & G2 & G3).
  assert (pr1 = run_act pr0 (Login j cid user fields)) as Epr1 by done. clearbody pr1.
  destruct (on_request_moves j (on_registers (change_connection_user cid user fields)) pr0) as [Ew Efl].
  destruct (on_registers_moves (change_connection_user cid user fields)
    (with_slot (slot_of j pr0) (pr_worker pr0))) as [Er El].
  assert (registers (pr_worker pr1) = r1 ∧ lane (pr_worker pr1) = d ∧
    pr_flights pr1 = <[i := Answered p u reply]> (pr_flights pr)) as (R1 & L1 & F1).
  { subst pr1. cbn [run_act]. rewrite Ew, Er, El, Efl, G3. cbn [registers lane with_slot]. by rewrite G1, G2. }
  assert (collect_land clock p u reply (with_slot (slot_of i pr1) (pr_worker pr1)) =
    (Raise TypeError, with_slot (slot_of i pr1) (pr_worker pr1))) as Eland.
  { unfold collect_land. rewrite pym_bind_unfold. unfold on_registers, collect_reply.
    rewrite pym_bind_unfold. unfold py_reads. cbn [registers with_slot]. rewrite R1, Hp1, Hu1.
    by rewrite <- R1; destruct (pr_worker pr1). }
  assert (pr2 = Process (with_slot (slot_of i pr1) (pr_worker pr1)) (<[i := slot_of i pr1]> (pr_slots pr1))
    (pr_flights pr)) as E2.
  { subst pr2. cbn [run_act]. rewrite F1, lookup_insert_eq. unfold on_request. rewrite Eland.
    unfold with_flight. cbn. rewrite F1. f_equal. exact (delete_insert_id _ i _ Hi). }
  rewrite E2. unfold waiting. cbn [pr_worker pr_flights registers lane with_slot]. rewrite R1, L1, Ed.
  split_and!; try done.
  - unfold landed. rewrite F1, lookup_insert_eq. unfold on_request. by rewrite Eland.
  - destruct (login_waits cid user fields _ Hs) as [_ EP]. fold r1 in EP. by rewrite EP, app_nil_r.
Qed.
End ledger.

(** ** Concrete inputs *)

Module CollectsWitness.
#[local] Existing Instance Witness.flat_bag.
#[local] Existing Instance RegistryWitness.plain_core.
#[local] Existing Instance WorkerWitness.plain_core_laws_here.
#[local] Existing Instance WorkerWitness.plain_worker.
#[local] Existing Instance TytxWitness.plain_tytx.
#[local] Existing Instance TytxWitness.plain_tytx_laws.
Import DeskWitness RegistryWitness WorkerWitness TypesWitness.

Definition a_process : process := Process a_worker ∅ ∅.

Lemma a_process_good : process_good a_process.
Proof. split; [apply login_registry_typed | apply waiting_desk_safe]. Qed.

(** Two collects of one page under way at once: the second goes up after the first,
    with a write filed in between, and lands before it; a Bag of the user moves while
    both replies are in flight. *)
Definition crossed : list act := [
  Ask 1 "p1"; Window 3 "p2" "user" "prefs" true; Ask 2 "p1";
  Commits 2 (Commit [3] [("t.a", VInt 1)] None (Some "p1") false);
  Call 1 true [10];
  Route (CallOnDatachange 11 (everybody "p1") (Some "p1") (set_message "page" false (a_change "late" 11)));
  Call 2 true [12];
  BagWrite 13 1 (λ b, bag_setItem b "prefs.lang" (VStr "it") None None);
  Land 2 [14]; Land 1 [15]].

Lemma crossed_lossless : all_lossless (page_box "p1") a_process crossed.
Proof.
  unfold all_lossless, crossed. cbn [all_along page_box mb_lossless mb_step lossless event_box change_box].
  split_and!; try exact I; try (intros q e E; by vm_compute in E).
  by intros _.
Qed.

Lemma collects_deliver_once_witness :
  let came := over (page_box "p1") (handed "p1") a_process crossed in
  waiting "p1" (foldl run_act a_process crossed) = [] ∧ length came = 7%nat ∧
  came ++ [] ≡ₚ waiting "p1" a_process ++ over (page_box "p1") (filed "p1") a_process crossed.
Proof.
  destruct (collects_deliver_once "p1" crossed a_process a_process_good) as [_ HE].
  { by repeat constructor. }
  specialize (HE crossed_lossless).
  assert (waiting "p1" (foldl run_act a_process crossed) = []) as E by by vm_compute.
  rewrite E in HE. split_and!; [exact E | by vm_compute | exact HE].
Defined.
End CollectsWitness.

Module LoginWitness.
#[local] Existing Instance Witness.flat_bag.
#[local] Existing Instance TytxWitness.plain_tytx.
#[local] Existing Instance TytxWitness.plain_tytx_laws.
Import DeskWitness RegistryWitness WorkerWitness TypesWitness CollectsWitness.

(** A core whose login hands the connection over and retires the guest's row. *)
#[local] Instance retiring_core : CoreRegistry := {|
  page_user := @page_user plain_core;
  core_change_connection_user cid user fields r :=
    match connection_register r !! cid, user_register r !! user with
    | Some c, Some u =>
        let c' := ConnectionRow (connection_register_item_id c) user (connection_pages c)
                    (fields ∪ connection_fields c) (connection_data c) in
        let u' := UserRow (user_register_item_id u) (user_store u) ({[cid]} ∪ user_connections u)
                    (user_fields u) in
        (Ok c', MkRegistry (delete (connection_user c) (<[user := u']> (user_register r)))
                  (<[cid := c']> (connection_register r)) (page_register r) (stores r) (views r))
    | _, _ => (Raise KeyError, r)
    end
|}.

#[local] Instance retiring_core_laws : CoreRegistryLaws.
Proof. split. apply (@page_user_walk plain_core plain_core_laws). Qed.

#[local] Existing Instance WorkerWitness.plain_worker.

Definition handed_over : registry := (core_change_connection_user "c1" "anna" ∅ login_registry).2.

Lemma handed_over_typed : registry_typed handed_over.
Proof.
  split; [by apply rows_check_typed; vm_compute| |by apply registry_check_wf; vm_compute].
  destruct (rg_heap _ login_registry_typed) as [HS HV].
  assert (stores handed_over = stores login_registry) as Es by by vm_compute.
  assert (views handed_over = views login_registry) as Ev by by vm_compute.
  split; [by rewrite Es | by rewrite Ev].
Qed.

Lemma retiring_sound : core_login_sound "c1" "anna" ∅ login_registry.
Proof.
  unfold core_login_sound.
  rewrite (surjective_pairing (core_change_connection_user "c1" "anna" ∅ login_registry)).
  fold handed_over. split; [apply handed_over_typed|]. split.
  - assert (page_register handed_over = page_register login_registry) as Ep by by vm_compute.
    assert (views handed_over = views login_registry) as Ev by by vm_compute.
    intros p. unfold pending, row_waits, view_waits, page_view. by rewrite Ep, Ev.
  - intros c Hc. vm_compute in Hc. injection Hc as <-. split; by vm_compute.
Qed.

Lemma login_strands_a_collect_witness :
  let pr1 := foldl run_act a_process [Ask 1 "p1"; Call 1 true [10]; Login 2 "c1" "anna" ∅] in
  landed 1 [12] pr1 = Some ("p1", Raise TypeError) ∧
  length (waiting "p1" a_process) = 3%nat ∧
  length (waiting "p1" (run_act pr1 (Land 1 [12]))) = 1%nat.
Proof.
  destruct (login_strands_a_collect a_process 1 2 "p1" "guest"
    (PageRow "p1" "c1" 3 [] 0 (Some 7%positive) {["gui"]} {["prefs"]} ∅ ∅) "c1" "anna" ∅ [10] [12])
    as (H1' & _ & _ & _ & H5).
  - split; [apply login_registry_typed | apply waiting_desk_safe].
  - done.
  - by vm_compute.
  - by vm_compute.
  - exact retiring_sound.
  - eexists. by vm_compute.
  - by vm_compute.
  - split_and!; [exact H1' | by vm_compute |]. rewrite H5. by vm_compute.
Defined.
End LoginWitness.
End Collects.
