(* ===== verification/Settles.v ===== *)
(** * Settles: what a landing answers, and that a collect leaves nothing waiting

    Collects.v says that nothing is handed over twice and nothing is lost on the way;
    here is that it arrives.  The landing of [collect_page]
    (src/genropy_asgi/spa/genropy_worker.py) answers by what it finds under the lock,
    and a page that collects with nobody in between is handed all that waited. *)

From S2P Require Export Collects.

Module Settles.
Import Mailbox LegacyBagCollector Index Desk Routes Registry Worker Types Collects.

Section settles.
Context `{BagApi, CoreRegistryLaws, CoreWorker, TytxLaws}.

(** [getNode(path)] finds the node [setItem(path, ...)] has just written: what a fired
    store write relies on, and what the root's own path does not give. *)
Definition settable (c : change) : Prop :=
  ch_delete c = false → k_fired (ch_key c) = true →
  ∀ b v a r f, is_Some (bag_updateNode (bag_setItem b (ch_path c) v a r).1 (ch_path c) f).

Lemma settable_trip cs : Forall settable cs → Forall settable (map trip_change cs).
Proof. intros HS. by apply Forall_fmap. Qed.

(** ** The store writes of a reply are the only thing that can raise in a drain *)

Lemma forwarded_returns now store c r :
  is_Some (stores r !! store) → settable c → (apply_forwarded now store c r).1 = Ok ().
Proof.
  intros [o Ho] HS. unfold apply_forwarded, settable in *. destruct (ch_delete c); [done|].
  destruct (k_fired (ch_key c)); [|done]. rewrite (on_bag_stores _ _ _ _ _ Ho), lookup_insert_eq.
  cbn [bo_nodes]. edestruct HS as [n ->]; done.
Qed.

Lemma apply_all_returns clock store cs r :
  is_Some (stores r !! store) → Forall settable cs → (apply_all clock store cs r).1 = Ok ().
Proof.
  intros Hs HF. revert clock r Hs.
  induction HF as [|c cs Hc HF IH]; intros clock r Hs; [done|]. cbn [apply_all].
  pose proof (forwarded_returns (hd 0 clock) store c r Hs Hc) as E.
  pose proof (ev_stores _ _ (ca_evolves _ _ (forwarded_calm r (hd 0 clock) store c r ltac:(done))) store Hs) as Hs'.
  rewrite pym_bind_unfold. destruct (apply_forwarded _ store c r) as [[[]|e] r']; [by apply IH | done].
Qed.

(** ** What the landing answers *)

Lemma reply_answers clock q u reply r :
  registry_typed r →
  match page_register r !! q, user_register r !! u with
  | None, _ => collect_reply clock q u reply r = (Raise KeyError, r)
  | Some _, None => collect_reply clock q u reply r = (Raise TypeError, r)
  | Some _, Some _ =>
      Forall settable (from_tytx_list (ex_store_changes reply)) →
      ∃ l r', collect_reply clock q u reply r = (Ok l, r') ∧ pending q r' = []
  end.
Proof.
  intros Hr. unfold collect_reply. rewrite pym_bind_unfold. unfold py_reads.
  destruct (page_register r !! q) as [page|] eqn:Hp; [|done].
  destruct (user_register r !! u) as [ur|] eqn:Hu; [|done]. intros HS.
  set (cs := from_tytx_list (ex_store_changes reply)). rewrite pym_bind_unfold.
  pose proof (apply_all_returns clock (user_store ur) cs r (rt_user_store _ (rg_rows _ Hr) _ _ Hu) HS) as E.
  pose proof (apply_all_calm r clock (user_store ur) cs r ltac:(done)) as HC.
  destruct (apply_all _ _ cs r) as [a r1]. cbn [fst snd] in *. subst a.
  destruct (forall2_on _ _ _ _ (ca_pages _ _ HC q) Hp) as (page1 & Hp1 & _).
  unfold drain_reply. rewrite Hp1.
  pose proof (drain_waits q page1 (from_tytx_list (ex_datachanges reply)) r1
    (calm_wf _ _ HC (rg_wf _ Hr)) Hp1) as HD.
  destruct (drain_page _ _ _ _) as [l r2]. destruct HD as (_ & D2 & _). eauto.
Qed.

(** A landing is the drain of the reply, under the request's slot. *)
Lemma landing_is i clock pr q u reply :
  pr_flights pr !! i = Some (Answered q u reply) →
  let '(a, r) := collect_reply clock q u reply (registers (pr_worker pr)) in
  let pr' := run_act pr (Land i clock) in
  landed i clock pr =
    Some (q, (λ l, Delivery l (ex_dbevents reply ++ sl_own_dbevents (slot_of i pr))) <$> a) ∧
  registers (pr_worker pr') = r ∧ lane (pr_worker pr') = lane (pr_worker pr) ∧
  pr_flights pr' = delete i (pr_flights pr).
Proof.
  intros Hi. pose proof (land_spec clock q u reply (with_slot (slot_of i pr) (pr_worker pr))) as HL.
  unfold landed. cbn [run_act]. rewrite Hi. unfold on_request.
  destruct (collect_land clock q u reply _) as [a w']. cbn [registers lane slot with_slot] in HL.
  destruct (collect_reply clock q u reply _) as [b r']. destruct HL as (E1 & E2 & ->). by split_and!.
Qed.

(** C32: a landing answers by what it finds under the lock: the page gone, [KeyError]; the
    page here and the row of the user it was asked for gone, [TypeError]; both here, a
    delivery - whatever the reply brought, as long as a fired store write has a path of
    its own to be found again - and then nothing waits for that page in its process. *)
Theorem landing_answers i clock pr q u reply :
  process_good pr → pr_flights pr !! i = Some (Answered q u reply) →
  let r := registers (pr_worker pr) in
  match page_register r !! q, user_register r !! u with
  | None, _ => landed i clock pr = Some (q, Raise KeyError)
  | Some _, None => landed i clock pr = Some (q, Raise TypeError)
  | Some _, Some _ =>
      Forall settable (from_tytx_list (ex_store_changes reply)) →
      ∃ dl, landed i clock pr = Some (q, Ok dl) ∧
      pending q (registers (pr_worker (run_act pr (Land i clock)))) = []
  end.
Proof.
  intros Hg Hi r. pose proof (landing_is i clock pr q u reply Hi) as HL.
  pose proof (reply_answers clock q u reply r (proj1 Hg)) as HA. fold r in HL.
  destruct (collect_reply clock q u reply r) as [b r']. destruct HL as (-> & -> & _).
  destruct (page_register r !! q) as [page|]; [|by simplify_eq].
  destruct (user_register r !! u) as [ur|]; [|by simplify_eq].
  intros HS. destruct (HA HS) as (l & r2 & [= -> ->] & E). by eexists.
Qed.

(** ** A collect of the page, with nobody in between *)

(** A page with an owner: its row, and its owner's. *)
Lemma owned_rows p u r :
  registry_typed r → page_user p r = Ok u →
  is_Some (page_register r !! p) ∧ is_Some (user_register r !! u).
Proof.
  intros Hr Hu. rewrite page_user_walk in Hu.
  destruct (page_register r !! p) as [page|] eqn:Hp; [|done].
  destruct (connection_register r !! page_connection_id page) as [c|] eqn:Hc; [|done].
  injection Hu as <-. split; [done|]. by destruct (rt_connection r (rg_rows _ Hr) _ c Hc) as (ur & -> & _).
Qed.

Definition collect (i : nat) (p : string) (dclock clock : list Z) : list act :=
  [Ask i p; Call i true dclock; Land i clock].

(** The collect returns, and leaves waiting what other collects of the page are bringing. *)
Lemma collect_arrives i p u dclock clock pr :
  process_good pr → pr_flights pr !! i = None →
  page_user p (registers (pr_worker pr)) = Ok u →
  Forall settable (queue_of (user_store_change_map (lane (pr_worker pr))) u) →
  ∃ dl, landed i clock (foldl run_act pr [Ask i p; Call i true dclock]) = Some (p, Ok dl) ∧
    over (page_box p) (handed p) pr (collect i p dclock clock) = delivered dl ∧
    waiting p (foldl run_act pr (collect i p dclock clock)) = flying p (pr_flights pr).
Proof.
  intros Hg Hi Hu HS. destruct (owned_rows p u _ (proj1 Hg) Hu) as [[row Hp] [ur Hur]].
  pose proof (gone_up p u row i dclock pr Hi Hp Hu) as HG.
  pose proof (settled_desk dclock p u (sl_dbevents (slot_of i pr)) (lane (pr_worker pr))) as HD.
  destruct (exchange_changes dclock p u (sl_dbevents (slot_of i pr)) (lane (pr_worker pr)) (proj2 Hg)) as [_ HB].
  destruct (exchange _ _ _ _ _) as [reply d]. cbn [fst snd] in HD, HB.
  apply settable_trip in HS. rewrite <- HB in HS.
  set (pr1 := foldl run_act pr [Ask i p; Call i true dclock]) in *. destruct HG as (G1 & G2 & G3).
  assert (process_good pr1) as Hg1.
  { apply (run_good any_order (page_box p) (sound p) [Ask i p; Call i true dclock] pr Hg). by repeat constructor. }
  assert (pr_flights pr1 !! i = Some (Answered p u reply)) as Hf by (by rewrite G3, lookup_insert_eq).
  pose proof (landing_is i clock pr1 p u reply Hf) as HL.
  pose proof (reply_answers clock p u reply (registers (pr_worker pr1)) (proj1 Hg1)) as HA.
  rewrite G1 in HL, HA. rewrite Hp, Hur in HA. destruct (HA HS) as (l & r' & E & HP). rewrite E in HL.
  destruct HL as (HL & R2 & L2 & F2). eexists. split; [exact HL|].
  change (foldl run_act pr (collect i p dclock clock)) with (run_act pr1 (Land i clock)).
  split.
  - unfold collect. cbn [over handed page_box mb_step mb_handed app].
    change (run_act (run_act pr _) _) with pr1. rewrite HL. cbn [fmap res_fmap].
    by rewrite decide_True, app_nil_r.
  - unfold waiting. rewrite R2, HP, L2, F2, G2, HD, G3, app_nil_r.
    f_equal. exact (delete_insert_id _ i _ Hi).
Qed.

(** C4: a collect settles what waits. Whatever the requests and the other processes did
    before, a page that has an owner, collected by a free request with nobody in
    between, is answered with a delivery - never an exception, as long as the fired
    writes that wait for the owner's store have paths of their own - and then nothing
    waits for it anywhere but in the collects of it that others have under way; and
    when none of what came before threw anything away, what has been handed over by
    then and what those collects bring are all that ever waited or was filed. *)
Theorem collect_settles p acts pr i u dclock clock :
  process_good pr → all_along (page_box p) (sound p) pr acts →
  let pr1 := foldl run_act pr acts in
  pr_flights pr1 !! i = None → page_user p (registers (pr_worker pr1)) = Ok u →
  Forall settable (queue_of (user_store_change_map (lane (pr_worker pr1))) u) →
  let pr2 := foldl run_act pr1 (collect i p dclock clock) in
  ∃ dl, landed i clock (foldl run_act pr1 [Ask i p; Call i true dclock]) = Some (p, Ok dl) ∧
    waiting p pr2 = flying p (pr_flights pr1) ∧
    (all_lossless (page_box p) pr acts →
     over (page_box p) (handed p) pr acts ++ delivered dl ++ flying p (pr_flights pr1) ≡ₚ
       waiting p pr ++ over (page_box p) (filed p) pr (acts ++ collect i p dclock clock)).
Proof.
  intros Hg Ha pr1 Hi Hu HS pr2.
  assert (process_good pr1) as Hg1 by by apply (run_good any_order (page_box p) (sound p)).
  destruct (collect_arrives i p u dclock clock pr1 Hg1 Hi Hu HS) as (dl & HL & HH & HW).
  exists dl. split_and!; [done..|]. intros Hl.
  pose proof (run_exact any_order (page_box p) (sound p) acts pr Hg Ha Hl) as E1.
  assert (all_lossless (page_box p) pr1 (collect i p dclock clock)) as Hl1.
  { unfold all_lossless, collect. cbn [all_along page_box mb_lossless mb_step lossless foldl] in *.
    split_and!; try exact I. intros q e E. rewrite HL in E. by simplify_eq. }
  pose proof (run_exact any_order (page_box p) (sound p) (collect i p dclock clock) pr1 Hg1
    ltac:(by repeat constructor) Hl1) as E2.
  rewrite over_app, !(app_assoc (waiting p pr)).
  unfold run in *. cbn [mb_step mb_waiting mb_handed mb_filed page_box same_as any_order] in *.
  fold pr1 in E1 |- *. fold pr2 in E2, HW. rewrite HH, HW in E2. by rewrite <- E1, <- app_assoc, <- E2.
Qed.
End settles.

(** ** Concrete inputs *)

Module SettlesWitness.
#[local] Existing Instance Witness.flat_bag.
#[local] Existing Instance RegistryWitness.plain_core.
#[local] Existing Instance WorkerWitness.plain_core_laws_here.
#[local] Existing Instance WorkerWitness.plain_worker.
#[local] Existing Instance TytxWitness.plain_tytx.
#[local] Existing Instance TytxWitness.plain_tytx_laws.
Import DeskWitness RegistryWitness WorkerWitness TypesWitness CollectsWitness.

Lemma flat_settable c : settable c.
Proof.
  intros _ _ b v a r f. unfold bag_updateNode, bag_setItem, Witness.flat_bag. cbn [fst].
  by rewrite Witness.flat_get_set_eq.
Qed.

Lemma all_settable cs : Forall settable cs.
Proof. apply Forall_forall. intros c _. apply flat_settable. Qed.

Definition gone : process := foldl run_act a_process [Ask 1 "p1"; Call 1 true [10]].

Lemma gone_good : process_good gone.
Proof.
  apply (run_good any_order (page_box "p1") (sound "p1") [Ask 1 "p1"; Call 1 true [10]] a_process
    a_process_good). by repeat constructor.
Qed.

Lemma landing_answers_witness :
  ∃ dl, landed 1 [12] gone = Some ("p1", Ok dl) ∧
    pending "p1" (registers (pr_worker (run_act gone (Land 1 [12])))) = [].
Proof.
  pose proof (landing_answers 1 [12] gone "p1" "guest"
    (exchange [10] "p1" "guest" [] waiting_desk).1 gone_good ltac:(by vm_compute)) as HL.
  cbn zeta in HL.
  destruct (page_register (registers (pr_worker gone)) !! "p1") as [row|] eqn:E1; [|by vm_compute in E1].
  destruct (user_register (registers (pr_worker gone)) !! "guest") as [ur|] eqn:E2; [|by vm_compute in E2].
  exact (HL (all_settable _)).
Defined.

(** Two collects crossed, then a write filed for the page, then one more collect. *)
Definition before : list act := crossed ++ [
  Route (CallOnDatachange 16 (everybody "p1") (Some "p1") (set_message "page" false (a_change "last" 16)))].

Lemma collect_settles_witness :
  ∃ dl, landed 4 [18] (foldl run_act (foldl run_act a_process before) [Ask 4 "p1"; Call 4 true [17]]) =
      Some ("p1", Ok dl) ∧
    waiting "p1" (foldl run_act (foldl run_act a_process before) (collect 4 "p1" [17] [18])) = [].
Proof.
  destruct (collect_settles "p1" before a_process 4 "guest" [17] [18] a_process_good)
    as (dl & E & W & _).
  - by repeat constructor.
  - by vm_compute.
  - by vm_compute.
  - apply all_settable.
  - exists dl. split; [exact E|]. rewrite W. by vm_compute.
Defined.
End SettlesWitness.
End Settles.
