(* ===== verification/Processes.v ===== *)
(** * Processes: many processes around one vertex, every request of each interleaved

    The processes of Collects.v around the one desk of the vertex
    (src/genropy_asgi/spa/delivery_desk.py): a run is any interleaving of the acts of
    all of them, down to the phases of a collect.  What a process is to the others is
    the calls it makes at the desk, so a process of a run is that process alone among
    calls that come from elsewhere, and what Collects.v proves of one holds of all. *)

From S2P Require Export Collects.

Module Processes.
Import Mailbox LegacyBagCollector Index Desk Routes Registry Worker Types Collects.

Section processes.
Context `{BagApi, CoreRegistryLaws, CoreWorker, TytxLaws}.

(** ** The calls of an act at the desk *)

Definition addressed_calls (w : worker) (a : res road) (dnow : Z) (target : option string) (m : message)
    : list route_call :=
  match a with
  | Ok (Road false _) => [CallOnDatachange dnow (lane_population w) target m]
  | _ => []
  end.

Definition calls (pr : process) (a : act) : list route_call :=
  let w := pr_worker pr in
  match a with
  | Call i true dclock =>
      match pr_flights pr !! i with
      | Some (Asked q u) => [CallExchange dclock q u (sl_dbevents (slot_of i pr))]
      | _ => []
      end
  | Served i true clock => [CallDeposit clock (sl_dbevents (slot_of i pr))]
  | Writes i answered now dnow ident c kind target filters replace =>
      let verb := set_datachange answered now dnow ident c kind target filters replace in
      addressed_calls w (wa_road <$> (on_request i verb pr).1) dnow target
        (write_message kind filters replace c)
  | Resets i answered dnow ident target filters =>
      addressed_calls w (wa_road <$> (on_request i (reset_datachanges answered dnow ident target filters) pr).1)
        dnow target (Message (Some "reset_datachanges") SIGNAL_KIND filters false None None)
  | Drops i answered dnow ident path target filters =>
      addressed_calls w
        (wa_road <$> (on_request i (drop_datachanges answered dnow ident path target filters) pr).1)
        dnow target (Message (Some "drop_datachanges") SIGNAL_KIND filters false None (Some path))
  | Subscribes i true table q b =>
      match page_register (registers w) !! q with
      | None => []
      | Some _ => [CallSubscribe q table b]
      end
  | Route c => [c]
  | _ => []
  end.

(** An addressed write is at most one call, and the road it answers says which. *)
Lemma addressed_lane answered dnow ident kind target filters m f i (verb : PyM worker write_answer) pr :
  (filters = None → taken m) →
  verb = (_route_datachange answered dnow ident kind target filters m f ≫= λ road,
          mret (WriteAnswer target filters road)) →
  lane (pr_worker (on_request i verb pr).2) =
    foldl run_route (lane (pr_worker pr))
      (addressed_calls (pr_worker pr) (wa_road <$> (on_request i verb pr).1) dnow target m).
Proof.
  intros Hm ->. set (w := with_slot (slot_of i pr) (pr_worker pr)). unfold on_request. fold w.
  rewrite pym_bind_unfold.
  pose proof (route_spec answered dnow ident kind target filters m f w) as HS.
  destruct (_route_datachange _ _ _ _ _ _ _ _ w) as [a w'].
  destruct HS as [(t & row & -> & -> & _ & _ & El)|[(-> & Hfi & _ & El & ->)|(e & -> & _ & El)]].
  - exact El.
  - destruct (Hm Hfi dnow (lane_population w) target (lane w)) as [b Hb]. rewrite Hb. exact El.
  - exact El.
Qed.

Lemma ask_lane i q pr : lane (pr_worker (run_act pr (Ask i q))) = lane (pr_worker pr).
Proof.
  cbn [run_act]. unfold on_request. pose proof (ask_frame q (with_slot (slot_of i pr) (pr_worker pr))) as E.
  destruct (pr_flights pr !! i); [done|]. by destruct (collect_ask q _) as [[u|e] w']; cbn in E; subst w'.
Qed.

Lemma call_lane i answered dclock pr :
  lane (pr_worker (run_act pr (Call i answered dclock))) =
    foldl run_route (lane (pr_worker pr)) (calls pr (Call i answered dclock)).
Proof.
  cbn [run_act calls]. destruct (pr_flights pr !! i) as [[q u|q u reply]|]; [|by destruct answered..].
  pose proof (call_spec answered dclock q u (with_slot (slot_of i pr) (pr_worker pr))) as HC.
  unfold on_request. destruct (collect_call answered dclock q u _) as [a w']. destruct HC as [_ HC].
  destruct answered.
  - cbn [foldl run_route]. cbn [slot with_slot lane] in HC.
    destruct (exchange _ _ _ _ _) as [reply d]. by destruct HC as [-> El].
  - by destruct HC as [-> El].
Qed.

Lemma land_lane i clock pr : lane (pr_worker (run_act pr (Land i clock))) = lane (pr_worker pr).
Proof.
  cbn [run_act]. destruct (pr_flights pr !! i) as [[q u|q u reply]|]; try done.
  pose proof (land_spec clock q u reply (with_slot (slot_of i pr) (pr_worker pr))) as HL. unfold on_request.
  destruct (collect_land clock q u reply _) as [a w'].
  destruct (collect_reply _ _ _ _ _) as [b r']. destruct HL as (_ & El & _). exact El.
Qed.

Lemma window_lane q storename path active w :
  lane (setStoreSubscription q storename path active w).2 = lane w.
Proof.
  unfold setStoreSubscription. destruct (page_register (registers w) !! q) as [page|]; [|done].
  destruct (decide (storename = "page")); [done|]. destruct (decide (storename = "user")); [|done].
  destruct active; [apply on_registers_moves|]. by destruct (page_user_view page).
Qed.

(** Every act moves the desk by its calls, and by nothing else. *)
Lemma act_calls pr a :
  lane (pr_worker (run_act pr a)) = foldl run_route (lane (pr_worker pr)) (calls pr a).
Proof.
  destruct a as [i q|i answered dclock|i clock|i c|i answered clock|i answered now dnow ident c kind target
    filters replace|i answered dnow ident target filters|i answered dnow ident path target filters|now l f
    |i answered table q b|tables|i q storename path active|i cid user fields|q fields|user store resident|f|c].
  - apply ask_lane.
  - apply call_lane.
  - apply land_lane.
  - done.
  - destruct (served_moves answered clock (with_slot (slot_of i pr) (pr_worker pr))) as [_ E].
    cbn [run_act calls on_request snd pr_worker]. rewrite E. by destruct answered.
  - apply (addressed_lane answered dnow ident kind target filters _
      (append_page_datachange now replace (from_tytx c))); [intros ->; apply taken_write | done].
  - apply (addressed_lane answered dnow ident SIGNAL_KIND target filters _ (set_queue [] 0));
      [intros ->; apply taken_reset | done].
  - apply (addressed_lane answered dnow ident SIGNAL_KIND target filters _ (prune path));
      [intros ->; apply (taken_drop path) | done].
  - done.
  - destruct (on_request_moves i (subscribeTable answered table q b) pr) as [Ew _].
    destruct (subscribe_spec answered table q b (with_slot (slot_of i pr) (pr_worker pr))) as [_ El].
    cbn [run_act calls]. rewrite Ew, El. cbn [registers with_slot lane]. destruct answered; [|done].
    by destruct (page_register _ !! q).
  - done.
  - destruct (on_request_moves i (setStoreSubscription q storename path active) pr) as [Ew _].
    cbn [run_act calls foldl]. rewrite Ew. by rewrite window_lane.
  - destruct (on_request_moves i (on_registers (change_connection_user cid user fields)) pr) as [Ew _].
    cbn [run_act calls foldl]. rewrite Ew. exact (proj2 (on_registers_moves _ _)).
  - apply on_registers_moves.
  - apply on_registers_moves.
  - done.
  - done.
Qed.

(** ** The processes around the one desk *)

Record system : Type := System {
  sy_desk : desk;
  sy_processes : gmap string process     (* a worker's [lane] is the field above *)
}.

Definition on_desk (d : desk) (pr : process) : process :=
  Process (with_lane d (pr_worker pr)) (pr_slots pr) (pr_flights pr).

(** A process as it sees the system: the shared desk at the end of its lane. *)
Definition sees (k : string) (sy : system) : option process :=
  on_desk (sy_desk sy) <$> sy_processes sy !! k.

(** An act of the process [k]. *)
Definition run_system (sy : system) (ka : string * act) : system :=
  match sees ka.1 sy with
  | None => sy
  | Some pr =>
      let pr := run_act pr ka.2 in
      System (lane (pr_worker pr)) (<[ka.1 := pr]> (sy_processes sy))
  end.

(** What one act of the system is to the process [j]: its own, or the calls of another. *)
Definition seen_by (j : string) (sy : system) (ka : string * act) : list act :=
  match sees ka.1 sy with
  | None => []
  | Some pr => if decide (ka.1 = j) then [ka.2] else Route <$> calls pr ka.2
  end.

Fixpoint project (j : string) (sy : system) (ops : list (string * act)) : list act :=
  match ops with
  | [] => []
  | ka :: rest => seen_by j sy ka ++ project j (run_system sy ka) rest
  end.

Lemma routes_run cs pr :
  foldl run_act pr (Route <$> cs) = on_desk (foldl run_route (lane (pr_worker pr)) cs) pr.
Proof.
  revert pr. induction cs as [|c cs IH]; intros [[r f s d pop dk ev] sl fl]; [done|].
  cbn [fmap list_fmap foldl]. by rewrite IH.
Qed.

Lemma on_desk_own pr : on_desk (lane (pr_worker pr)) pr = pr.
Proof. by destruct pr as [[]]. Qed.

(** One act, as the process sees it. *)
Lemma sees_step j sy ka pr :
  sees j sy = Some pr → sees j (run_system sy ka) = Some (foldl run_act pr (seen_by j sy ka)).
Proof.
  intros Hj. unfold run_system, seen_by. destruct (sees ka.1 sy) as [pk|] eqn:Hk; [|done].
  unfold sees. cbn [sy_desk sy_processes]. case_decide as Hkj.
  - subst j. rewrite Hk in Hj. simplify_eq. rewrite lookup_insert_eq. cbn [fmap option_fmap option_map foldl].
    f_equal. apply on_desk_own.
  - rewrite lookup_insert_ne by done. unfold sees in Hj, Hk.
    destruct (sy_processes sy !! j) as [p0|]; [|done]. destruct (sy_processes sy !! ka.1) as [k0|]; [|done].
    simplify_eq/=. by rewrite act_calls, routes_run.
Qed.

(** A run, as the process sees it. *)
Lemma sees_run j ops sy pr :
  sees j sy = Some pr → sees j (foldl run_system sy ops) = Some (foldl run_act pr (project j sy ops)).
Proof.
  revert sy pr. induction ops as [|ka ops IH]; intros sy pr Hj; [done|].
  cbn [foldl project]. rewrite foldl_app. by apply IH, sees_step.
Qed.

(** C2: the whole pool, any interleaving of the requests of all its processes down to
    the phases of their collects. Each process runs as it would alone among calls at
    the desk that come from elsewhere - the calls the others make - so that a page
    gets, from the process it lives in, everything that came to wait for it there, in
    flight or at the desk, at most once; and exactly once, or it is still waiting, when
    nothing addressed to it was replaced, reset, dropped or stranded. *)
Theorem processes_deliver_once j p ops sy pr :
  sees j sy = Some pr → process_good pr →
  let acts := project j sy ops in
  all_along (page_box p) (sound p) pr acts →
  ∃ pr', sees j (foldl run_system sy ops) = Some pr' ∧ pr' = foldl run_act pr acts ∧
    let came := over (page_box p) (handed p) pr acts ++ waiting p pr' in
    let went := waiting p pr ++ over (page_box p) (filed p) pr acts in
    came ⊆+ went ∧ (all_lossless (page_box p) pr acts → came ≡ₚ went).
Proof.
  intros Hj Hg acts Ha. exists (foldl run_act pr acts). split; [by apply sees_run|]. split; [done|].
  split; [|intros Hl].
  - by apply (run_part any_order (page_box p) (sound p)).
  - by apply (run_exact any_order (page_box p) (sound p)).
Qed.
End processes.

(** ** Concrete inputs *)

Module ProcessesWitness.
#[local] Existing Instance Witness.flat_bag.
#[local] Existing Instance RegistryWitness.plain_core.
#[local] Existing Instance WorkerWitness.plain_core_laws_here.
#[local] Existing Instance WorkerWitness.plain_worker.
#[local] Existing Instance TytxWitness.plain_tytx.
#[local] Existing Instance TytxWitness.plain_tytx_laws.
Import DeskWitness RegistryWitness WorkerWitness CollectsWitness.

(** Another process, with a page of another user. *)
Definition other_process : process :=
  Process (MkWorker
    (MkRegistry {["bob" := UserRow "bob" 1 {["c7"]} ∅]} {["c7" := ConnectionRow "c7" "bob" {["p7"]} ∅ None]}
       {["p7" := PageRow "p7" "c7" 2 [] 0 None ∅ ∅ ∅ ∅]}
       {[1%positive := BagObject [] []; 2%positive := BagObject [] []]} ∅)
    {["t.a"]} build_request_slot new_desk (Population ∅ {["p1"]}) ∅ []) ∅ ∅.

Definition two_processes : system :=
  System waiting_desk {["w1" := a_process; "w2" := other_process]}.

(** While a collect of [p1] is at the desk, a request of the other process commits on a
    table [p1] subscribes, signals it, and collects its own page. *)
Definition crossed_ops : list (string * act) := [
  ("w1", Ask 1 "p1");
  ("w2", Commits 1 (Commit [3] [("t.a", VInt 3)] None (Some "p7") false));
  ("w2", Ask 1 "p7");
  ("w1", Call 1 true [10]);
  ("w2", Writes 1 true 11 11 (Some "bob") (to_tytx (a_change "ping" 11)) "page" (Some "p1") None false);
  ("w2", Call 1 true [12]);
  ("w1", Land 1 [13]); ("w2", Land 1 [14]);
  ("w1", Ask 1 "p1"); ("w1", Call 1 true [15]); ("w1", Land 1 [16])].

Definition seen_acts : list act := project "w1" two_processes crossed_ops.
Definition first_seen : process := on_desk waiting_desk a_process.

(** No login, no parcel, no birth, no drop, no other process's exchange for the page. *)
Definition plainly_sound (p : string) (a : act) : bool :=
  match a with
  | Login _ _ _ _ | Carried _ _ _ | CoreMoves _ => false
  | Route (CallExchange _ q _ _) => bool_decide (q ≠ p)
  | _ => true
  end.

Lemma plainly_all_sound p acts pr :
  forallb (plainly_sound p) acts = true → all_along (page_box p) (sound p) pr acts.
Proof.
  revert pr. induction acts as [|a acts IH]; intros pr; [done|]. cbn [forallb all_along].
  intros [Ha Hacts]%andb_true_iff. split; [|by apply IH].
  destruct a as [| | | | | | | | | | | | | | | |c]; try done. destruct c; try done.
  exact (bool_decide_eq_true_1 _ Ha).
Qed.

Lemma processes_deliver_once_witness :
  ∃ pr', sees "w1" (foldl run_system two_processes crossed_ops) = Some pr' ∧ waiting "p1" pr' = [] ∧
    length (over (page_box "p1") (handed "p1") first_seen seen_acts) = 6%nat ∧
    over (page_box "p1") (handed "p1") first_seen seen_acts ++ [] ⊆+
      waiting "p1" first_seen ++ over (page_box "p1") (filed "p1") first_seen seen_acts.
Proof.
  destruct (processes_deliver_once "w1" "p1" crossed_ops two_processes first_seen) as (pr' & H1' & H2' & H3' & _).
  - done.
  - exact a_process_good.
  - by apply plainly_all_sound; vm_compute.
  - exists pr'. fold seen_acts in H2', H3'.
    assert (waiting "p1" pr' = []) as E by (rewrite H2'; by vm_compute).
    rewrite E in H3'. split_and!; [exact H1' | exact E | by vm_compute | exact H3'].
Defined.
End ProcessesWitness.
End Processes.
