(* ===== verification/WorkerPool.v ===== *)
(** * The pool: many workers around one vertex

    The composition genropy_worker.py and delivery_desk.py are written for: each
    process has its registers and its filter, each request it serves its own slot, all
    share the one desk of the vertex, and a verb reaches the desk by at most one call.
    A run is any interleaving of the verbs of the requests, each the definition of
    GenropyWorker.v on the registers of its process, its own slot, and the shared desk
    at the other end of the lane.  The abstract machine is the desk alone (the steps of
    DeliveryDesk.v): a run of the pool is refined to a run of it, and the desk's ledger
    becomes an account of every deposit from the slot of the request that committed it
    to the page that is handed it. *)

From S2P Require Export GenropyWorker.

Module Pool.
Import Index Desk Registry Worker.

(** ** The state and the verbs *)

(** A process's name, and a request it is serving. *)
Abbreviation requester := (string * string)%type (only parsing).

Record pool : Type := MkPool {
  pl_desk : desk;
  pl_workers : gmap string worker;      (* [lane] and [slot] are the two fields below *)
  pl_slots : gmap requester request_slot
}.

(** The slot a request is born with until it lays something on it. *)
Definition slot_at (s : pool) (who : requester) : request_slot :=
  default build_request_slot (pl_slots s !! who).

(** A verb of a request: the registers of its process, its slot, the shared desk. *)
Definition on_pool {A} (who : requester) (m : PyM worker A) (s : pool) : option (res A) * pool :=
  match pl_workers s !! who.1 with
  | None => (None, s)
  | Some w =>
      let '(a, w) := m (with_slot (slot_at s who) (with_lane (pl_desk s) w)) in
      (Some a, MkPool (lane w) (<[who.1 := w]> (pl_workers s)) (<[who := slot w]> (pl_slots s)))
  end.

(** What a worker does: a subscription, a commit, the end of a request that
    collected nothing, a collect, a signal addressed to a page of another worker, and
    the arrival of a pushed filter. *)
Inductive verb : Type :=
| Subscribe (answered : bool) (table page_id : string) (b : bool)
| Commits (clock : list Z) (dbevents : list (string * value)) (reason page_id : option string)
    (local_only : bool)
| Served (answered : bool) (clock : list Z)
| Collect (answered : bool) (desk_clock clock : list Z) (between : registry → registry)
    (page_id : string)
| Signal (answered : bool) (now desk_now : Z) (identity : option string) (c : change) (target : string)
| FilterArrives (tables : list string).

Record op : Type := Op { op_by : requester; op_verb : verb }.

Section run.
Context `{BagApi, CoreRegistry, Tytx}.

(** The verb on its worker; what a collect delivers is what the page receives. *)
Definition run_verb (v : verb) : PyM worker (option delivery) :=
  match v with
  | Subscribe answered table page_id b =>
      subscribeTable answered table page_id b ≫= λ _, mret None
  | Commits clock dbevents reason page_id local_only =>
      py_modify (λ w, (notifyDbEvents clock dbevents reason page_id local_only w).2) ≫= λ _, mret None
  | Served answered clock => py_modify (on_request_served answered clock) ≫= λ _, mret None
  | Collect answered desk_clock clock between page_id =>
      collect_page answered desk_clock clock between page_id ≫= λ d, mret (Some d)
  | Signal answered now desk_now identity c target =>
      set_datachange answered now desk_now identity (to_tytx c) SIGNAL_KIND (Some target) None false
        ≫= λ _, mret None
  | FilterArrives tables => py_modify (orders_subscribed_tables (Some tables)) ≫= λ _, mret None
  end.

Definition run_op (s : pool) (o : op) : pool := (on_pool (op_by o) (run_verb (op_verb o)) s).2.
Definition run_ops (s : pool) (ops : list op) : pool := foldl run_op s ops.

(** ** What one verb is to the desk, to the slot and to a page *)

(** The steps of the desk alone a verb comes to: at most one. *)
Definition verb_steps (v : verb) (w : worker) : list desk_step :=
  match v with
  | Subscribe true table page_id b =>
      match page_register (registers w) !! page_id with
      | None => []
      | Some _ => [StepSubscribe page_id table b]
      end
  | Served true clock =>
      match sl_dbevents (slot w) with [] => [] | evs => [StepDeposit clock evs] end
  | Collect true desk_clock _ _ page_id =>
      match page_register (registers w) !! page_id, page_user page_id (registers w) with
      | Some _, Ok user => [StepExchange desk_clock page_id user (sl_dbevents (slot w))]
      | _, _ => []
      end
  | Signal true _ desk_now identity c target =>
      let to_desk :=
        if knows (lane_population w) SIGNAL_KIND target then [StepWrite desk_now target c] else [] in
      match page_register (registers w) !! target with
      | None => to_desk
      | Some _ =>
          match page_user target (registers w) with
          | Raise _ => []
          | Ok owner => if decide (Some owner = identity) then [] else to_desk
          end
      end
  | _ => []
  end.

(** The deposits a verb lays on its request's slot, and those it takes off it. *)
Definition posted (v : verb) (w : worker) : list deposit :=
  match v with
  | Commits clock dbevents reason page_id false =>
      announced_deposits clock dbevents reason page_id false (subscribed_tables w)
  | _ => []
  end.

Definition taken (v : verb) (w : worker) : list deposit :=
  match v with
  | Served _ _ => sl_dbevents (slot w)
  | Collect true _ _ _ page_id =>
      match page_register (registers w) !! page_id, page_user page_id (registers w) with
      | Some _, Ok _ => sl_dbevents (slot w)
      | _, _ => []
      end
  | _ => []
  end.

(** The worker an operation finds: its slot on it, the shared desk at the end of its lane. *)
Definition seen (s : pool) (who : requester) : option worker :=
  (λ w, with_slot (slot_at s who) (with_lane (pl_desk s) w)) <$> pl_workers s !! who.1.

Definition op_steps (s : pool) (o : op) : list desk_step :=
  match seen s (op_by o) with None => [] | Some w => verb_steps (op_verb o) w end.

(** The trace of the desk under a run of the pool. *)
Fixpoint desk_trace (s : pool) (ops : list op) : list desk_step :=
  match ops with
  | [] => []
  | o :: rest => op_steps s o ++ desk_trace (run_op s o) rest
  end.
End run.

(** ** One verb *)

Section verbs.
Context `{BagApi, CoreRegistryLaws, TytxLaws}.

(** A signal is safe on the wire. *)
Definition verb_safe (v : verb) : Prop :=
  match v with Signal _ _ _ _ c _ => encodable_change c = true | _ => True end.

Lemma collect_reply_desk clock pid user reply (w : worker) :
  lane (on_registers (collect_reply clock pid user reply) w).2 = lane w ∧
  slot (on_registers (collect_reply clock pid user reply) w).2 = slot w.
Proof. unfold on_registers. by destruct (collect_reply clock pid user reply (registers w)). Qed.

(** A collect that is answered: the desk has done one exchange and the slot holds
    nothing for it any more, however the reply is then received. *)
Lemma collect_page_desk dclock clock between pid row user w :
  page_register (registers w) !! pid = Some row → page_user pid (registers w) = Ok user →
  let '(a, w') := collect_page true dclock clock between pid w in
  lane w' = (exchange dclock pid user (sl_dbevents (slot w)) (lane w)).2 ∧
  sl_dbevents (slot w') = [] ∧
  ∀ d, a = Ok d →
    dl_dbevents d = ex_dbevents (exchange dclock pid user (sl_dbevents (slot w)) (lane w)).1 ++
                    sl_own_dbevents (slot w).
Proof.
  intros Hrow Hu. rewrite (collect_page_start _ _ _ _ _ row user) by done.
  rewrite (pym_bind_ok _ _ _ _ _ (call_desk_answered _ w)).
  destruct (exchange dclock pid user (sl_dbevents (slot w)) (lane w)) as [reply d']. cbn [fst snd].
  rewrite !pym_bind_unfold. unfold py_modify at 1. rewrite pym_bind_unfold. unfold py_modify at 1.
  set (w1 := with_registers _ _).
  destruct (collect_reply_desk clock pid user reply w1) as [HL HS].
  change (lane w1) with d' in HL. change (slot w1) with (RequestSlot [] (sl_own_dbevents (slot w))) in HS.
  clearbody w1. rewrite pym_bind_unfold.
  destruct (on_registers _ w1) as [[l|e] w2]; cbn [snd] in HL, HS.
  - rewrite pym_bind_unfold. unfold py_reads at 1. rewrite pym_bind_unfold. unfold py_modify at 1.
    change (lane w2 = d' ∧ sl_dbevents (slot w2) = [] ∧
      ∀ d, Ok (Delivery l (ex_dbevents reply ++ sl_own_dbevents (slot w2))) = Ok d →
        dl_dbevents d = ex_dbevents reply ++ sl_own_dbevents (slot w)).
    rewrite HL, HS. split_and!; [done..|]. by intros d [= <-].
  - by rewrite HL, HS.
Qed.

Lemma collect_page_still ans dclock clock between pid w :
  (ans = false ∨ page_register (registers w) !! pid = None ∨ ∀ u, page_user pid (registers w) ≠ Ok u) →
  ∃ e, collect_page ans dclock clock between pid w = (Raise e, w).
Proof.
  intros Hcase. destruct (page_register (registers w) !! pid) as [row|] eqn:Hrow.
  2: { exists KeyError. unfold collect_page. rewrite pym_bind_unfold. unfold py_reads. by rewrite Hrow. }
  destruct (page_user pid (registers w)) as [u|e] eqn:Hu.
  - rewrite (collect_page_start _ _ _ _ _ row u) by done.
    destruct Hcase as [-> |[?|Hno]]; [|done|by destruct (Hno u)]. eexists. done.
  - exists e. unfold collect_page. rewrite pym_bind_unfold. unfold py_reads at 1. rewrite Hrow.
    rewrite pym_bind_unfold. unfold py_lift. by rewrite Hu.
Qed.

Lemma signal_kind_served : served_kind SIGNAL_KIND.
Proof. intros Hin. exfalso. revert Hin. apply (bool_decide_unpack (_ ∉ _)). by vm_compute. Qed.

(** The road to the desk is one write there. *)
Lemma desk_road_step answered dnow c t w :
  encodable_change c = true →
  let w' := (desk_road answered dnow (Some t) (set_message SIGNAL_KIND false c) w).2 in
  lane w' = foldl run_step (lane w)
    (if answered && knows (lane_population w) SIGNAL_KIND t then [StepWrite dnow t c] else []) ∧
  slot w' = slot w.
Proof.
  intros Hs. destruct answered; [|done]. rewrite (desk_road_set dnow SIGNAL_KIND t false c w Hs).
  cbn [andb snd]. destruct (knows (lane_population w) SIGNAL_KIND t); [|done]. split; [|done].
  cbn [foldl run_step].
  by rewrite (on_datachange_set dnow (everybody t) t "page" false c (lane w) Hs (everybody_knows "page" t eq_refl)).
Qed.

Lemma signal_route answered now dnow ident c t w :
  let v := Signal answered now dnow ident c t in
  (run_verb v w).2 =
    (_route_datachange answered dnow ident SIGNAL_KIND (Some t) None (set_message SIGNAL_KIND false c)
       (append_page_datachange now false (from_tytx (to_tytx c))) w).2.
Proof.
  cbn [run_verb]. unfold set_datachange. rewrite !pym_bind_unfold.
  fold (set_message SIGNAL_KIND false c).
  by destruct (_route_datachange _ _ _ _ _ _ _ _ w) as [[a|e] w'].
Qed.

Lemma signal_desk answered now dnow ident c t w :
  encodable_change c = true →
  let v := Signal answered now dnow ident c t in
  lane (run_verb v w).2 = foldl run_step (lane w) (verb_steps v w) ∧
  slot (run_verb v w).2 = slot w.
Proof.
  intros Hs v. unfold v. rewrite signal_route. pose proof (desk_road_step answered dnow c t w Hs) as Hd.
  cbv zeta in Hd. unfold verb_steps.
  destruct (page_register (registers w) !! t) as [row|] eqn:Hrow.
  2: { rewrite route_desk; [by destruct answered|apply signal_kind_served| |].
       - intros _ ? [= <-]. rewrite Hrow. by intros [].
       - intros row (_ & ? & u & [= <-] & Hrow' & _). congruence. }
  destruct (page_user t (registers w)) as [u|e] eqn:Hu.
  2: { unfold _route_datachange. rewrite decide_False by (intros [Hin Hne]; by apply Hne, signal_kind_served).
       rewrite decide_True by done. simpl. rewrite Hrow. simpl. rewrite Hu. by destruct answered. }
  destruct (decide (Some u = ident)) as [Hid|Hid].
  - rewrite (route_local _ _ _ _ _ _ _ row); [by destruct answered|apply signal_kind_served|].
    split; [done|]. by exists t, u.
  - rewrite route_desk; [by destruct answered|apply signal_kind_served| |].
    + intros _ ? [= <-] _. by exists u.
    + intros row' (_ & ? & u' & [= <-] & _ & Hu' & Hi). congruence.
Qed.
(** *** The other verbs *)

Lemma subscribe_desk answered table pid b w :
  let v := Subscribe answered table pid b in
  lane (run_verb v w).2 = foldl run_step (lane w) (verb_steps v w) ∧
  slot (run_verb v w).2 = slot w.
Proof.
  cbn [run_verb]. unfold subscribeTable, verb_steps. rewrite !pym_bind_unfold.
  destruct (page_register (registers w) !! pid) as [row|]; [|by destruct answered].
  rewrite pym_bind_unfold. unfold call_desk, route_total.
  destruct answered; [|done]. cbn [lane with_registers foldl run_step].
  by destruct (Desk.subscribe_table pid table b (lane w)) as [[? ?] ?].
Qed.

Lemma served_desk answered clock w :
  let v := Served answered clock in
  lane (run_verb v w).2 = foldl run_step (lane w) (verb_steps v w) ∧
  sl_dbevents (slot (run_verb v w).2) = [].
Proof.
  cbn [run_verb]. rewrite pym_bind_unfold. unfold py_modify, on_request_served, deliver_slot_deposits, verb_steps.
  destruct (sl_dbevents (slot w)) as [|d ds] eqn:Es; [by destruct answered|].
  destruct answered; [|done]. by rewrite call_desk_answered.
Qed.

Lemma collect_desk answered dclock clock between pid w :
  let v := Collect answered dclock clock between pid in
  lane (run_verb v w).2 = foldl run_step (lane w) (verb_steps v w) ∧
  taken v w ++ sl_dbevents (slot (run_verb v w).2) = sl_dbevents (slot w).
Proof.
  cbn [run_verb verb_steps taken]. rewrite pym_bind_unfold.
  assert (∀ a w', collect_page answered dclock clock between pid w = (a, w') →
    (let '(a, w') := collect_page answered dclock clock between pid w in
     match a with Ok d => (mret (Some d) : PyM worker (option delivery)) w' | Raise e => (Raise e, w') end).2 = w')
    as Hend by (intros [d|e] w' ->; done).
  destruct answered;
    [destruct (page_register (registers w) !! pid) as [row|] eqn:Hrow;
      [destruct (page_user pid (registers w)) as [u|e] eqn:Hu|]|].
  { pose proof (collect_page_desk dclock clock between pid row u w Hrow Hu) as Hc.
    destruct (collect_page true dclock clock between pid w) as [a w'] eqn:E. destruct Hc as (HL & HS & _).
    rewrite (Hend a w' eq_refl), HL, HS. by rewrite app_nil_r. }
  all: match goal with |- context [collect_page ?a _ _ _ _ _] =>
    destruct (collect_page_still a dclock clock between pid w) as [e' E'];
      [first [by left | by right; left | right; right; congruence] | by rewrite (Hend _ _ E')] end.
Qed.

(** One verb is its steps at the desk, and moves the slot by what it posts and takes. *)
Lemma verb_desk v w :
  verb_safe v →
  lane (run_verb v w).2 = foldl run_step (lane w) (verb_steps v w) ∧
  taken v w ++ sl_dbevents (slot (run_verb v w).2) = sl_dbevents (slot w) ++ posted v w.
Proof.
  intros Hs. destruct v as [answered table pid b|clock evs reason pid lo|answered clock
    |answered dclock clock between pid|answered now dnow ident c t|tables].
  - destruct (subscribe_desk answered table pid b w) as [-> ->]. by rewrite app_nil_r.
  - cbn [run_verb]. rewrite pym_bind_unfold. unfold py_modify, notifyDbEvents. cbn. 
    split; [done|]. by destruct lo; cbn; rewrite ?app_nil_r.
  - destruct (served_desk answered clock w) as [-> ->]. by rewrite !app_nil_r.
  - destruct (collect_desk answered dclock clock between pid w) as [-> HS].
    by rewrite HS, app_nil_r.
  - destruct (signal_desk answered now dnow ident c t w Hs) as [-> ->]. by rewrite app_nil_r.
  - by rewrite app_nil_r.
Qed.
End verbs.

(** ** The pool *)

Section pool.
Context `{BagApi, CoreRegistryLaws, TytxLaws}.

Definition op_safe (o : op) : Prop := verb_safe (op_verb o).

(** The deposits that left slots over a run, in the order they left; and, of one
    worker, what left its slot and what its commits laid there. *)
Fixpoint over_run {A} (f : verb → worker → list A) (only : requester → bool) (s : pool) (ops : list op)
    : list A :=
  match ops with
  | [] => []
  | o :: rest =>
      (if only (op_by o)
       then match seen s (op_by o) with None => [] | Some w => f (op_verb o) w end
       else []) ++ over_run f only (run_op s o) rest
  end.

Definition slot_of (s : pool) (who : requester) : list deposit := sl_dbevents (slot_at s who).

Lemma run_op_unknown s o : pl_workers s !! (op_by o).1 = None → run_op s o = s.
Proof. intros E. unfold run_op, on_pool. by rewrite E. Qed.

Lemma run_op_known s o w :
  seen s (op_by o) = Some w →
  let w' := (run_verb (op_verb o) w).2 in
  run_op s o = MkPool (lane w') (<[(op_by o).1 := w']> (pl_workers s)) (<[op_by o := slot w']> (pl_slots s)).
Proof.
  unfold run_op, on_pool, seen. destruct (pl_workers s !! (op_by o).1) as [w0|]; [|done].
  intros [= <-]. by destruct (run_verb _ _) as [a w'].
Qed.

Lemma seen_none s who : seen s who = None → pl_workers s !! who.1 = None.
Proof. unfold seen. by destruct (pl_workers s !! who.1). Qed.

Lemma seen_some s who w : seen s who = Some w → lane w = pl_desk s ∧ slot w = slot_at s who.
Proof. unfold seen. destruct (pl_workers s !! who.1); [|done]. by intros [= <-]. Qed.

(** One operation of the pool: its steps at the desk, its moves of the slots. *)
Lemma run_op_desk s o :
  op_safe o → pl_desk (run_op s o) = foldl run_step (pl_desk s) (op_steps s o).
Proof.
  intros Hs. unfold op_steps. destruct (seen s (op_by o)) as [w|] eqn:E.
  - rewrite (run_op_known s o w E). simpl. destruct (seen_some s _ w E) as [<- _].
    by destruct (verb_desk (op_verb o) w Hs).
  - by rewrite run_op_unknown by by apply seen_none.
Qed.

Lemma run_op_slot s o who :
  op_safe o →
  (if decide (op_by o = who)
   then match seen s who with None => [] | Some w => taken (op_verb o) w end else []) ++ slot_of (run_op s o) who =
  slot_of s who ++
  (if decide (op_by o = who)
   then match seen s who with None => [] | Some w => posted (op_verb o) w end else []).
Proof.
  intros Hs. unfold slot_of. destruct (seen s (op_by o)) as [w|] eqn:E.
  - rewrite (run_op_known s o w E). unfold slot_at at 1. cbn [pl_slots]. case_decide as Hi.
    + subst who. rewrite E, lookup_insert_eq. destruct (seen_some s _ w E) as [_ <-].
      by destruct (verb_desk (op_verb o) w Hs).
    + rewrite lookup_insert_ne by done. by rewrite app_nil_r.
  - rewrite run_op_unknown by by apply seen_none.
    case_decide as Hi; [subst who; rewrite E|]; by rewrite app_nil_r.
Qed.

Lemma verb_steps_few v w : verb_safe v → Forall step_safe (verb_steps v w) ∧ (length (verb_steps v w) ≤ 1)%nat.
Proof.
  intros Hs. unfold verb_steps. split;
    repeat (case_match || case_decide); subst; simpl; try lia; by repeat constructor.
Qed.

Lemma op_steps_few s o : op_safe o → Forall step_safe (op_steps s o) ∧ (length (op_steps s o) ≤ 1)%nat.
Proof.
  intros Hs. unfold op_steps. destruct (seen s _); [by apply verb_steps_few|]. simpl. split; [constructor|lia].
Qed.

Lemma run_ops_desk ops s :
  Forall op_safe ops → pl_desk (run_ops s ops) = foldl run_step (pl_desk s) (desk_trace s ops).
Proof.
  intros HF. revert s. induction HF as [|o ops Ho HF IH]; intros s; [done|].
  cbn [run_ops desk_trace foldl]. rewrite foldl_app, <- run_op_desk by done. apply IH.
Qed.

Lemma run_ops_slot ops s i :
  Forall op_safe ops →
  over_run taken (λ j, bool_decide (j = i)) s ops ++ slot_of (run_ops s ops) i =
  slot_of s i ++ over_run posted (λ j, bool_decide (j = i)) s ops.
Proof.
  intros HF. revert s. induction HF as [|o ops Ho HF IH]; intros s; [by rewrite app_nil_r|].
  cbn [run_ops over_run foldl]. rewrite <- app_assoc. rewrite IH, !app_assoc. f_equal.
  pose proof (run_op_slot s o i Ho) as E. case_bool_decide as Hi; [subst i|];
    [rewrite !decide_True in E by done | rewrite !decide_False in E by done]; exact E.
Qed.

Lemma desk_trace_few ops s :
  Forall op_safe ops → Forall step_safe (desk_trace s ops) ∧ (length (desk_trace s ops) ≤ length ops)%nat.
Proof.
  intros HF. revert s. induction HF as [|o ops Ho HF IH]; intros s; [by split; [constructor|]|].
  cbn [desk_trace]. destruct (op_steps_few s o Ho), (IH (run_op s o)). rewrite length_app. split.
  - by apply Forall_app.
  - simpl. lia.
Qed.


(** *** From a commit to the page it is for *)

(** Every verb that takes deposits off a slot is answered by the desk, and no page
    of the run closes its subscription of [table]. *)
Definition op_answered (o : op) : bool :=
  match op_verb o with Served answered _ => answered | _ => true end.

Definition keeps (p table : string) (o : op) : bool :=
  match op_verb o with
  | Subscribe _ t q b => b || bool_decide ((q, t) ≠ (p, table))
  | _ => true
  end.

Definition of_table (table : string) (ds : list deposit) : list (string * value * option string * option string) :=
  map deposit_body (filter (λ d, dep_table d = table) ds).

Lemma of_table_app table ds ds' : of_table table (ds ++ ds') = of_table table ds ++ of_table table ds'.
Proof. unfold of_table. by rewrite filter_app, map_app. Qed.

Lemma deposits_for_table i p table clock ds :
  p ∈ pages_for i table → of_table table (deposits_for i p clock ds) = of_table table ds.
Proof.
  intros Hp. revert clock. induction ds as [|d ds IH]; intros clock; [done|]. cbn [deposits_for].
  rewrite of_table_app, IH. change (d :: ds) with ([d] ++ ds). rewrite of_table_app. f_equal.
  unfold of_table. destruct (decide (dep_table d = table)) as [<-|Hne].
  - rewrite decide_True by done. by rewrite !filter_cons_True.
  - rewrite (filter_cons_False _ d) by done. case_decide; [|done].
    by rewrite filter_cons_False.
Qed.

(** A step of the desk that keeps a page on a table, and of a trace of them. *)
Definition step_keeps (p table : string) (st : desk_step) : Prop :=
  match st with StepSubscribe q t b => b || bool_decide ((q, t) ≠ (p, table)) = true | _ => True end.

Lemma step_keeps_index self st p table :
  p ∈ pages_for (page_subscriptions self) table → step_keeps p table st →
  p ∈ pages_for (page_subscriptions (run_step self st)) table.
Proof.
  intros Hp Hk. destruct st as [now t c|clock q u evs|clock evs|q t b]; cbn [run_step].
  - unfold on_datachange. case_match; [done|]. rewrite pym_bind_unfold.
    by unfold file_datachange.
  - by destruct (exchange_after clock q u evs self) as [-> _].
  - unfold deposit_route. by destruct (file_dbevents_frame clock evs self) as [-> _].
  - unfold subscribe_table. destruct b; simpl.
    + unfold pages_for; simpl. apply grow_lookup. by right.
    + unfold unsubscribe. pose proof (forget_maps q t (page_subscriptions self)) as E.
      destruct (_forget q t (page_subscriptions self)) as [moved i']; simpl in *. subst i'.
      unfold pages_for; simpl. apply shrink_lookup. split; [done|]. intros [-> ->].
      by apply bool_decide_eq_true in Hk.
Qed.

(** What a trace files for a page still subscribed is what its batches carry of the table. *)
Definition step_deposits (st : desk_step) : list deposit :=
  match st with StepExchange _ _ _ evs | StepDeposit _ evs => evs | _ => [] end.

Lemma filed_of_table p table steps self :
  p ∈ pages_for (page_subscriptions self) table → Forall (step_keeps p table) steps →
  of_table table (collect_over (filed p) self steps).2 = of_table table (concat (map step_deposits steps)).
Proof.
  intros Hp HF. revert self Hp. induction HF as [|st steps Hst HF IH]; intros self Hp; [done|].
  cbn [collect_over map concat]. unfold pair_app. cbn [snd].
  rewrite !of_table_app, IH by (by apply step_keeps_index). f_equal.
  by destruct st; simpl; rewrite ?deposits_for_table.
Qed.

Lemma op_steps_deposits s o :
  op_answered o = true →
  concat (map step_deposits (op_steps s o)) =
    match seen s (op_by o) with None => [] | Some w => taken (op_verb o) w end.
Proof.
  unfold op_answered, op_steps. intros Ha. destruct (seen s _) as [w|]; [|done].
  destruct (op_verb o) as [[] ? ? ?|? ? ? ? ?|[] ?|[] ? ? ? ?|[] ? ? ? ? ?|?]; try done; simpl.
  - by case_match.
  - by case_match; simpl; rewrite ?app_nil_r.
  - repeat case_match; simpl; by rewrite ?app_nil_r.
  - repeat (case_match || case_decide); done.
Qed.

Lemma trace_deposits ops s :
  Forall (λ o, op_answered o = true) ops →
  concat (map step_deposits (desk_trace s ops)) = over_run taken (λ _, true) s ops.
Proof.
  intros HF. revert s. induction HF as [|o ops Ho HF IH]; intros s; [done|].
  cbn [desk_trace over_run]. by rewrite map_app, concat_app, IH, op_steps_deposits.
Qed.

Lemma op_steps_keep p table s o : keeps p table o = true → Forall (step_keeps p table) (op_steps s o).
Proof.
  unfold keeps, op_steps. intros Hk. destruct (seen s _) as [w|]; [|constructor].
  destruct (op_verb o) as [[] table0 q b|? ? ? ? ?|[] ?|[] ? ? ? ?|[] ? ? ? ? ?|?]; cbn [verb_steps].
  1: destruct (page_register (registers w) !! q); [by repeat constructor | constructor].
  all: repeat (case_match || case_decide); by repeat constructor.
Qed.

Lemma desk_trace_keeps p table ops s :
  Forall (λ o, keeps p table o = true) ops → Forall (step_keeps p table) (desk_trace s ops).
Proof.
  intros HF. revert s. induction HF as [|o ops Ho HF IH]; intros s; [constructor|].
  cbn [desk_trace]. apply Forall_app. split; [by apply op_steps_keep | apply IH].
Qed.

(** What the commits of a run announce of one table: its batches that are not empty, at
    the workers whose filter holds it. *)
Definition commits_of (table : string) (v : verb) (w : worker)
    : list (string * value * option string * option string) :=
  match v with
  | Commits _ dbevents reason page_id false =>
      if decide (table ∈ subscribed_tables w)
      then (λ tb, (tb.1, tb.2, page_id, reason)) <$>
             filter (λ tb : string * value, tb.1 = table ∧ truthy tb.2 = true) dbevents
      else []
  | _ => []
  end.

Lemma announced_of_table table clock dbevents reason page_id f :
  of_table table (announced_deposits clock dbevents reason page_id false f) =
    if decide (table ∈ f)
    then (λ tb, (tb.1, tb.2, page_id, reason)) <$>
           filter (λ tb : string * value, tb.1 = table ∧ truthy tb.2 = true) dbevents
    else [].
Proof.
  revert clock. induction dbevents as [|[t b] rest IH]; intros clock; [by case_decide|].
  cbn [announced_deposits]. rewrite filter_cons. cbn [fst snd orb].
  destruct (truthy b) eqn:Hb; cbn [andb].
  2: { rewrite (decide_False (P := t = table ∧ false = true)) by (by intros [_ ?]). apply IH. }
  case_bool_decide as Ht.
  - change (dbevent_deposit (hd 0 clock) t b page_id reason :: ?x) with
      ([dbevent_deposit (hd 0 clock) t b page_id reason] ++ x).
    rewrite of_table_app, IH. destruct (decide (t = table)) as [->|Hne].
    + rewrite (decide_True (P := table = table ∧ true = true)), !(decide_True (P := table ∈ f)) by done.
      unfold of_table at 1. by rewrite filter_cons_True.
    + rewrite (decide_False (P := t = table ∧ true = true)) by (by intros [? _]).
      unfold of_table. by rewrite filter_cons_False.
  - rewrite IH. case_decide as Hf; [|done]. by rewrite decide_False by (intros [-> _]; done).
Qed.

Lemma posted_of_table table v w : of_table table (posted v w) = commits_of table v w.
Proof. destruct v as [| ? ? ? ? []| | | |]; try done. apply announced_of_table. Qed.

Lemma over_run_of_table table only ops s :
  of_table table (over_run posted only s ops) = over_run (commits_of table) only s ops.
Proof.
  revert s. induction ops as [|o ops IH]; intros s; [done|]. cbn [over_run]. rewrite of_table_app, IH.
  f_equal. destruct (only _); [|done]. destruct (seen s _); [apply posted_of_table | done].
Qed.

(** The slots of the whole pool. *)
Definition all_slots (s : pool) : list deposit :=
  rs ← map_to_list (pl_slots s); sl_dbevents rs.2.

Lemma all_slots_split s who :
  all_slots s ≡ₚ slot_of s who ++ (rs ← map_to_list (delete who (pl_slots s)); sl_dbevents rs.2).
Proof.
  unfold all_slots, slot_of, slot_at. destruct (pl_slots s !! who) as [sl|] eqn:E; simpl.
  - by rewrite <- (map_to_list_delete (pl_slots s) who sl E), bind_cons.
  - by rewrite delete_id.
Qed.

Lemma run_op_slots s o :
  op_safe o →
  match seen s (op_by o) with None => [] | Some w => taken (op_verb o) w end ++ all_slots (run_op s o) ≡ₚ
  all_slots s ++ match seen s (op_by o) with None => [] | Some w => posted (op_verb o) w end.
Proof.
  intros Hs. pose proof (run_op_slot s o (op_by o) Hs) as E. rewrite !decide_True in E by done.
  rewrite (all_slots_split (run_op s o) (op_by o)), (all_slots_split s (op_by o)), app_assoc, E.
  assert (delete (op_by o) (pl_slots (run_op s o)) = delete (op_by o) (pl_slots s)) as ->.
  { destruct (seen s (op_by o)) as [w|] eqn:Ew.
    - rewrite (run_op_known s o w Ew). simpl. by rewrite delete_insert_eq.
    - by rewrite run_op_unknown by by apply seen_none. }
  rewrite <- !app_assoc. f_equiv. apply Permutation_app_comm.
Qed.

Lemma run_ops_slots ops s :
  Forall op_safe ops →
  over_run taken (λ _, true) s ops ++ all_slots (run_ops s ops) ≡ₚ
    all_slots s ++ over_run posted (λ _, true) s ops.
Proof.
  intros HF. revert s. induction HF as [|o ops Ho HF IH]; intros s; [by rewrite app_nil_r|].
  cbn [run_ops over_run foldl]. rewrite <- app_assoc, IH, !app_assoc. by rewrite (run_op_slots s o Ho).
Qed.

Lemma of_table_perm table ds ds' : ds ≡ₚ ds' → of_table table ds ≡ₚ of_table table ds'.
Proof. intros Hp. unfold of_table. by rewrite Hp. Qed.

(** *** What the page is given, and what its landings lose *)

(** The table events a collect of [p] answers with; those the desk had handed it when
    its landing raised; those of the hidden transaction, which ride the same answer. *)
Definition received (p : string) (v : verb) (w : worker) : list deposit :=
  match v, (run_verb v w).1 with
  | Collect _ _ _ _ q, Ok (Some d) => if decide (q = p) then dl_dbevents d else []
  | _, _ => []
  end.

Definition desk_hands (p : string) (v : verb) (w : worker) : list deposit :=
  (collect_over (handed p) (lane w) (verb_steps v w)).2.

Definition stranded (p : string) (v : verb) (w : worker) : list deposit :=
  match (run_verb v w).1 with Ok _ => [] | Raise _ => desk_hands p v w end.

Definition own_given (p : string) (v : verb) (w : worker) : list deposit :=
  match v, (run_verb v w).1 with
  | Collect _ _ _ _ q, Ok _ => if decide (q = p) then sl_own_dbevents (slot w) else []
  | _, _ => []
  end.

Lemma no_exchange_no_hands p v w :
  (∀ answered dclock clock between q, v ≠ Collect answered dclock clock between q) → desk_hands p v w = [].
Proof.
  intros Hv. unfold desk_hands. destruct v as [[] ? ? ?| |[] ?|answered ? ? ? q|[] ? ? ? ? ?|]; try done; simpl.
  - by destruct (page_register _ !! _).
  - by destruct (sl_dbevents (slot w)).
  - by destruct (Hv answered desk_clock clock between q).
  - repeat (case_match || case_decide); done.
Qed.

(** One collect: what the desk handed it is given or stranded, by what it answers. *)
Lemma verb_gives p v w : received p v w ++ stranded p v w = desk_hands p v w ++ own_given p v w.
Proof.
  destruct v as [answered table q b|clock evs reason q lo|answered clock
    |answered dclock clock between q|answered now dnow ident c t|tables].
  1-3,5-6: unfold received, stranded, own_given; rewrite no_exchange_no_hands by done; by case_match.
  unfold received, stranded, own_given, desk_hands. cbn [run_verb verb_steps]. rewrite pym_bind_unfold.
  destruct answered, (page_register (registers w) !! q) as [row|] eqn:Hrow,
    (page_user q (registers w)) as [u|e] eqn:Hu.
  1: { pose proof (collect_page_desk dclock clock between q row u w Hrow Hu) as HC.
       destruct (collect_page true dclock clock between q w) as [[d|e] w']; cbn [fst mret pym_ret].
       - destruct HC as (_ & _ & HO). specialize (HO d eq_refl). cbn [collect_over handed]. unfold pair_app. cbn [snd].
         case_decide; cbn [fst snd]; by rewrite ?app_nil_r.
       - by rewrite app_nil_r. }
  all: match goal with |- context [collect_page ?a _ _ _ _ _] =>
    destruct (collect_page_still a dclock clock between q w) as [e' ->];
      [first [by left | by right; left | right; right; congruence] | done] end.
Qed.

Lemma over_run_split {A} (f g h k : verb → worker → list A) only ops s :
  (∀ v w, f v w ++ g v w ≡ₚ h v w ++ k v w) →
  over_run f only s ops ++ over_run g only s ops ≡ₚ over_run h only s ops ++ over_run k only s ops.
Proof.
  intros Hone. revert s. induction ops as [|o ops IH]; intros s; [done|]. cbn [over_run].
  destruct (only (op_by o)); [|apply IH]. destruct (seen s (op_by o)) as [w|]; [|apply IH].
  transitivity ((f (op_verb o) w ++ g (op_verb o) w) ++
    over_run f only (run_op s o) ops ++ over_run g only (run_op s o) ops); [solve_Permutation|].
  rewrite Hone, IH. solve_Permutation.
Qed.

Lemma collect_over_app f steps steps' self :
  collect_over f self (steps ++ steps') =
    pair_app (collect_over f self steps) (collect_over f (foldl run_step self steps) steps').
Proof.
  revert self. induction steps as [|st steps IH]; intros self; cbn [app collect_over foldl].
  - by destruct (collect_over f self steps').
  - by rewrite IH, pair_app_assoc.
Qed.

(** The exchanges of the trace, collect by collect. *)
Lemma trace_hands p ops s :
  Forall op_safe ops →
  (collect_over (handed p) (pl_desk s) (desk_trace s ops)).2 = over_run (desk_hands p) (λ _, true) s ops.
Proof.
  intros HF. revert s. induction HF as [|o ops Ho HF IH]; intros s; [done|].
  cbn [desk_trace over_run]. rewrite collect_over_app. unfold pair_app. cbn [snd].
  rewrite <- run_op_desk by done. rewrite IH. f_equal. unfold op_steps.
  destruct (seen s (op_by o)) as [w|] eqn:E; [|done].
  destruct (seen_some s _ w E) as [<- _]. done.
Qed.

(** A run whose collects of [p] strand nothing and carry nothing of their own gives what
    the desk handed, in its order. *)
Lemma nothing_stranded p table ops s :
  of_table table (over_run (stranded p) (λ _, true) s ops) = [] →
  of_table table (over_run (own_given p) (λ _, true) s ops) = [] →
  of_table table (over_run (received p) (λ _, true) s ops) =
    of_table table (over_run (desk_hands p) (λ _, true) s ops).
Proof.
  revert s. induction ops as [|o ops IH]; intros s; [done|]. cbn [over_run]. rewrite !of_table_app.
  intros [H1' H2']%app_eq_nil [H3' H4']%app_eq_nil. rewrite IH by done. f_equal.
  destruct (seen s (op_by o)) as [w|]; [|done].
  pose proof (f_equal (of_table table) (verb_gives p (op_verb o) w)) as E.
  rewrite !of_table_app, H1', H3', !app_nil_r in E. exact E.
Qed.

End pool.

(** ** Concrete inputs *)

Module PoolWitness.
#[local] Existing Instance Witness.flat_bag.
#[local] Existing Instance RegistryWitness.plain_core.
#[local] Existing Instance TytxWitness.plain_tytx.
#[local] Existing Instance TytxWitness.plain_tytx_laws.
#[local] Existing Instance WorkerWitness.plain_core_laws_here.
Import DeskWitness WorkerWitness.

(** Two workers; the second commits, its request ends, and a page of the first collects,
    between a signal of the second and a subscription of the first. *)
Definition two_workers : pool :=
  MkPool busy_desk {["w1" := a_worker; "w2" := a_worker]} {[("w1", "r1") := slot a_worker]}.

Definition busy_day : list op :=
  [Op ("w2", "r2") (Commits [5] [("t.a", VInt 5); ("t.z", VInt 6)] None (Some "p9") false);
   Op ("w2", "r3") (Signal true 6 7 (Some "anna") (a_change "x" 6) "p1");
   Op ("w1", "r1") (Subscribe true "t.c" "p1" true);
   Op ("w2", "r2") (Served true [8]);
   Op ("w1", "r1") (Collect true [9] [10] id "p1")].

Lemma busy_day_safe : Forall op_safe busy_day.
Proof. by repeat constructor. Qed.


End PoolWitness.
End Pool.
