(* ===== verification/GlobalStore.v ===== *)
(** * GlobalStoreAdapter: the legacy dotted path onto the commander's dictionary

    src/genropy_asgi/siteregister/global_store_adapter.py.  The adapter's state is
    what it reaches - the worker's [GlobalStoreClient] once attached, its local Bag
    before - and the turn its thread holds.  The client (genro-asgi) is the class
    [GlobalStoreClient], every call of which may raise; its laws are the commander's
    dictionary as the module's docstring describes it: what the wire makes of a
    value, and that a call which raised did its work whole or not at all. *)

From S2P Require Export PyValue.

Module Global.

Definition content : Type := list (string * value).

(** ** The worker's client of the commander's one dictionary: third-party

    Every call goes over the worker's channel and may raise; it leaves the client's
    state, the master's included, whether it answers or raises. *)
Class GlobalStoreClient : Type := {
  client : Type;
  store_get : string → PyM client (option value);
  store_set : string → value → PyM client ();
  store_delete : string → PyM client ();
  (* [with store.for_update(key) as keyed]: the body sees what is stored and answers
     what to publish, or aborts *)
  store_for_update : string → (option value → option value) → PyM client ();
  (* [for_update().__enter__()]: the lease's private dictionary *)
  turn_enter : PyM client content;
  (* [lease.__exit__]: what to publish, or nothing *)
  turn_exit : option content → PyM client ()
}.

(** A word the wire and the typed XML of a Bag both carry as it stands: letters,
    digits and underscores, at least one. *)
Definition word_char (c : ascii) : bool :=
  let n := nat_of_ascii c in
  ((48 <=? n)%nat && (n <=? 57)%nat) || ((65 <=? n)%nat && (n <=? 90)%nat) ||
  ((97 <=? n)%nat && (n <=? 122)%nat) || (n =? 95)%nat.

Definition plain_word (s : string) : bool :=
  negb (bool_decide (s = "")) && forallb word_char (String.list_ascii_of_string s).

(** A path of labels alone, without the Bag's position, attribute and parent marks. *)
Definition plain_path (p : string) : bool := forallb plain_word (split_dot p).

Definition plain_scalar (v : value) : bool :=
  match v with VInt _ | VBool _ => true | VStr s => plain_word s | _ => false end.

Definition whole_seconds (t : Z) : Prop := t mod 1000000 = 0.

(** The dictionary behind it, and what the road to it and back makes of a value.
    [trip] is a value's whole round trip as a key's value; [trip_leaf] that of a
    value inside a legacy Bag, which travels as typed XML.  Neither is the identity:
    an aware datetime keeps its instant to the millisecond, and a naive one inside a
    Bag comes back aware, its clock kept, with the local offset.  A call that raises
    has done its work whole or not at all, for the caller cannot tell which. *)
Class MasterLaws `{BagApi, LocalZone, GlobalStoreClient} : Type := {
  master : client → gmap string value;
  trip : value → value;
  trip_leaf : value → value;
  trip_scalar : ∀ v, plain_scalar v = true → trip v = v;
  trip_aware : ∀ c o, ∃ c' o', trip (VAware c o) = VAware c' o' ∧
    (c' - o') mod 1000 = 0 ∧ Z.abs ((c' - o') - (c - o)) < 1000;
  trip_bag : ∀ b, ∃ b', trip (VBag b) = VBag b' ∧
    ∀ p, plain_path p = true → bag_getItem b' p = trip_leaf <$> bag_getItem b p;
  leaf_scalar : ∀ v, plain_scalar v = true → trip_leaf v = v;
  leaf_date : ∀ c, whole_seconds c → trip_leaf (VNaive c) = VAware c (local_offset c);
  get_law : ∀ k s, let '(found, s') := store_get k s in
    master s' = master s ∧ ∀ v, found = Ok v → v = master s !! k;
  set_law : ∀ k v s, let '(a, s') := store_set k v s in
    master s' = <[k := trip v]> (master s) ∨ (a ≠ Ok () ∧ master s' = master s);
  delete_law : ∀ k s, let '(a, s') := store_delete k s in
    master s' = delete k (master s) ∨ (a ≠ Ok () ∧ master s' = master s);
  for_update_law : ∀ k f s, let '(a, s') := store_for_update k f s in
    master s' = match f (master s !! k) with
                | Some v => <[k := trip v]> (master s)
                | None => master s
                end ∨ (a ≠ Ok () ∧ master s' = master s);
  enter_law : ∀ s, let '(entered, s') := turn_enter s in
    master s' = master s ∧ ∀ d, entered = Ok d → ∀ k, dict_get k d = master s !! k;
  abort_law : ∀ s, master (turn_exit None s).2 = master s;
  exit_law : ∀ d s, let '(a, s') := turn_exit (Some d) s in
    (∀ k, master s' !! k = trip <$> dict_get k d) ∨ (a ≠ Ok () ∧ master s' = master s)
}.

(** ** The adapter *)

Record adapter `{GlobalStoreClient} : Type := Adapter {
  core_store : option client;             (* [None] while no worker is attached *)
  local_bag : bag;
  active_turn : option content            (* the lease of this thread, its dictionary *)
}.
Arguments Adapter {_} _ _ _.

Section adapter.
Context `{BagApi, LocalZone, GlobalStoreClient}.

Definition new_adapter (c : option client) : adapter := Adapter c [] None.

Definition with_store (c : client) (self : adapter) : adapter :=
  Adapter (Some c) (local_bag self) (active_turn self).
Definition with_local (b : bag) (self : adapter) : adapter :=
  Adapter (core_store self) b (active_turn self).
Definition with_turn (t : option content) (self : adapter) : adapter :=
  Adapter (core_store self) (local_bag self) t.

Definition split_global_path (path : option string) : option string * string :=
  match path with
  | None | Some EmptyString => (None, "")
  | Some p => let '(key, rest) := partition_dot p in (Some key, rest)
  end.

(** ** The boundary *)

Fixpoint legacy_value (v : value) : value :=
  match v with
  | VBag nodes => VBag (map (λ n, (n.1.1, legacy_value n.1.2, n.2)) nodes)
  | VAware clock offset => VNaive (naive_local clock offset)
  | _ => v
  end.

Definition wire_value (v : value) : value :=
  match v with
  | VNaive clock => attach_local clock
  | _ => v
  end.

Definition bag_item (b : bag) (path : string) (default_ : value) : value :=
  default default_ (bag_getItem b path).

Definition _legacy_read (v : value) (rest : string) (default_ : value) : value :=
  if decide (rest = "") then legacy_value v
  else match v with
       | VBag b => legacy_value (bag_item b rest default_)
       | _ => default_
       end.

Definition set_in (b : bag) (path : string) (v : value) : bag :=
  (bag_setItem b path v None None).1.
Definition del_in (b : bag) (path : string) : bag := (bag_delItem b path None).1.

(** The Bag a key holds, or the fresh one a write into it starts from. *)
Definition bag_under (found : option value) : bag :=
  match found with Some (VBag b) => b | _ => [] end.

Definition _write_into (c : content) (key rest : string) (v : value) : content :=
  if decide (rest = "") then dict_set key (wire_value (legacy_value v)) c
  else
    dict_set key (VBag (set_in (bag_under (dict_get key c)) rest (legacy_value v))) c.

Definition _delete_from (c : content) (key rest : string) : content :=
  if decide (rest = "") then dict_pop key c
  else match dict_get key c with
       | Some (VBag b) => dict_set key (VBag (del_in b rest)) c
       | _ => c
       end.

Definition _as_legacy_bag (c : content) : bag :=
  foldl (λ b '(key, v), set_in b key (legacy_value v)) [] c.

(** ** The turn *)

Definition open_turn : PyM adapter () := λ self,
  match core_store self with
  | None => (Raise GnrDaemonLocked, self)
  | Some store =>
      let '(entered, store) := turn_enter store in
      let self := with_store store self in
      match entered with
      | Raise RuntimeError => (Raise RuntimeError, self)
      | Raise _ => (Raise GnrDaemonLocked, self)
      | Ok dictionary => (Ok (), with_turn (Some dictionary) self)
      end
  end.

(** What the lease is left with to publish. *)
Definition to_publish (failed : bool) (dictionary : content) : option content :=
  if failed then None else Some (map (λ '(k, v), (k, wire_value v)) dictionary).

(** [failed] is whether the block leaves on an exception. *)
Definition close_turn (failed : bool) : PyM adapter () := λ self,
  let lease := active_turn self in
  let self := with_turn None self in
  match lease, core_store self with
  | Some dictionary, Some store =>
      let '(left_, store) := turn_exit (to_publish failed dictionary) store in
      (left_, with_store store self)
  | _, _ => (Raise AttributeError, self)
  end.

(** ** The three operations and the whole-store reader *)

Definition store_bag : PyM adapter bag := λ self,
  match active_turn self with
  | Some dictionary => (Ok (_as_legacy_bag dictionary), self)
  | None =>
      match core_store self with
      | None =>
          (Ok (match legacy_value (VBag (local_bag self)) with VBag b => b | _ => [] end), self)
      | Some store =>
          let '(entered, store) := turn_enter store in
          match entered with
          | Raise e => (Raise e, with_store store self)
          | Ok dictionary =>
              let '(left_, store) := turn_exit None store in
              ((λ _, _as_legacy_bag dictionary) <$> left_, with_store store self)
          end
      end
  end.

Definition get_global_item (path : option string) (default_ : value) : PyM adapter value := λ self,
  match split_global_path path with
  | (None, _) => (store_bag ≫= λ b, mret (VBag b)) self
  | (Some key, rest) =>
      match active_turn self with
      | Some dictionary =>
          (Ok (match dict_get key dictionary with
               | None => default_
               | Some v => _legacy_read v rest default_
               end), self)
      | None =>
          match core_store self with
          | None =>
              (Ok (legacy_value (bag_item (local_bag self) (default "" path) default_)), self)
          | Some store =>
              let '(found, store) := store_get key store in
              ((λ found, match found with
                         | None => default_
                         | Some v => _legacy_read v rest default_
                         end) <$> found, with_store store self)
          end
      end
  end.

(** A call of the store. *)
Definition on_store (f : PyM client ()) (store : client) : PyM adapter () := λ self,
  let '(answer, store) := f store in (answer, with_store store self).

Definition set_global_item (path : option string) (v : value) : PyM adapter () := λ self,
  match split_global_path path with
  | (None, _) => (Raise ValueError, self)
  | (Some key, rest) =>
      match active_turn self with
      | Some dictionary => (Ok (), with_turn (Some (_write_into dictionary key rest v)) self)
      | None =>
          match core_store self with
          | None =>
              (Ok (), with_local (set_in (local_bag self) (default "" path) (legacy_value v)) self)
          | Some store =>
              if decide (rest = "") then on_store (store_set key (wire_value v)) store self
              else
                on_store
                  (store_for_update key (λ found,
                     Some (VBag (set_in (bag_under found) rest v)))) store self
          end
      end
  end.

Definition delete_global_item (path : option string) : PyM adapter () := λ self,
  match split_global_path path with
  | (None, _) => (Raise ValueError, self)
  | (Some key, rest) =>
      match active_turn self with
      | Some dictionary => (Ok (), with_turn (Some (_delete_from dictionary key rest)) self)
      | None =>
          match core_store self with
          | None => (Ok (), with_local (del_in (local_bag self) (default "" path)) self)
          | Some store =>
              if decide (rest = "") then on_store (store_delete key) store self
              else
                on_store
                  (store_for_update key (λ found,
                     match found with
                     | Some (VBag b) => Some (VBag (del_in b rest))
                     | _ => None
                     end)) store self
          end
      end
  end.

(** The legacy names. *)
Definition getItem (path : option string) (default_ : value) : PyM adapter value :=
  get_global_item path default_.
Definition setItem (path : option string) (v : value) : PyM adapter () := set_global_item path v.
Definition delItem (path : option string) : PyM adapter () := delete_global_item path.
End adapter.

(** ** What the boundary does to a value *)

Section boundary.
Context `{LocalZone}.

(** No aware datetime is left where the legacy compares clocks: the value itself
    and the leaves of its Bags. *)
Fixpoint naive_value (v : value) : bool :=
  match v with
  | VBag nodes => forallb (λ n, naive_value n.1.2) nodes
  | VAware _ _ => false
  | _ => true
  end.

Lemma legacy_value_naive v : naive_value (legacy_value v) = true.
Proof.
  induction v as [| | | | | | | | |ns IH|] using value_nested_ind; simpl; try done.
  induction IH as [|[[l x] a] ns [Hn _] HF IH]; simpl; [done|].
  unfold node_value in Hn; simpl in Hn. by rewrite Hn.
Qed.

Lemma legacy_value_fixed v : naive_value v = true → legacy_value v = v.
Proof.
  induction v as [| | | | | | | | |ns IH|] using value_nested_ind; simpl; try done.
  intros Hv. f_equal. induction IH as [|[[l x] a] ns [Hn _] HF IH]; simpl in *; [done|].
  bools. unfold node_value in Hn; simpl in Hn. by rewrite Hn, IH.
Qed.

Lemma legacy_value_idem v : legacy_value (legacy_value v) = legacy_value v.
Proof. apply legacy_value_fixed, legacy_value_naive. Qed.

(** A Bag comes out with its nodes, labels and attributes in their places. *)
Lemma legacy_value_shape nodes :
  ∃ nodes', legacy_value (VBag nodes) = VBag nodes' ∧
    map node_label nodes' = map node_label nodes ∧ map node_attr nodes' = map node_attr nodes.
Proof. eexists. split; [done|]. by rewrite !map_map. Qed.
End boundary.

(** ** Writing and reading back *)

Section laws.
Context `{BagLaws, LocalZone, !GlobalStoreClient, !MasterLaws}.

Definition reaches (self : adapter) (s : client) : Prop :=
  core_store self = Some s ∧ active_turn self = None.

(** What every road hands back exactly: an int, a bool, a plain word, and a naive
    date of whole seconds outside a daylight-saving gap. *)
Definition kept_value (v : value) : Prop :=
  match v with
  | VNaive c => whole_seconds c ∧ whole_seconds (local_offset c) ∧ zone_reads_back c
  | _ => plain_scalar v = true
  end.

Lemma trip_date clock :
  (clock - local_offset clock) mod 1000 = 0 → zone_reads_back clock →
  legacy_value (trip (wire_value (VNaive clock))) = VNaive clock.
Proof.
  intros Hms Hz. simpl. unfold attach_local.
  destruct (trip_aware clock (local_offset clock)) as (c' & o' & -> & Em & E). simpl. f_equal.
  assert (c' - o' = clock - local_offset clock) as Eq.
  { apply Z.mod_divide in Em as [m Hm], Hms as [n Hn]; lia. }
  unfold naive_local. rewrite Eq. apply (naive_local_attach clock Hz).
Qed.

Lemma whole_seconds_ms t : whole_seconds t → ∃ n, t = n * 1000.
Proof. intros [m ->]%Z.mod_divide; [|done]. exists (m * 1000). lia. Qed.

Lemma trip_kept v : kept_value v → legacy_value (trip (wire_value v)) = v.
Proof.
  destruct v; intros Hk; try discriminate Hk; simpl wire_value.
  4: { destruct Hk as ([m Hm]%whole_seconds_ms & [n Hn]%whole_seconds_ms & Hz).
       apply trip_date; [|done]. rewrite Hm at 1. rewrite Hn, <-Z.mul_sub_distr_r. apply Z_mod_mult. }
  all: by rewrite trip_scalar.
Qed.

Lemma leaf_kept v : kept_value v → legacy_value (trip_leaf v) = v.
Proof.
  destruct v; intros Hk; try discriminate Hk.
  4: { destruct Hk as (Hs & _ & Hz). rewrite leaf_date by done. simpl. by rewrite naive_local_attach. }
  all: by rewrite leaf_scalar.
Qed.

(** The store a write leaves when its call did its work. *)
Definition written (key rest : string) (v : value) (m : gmap string value) : gmap string value :=
  <[key := trip (if decide (rest = "") then wire_value v
                 else VBag (set_in (bag_under (m !! key)) rest v))]> m.

(** The client's call a write is. *)
Definition write_call (key rest : string) (v : value) : PyM client () :=
  if decide (rest = "") then store_set key (wire_value v)
  else store_for_update key (λ found, Some (VBag (set_in (bag_under found) rest v))).

Lemma write_call_law key rest v s :
  let '(a, s') := write_call key rest v s in
  master s' = written key rest v (master s) ∨ (a ≠ Ok () ∧ master s' = master s).
Proof.
  unfold write_call, written. case_decide; [apply set_law|].
  apply (for_update_law key (λ found, Some (VBag (set_in (bag_under found) rest v)))).
Qed.

Lemma write_reaches path key rest v self s :
  reaches self s → split_global_path path = (Some key, rest) →
  set_global_item path v self =
    ((write_call key rest v s).1, with_store (write_call key rest v s).2 self).
Proof.
  intros [Hs Ht] Hp. unfold set_global_item, write_call. rewrite Hp, Ht, Hs.
  case_decide; unfold on_store;
    [by destruct (store_set _ _ s) | by destruct (store_for_update _ _ s)].
Qed.

(** A read of [path] answers [x] whenever the client's own read does not raise, and
    touches nothing either way. *)
Definition read_answers (path : option string) (d x : value) (self : adapter) (s : client) : Prop :=
  ∃ key rest, split_global_path path = (Some key, rest) ∧
    let '(found, s') := store_get key s in
    master s' = master s ∧
    get_global_item path d self =
      (match found with Ok _ => Ok x | Raise e => Raise e end, with_store s' self).

Lemma read_reaches path key rest d self s :
  reaches self s → split_global_path path = (Some key, rest) →
  read_answers path d
    (match master s !! key with None => d | Some v => _legacy_read v rest d end) self s.
Proof.
  intros [Hs Ht] Hp. exists key, rest. split; [done|]. pose proof (get_law key s) as HG.
  unfold get_global_item. rewrite Hp, Ht, Hs. destruct (store_get key s) as [found s'].
  destruct HG as [Hm Hf]. split; [done|]. destruct found as [v|e]; [|done].
  simpl. by rewrite (Hf v).
Qed.

(** Reading inside a key once a write inside it has landed. *)
Lemma read_in_written path key rest v q x d self s m :
  reaches self s → master s = written key rest v m → rest ≠ "" →
  split_global_path path = (Some key, q) → q ≠ "" → plain_path q = true →
  bag_getItem (set_in (bag_under (m !! key)) rest v) q = x →
  read_answers path d (legacy_value (default d (trip_leaf <$> x))) self s.
Proof.
  intros Hr Hm Hrest Hp Hq Hpl Hx. pose proof (read_reaches path key q d self s Hr Hp) as HR.
  rewrite Hm in HR. unfold written in HR. rewrite lookup_insert_eq, decide_False in HR by done.
  destruct (trip_bag (set_in (bag_under (m !! key)) rest v)) as (b' & Eb & Hb'). rewrite Eb in HR.
  unfold _legacy_read in HR. rewrite decide_False in HR by done. unfold bag_item in HR.
  by rewrite (Hb' q Hpl), Hx in HR.
Qed.

(** What a write that did its work shows: the other keys as they were, the value
    where it was written, and the leaves that stand apart from it. *)
Record landed (path : option string) (key rest : string) (v d : value) (self : adapter)
    (s s' : client) : Prop := Landed {
  la_keys : ∀ k, k ≠ key → master s' !! k = master s !! k;
  la_value : read_answers path d
    (legacy_value (if decide (rest = "") then trip (wire_value v) else trip_leaf v)) self s';
  la_kept : kept_value v → read_answers path d v self s';
  la_leaves : ∀ b q p, rest ≠ "" → master s !! key = Some (VBag b) →
    plain_path q = true → q ≠ "" → under q rest = false → under rest q = false →
    split_global_path p = (Some key, q) →
    read_answers p d (legacy_value (default d (trip_leaf <$> bag_getItem b q))) self s' ∧
    ∀ x, bag_getItem b q = Some x → kept_value x → read_answers p d x self s'
}.

Lemma written_landed path key rest v d self s s' :
  reaches self s' → split_global_path path = (Some key, rest) →
  (rest ≠ "" → plain_path rest = true) →
  master s' = written key rest v (master s) → landed path key rest v d self s s'.
Proof.
  intros Hr Hp Hpl Hm.
  assert (read_answers path d
    (legacy_value (if decide (rest = "") then trip (wire_value v) else trip_leaf v)) self s') as HV.
  { destruct (decide (rest = "")) as [->|Hrest].
    - pose proof (read_reaches path key "" d self s' Hr Hp) as HR. rewrite Hm in HR.
      unfold written in HR. rewrite lookup_insert_eq, decide_True in HR by done.
      unfold _legacy_read in HR. by rewrite decide_True in HR.
    - apply (read_in_written path key rest v rest (Some v) d self s' (master s)); auto.
      unfold set_in. by apply bag_get_set. }
  split; [|exact HV| |].
  - intros k Hk. rewrite Hm. unfold written. by rewrite lookup_insert_ne.
  - intros Hv. revert HV. case_decide; [by rewrite trip_kept | by rewrite leaf_kept].
  - intros b q p Hrest Hb Hq Hne Hu1 Hu2 Hpq.
    assert (read_answers p d (legacy_value (default d (trip_leaf <$> bag_getItem b q))) self s') as HL.
    { apply (read_in_written p key rest v q _ d self s' (master s)); auto.
      rewrite Hb. unfold set_in, bag_under. by apply bag_get_set_other. }
    split; [exact HL|]. intros x Hx Hk. rewrite Hx in HL. simpl in HL. by rewrite leaf_kept in HL.
Qed.

(** C25: a global write is read back where it was written and nowhere else. Outside
    a turn, with a worker attached, and nobody else writing in between: the write
    answers what the client's call answered. When it answered, the write has landed:
    a whole-key write is read as the wire hands the value back, made legacy; a write
    on a path inside a key as the Bag's wire hands that leaf back, made legacy; an
    int, a bool, a plain word or a naive date of whole seconds exactly; every other
    leaf of that key's Bag that stands apart from the path is read as its own trip
    hands it back, exactly when it is one of those; and no other key moves. When the
    call raised, the exception travels out and the write has landed whole or the
    dictionary is as it was. *)
Theorem global_write_then_read path key rest v d self s :
  reaches self s → split_global_path path = (Some key, rest) →
  (rest ≠ "" → plain_path rest = true) →
  let '(answer, s') :=
    (if decide (rest = "") then store_set key (wire_value v)
     else store_for_update key (λ found, Some (VBag (set_in (bag_under found) rest v)))) s in
  set_global_item path v self = (answer, with_store s' self) ∧
  (landed path key rest v d (with_store s' self) s s' ∨
   (answer ≠ Ok () ∧ master s' = master s)).
Proof.
  intros Hr Hp Hpl. change (if decide (rest = "") then _ else _) with (write_call key rest v).
  pose proof (write_call_law key rest v s) as HW. rewrite (write_reaches path key rest v self s Hr Hp).
  destruct (write_call key rest v s) as [answer s']. split; [done|].
  destruct HW as [Hm|Hm]; [left | by right].
  apply written_landed; [by destruct Hr|done..].
Qed.

(** A delete removes what it names and publishes nothing it should not: a key
    goes from the dictionary; a path inside a key's Bag goes and the leaves that
    stand apart from it come back as their own trip; a path under an absent key, or
    under a value that is no Bag, leaves the dictionary exactly as it was - the key
    is not born as None.  A delete whose call raised did all of it or nothing. *)
Theorem global_delete path key rest self s :
  reaches self s → split_global_path path = (Some key, rest) →
  (rest ≠ "" → plain_path rest = true) →
  ∃ answer s', delete_global_item path self = (answer, with_store s' self) ∧
    (∀ k, k ≠ key → master s' !! k = master s !! k) ∧
    ((answer ≠ Ok () ∧ master s' = master s) ∨
     if decide (rest = "") then master s' !! key = None
     else match master s !! key with
          | Some (VBag b) =>
              ∃ b', master s' !! key = Some (VBag b') ∧ bag_getItem b' rest = None ∧
                ∀ q, plain_path q = true → under q rest = false → under rest q = false →
                  bag_getItem b' q = trip_leaf <$> bag_getItem b q
          | _ => master s' = master s
          end).
Proof.
  intros [Hs Ht] Hp Hpl. unfold delete_global_item, on_store. rewrite Hp, Ht, Hs. case_decide as Hr.
  - pose proof (delete_law key s) as HD. destruct (store_delete key s) as [a s'].
    exists a, s'. split; [done|]. destruct HD as [Hm|[Ha Hm]]; rewrite Hm; [|by eauto].
    split; [|right; apply lookup_delete_eq]. intros k Hk. by rewrite lookup_delete_ne.
  - pose proof (for_update_law key (λ found,
      match found with Some (VBag b) => Some (VBag (del_in b rest)) | _ => None end) s) as HD.
    destruct (store_for_update key _ s) as [a s']. exists a, s'. split; [done|].
    destruct HD as [Hm|[Ha Hm]]; [|by rewrite Hm; eauto].
    destruct (master s !! key) as [x|] eqn:Hk; [destruct x|];
      try by rewrite Hm; split; [|right].
    destruct (trip_bag (del_in nodes rest)) as (b' & Eb & Hb'). rewrite Hm, Eb. split.
    + intros k Hne. by rewrite lookup_insert_ne.
    + right. exists b'. rewrite lookup_insert_eq. split; [done|]. unfold del_in in Hb'. split.
      * rewrite Hb' by auto. by rewrite bag_get_del.
      * intros q Hq Hq1 Hq2. rewrite Hb' by done. f_equal. by apply bag_get_del_other.
Qed.

(** ** The turn *)

Inductive turn_op : Type :=
| TurnGet (path : option string) (d : value)
| TurnSet (path : option string) (v : value)
| TurnDel (path : option string).

Definition run_turn_op (self : adapter) (op : turn_op) : adapter :=
  match op with
  | TurnGet p d => (get_global_item p d self).2
  | TurnSet p v => (set_global_item p v self).2
  | TurnDel p => (delete_global_item p self).2
  end.

(** The same operations on the private dictionary alone. *)
Definition edit (c : content) (op : turn_op) : content :=
  match op with
  | TurnGet _ _ => c
  | TurnSet p v => match split_global_path p with
                   | (None, _) => c
                   | (Some key, rest) => _write_into c key rest v
                   end
  | TurnDel p => match split_global_path p with
                 | (None, _) => c
                 | (Some key, rest) => _delete_from c key rest
                 end
  end.

Lemma turn_ops_edit ops c self :
  active_turn self = Some c →
  foldl run_turn_op self ops = with_turn (Some (foldl edit c ops)) self.
Proof.
  revert c self. induction ops as [|op ops IH]; intros c self Ht; cbn [foldl].
  { rewrite <- Ht. by destruct self. }
  assert (run_turn_op self op = with_turn (Some (edit c op)) self) as ->.
  { destruct op as [p d|p v|p]; simpl;
      unfold get_global_item, set_global_item, delete_global_item;
      destruct (split_global_path p) as [[key|] rest]; rewrite ?Ht;
      try done; try (rewrite <- Ht; by destruct self).
    rewrite pym_bind_unfold. unfold store_bag. rewrite Ht. simpl. rewrite <- Ht. by destruct self. }
  by rewrite (IH (edit c op)).
Qed.

Lemma dict_get_map (f : value → value) k c :
  dict_get k (map (λ '(k, v), (k, f v)) c) = f <$> dict_get k c.
Proof. induction c as [|[k' v] c IH]; simpl; [done|]. by case_decide. Qed.

Lemma to_publish_get c k :
  dict_get k (map (λ '(k, v), (k, wire_value v)) c) = wire_value <$> dict_get k c.
Proof. apply dict_get_map. Qed.

(** The dictionary a turn is worth publishing: every key with its value's trip, a
    naive date with the local zone attached first. *)
Definition published (c : content) (m : gmap string value) : Prop :=
  ∀ k, m !! k = (λ v, trip (wire_value v)) <$> dict_get k c.

Lemma exit_publishes failed c s :
  let '(answer, s') := turn_exit (to_publish failed c) s in
  if failed then master s' = master s
  else published c (master s') ∨ (answer ≠ Ok () ∧ master s' = master s).
Proof.
  destruct failed; simpl.
  - pose proof (abort_law s) as HA. by destruct (turn_exit None s).
  - pose proof (exit_law (map (λ '(k, v), (k, wire_value v)) c) s) as HX.
    destruct (turn_exit _ s) as [answer s']. destruct HX as [Hm|HX]; [left|by right].
    intros k. rewrite Hm, to_publish_get. by destruct (dict_get k c).
Qed.


(** A date keeps its local clock across the global store, whichever road it takes,
    to the millisecond the wire keeps: written as a whole key outside a block and
    read back; written in a block and read back inside it; and read after the block
    has published it. *)
Theorem date_keeps_its_clock key clock d self s :
  key ≠ "" → has_dot key = false → zone_reads_back clock →
  (clock - local_offset clock) mod 1000 = 0 → reaches self s →
  let path := Some key in
  let date := VNaive clock in
  (∀ after, set_global_item path date self = (Ok (), after) →
     ∃ s', core_store after = Some s' ∧ read_answers path d date after s') ∧
  (∀ opened, open_turn self = (Ok (), opened) →
     let inside := run_turn_op opened (TurnSet path date) in
     (get_global_item path d inside).1 = Ok date ∧
     ∀ closed, close_turn false inside = (Ok (), closed) →
       ∃ s', core_store closed = Some s' ∧ read_answers path d date closed s').
Proof.
  intros Hk Hdot Hz Hms Hr path date.
  assert (split_global_path path = (Some key, "")) as Hp.
  { unfold path, split_global_path. rewrite partition_dot_no_dot by done. by destruct key. }
  assert (∀ a s', reaches a s' → master s' !! key = Some (trip (wire_value date)) →
    read_answers path d date a s') as Hread.
  { intros a s' Ha Hm. pose proof (read_reaches path key "" d a s' Ha Hp) as HR.
    rewrite Hm in HR. unfold _legacy_read in HR. rewrite decide_True in HR by done.
    unfold date in HR. by rewrite trip_date in HR. }
  split.
  - intros after. rewrite (write_reaches path key "" date self s Hr Hp).
    pose proof (write_call_law key "" date s) as HW. destruct (write_call key "" date s) as [a s'].
    simpl. intros [= -> <-]. destruct HW as [Hm|[]]; [|done].
    exists s'. split; [done|]. apply Hread; [by destruct Hr|].
    rewrite Hm. unfold written. by rewrite lookup_insert_eq.
  - intros opened Ho inside. destruct Hr as [Hs Ht]. unfold open_turn in Ho. rewrite Hs in Ho.
    destruct (turn_enter s) as [[c|e] s1]; [|by destruct e]. injection Ho as <-.
    assert (inside = with_turn (Some (dict_set key (wire_value date) c))
      (with_turn (Some c) (with_store s1 self))) as ->.
    { unfold inside. simpl. unfold set_global_item. rewrite Hp. simpl. unfold _write_into.
      rewrite decide_True by done. done. }
    split.
    + unfold get_global_item. rewrite Hp. simpl. rewrite dict_get_set_eq. unfold _legacy_read.
      rewrite decide_True by done. simpl. do 2 f_equal. by apply naive_local_attach.
    + intros closed. unfold close_turn. simpl.
      pose proof (exit_publishes false (dict_set key (attach_local clock) c) s1) as HX. simpl in HX.
      destruct (turn_exit _ s1) as [a s2]. intros [= -> <-]. destruct HX as [Hm|[]]; [|done].
      exists s2. split; [done|]. apply Hread; [by split|].
      rewrite Hm, dict_get_set_eq. by simpl.
Qed.
End laws.

(** ** Concrete inputs *)

Module GlobalWitness.
#[local] Existing Instance Witness.flat_bag.
#[local] Existing Instance Witness.zone_east.
#[local] Instance flat_laws : BagLaws := Witness.flat_bag_laws.

(** A wire that keeps an instant to the millisecond and reads a naive datetime as UTC;
    a Bag's typed XML attaches the local offset to a naive leaf. *)
Definition utc_trip (v : value) : value :=
  match v with
  | VNaive c => VAware (c / 1000 * 1000) 0
  | VAware c o => VAware ((c - o) / 1000 * 1000) 0
  | _ => v
  end.

Definition xml_leaf (v : value) : value :=
  match v with VNaive c => VAware c 7200000000 | _ => v end.

Definition key_trip (v : value) : value :=
  match v with
  | VBag b => VBag (map (λ n, (node_label n, xml_leaf (node_value n), n.2)) b)
  | _ => utc_trip v
  end.

(** A master's dictionary, and whether the commit of a turn loses its answer. *)
Record commander : Type := Commander { dictionary : gmap string value; unconfirmed : bool }.

#[local] Instance plain_client : GlobalStoreClient := {|
  client := commander;
  store_get k m := (Ok (dictionary m !! k), m);
  store_set k v m := (Ok (), Commander (<[k := key_trip v]> (dictionary m)) (unconfirmed m));
  store_delete k m := (Ok (), Commander (delete k (dictionary m)) (unconfirmed m));
  store_for_update k f m :=
    (Ok (), match f (dictionary m !! k) with
            | Some v => Commander (<[k := key_trip v]> (dictionary m)) (unconfirmed m)
            | None => m
            end);
  turn_enter m := (Ok (map_to_list (dictionary m)), m);
  turn_exit d m :=
    match d with
    | None => (Ok (), m)
    | Some d =>
        (if unconfirmed m then Raise GlobalStoreCommitUnconfirmed else Ok (),
         Commander (key_trip <$> (list_to_map d : gmap string value)) (unconfirmed m))
    end
|}.

Lemma utc_trip_ms n : (n / 1000 * 1000 - 0) mod 1000 = 0 ∧ Z.abs (n / 1000 * 1000 - 0 - n) < 1000.
Proof. rewrite Z.sub_0_r, Z_mod_mult. split; [done|].
  pose proof (Z_div_mod_eq_full n 1000). pose proof (Z.mod_pos_bound n 1000 eq_refl). lia.
Qed.

Lemma flat_get_trip b p :
  Witness.flat_get (map (λ n, (node_label n, xml_leaf (node_value n), n.2)) b) p =
    xml_leaf <$> Witness.flat_get b p.
Proof.
  unfold Witness.flat_get. rewrite map_map. induction b as [|[[l v] a] b IH]; [done|]. simpl.
  unfold node_label, node_value; simpl. by case_decide.
Qed.

#[local] Instance plain_laws : MasterLaws.
Proof.
  refine {| master := (λ m : @client plain_client, dictionary m); trip := key_trip;
    trip_leaf := xml_leaf |}; simpl; eauto.
  - by intros [].
  - intros c o. eexists _, 0. split; [done|]. apply utc_trip_ms.
  - intros b. eexists. split; [done|]. intros p _. apply flat_get_trip.
  - by intros [].
  - intros k s. split; [done|]. by intros v [= <-].
  - intros k f s. left. by destruct (f (dictionary s !! k)).
  - intros s. split; [done|]. intros d [= <-] k. apply dict_get_map_to_list.
  - intros d s. left. intros k. by rewrite lookup_fmap, dict_get_list_to_map.
Defined.

Definition a_master : gmap string value :=
  {["CACHE_TS" := VBag [("invoices", VInt 3, []); ("orders", VNaive 4000000, [])];
    "TASK_TS" := VAware 5000 0]}.
Definition attached : adapter := new_adapter (Some (Commander a_master false)).

(** The same, its commits unconfirmed. *)
Definition failing : adapter := new_adapter (Some (Commander a_master true)).

Lemma global_write_then_read_witness :
  let after := (set_global_item (Some "CACHE_TS.invoices") (VInt 9) attached).2 in
  (set_global_item (Some "CACHE_TS.invoices") (VInt 9) attached).1 = Ok () ∧
  (get_global_item (Some "CACHE_TS.invoices") VNone after).1 = Ok (VInt 9) ∧
  (get_global_item (Some "CACHE_TS.orders") VNone after).1 = Ok (VNaive 4000000).
Proof.
  pose proof (global_write_then_read (Some "CACHE_TS.invoices") "CACHE_TS" "invoices" (VInt 9) VNone
    attached (Commander a_master false) ltac:(done) eq_refl ltac:(by vm_compute)) as HW.
  rewrite decide_False in HW by done.
  destruct (store_for_update _ _ _) as [answer s'] eqn:Es.
  destruct HW as (-> & HL). injection Es as <- <-.
  destruct HL as [HL|[[] _]]; [|done]. cbn [fst snd]. split; [done|]. split.
  - destruct (la_kept _ _ _ _ _ _ _ _ HL eq_refl) as (? & ? & _ & HR).
    destruct (store_get _ _) as [found s1] eqn:Eg. injection Eg as <- <-. by destruct HR as [_ ->].
  - destruct (la_leaves _ _ _ _ _ _ _ _ HL [("invoices", VInt 3, []); ("orders", VNaive 4000000, [])]
      "orders" (Some "CACHE_TS.orders")) as [_ HK]; [by vm_compute..|].
    destruct (HK (VNaive 4000000)) as (? & ? & _ & HR); [by vm_compute|by split_and!|].
    destruct (store_get _ _) as [found s1] eqn:Eg. injection Eg as <- <-. by destruct HR as [_ ->].
Defined.

Lemma global_delete_witness :
  ∃ answer s', delete_global_item (Some "NOBODY.here") attached = (answer, with_store s' attached) ∧
    master s' = a_master.
Proof.
  destruct (global_delete (Some "NOBODY.here") "NOBODY" "here" attached (Commander a_master false))
    as (answer & s' & Hd & _ & Hm); [done|done|by vm_compute|].
  exists answer, s'. split; [exact Hd|]. by destruct Hm as [[_ Hm]|Hm].
Defined.


Lemma date_keeps_its_clock_witness :
  ∃ after s', set_global_item (Some "RESTART_TS") (VNaive 1000) attached = (Ok (), after) ∧
    core_store after = Some s' ∧ read_answers (Some "RESTART_TS") VNone (VNaive 1000) after s'.
Proof.
  destruct (date_keeps_its_clock "RESTART_TS" 1000 VNone attached (Commander a_master false))
    as [H _]; [done..|].
  destruct (H _ eq_refl) as (s' & Hs & HR). eexists _, s'. split; [reflexivity|]. by split.
Defined.
End GlobalWitness.
End Global.
