(* ===== verification/ItemLocks.v ===== *)
(** * The item locks and the block of a ServerStore

    src/genropy_asgi/siteregister/siteregister_client.py: [lock_item] and
    [unlock_item] on the client's table of locks, and the retries of
    [ServerStore.__enter__] with their capped backoff; its global branch, and the
    block as a whole, are in ServerStore.v.  What the other threads do to the table
    between two attempts is an argument of the loop. *)

From S2P Require Export PyData.

Module Locks.

(** [{"reason", "count"}]; a reason is the thread's ident. *)
Record held_lock : Type := HeldLock {
  hl_reason : Z;
  hl_count : Z
}.

#[export] Instance held_lock_eq_dec : EqDecision held_lock.
Proof. solve_decision. Defined.

Abbreviation lock_key := (string * string)%type.      (* (register_name, register_item_id) *)
Abbreviation locks := (gmap (string * string) held_lock).

Definition lock_item (register_name item_id : string) (reason : Z) (item_locks : locks)
    : bool * locks :=
  if decide (register_name = "global") then (true, item_locks)
  else
    let key := (register_name, item_id) in
    match item_locks !! key with
    | None => (true, <[key := HeldLock reason 1]> item_locks)
    | Some held =>
        if decide (hl_reason held = reason)
        then (true, <[key := HeldLock (hl_reason held) (hl_count held + 1)]> item_locks)
        else (false, item_locks)
    end.

Definition unlock_item (register_name item_id : string) (reason : Z) (item_locks : locks)
    : bool * locks :=
  if decide (register_name = "global") then (true, item_locks)
  else
    let key := (register_name, item_id) in
    match item_locks !! key with
    | None => (true, item_locks)
    | Some held =>
        let count := hl_count held - 1 in
        (true,
         if count <=? 0 then delete key item_locks
         else <[key := HeldLock (hl_reason held) count]> item_locks)
    end.

(** The retry budget; delays in milliseconds. *)
Definition LOCK_MAX_RETRY : nat := 50.
Definition RETRY_DELAY : Z := 50.
Definition RETRY_DELAY_MAX : Z := 2000.

(** The loop of [__enter__] from an attempt on: [retries] sleeps are left.  It
    answers the outcome, what it slept, and the table. *)
Fixpoint enter_loop (between : nat → locks → locks) (register_name item_id : string) (thread : Z)
    (attempt retries : nat) (delay : Z) (item_locks : locks) : res () * list Z * locks :=
  let item_locks := between attempt item_locks in
  let '(granted, item_locks) := lock_item register_name item_id thread item_locks in
  if granted then (Ok (), [], item_locks)
  else
    match retries with
    | O => (Raise GnrDaemonLocked, [], item_locks)
    | S retries =>
        let '(r, slept, item_locks) :=
          enter_loop between register_name item_id thread (S attempt) retries
            (Z.min (delay * 2) RETRY_DELAY_MAX) item_locks in
        (r, delay :: slept, item_locks)
    end.

(** The retries of [ServerStore.__enter__], past its test for the global register. *)
Definition enter_item (between : nat → locks → locks) (register_name item_id : string) (thread : Z)
    (item_locks : locks) : res () * list Z * locks :=
  enter_loop between register_name item_id thread 0 LOCK_MAX_RETRY RETRY_DELAY item_locks.

(** The end of [ServerStore.__exit__], past its test for the global register. *)
Definition leave_item (register_name item_id : string) (thread : Z) (item_locks : locks) : locks :=
  (unlock_item register_name item_id thread item_locks).2.

(** ** Mutual exclusion over any interleaving of bracketed blocks *)

Inductive lock_op : Type :=
| Enter (register_name item_id : string) (thread : Z)
| Leave (register_name item_id : string) (thread : Z).

(** How many times each thread is inside each item. *)
Definition depths : Type := lock_key → Z → Z.

Definition bump (k : lock_key) (t d : Z) (inside : depths) : depths :=
  λ k' t', if decide (k' = k ∧ t' = t) then inside k' t' + d else inside k' t'.

(** The steps a set of threads makes: a granted enter deepens its thread, a
    refused one does not, and a thread leaves only what it is inside of. *)
Inductive lock_step : locks * depths → locks * depths → Prop :=
| step_granted n i t l l' ins :
    n ≠ "global" → lock_item n i t l = (true, l') →
    lock_step (l, ins) (l', bump (n, i) t 1 ins)
| step_refused n i t l l' ins :
    n ≠ "global" → lock_item n i t l = (false, l') → lock_step (l, ins) (l', ins)
| step_leave n i t l l' ins :
    n ≠ "global" → 0 < ins (n, i) t → unlock_item n i t l = (true, l') →
    lock_step (l, ins) (l', bump (n, i) t (-1) ins).

(** The table says who is inside, and how deep. *)
Definition lock_inv (s : locks * depths) : Prop :=
  ∀ k, match s.1 !! k with
       | None => ∀ t, s.2 k t = 0
       | Some h => 0 < hl_count h ∧ s.2 k (hl_reason h) = hl_count h ∧
                   ∀ t, t ≠ hl_reason h → s.2 k t = 0
       end.

Lemma bump_eq k t d ins : bump k t d ins k t = ins k t + d.
Proof. unfold bump. by rewrite decide_True. Qed.

Lemma bump_key k k' t d ins t' : k' ≠ k → bump k t d ins k' t' = ins k' t'.
Proof. unfold bump. intros. rewrite decide_False; [done | tauto]. Qed.

Lemma bump_thread k t t' d ins : t' ≠ t → bump k t d ins k t' = ins k t'.
Proof. unfold bump. intros. rewrite decide_False; [done | tauto]. Qed.

Lemma lock_step_inv s s' : lock_inv s → lock_step s s' → lock_inv s'.
Proof.
  intros Hinv Hst. destruct Hst as [n i t l l' ins Hn Hl|n i t l l' ins Hn Hl|n i t l l' ins Hn Hd Hl];
    unfold lock_item, unlock_item in Hl; rewrite decide_False in Hl by done.
  - intros k. simpl. pose proof (Hinv (n, i)) as Hk0. simpl in Hk0.
    destruct (decide (k = (n, i))) as [->|Hk].
    + destruct (l !! (n, i)) as [h|]; [case_decide|]; simplify_eq; rewrite lookup_insert_eq; simpl.
      * destruct Hk0 as (Hc & Hr & Ho). rewrite bump_eq. split_and!; [lia|lia|].
        intros t' Ht. rewrite bump_thread by done. auto.
      * rewrite bump_eq, Hk0. split_and!; [lia|lia|]. intros t' Ht. rewrite bump_thread by done. auto.
    + assert (l' !! k = l !! k) as ->.
      { destruct (l !! (n, i)); [case_decide|]; simplify_eq; by rewrite lookup_insert_ne. }
      pose proof (Hinv k) as Hk'. simpl in Hk'. destruct (l !! k); setoid_rewrite bump_key; done.
  - intros k. destruct (l !! (n, i)); [case_decide|]; simplify_eq. apply Hinv.
  - intros k. simpl. pose proof (Hinv (n, i)) as Hk0. simpl in Hk0.
    destruct (l !! (n, i)) as [h|] eqn:Hh; [|rewrite Hk0 in Hd; lia].
    destruct Hk0 as (Hc & Hr & Ho).
    assert (t = hl_reason h) as ->.
    { destruct (decide (t = hl_reason h)) as [|Ht]; [done|]. rewrite Ho in Hd by done. lia. }
    injection Hl as <-. destruct (decide (k = (n, i))) as [->|Hk].
    + destruct (Z.leb_spec (hl_count h - 1) 0).
      * rewrite lookup_delete_eq. intros t'. destruct (decide (t' = hl_reason h)) as [->|Ht].
        -- rewrite bump_eq. lia.
        -- rewrite bump_thread by done. auto.
      * rewrite lookup_insert_eq. simpl. rewrite bump_eq. split_and!; [lia|lia|].
        intros t' Ht. rewrite bump_thread by done. auto.
    + assert ((if hl_count h - 1 <=? 0 then delete (n, i) l
        else <[(n, i) := HeldLock (hl_reason h) (hl_count h - 1)]> l) !! k = l !! k) as ->.
      { case_match; [by rewrite lookup_delete_ne | by rewrite lookup_insert_ne]. }
      pose proof (Hinv k) as Hk'. simpl in Hk'. destruct (l !! k); setoid_rewrite bump_key; done.
Qed.

Lemma locks_reachable_inv s : rtc lock_step (∅, λ _ _, 0) s → lock_inv s.
Proof.
  assert (lock_inv (∅, λ _ _, 0)) as H0 by (intros k; simpl; by rewrite lookup_empty).
  intros Hr. induction Hr as [|s1 s2 s3 Hst Hr IH]; [done|]. apply IH. by eapply lock_step_inv.
Qed.

(** C36: over any interleaving of blocks on the register's items, at most one thread
    is inside an item; the lock is reentrant - the thread inside is always granted
    again, any other refused until it has left as many times as it entered - and an
    item nobody is inside of is granted to whoever asks. *)
Theorem locks_exclude s n i :
  rtc lock_step (∅, λ _ _, 0) s → n ≠ "global" →
  (∀ t u, 0 < s.2 (n, i) t → 0 < s.2 (n, i) u → t = u) ∧
  (∀ t, (lock_item n i t s.1).1 = true ↔ ∀ u, 0 < s.2 (n, i) u → u = t) ∧
  (∀ t, 0 ≤ s.2 (n, i) t).
Proof.
  intros Hr Hn. pose proof (locks_reachable_inv s Hr (n, i)) as Hk. destruct s as [l ins]. simpl in *.
  assert (∀ t, lock_item n i t l = match l !! (n, i) with
    | None => (true, <[(n, i) := HeldLock t 1]> l)
    | Some held => if decide (hl_reason held = t)
                   then (true, <[(n, i) := HeldLock (hl_reason held) (hl_count held + 1)]> l)
                   else (false, l)
    end) as HL by (intros t; unfold lock_item; by rewrite decide_False).
  setoid_rewrite HL. destruct (l !! (n, i)) as [h|] eqn:Hh.
  - destruct Hk as (Hc & Hre & Ho).
    assert (∀ t, 0 < ins (n, i) t → t = hl_reason h) as Hin.
    { intros t Ht. destruct (decide (t = hl_reason h)) as [|Hne]; [done|]. rewrite Ho in Ht by done. lia. }
    split_and!.
    + intros t u Ht Hu. by rewrite (Hin t Ht), (Hin u Hu).
    + intros t. case_decide as Ht; simpl; (split; [|]).
      * intros _ u Hu. by rewrite (Hin u Hu).
      * done.
      * done.
      * intros Hall. exfalso. apply Ht. apply Hall. lia.
    + intros t. destruct (decide (t = hl_reason h)) as [->|Hne]; [lia | rewrite Ho by done; lia].
  - split_and!.
    + intros t u Ht. rewrite Hk in Ht. lia.
    + intros t. simpl. split; [|done]. intros _ u Hu. rewrite Hk in Hu. lia.
    + intros t. rewrite Hk. lia.
Qed.

(** ** The retries *)

Lemma lock_refused n i t l l' : lock_item n i t l = (false, l') → l' = l.
Proof. unfold lock_item. by repeat case_match; intros [=]. Qed.

(** The sleeps of a run: capped doubling. *)
Fixpoint delays (retries : nat) (delay : Z) : list Z :=
  match retries with
  | O => []
  | S retries => delay :: delays retries (Z.min (delay * 2) RETRY_DELAY_MAX)
  end.

(** The table the [k]th attempt from [a] on finds, all those before it refused. *)
Fixpoint table_from (between : nat → locks → locks) (a k : nat) (l : locks) : locks :=
  match k with
  | O => between a l
  | S k => table_from between (S a) k (between a l)
  end.

Lemma enter_loop_spec between n i t retries a delay l :
  let '(r, slept, l') := enter_loop between n i t a retries delay l in
  (∃ k, (k ≤ retries)%nat ∧ r = Ok () ∧ slept = take k (delays retries delay) ∧
     lock_item n i t (table_from between a k l) = (true, l') ∧
     ∀ j, (j < k)%nat → (lock_item n i t (table_from between a j l)).1 = false) ∨
  (r = Raise GnrDaemonLocked ∧ slept = delays retries delay ∧ l' = table_from between a retries l ∧
     ∀ j, (j ≤ retries)%nat → (lock_item n i t (table_from between a j l)).1 = false).
Proof.
  revert a delay l. induction retries as [|retries IH]; intros a delay l; simpl;
    destruct (lock_item n i t (between a l)) as [[] l1] eqn:E; simpl.
  - left. exists 0%nat. split_and!; try done; lia.
  - right. split_and!; [done|done|by eapply lock_refused|].
    intros j Hj. replace j with 0%nat by lia. simpl. by rewrite E.
  - left. exists 0%nat. split_and!; try done; lia.
  - specialize (IH (S a) (Z.min (delay * 2) RETRY_DELAY_MAX) l1).
    pose proof (lock_refused _ _ _ _ _ E) as ->.
    destruct (enter_loop _ _ _ _ _ _ _ _) as [[r slept] l'].
    destruct IH as [(k & Hk & -> & -> & Hg & Hj)|(-> & -> & -> & Hj)].
    + left. exists (S k). split_and!; [lia|done|done|done|].
      intros [|j] Hlt; simpl; [by rewrite E | apply Hj; lia].
    + right. split_and!; [done|done|done|].
      intros [|j] Hle; simpl; [by rewrite E | apply Hj; lia].
Qed.

Definition total (l : list Z) : Z := foldr Z.add 0 l.

Lemma total_take k l : Forall (λ d, 0 ≤ d) l → total (take k l) ≤ total l.
Proof.
  unfold total. revert k. induction l as [|d l IH]; intros [|k] HF; simpl; try lia;
    apply Forall_cons in HF as [Hd HF]; [clear IH | specialize (IH k HF); lia].
  assert (0 ≤ foldr Z.add 0 l) by (clear Hd; induction HF; simpl; lia). lia.
Qed.

(** Within 51 attempts and 91.15 seconds of sleep the retries are over: granted at the
    first attempt that finds the item free or its own, or refused by all 51. *)
Lemma enter_item_ends between n i t l :
  let '(r, slept, l') := enter_item between n i t l in
  total slept ≤ 91150 ∧ (length slept ≤ 50)%nat ∧
  ((∃ k, (k ≤ 50)%nat ∧ r = Ok () ∧ slept = take k (delays 50 RETRY_DELAY) ∧
      lock_item n i t (table_from between 0 k l) = (true, l') ∧
      ∀ j, (j < k)%nat → (lock_item n i t (table_from between 0 j l)).1 = false) ∨
   (r = Raise GnrDaemonLocked ∧ l' = table_from between 0 50 l ∧
      ∀ j, (j ≤ 50)%nat → (lock_item n i t (table_from between 0 j l)).1 = false)).
Proof.
  unfold enter_item. pose proof (enter_loop_spec between n i t LOCK_MAX_RETRY 0 RETRY_DELAY l) as HS.
  destruct (enter_loop _ _ _ _ _ _ _ _) as [[r slept] l'].
  assert (total (delays LOCK_MAX_RETRY RETRY_DELAY) = 91150) as HT by by vm_compute.
  assert (length (delays LOCK_MAX_RETRY RETRY_DELAY) = 50%nat) as HLn by by vm_compute.
  destruct HS as [(k & Hk & -> & -> & Hg & Hj)|(-> & -> & -> & Hj)].
  - split_and!.
    + rewrite <- HT. apply total_take. repeat constructor; by vm_compute.
    + rewrite length_take. lia.
    + left. by exists k.
  - split_and!; [lia|lia|]. right. done.
Qed.

Module LockWitness.
Lemma locks_exclude_witness :
  (lock_item "page" "p1" 2 (<[("page", "p1") := HeldLock 1 1]> ∅)).1 = true ↔
  ∀ u : Z, 0 < bump ("page", "p1") 1 1 (λ _ _, 0) ("page", "p1") u → u = 2.
Proof.
  destruct (locks_exclude (<[("page", "p1") := HeldLock 1 1]> ∅, bump ("page", "p1") 1 1 (λ _ _, 0))
    "page" "p1") as (_ & HG & _); [|done|exact (HG 2)].
  apply rtc_once. by apply step_granted.
Defined.
End LockWitness.
End Locks.
