(* ===== verification/RegisterClient.v ===== *)
(** * GenropyRegisterClient: what the site reads

    src/genropy_asgi/siteregister/siteregister_client.py, the read commands: the
    live rows, the ownership walk, the projection every answer goes through, the
    filter grammar of [pages].  The worker's registers are [registry]; [None] is
    the client before its worker has attached.  Python's [re] is a parameter, as
    are the key snapshots of the core's registers. *)

From S2P Require Export GenropyRegister GenropyWorker.

Module Client.
Import LegacyBagCollector Registry.

(** ** Rows as the site's generic code sees them: dicts read with [.get] *)

Inductive row : Type :=
| RowPage (p : page_row)
| RowConnection (c : connection_row)
| RowUser (u : user_row).

Definition row_id (item : row) : string :=
  match item with
  | RowPage p => page_register_item_id p
  | RowConnection c => connection_register_item_id c
  | RowUser u => user_register_item_id u
  end.

(** A live set of names, as the value it is. *)
Definition names (s : gset string) : value := VSet (map VStr (elements s)).

Definition named {A} (k : string) (l : list (string * A)) (otherwise : A) : A :=
  default otherwise (dict_get k l).

(** [register_item.get(field)]. *)
Definition row_get (item : row) (field : string) : value :=
  match item with
  | RowPage p =>
      named field
        [("register_item_id", VStr (page_register_item_id p));
         ("connection_id", VStr (page_connection_id p));
         ("datachanges_idx", VInt (page_datachanges_idx p));
         ("subscribed_paths", names (page_subscribed_paths p));
         ("store_subscriptions", names (page_store_subscriptions p));
         ("table_subscriptions", names (page_table_subscriptions p))]
        (default VNone (page_fields p !! field))
  | RowConnection c =>
      named field
        [("register_item_id", VStr (connection_register_item_id c));
         ("user", VStr (connection_user c));
         ("pages", names (connection_pages c))]
        (default VNone (connection_fields c !! field))
  | RowUser u =>
      named field
        [("register_item_id", VStr (user_register_item_id u));
         ("connections", names (user_connections u))]
        (default VNone (user_fields u !! field))
  end.

Definition row_fields (item : row) : gmap string value :=
  match item with
  | RowPage p => page_fields p
  | RowConnection c => connection_fields c
  | RowUser u => user_fields u
  end.

(** ** The live rows and the tolerant walk *)

Definition local_item (worker : option registry) (item_id : string) (register_name : option string)
    : res (option row) :=
  match worker, register_name with
  | None, _ | _, None | _, Some EmptyString => Ok None
  | Some r, Some name =>
      if decide (name = "page") then Ok (RowPage <$> page_register r !! item_id)
      else if decide (name = "connection") then
        Ok (RowConnection <$> connection_register r !! item_id)
      else if decide (name = "user") then Ok (RowUser <$> user_register r !! item_id)
      else Raise KeyError
  end.

(** [_live_rows]: a key with no row left is not in the answer. *)
Definition _live_rows {A} (register : gmap string A) (keys : list string) : list A :=
  omap (λ key, register !! key) keys.

Definition _page_owner (r : registry) (page_id : string) : option string :=
  page_register r !! page_id ≫= λ page,
  connection_user <$> connection_register r !! page_connection_id page.

Definition _item_subscribed_paths (worker : option registry) (item_id : string)
    (register_name : string) : gset string :=
  match worker with
  | None => ∅
  | Some r =>
      if decide (register_name = "page" ∨ register_name = "")
      then match page_register r !! item_id with
           | None => ∅
           | Some page => page_subscribed_paths page
           end
      else ∅
  end.

(** ** The projection *)

Definition LEGACY_REGISTER_ITEM_FIELDS (register_name : string) : option (list string) :=
  dict_get register_name
    [("connection", ["register_item_id"; "start_ts"; "connection_name"; "user"; "user_id";
        "user_name"; "user_tags"; "user_ip"; "user_agent"; "electron_static"; "browser_name";
        "pages"; "avatar_extra"]);
     ("user", ["register_item_id"; "start_ts"; "user"; "user_id"; "user_name"; "user_tags";
        "avatar_extra"; "connections"]);
     ("page", ["register_item_id"; "pagename"; "connection_id"; "start_ts"; "subscribed_tables";
        "user"; "user_ip"; "user_agent"; "relative_url"])].

(** [datetime.fromtimestamp(epoch)]: the naive local clock. *)
Definition fromtimestamp `{LocalZone} (epoch : value) : res value :=
  match epoch with
  | VInt ts => Ok (VNaive (ts + utc_offset ts))
  | _ => Raise TypeError
  end.

Definition optional (o : option string) : value := match o with None => VNone | Some s => VStr s end.

Definition is_none (v : value) : bool := match v with VNone => true | _ => false end.

Section adapt.
Context `{LocalZone}.

(** The dict before the per-register overrides. *)
Definition projected (worker : option registry) (item : row) (register_name : string)
    (fields : list string) : attrs :=
  foldl (λ d field, dict_set field (row_get item field) d)
    [("register_name", VStr register_name); ("datachanges", VList []); ("datachanges_idx", VInt 0);
     ("subscribed_paths", names (_item_subscribed_paths worker (row_id item) register_name))]
    fields.

Definition overridden (worker : option registry) (item : row) (register_name : string) (d : attrs)
    : attrs :=
  if decide (register_name = "page") then
    let d := dict_set "user" (optional (worker ≫= λ r, _page_owner r (row_id item))) d in
    dict_set "subscribed_tables"
      (match item with
       | RowPage p => names (page_table_subscriptions p)
       | _ => VSet []
       end) d
  else if decide (register_name = "user") then dict_set "user" (VStr (row_id item)) d
  else d.

Definition _adapt_to_legacy (worker : option registry) (item : option row) (register_name : string)
    : res (option attrs) :=
  match item with
  | None => Ok None
  | Some item =>
      match LEGACY_REGISTER_ITEM_FIELDS register_name with
      | None => Raise KeyError
      | Some fields =>
          let d := overridden worker item register_name
                     (projected worker item register_name fields) in
          if is_none (named "start_ts" d VNone) then
            match row_fields item !! "last_refresh_ts" with
            | None => Raise KeyError
            | Some epoch => (λ ts, Some (dict_set "start_ts" ts d)) <$> fromtimestamp epoch
            end
          else Ok (Some d)
      end
  end.

(** ** The live Bag of a row, under the name the legacy reads *)

Definition _ensure_item_data (item : row) : PyM registry positive := λ r,
  match item with
  | RowPage p => (Ok (page_store p), r)
  | RowUser u => (Ok (user_store u), r)
  | RowConnection c =>
      match connection_data c with
      | Some l => (Ok l, r)
      | None =>
          let '(l, r) := new_store r in
          let c := ConnectionRow (connection_register_item_id c) (connection_user c)
                     (connection_pages c) (connection_fields c) (Some l) in
          (Ok l, MkRegistry (user_register r)
                   (<[connection_register_item_id c := c]> (connection_register r))
                   (page_register r) (stores r) (views r))
      end
  end.

Record answer : Type := Answer {
  an_fields : attrs;
  an_data : option positive
}.

(** [get_item] off the global register, and its three named readers. *)
Definition get_item (item_id : string) (include_data : bool) (register_name : option string)
    : PyM registry (option answer) := λ r,
  match local_item (Some r) item_id register_name with
  | Raise e => (Raise e, r)
  | Ok item =>
      match _adapt_to_legacy (Some r) item (default "" register_name) with
      | Raise e => (Raise e, r)
      | Ok None => (Ok None, r)
      | Ok (Some d) =>
          match include_data, item with
          | true, Some item =>
              (_ensure_item_data item ≫= λ l, mret (Some (Answer d (Some l)))) r
          | _, _ => (Ok (Some (Answer d None)), r)
          end
      end
  end.

Definition page (page_id : string) (include_data : bool) := get_item page_id include_data (Some "page").
Definition connection (cid : string) (include_data : bool) :=
  get_item cid include_data (Some "connection").
Definition user (user_id : string) (include_data : bool) := get_item user_id include_data (Some "user").

(** [exists]: the page register where none is named. *)
Definition exists_item (worker : option registry) (item_id : string) (register_name : option string)
    : res bool :=
  let name := match register_name with None | Some EmptyString => Some "page" | n => n end in
  (λ item, if item is Some _ then true else false) <$> local_item worker item_id name.

Definition _item_with_data (item_id register_name : string) : PyM registry (option answer) :=
  get_item item_id true (Some register_name).
End adapt.

(** ** The filter grammar *)

(** [re.compile(pattern)], and the match of the result at the start of a string;
    [None] is [re.error]. *)
Class Regex : Type := { re_compile : string → option (string → bool) }.

Inductive pattern : Type :=
| Compiled (matches : string → bool)
| Literal (s : string).

(** [s.split(sep)]; [skip] characters of a separator are being left behind. *)
Fixpoint split_on (sep : string) (skip : nat) (s : string) : list string :=
  match s with
  | EmptyString => [""]
  | String c s' =>
      match skip with
      | S skip => split_on sep skip s'
      | O =>
          if startswith s sep then "" :: split_on sep (pred (String.length sep)) s'
          else match split_on sep 0 s' with
               | [] => [String c ""]
               | h :: t => String c h :: t
               end
      end
  end.

(** [name, value = clause.split(":", 1)]. *)
Fixpoint split_colon (s : string) : option (string * string) :=
  match s with
  | EmptyString => None
  | String c s' =>
      if decide (c = ":"%char) then Some ("", s')
      else (λ '(h, t), (String c h, t)) <$> split_colon s'
  end.

Section filters.
Context `{BagApi, Regex}.

Definition compile (fltvalue : string) : pattern :=
  match re_compile fltvalue with Some m => Compiled m | None => Literal fltvalue end.

Fixpoint parse_filters (clauses : list string) (fltdict : list (string * pattern))
    : res (list (string * pattern)) :=
  match clauses with
  | [] => Ok fltdict
  | flt :: rest =>
      match split_colon flt with
      | None => Raise ValueError
      | Some (name, v) => parse_filters rest (dict_set name (compile v) fltdict)
      end
  end.

(** One clause on one row; a value that is no string never equals a pattern. *)
Definition clause_matches (r : registry) (item : row) (clause : string * pattern) : bool :=
  let v := if decide (clause.1 = "user") then optional (_page_owner r (row_id item))
           else row_get item clause.1 in
  match v with
  | VStr s =>
      if decide (s = "") then false
      else match clause.2 with
           | Compiled m => m s
           | Literal l => bool_decide (l = s)
           end
  | _ => false
  end.

(** The two nested loops: an item joins once per clause it matches. *)
Definition filtered (r : registry) (items : list row) (fltdict : list (string * pattern)) : list row :=
  item ← items; clause ← fltdict; if clause_matches r item clause then [item] else [].

Definition _filter_items (r : registry) (items : list row) (filters : option string)
    : res (list row) :=
  match filters with
  | None | Some EmptyString => Ok items
  | Some f =>
      if decide (f = "*") then Ok items
      else filtered r items <$> parse_filters (split_on " AND " 0 f) []
  end.
End filters.

(** The key snapshots of the core's registers, and its index of pages by connection. *)
Class CoreKeys : Type := {
  page_keys : registry → list string;
  connection_keys : registry → list string;
  user_keys : registry → list string;
  pages_by_connection : string → registry → list string
}.

Class CoreKeysLaws `{CoreKeys} : Prop := {
  page_keys_all : ∀ r p, p ∈ page_keys r ↔ is_Some (page_register r !! p);
  connection_keys_all : ∀ r c, c ∈ connection_keys r ↔ is_Some (connection_register r !! c);
  user_keys_all : ∀ r u, u ∈ user_keys r ↔ is_Some (user_register r !! u);
  pages_by_connection_all : ∀ c r p, p ∈ pages_by_connection c r ↔
    ∃ page, page_register r !! p = Some page ∧ page_connection_id page = c
}.

Section listings.
Context `{LocalZone, BagApi, Regex, CoreKeys}.

(** An argument that is given and true. *)
Definition given (o : option string) : option string :=
  match o with Some EmptyString => None | _ => o end.

(** [{item["register_item_id"]: self._adapt_to_legacy(item) for item in items}]. *)
Fixpoint keyed (worker : option registry) (register_name : string) (items : list row)
    (d : list (string * attrs)) : res (list (string * attrs)) :=
  match items with
  | [] => Ok d
  | item :: rest =>
      match _adapt_to_legacy worker (Some item) register_name with
      | Raise e => Raise e
      | Ok None => keyed worker register_name rest d
      | Ok (Some a) => keyed worker register_name rest (dict_set (row_id item) a d)
      end
  end.

Definition page_candidates (r : registry) (connection_id user : option string) : list page_row :=
  match given connection_id, given user with
  | Some cid, Some u =>
      filter (λ p, _page_owner r (page_register_item_id p) = Some u)
        (_live_rows (page_register r) (pages_by_connection cid r))
  | Some cid, None => _live_rows (page_register r) (pages_by_connection cid r)
  | None, Some u =>
      match user_register r !! u with
      | None => []
      | Some entry =>
          cid ← elements (user_connections entry);
          match connection_register r !! cid with
          | None => []
          | Some c => _live_rows (page_register r) (elements (connection_pages c))
          end
      end
  | None, None => _live_rows (page_register r) (page_keys r)
  end.

Definition pages (worker : option registry) (connection_id user filters : option string)
    : res (list (string * attrs)) :=
  match worker with
  | None => Ok []
  | Some r =>
      _filter_items r (RowPage <$> page_candidates r connection_id user) filters ≫= λ items,
      keyed worker "page" items []
  end.

Definition connections (worker : option registry) (user : option string)
    : res (list (string * attrs)) :=
  match worker with
  | None => Ok []
  | Some r =>
      let keys := match given user with
                  | Some u => match user_register r !! u with
                              | None => []
                              | Some entry => elements (user_connections entry)
                              end
                  | None => connection_keys r
                  end in
      keyed worker "connection" (RowConnection <$> _live_rows (connection_register r) keys) []
  end.

Definition users (worker : option registry) : res (list (string * attrs)) :=
  match worker with
  | None => Ok []
  | Some r => keyed worker "user" (RowUser <$> _live_rows (user_register r) (user_keys r)) []
  end.
End listings.

(** ** The projection carries the daemon's fields and nothing else *)

Lemma projected_fold item fields d :
  dict_wf d →
  let d' := foldl (λ d field, dict_set field (row_get item field) d) d fields in
  (∀ f, f ∈ fields → dict_get f d' = Some (row_get item f)) ∧
  (∀ f, f ∉ fields → dict_get f d' = dict_get f d).
Proof.
  revert d. induction fields as [|g fields IH]; intros d Hd; cbn [foldl].
  { split; [by intros f ?%elem_of_nil | done]. }
  destruct (IH (dict_set g (row_get item g) d) (dict_set_wf _ _ _ Hd)) as [H1 H2]. split.
  - intros f [->|Hf]%elem_of_cons; [|by apply H1].
    destruct (decide (g ∈ fields)) as [Hg|Hg]; [by apply H1 | by rewrite H2, dict_get_set_eq].
  - intros f Hf. rewrite not_elem_of_cons in Hf. destruct Hf as [Hne Hf].
    by rewrite H2, dict_get_set_ne.
Qed.

Definition ANSWER_HEAD : list string :=
  ["register_name"; "datachanges"; "datachanges_idx"; "subscribed_paths"].

(** The keys of the three projections, in their order. *)
Fixpoint fold_keys (fields keys : list string) : list string :=
  match fields with
  | [] => keys
  | f :: rest => fold_keys rest (if decide (f ∈ keys) then keys else keys ++ [f])
  end.

Lemma projected_keys item fields (d : attrs) :
  (foldl (λ d field, dict_set field (row_get item field) d) d fields).*1 = fold_keys fields d.*1.
Proof. revert d. induction fields as [|f fields IH]; intros d; simpl; [done|]. by rewrite IH, dict_set_keys. Qed.

Lemma known_register name fields :
  LEGACY_REGISTER_ITEM_FIELDS name = Some fields →
  fold_keys fields ANSWER_HEAD = ANSWER_HEAD ++ fields ∧ "start_ts" ∈ fields ∧
  (name = "page" → "user" ∈ fields ∧ "subscribed_tables" ∈ fields) ∧
  (name = "user" → "user" ∈ fields).
Proof.
  unfold LEGACY_REGISTER_ITEM_FIELDS. simpl. repeat case_decide; intros [= <-]; subst;
    (split_and!; [by vm_compute|apply (bool_decide_unpack _); by vm_compute|..]);
    try done; intros _; rewrite ?(bool_decide_unpack _); repeat split;
    apply (bool_decide_unpack _); by vm_compute.
Qed.

Section projection.
Context `{LocalZone}.

Lemma overridden_get worker item name d f :
  dict_get f (overridden worker item name d) =
    if decide (f = "user" ∧ name = "page")
    then Some (optional (worker ≫= λ r, _page_owner r (row_id item)))
    else if decide (f = "subscribed_tables" ∧ name = "page")
    then Some (match item with RowPage p => names (page_table_subscriptions p) | _ => VSet [] end)
    else if decide (f = "user" ∧ name = "user") then Some (VStr (row_id item))
    else dict_get f d.
Proof.
  unfold overridden. destruct (decide (name = "page")) as [->|Hp].
  - destruct (decide (f = "user" ∧ _)) as [[-> _]|H1].
    + rewrite dict_get_set_ne, dict_get_set_eq by done. done.
    + destruct (decide (f = "subscribed_tables" ∧ _)) as [[-> _]|H2]; [by rewrite dict_get_set_eq|].
      rewrite decide_False by (by intros []). rewrite !dict_get_set_ne; [done|naive_solver..].
  - rewrite (decide_False (P := f = "user" ∧ name = "page")) by tauto.
    rewrite (decide_False (P := f = "subscribed_tables" ∧ name = "page")) by tauto.
    destruct (decide (name = "user")) as [->|Hu].
    + destruct (decide (f = "user" ∧ _)) as [[-> _]|H1]; [by rewrite dict_get_set_eq|].
      rewrite dict_get_set_ne; [done|naive_solver].
    + destruct (decide (f = "user" ∧ name = "user")) as [[_ ->]|_]; done.
Qed.

Lemma overridden_keys worker item name (d : attrs) :
  (name = "page" → "user" ∈ d.*1 ∧ "subscribed_tables" ∈ d.*1) → (name = "user" → "user" ∈ d.*1) →
  (overridden worker item name d).*1 = d.*1.
Proof.
  intros Hp Hu. unfold overridden. case_decide as H1; [destruct (Hp H1) as [Hpu Hps]|].
  - assert ((dict_set "user" (optional (worker ≫= λ r, _page_owner r (row_id item))) d).*1 = d.*1) as E
      by by rewrite dict_set_keys, decide_True.
    by rewrite dict_set_keys, E, decide_True.
  - case_decide as H2; [|done]. rewrite dict_set_keys, decide_True; [done | auto].
Qed.

(** Every answer of the register is a projection: its keys are exactly the four
    the daemon put on every register item and then the daemon's own field list for
    that register, in that order - nothing the core keeps for itself is among them;
    each field is the row's, except that a page answers its derived owner and its
    table subscriptions, a user its own name, and a birth instant nobody stamped is
    the row's server clock made naive local. *)
Theorem answer_is_projection worker item name d :
  _adapt_to_legacy worker (Some item) name = Ok (Some d) →
  ∃ fields, LEGACY_REGISTER_ITEM_FIELDS name = Some fields ∧
    d.*1 = ANSWER_HEAD ++ fields ∧
    (∀ f, f ∈ fields → f ∉ ["user"; "subscribed_tables"; "start_ts"] →
       dict_get f d = Some (row_get item f)) ∧
    (name = "page" →
       dict_get "user" d = Some (optional (worker ≫= λ r, _page_owner r (row_id item))) ∧
       ∀ p, item = RowPage p →
         dict_get "subscribed_tables" d = Some (names (page_table_subscriptions p))) ∧
    (name = "user" → dict_get "user" d = Some (VStr (row_id item))) ∧
    (if is_none (row_get item "start_ts")
     then ∃ ts, row_fields item !! "last_refresh_ts" = Some (VInt ts) ∧
                dict_get "start_ts" d = Some (VNaive (ts + utc_offset ts))
     else dict_get "start_ts" d = Some (row_get item "start_ts")).
Proof.
  unfold _adapt_to_legacy. destruct (LEGACY_REGISTER_ITEM_FIELDS name) as [fields|] eqn:HF; [|done].
  destruct (known_register name fields HF) as (HK & Hst & Hpf & Huf).
  set (head := [("register_name", VStr name); ("datachanges", VList []); ("datachanges_idx", VInt 0);
     ("subscribed_paths", names (_item_subscribed_paths worker (row_id item) name))]).
  assert (dict_wf head) as Hwf by (unfold dict_wf; simpl; apply (bool_decide_unpack _); by vm_compute).
  destruct (projected_fold item fields head Hwf) as [Hin Hout].
  assert ((projected worker item name fields).*1 = ANSWER_HEAD ++ fields) as Hkeys
    by (unfold projected; rewrite projected_keys; exact HK).
  assert ((overridden worker item name (projected worker item name fields)).*1 = ANSWER_HEAD ++ fields)
    as Hokeys.
  { rewrite overridden_keys; [done| |]; rewrite Hkeys; intros Hn.
    - destruct (Hpf Hn). split; apply elem_of_app; by right.
    - apply elem_of_app. right. by apply Huf. }
  assert (∀ f, f ∈ fields → dict_get f (projected worker item name fields) = Some (row_get item f))
    as Hget by (intros f Hf; by apply Hin).
  set (d0 := overridden worker item name (projected worker item name fields)) in *.
  assert (dict_get "start_ts" d0 = Some (row_get item "start_ts")) as Hst0.
  { unfold d0. rewrite overridden_get, !decide_False by (by intros []). by apply Hget. }
  assert (∀ d', (d' = d0 ∨ ∃ ts, d' = dict_set "start_ts" ts d0) →
    d'.*1 = ANSWER_HEAD ++ fields ∧ ∀ f, f ≠ "start_ts" → dict_get f d' = dict_get f d0) as Hd'.
  { intros d' [->|[ts ->]]; [done|]. split.
    - rewrite dict_set_keys, decide_True; [done|]. rewrite Hokeys. apply elem_of_app. by right.
    - intros f Hf. by rewrite dict_get_set_ne. }
  assert (∀ d', (d' = d0 ∨ ∃ ts, d' = dict_set "start_ts" ts d0) →
    (∀ f, f ∈ fields → f ∉ ["user"; "subscribed_tables"; "start_ts"] →
       dict_get f d' = Some (row_get item f)) ∧
    (name = "page" →
       dict_get "user" d' = Some (optional (worker ≫= λ r, _page_owner r (row_id item))) ∧
       ∀ p, item = RowPage p →
         dict_get "subscribed_tables" d' = Some (names (page_table_subscriptions p))) ∧
    (name = "user" → dict_get "user" d' = Some (VStr (row_id item)))) as Hrest.
  { intros d' Hd. destruct (Hd' d' Hd) as [_ Heq]. split_and!.
    - intros f Hf Hn. rewrite !not_elem_of_cons in Hn. destruct Hn as (N1 & N2 & N3 & _).
      rewrite Heq by done. unfold d0. rewrite overridden_get, !decide_False by (by intros []).
      by apply Hget.
    - intros Hn. rewrite !Heq by done. unfold d0. rewrite !overridden_get. split.
      + by rewrite decide_True.
      + intros p ->. rewrite decide_False by (by intros []). by rewrite decide_True.
    - intros Hn. rewrite Heq by done. unfold d0. rewrite overridden_get.
      rewrite (decide_False (P := "user" = "user" ∧ name = "page")) by (rewrite Hn; by intros []).
      rewrite (decide_False (P := "user" = "subscribed_tables" ∧ _)) by (by intros []).
      by rewrite decide_True. }
  unfold named. rewrite Hst0. simpl. intros Hans. exists fields. split; [done|].
  destruct (is_none (row_get item "start_ts")) eqn:Hnone.
  - destruct (row_fields item !! "last_refresh_ts") as [epoch|]; [|done].
    destruct epoch; simplify_eq/=.
    set (ts := VNaive _).
    destruct (Hd' _ (or_intror (ex_intro _ ts eq_refl))) as [H1 _].
    destruct (Hrest _ (or_intror (ex_intro _ ts eq_refl))) as (H2 & H3 & H4).
    split_and!; [exact H1|exact H2|exact H3|exact H4|]. eexists. split; [done|]. by rewrite dict_get_set_eq.
  - injection Hans as <-. rewrite Hst0. destruct (Hd' d0 (or_introl eq_refl)) as [H1 _].
    destruct (Hrest d0 (or_introl eq_refl)) as (H2 & H3 & H4). done.
Qed.
End projection.

(** ** The filter grammar: a row is selected when ANY clause in force matches it *)

Definition no_space (s : string) : Prop := " "%char ∉ String.list_ascii_of_string s.
Definition no_colon (s : string) : Prop := ":"%char ∉ String.list_ascii_of_string s.

(** [name:value AND name:value ...]. *)
Definition clause_text (nv : string * string) : string := nv.1 +:+ String ":" nv.2.
Definition filter_text (clauses : list (string * string)) : string :=
  String.concat " AND " (clause_text <$> clauses).

Lemma startswith_and c s : c ≠ " "%char → startswith (String c s) " AND " = false.
Proof. unfold startswith. cbn [String.prefix]. intros Hc. destruct (Ascii.ascii_dec _ _) as [E|]; [|done].
  by destruct Hc.
Qed.

Lemma split_on_last s : no_space s → split_on " AND " 0 s = [s].
Proof.
  unfold no_space. induction s as [|c s IH]; [done|].
  cbn [String.list_ascii_of_string]. rewrite not_elem_of_cons. intros [Hc Hs].
  cbn [split_on]. by rewrite startswith_and, IH by done.
Qed.

Lemma split_on_join s t :
  no_space s → split_on " AND " 0 (s +:+ " AND " +:+ t) = s :: split_on " AND " 0 t.
Proof.
  unfold no_space. induction s as [|c s IH].
  - intros _. by destruct t.
  - cbn [String.list_ascii_of_string]. rewrite not_elem_of_cons. intros [Hc Hs].
    change (String c s +:+ " AND " +:+ t) with (String c (s +:+ " AND " +:+ t)).
    cbn [split_on]. by rewrite startswith_and, IH by done.
Qed.

Lemma split_colon_clause n v : no_colon n → split_colon (n +:+ String ":" v) = Some (n, v).
Proof.
  unfold no_colon. induction n as [|c n IH]; [done|].
  cbn [String.list_ascii_of_string]. rewrite not_elem_of_cons. intros [Hc Hn].
  change (String c n +:+ String ":" v) with (String c (n +:+ String ":" v)).
  cbn [split_colon]. by rewrite decide_False, IH by done.
Qed.

Lemma no_space_clause nv : no_space nv.1 → no_space nv.2 → no_space (clause_text nv).
Proof.
  destruct nv as [n v]. unfold no_space, clause_text. simpl. intros Hn Hv.
  induction n as [|c n IH]; simpl in *; set_solver.
Qed.

Lemma split_filter_text nv clauses :
  Forall (λ nv, no_space nv.1 ∧ no_space nv.2) (nv :: clauses) →
  split_on " AND " 0 (filter_text (nv :: clauses)) = clause_text <$> nv :: clauses.
Proof.
  revert nv. induction clauses as [|nv' clauses IH]; intros nv [[H1 H2] Hrest]%Forall_cons.
  - apply split_on_last. by apply no_space_clause.
  - change (filter_text (nv :: nv' :: clauses))
      with (clause_text nv +:+ " AND " +:+ filter_text (nv' :: clauses)).
    rewrite split_on_join by (by apply no_space_clause). by rewrite IH.
Qed.

Lemma split_colons clauses :
  Forall (λ nv, no_colon nv.1) clauses → mapM split_colon (clause_text <$> clauses) = Some clauses.
Proof.
  induction 1 as [|[n v] clauses Hn _ IH]; [done|]. cbn [fmap list_fmap mapM].
  change (clause_text (n, v)) with (n +:+ String ":" v). rewrite split_colon_clause by done.
  cbn [mbind option_bind]. by rewrite IH.
Qed.

(** The clause in force for a name: a later one of the same name replaces it. *)
Definition in_force (clauses : list (string * string)) (name v : string) : Prop :=
  ∃ before after, clauses = before ++ (name, v) :: after ∧ name ∉ after.*1.

Definition store_clause `{Regex} (d : list (string * pattern)) (nv : string * string) :=
  dict_set nv.1 (compile nv.2) d.

Lemma parse_filters_fold `{Regex} texts d :
  parse_filters texts d =
    match mapM split_colon texts with
    | Some clauses => Ok (foldl store_clause d clauses)
    | None => Raise ValueError
    end.
Proof.
  revert d. induction texts as [|t texts IH]; intros d; [done|]. cbn [parse_filters mapM].
  destruct (split_colon t) as [[n v]|]; [|done]. rewrite IH. cbn [mbind option_bind].
  by destruct (mapM split_colon texts).
Qed.

Lemma fold_in_force `{Regex} clauses :
  dict_wf (foldl store_clause [] clauses) ∧
  ∀ name p, dict_get name (foldl store_clause [] clauses) = Some p ↔
    ∃ v, in_force clauses name v ∧ p = compile v.
Proof.
  induction clauses as [|[n x] clauses [Hwf IH]] using rev_ind.
  { split; [apply NoDup_nil_2|]. intros name p. split; [done|]. by intros (v & ([|] & ? & ? & _) & _). }
  rewrite foldl_app. cbn [foldl]. unfold store_clause at 1 3. cbn [fst snd].
  split; [by apply dict_set_wf|]. intros name p. destruct (decide (n = name)) as [->|Hne].
  - rewrite dict_get_set_eq. split.
    + intros [= <-]. exists x. split; [|done]. exists clauses, []. split; [done|]. apply not_elem_of_nil.
    + intros (v & (before & after & E & Hn) & ->).
      destruct after as [|y after _] using rev_ind; [by apply app_inj_tail in E as [_ [= ->]]|].
      rewrite app_comm_cons, app_assoc in E. apply app_inj_tail in E as [_ <-].
      rewrite fmap_app in Hn. simpl in Hn. set_solver.
  - rewrite dict_get_set_ne, IH by done.
    split; intros (v & (before & after & E & Hn) & ->); exists v; (split; [|done]).
    + exists before, (after ++ [(n, x)]). rewrite E, <-app_assoc. split; [done|].
      rewrite fmap_app. simpl. set_solver.
    + destruct after as [|y after _] using rev_ind; [by apply app_inj_tail in E as [_ [= ]]|].
      rewrite app_comm_cons, app_assoc in E. apply app_inj_tail in E as [-> <-].
      exists before, after. split; [done|]. rewrite fmap_app in Hn. set_solver.
Qed.

Lemma filtered_elem `{Regex} r items fltdict item :
  item ∈ filtered r items fltdict ↔
    item ∈ items ∧ ∃ clause, clause ∈ fltdict ∧ clause_matches r item clause = true.
Proof.
  unfold filtered. rewrite list_elem_of_bind. split.
  - intros (x & Hx & Hin). apply list_elem_of_bind in Hx. destruct Hx as (cl & Hcl & Hm).
    destruct (clause_matches r x cl) eqn:E; [|by apply elem_of_nil in Hcl].
    apply list_elem_of_singleton in Hcl. subst. eauto.
  - intros (Hin & cl & Hcl & Hm). exists item. split; [|done].
    apply list_elem_of_bind. exists cl. split; [|done]. rewrite Hm. apply list_elem_of_singleton. done.
Qed.

(** C31: the filter grammar. No filter, the empty one and ["*"] select every row. Any
    other is cut at [" AND "] and each clause at its first colon; a clause without one
    raises ValueError; and otherwise a row is selected exactly when SOME clause in
    force matches it - the clauses are alternatives, not conditions that must all
    hold, and of several clauses with one name only the last is in force. A filter
    written [name:value AND name:value], no spaces inside the clauses and no colon in
    the names, is cut back into the clauses it was written from. *)
Theorem filters_select_any `{Regex} r items f clauses :
  f ≠ "" → f ≠ "*" →
  _filter_items r items None = Ok items ∧
  _filter_items r items (Some "") = Ok items ∧
  _filter_items r items (Some "*") = Ok items ∧
  match mapM split_colon (split_on " AND " 0 f) with
  | None => _filter_items r items (Some f) = Raise ValueError
  | Some cut => ∃ selected, _filter_items r items (Some f) = Ok selected ∧
      ∀ item, item ∈ selected ↔
        item ∈ items ∧ ∃ name v, in_force cut name v ∧ clause_matches r item (name, compile v) = true
  end ∧
  (clauses ≠ [] → Forall (λ nv, no_space nv.1 ∧ no_space nv.2) clauses →
   Forall (λ nv, no_colon nv.1) clauses →
   mapM split_colon (split_on " AND " 0 (filter_text clauses)) = Some clauses).
Proof.
  intros Hnz Hstar. split_and!; [done..| |].
  - assert (_filter_items r items (Some f) =
      filtered r items <$> parse_filters (split_on " AND " 0 f) []) as ->.
    { unfold _filter_items. destruct f; [done|]. by rewrite decide_False. }
    rewrite parse_filters_fold. destruct (mapM _ _) as [cut|]; [|done].
    eexists. split; [done|]. intros item. rewrite filtered_elem.
    destruct (fold_in_force cut) as [Hwf Hget]. apply and_iff_compat_l. split.
    + intros ([n p] & Hin & Hm). apply (dict_elem_get _ _ _ Hwf), Hget in Hin.
      destruct Hin as (v & Hv & ->). eauto.
    + intros (n & v & Hv & Hm). exists (n, compile v). split; [|done].
      apply (dict_elem_get _ _ _ Hwf), Hget. eauto.
  - intros Hne Hs Hc. destruct clauses as [|nv clauses]; [done|].
    by rewrite split_filter_text, split_colons.
Qed.

(** ** The listings: the four roads of [pages] answer one question *)

(** The edge sets say what the rows say. *)
Record edges_wf (r : registry) : Prop := EdgesWf {
  ed_ids : ∀ p page, page_register r !! p = Some page → page_register_item_id page = p;
  ed_user : ∀ u entry, user_register r !! u = Some entry →
    ∀ c, c ∈ user_connections entry ↔
      ∃ row, connection_register r !! c = Some row ∧ connection_user row = u;
  ed_pages : ∀ c row, connection_register r !! c = Some row →
    ∀ p, p ∈ connection_pages row ↔
      ∃ page, page_register r !! p = Some page ∧ page_connection_id page = c;
  ed_owner : ∀ c row, connection_register r !! c = Some row →
    is_Some (user_register r !! connection_user row)
}.

(** What the two arguments ask of a page. *)
Definition asked (r : registry) (connection_id user : option string) (p : string) (page : page_row)
    : Prop :=
  (∀ c, given connection_id = Some c → page_connection_id page = c) ∧
  (∀ u, given user = Some u → _page_owner r p = Some u).

Lemma live_rows_elem (m : gmap string page_row) keys page :
  page ∈ _live_rows m keys ↔ ∃ k, k ∈ keys ∧ m !! k = Some page.
Proof. unfold _live_rows. rewrite list_elem_of_omap. naive_solver. Qed.

Section pages.
Context `{LocalZone, BagApi, Regex, CoreKeysLaws}.

Lemma page_candidates_spec r connection_id user page :
  edges_wf r →
  page ∈ page_candidates r connection_id user ↔
    ∃ p, page_register r !! p = Some page ∧ asked r connection_id user p page.
Proof.
  intros Hwf. unfold page_candidates, asked.
  destruct (given connection_id) as [cid|], (given user) as [u|].
  - rewrite list_elem_of_filter, live_rows_elem. setoid_rewrite pages_by_connection_all. split.
    + intros (Ho & p & (pg & Hpg & Hc) & Hp). rewrite Hp in Hpg. injection Hpg as <-.
      rewrite (ed_ids _ Hwf _ _ Hp) in Ho. exists p. naive_solver.
    + intros (p & Hp & Hc & Ho). rewrite (ed_ids _ Hwf _ _ Hp). naive_solver.
  - rewrite live_rows_elem. setoid_rewrite pages_by_connection_all. split.
    + intros (p & (pg & Hpg & Hc) & Hp). rewrite Hp in Hpg. injection Hpg as <-. naive_solver.
    + intros (p & Hp & Hc & _). naive_solver.
  - split.
    + destruct (user_register r !! u) as [entry|] eqn:Hu; [|by intros ?%elem_of_nil].
      intros (cid & Hin & Hcid)%list_elem_of_bind. apply elem_of_elements in Hcid.
      apply (ed_user _ Hwf _ _ Hu) in Hcid. destruct Hcid as (row & Hrow & Huser).
      rewrite Hrow in Hin. apply live_rows_elem in Hin. destruct Hin as (p & Hel & Hp).
      apply elem_of_elements, (ed_pages _ Hwf _ _ Hrow) in Hel. destruct Hel as (pg & Hpg & Hc).
      rewrite Hp in Hpg. injection Hpg as <-. exists p. split_and!; [done|done|].
      intros u' [= <-]. unfold _page_owner. rewrite Hp. simpl. rewrite Hc, Hrow. simpl. by rewrite Huser.
    + intros (p & Hp & _ & Ho). specialize (Ho u eq_refl). unfold _page_owner in Ho.
      rewrite Hp in Ho. simpl in Ho.
      destruct (connection_register r !! page_connection_id page) as [row|] eqn:Hrow; [|done].
      simpl in Ho. injection Ho as Huser. destruct (ed_owner _ Hwf _ _ Hrow) as [entry Hentry].
      rewrite Huser in Hentry. rewrite Hentry. apply list_elem_of_bind.
      exists (page_connection_id page). split.
      * rewrite Hrow. apply live_rows_elem. exists p. split; [|done].
        apply elem_of_elements, (ed_pages _ Hwf _ _ Hrow). eauto.
      * apply elem_of_elements, (ed_user _ Hwf _ _ Hentry). eauto.
  - rewrite live_rows_elem. setoid_rewrite page_keys_all. naive_solver.
Qed.

(** Each live page has its birth stamp ([new_page] puts it). *)
Definition stamped (item : row) : Prop := is_none (row_get item "start_ts") = false.

Lemma adapt_stamped worker page :
  stamped (RowPage page) →
  ∃ a, _adapt_to_legacy worker (Some (RowPage page)) "page" = Ok (Some a).
Proof.
  intros Hs. unfold _adapt_to_legacy.
  change (LEGACY_REGISTER_ITEM_FIELDS "page") with
    (Some ["register_item_id"; "pagename"; "connection_id"; "start_ts"; "subscribed_tables";
        "user"; "user_ip"; "user_agent"; "relative_url"]). cbv match.
  set (fields := ["register_item_id"; _; _; _; _; _; _; _; _]).
  assert (dict_get "start_ts" (overridden worker (RowPage page) "page"
    (projected worker (RowPage page) "page" fields)) = Some (row_get (RowPage page) "start_ts")) as Hst.
  { rewrite overridden_get, !decide_False by (by intros []). apply projected_fold.
    - apply (bool_decide_unpack _). by vm_compute.
    - apply (bool_decide_unpack _). by vm_compute. }
  unfold named. rewrite Hst. unfold stamped in Hs. revert Hs.
  generalize (row_get (RowPage page) "start_ts"). intros v Hv. cbn. rewrite Hv. eauto.
Qed.

Lemma keyed_pages worker l d :
  Forall (λ page, stamped (RowPage page)) l →
  ∃ d', keyed worker "page" (RowPage <$> l) d = Ok d' ∧
    (∀ p, p ∈ d'.*1 ↔ p ∈ d.*1 ∨ ∃ page, page ∈ l ∧ page_register_item_id page = p) ∧
    (∀ p a, dict_get p d' = Some a → dict_get p d = Some a ∨
       ∃ page, page ∈ l ∧ page_register_item_id page = p ∧
         _adapt_to_legacy worker (Some (RowPage page)) "page" = Ok (Some a)).
Proof.
  revert d. induction l as [|page l IH]; intros d Hl.
  { exists d. split_and!; [done| |naive_solver]. intros p. split; [by left|].
    by intros [?|(page & ?%elem_of_nil & _)]. }
  apply Forall_cons in Hl. destruct Hl as [Hs Hl].
  destruct (adapt_stamped worker page Hs) as [a Ha].
  destruct (IH (dict_set (page_register_item_id page) a d) Hl) as (d' & Hd' & Hk & Hg).
  exists d'. split_and!.
  - cbn [fmap list_fmap keyed]. rewrite Ha. exact Hd'.
  - intros p. rewrite Hk, dict_set_keys_elem. setoid_rewrite elem_of_cons. clear. naive_solver.
  - intros p b Hb. destruct (Hg p b Hb) as [Hold|(pg & Hin & Hrest)].
    + destruct (decide (page_register_item_id page = p)) as [<-|Hne].
      * rewrite dict_get_set_eq in Hold. injection Hold as <-. right. exists page.
        split; [apply list_elem_of_here|done].
      * rewrite dict_get_set_ne in Hold by done. by left.
    + right. exists pg. split; [by apply list_elem_of_further|done].
Qed.

Lemma one_page_filtered r page (fl : list (string * pattern)) :
  ∃ k, (fl ≫= λ clause, if clause_matches r (RowPage page) clause then [RowPage page] else [])
       = RowPage <$> k.
Proof.
  induction fl as [|cl fl [k Hk]]; [by exists []|]. cbn [mbind list_bind].
  destruct (clause_matches r (RowPage page) cl); rewrite Hk; [by exists (page :: k) | by exists k].
Qed.

Lemma filtered_pages r l fl : ∃ k, filtered r (RowPage <$> l) fl = RowPage <$> k.
Proof.
  induction l as [|page l [k' Hk']]; [by exists []|]. destruct (one_page_filtered r page fl) as [k Hk].
  exists (k ++ k'). unfold filtered in *. cbn [fmap list_fmap mbind list_bind].
  rewrite fmap_app, <-Hk, <-Hk'. done.
Qed.

(** A filter the grammar reads keeps some of the rows it is given. *)
Lemma filter_items_pages r l filters :
  _filter_items r [] filters = Ok [] →
  ∃ l', _filter_items r (RowPage <$> l) filters = Ok (RowPage <$> l') ∧
    ∀ page, page ∈ l' ↔ page ∈ l ∧ ∃ sel, _filter_items r [RowPage page] filters = Ok sel ∧ sel ≠ [].
Proof.
  unfold _filter_items.
  assert (∀ page, page ∈ l ↔ page ∈ l ∧ ∃ sel, Ok [RowPage page] = Ok sel ∧ sel ≠ []) as Hall by naive_solver.
  destruct filters as [f|]; [|by exists l]. destruct f as [|a f]; [by exists l|].
  case_decide; [by exists l|].
  destruct (parse_filters _ []) as [fl|]; [|done]. intros _.
  destruct (filtered_pages r l fl) as [k' Hk']. exists k'. split; [by rewrite <-Hk'|].
  intros page.
  assert (page ∈ k' ↔ RowPage page ∈ filtered r (RowPage <$> l) fl) as ->
    by (rewrite Hk', list_elem_of_fmap; naive_solver).
  rewrite filtered_elem, list_elem_of_fmap. split.
  - intros ((pg & [= <-] & Hin) & Hcl). split; [done|].
    exists (filtered r [RowPage page] fl). split; [reflexivity|]. intros E.
    assert (RowPage page ∈ filtered r [RowPage page] fl) as Hel
      by (apply filtered_elem; split; [apply list_elem_of_here|done]).
    rewrite E in Hel. by apply elem_of_nil in Hel.
  - intros (Hin & sel & Hs & Hsel). split; [eauto|].
    change (Ok (filtered r [RowPage page] fl) = Ok sel) in Hs. injection Hs as <-.
    destruct (filtered r [RowPage page] fl) as [|x rest] eqn:E; [done|].
    assert (x ∈ filtered r [RowPage page] fl) as Hx by (rewrite E; apply list_elem_of_here).
    apply filtered_elem in Hx. destruct Hx as [Hx Hcl]. apply list_elem_of_singleton in Hx. by subst.
Qed.

(** C28: whichever of its four roads [pages] takes - the connection's own index, the
    ownership edges of the user, both, or the whole register - the keys it answers
    are exactly the ids of the live pages on that connection, owned by that user,
    that the filter keeps; each value is that page's legacy answer. *)
Theorem pages_answer_the_query r connection_id user filters :
  edges_wf r → (∀ p page, page_register r !! p = Some page → stamped (RowPage page)) →
  _filter_items r [] filters = Ok [] →
  ∃ d, pages (Some r) connection_id user filters = Ok d ∧
    (∀ p, p ∈ d.*1 ↔ ∃ page, page_register r !! p = Some page ∧
       asked r connection_id user p page ∧
       ∃ sel, _filter_items r [RowPage page] filters = Ok sel ∧ sel ≠ []) ∧
    (∀ p a, dict_get p d = Some a → ∃ page, page_register r !! p = Some page ∧
       _adapt_to_legacy (Some r) (Some (RowPage page)) "page" = Ok (Some a)).
Proof.
  intros Hwf Hst Hf. unfold pages.
  destruct (filter_items_pages r (page_candidates r connection_id user) filters Hf) as (l & Hl & Hin).
  assert (∀ page, page ∈ l → ∃ p, page_register r !! p = Some page) as Hlive.
  { intros page Hp. apply Hin in Hp. destruct Hp as [Hp _].
    apply page_candidates_spec in Hp as (p & ? & _); eauto. }
  destruct (keyed_pages (Some r) l []) as (d & Hd & Hk & Hg).
  { apply Forall_forall. intros page Hp. destruct (Hlive page Hp). eauto. }
  exists d. rewrite Hl. cbn. split_and!; [exact Hd| |].
  - intros p. rewrite Hk. split.
    + intros [Hp|(page & Hp & Hid)]; [by apply elem_of_nil in Hp|].
      apply Hin in Hp. destruct Hp as [Hp Hsel].
      apply page_candidates_spec in Hp as (q & Hq & Ha); [|done].
      rewrite (ed_ids _ Hwf _ _ Hq) in Hid. subst. eauto.
    + intros (page & Hp & Ha & Hsel). right. exists page.
      split; [|by apply (ed_ids _ Hwf)]. apply Hin. split; [|done].
      apply page_candidates_spec; eauto.
  - intros p a Ha. destruct (Hg p a Ha) as [?|(page & Hp & Hid & Had)]; [done|].
    destruct (Hlive page Hp) as [q Hq]. rewrite (ed_ids _ Hwf _ _ Hq) in Hid. subst. eauto.
Qed.
End pages.

(** The keys whose row names [k]. *)
Definition keys_with {A} (f : A → string) (k : string) (m : gmap string A) : gset string :=
  dom (filter (λ kv, f kv.2 = k) m).

Lemma keys_with_elem {A} (f : A → string) k m i :
  i ∈ keys_with f k m ↔ ∃ x, m !! i = Some x ∧ f x = k.
Proof.
  unfold keys_with. rewrite elem_of_dom. split.
  - intros [x Hx]. apply map_lookup_filter_Some in Hx. eauto.
  - intros (x & Hx & HP). exists x. by apply map_lookup_filter_Some.
Qed.

(** [edges_wf], decided on a finite register. *)
Definition edges_check (r : registry) : bool :=
  bool_decide (map_Forall (λ p page, page_register_item_id page = p) (page_register r)) &&
  bool_decide (map_Forall (λ u entry, user_connections entry =
    keys_with connection_user u (connection_register r)) (user_register r)) &&
  bool_decide (map_Forall (λ c row, connection_pages row =
    keys_with page_connection_id c (page_register r)) (connection_register r)) &&
  bool_decide (map_Forall (λ _ row, is_Some (user_register r !! connection_user row))
    (connection_register r)).

Lemma edges_check_wf r : edges_check r = true → edges_wf r.
Proof.
  unfold edges_check. rewrite !andb_true_iff, !bool_decide_eq_true. intros [[[H1 H2] H3] H4]. split.
  - intros p page Hp. by apply H1 in Hp.
  - intros u entry Hu c. rewrite (H2 _ _ Hu). apply keys_with_elem.
  - intros c row Hc p. rewrite (H3 _ _ Hc). apply keys_with_elem.
  - intros c row Hc. by apply H4 in Hc.
Qed.

(** ** A register the listings are evaluated on *)
Module ClientWitness.
#[local] Existing Instance Witness.flat_bag.
#[local] Existing Instance Witness.zone_east.

(** A pattern language of literal prefixes, "[" being a syntax error. *)
#[local] Instance prefix_regex : Regex := {|
  re_compile p := if bool_decide (p = "[") then None else Some (λ s, startswith s p)
|}.

#[local] Instance plain_keys : CoreKeys := {|
  page_keys r := (map_to_list (page_register r)).*1;
  connection_keys r := (map_to_list (connection_register r)).*1;
  user_keys r := (map_to_list (user_register r)).*1;
  pages_by_connection c r :=
    (filter (λ kp, page_connection_id kp.2 = c) (map_to_list (page_register r))).*1
|}.

Lemma map_keys_all {A} (m : gmap string A) k : k ∈ (map_to_list m).*1 ↔ is_Some (m !! k).
Proof.
  rewrite list_elem_of_fmap. split.
  - intros ([k' x] & -> & Hin). apply elem_of_map_to_list in Hin. by exists x.
  - intros [x Hx]. exists (k, x). split; [done|]. by apply elem_of_map_to_list.
Qed.

#[local] Instance plain_keys_laws : CoreKeysLaws.
Proof.
  split; [intros; apply map_keys_all..|]. intros c r p. simpl. rewrite list_elem_of_fmap. split.
  - intros ([k pg] & -> & Hin). apply list_elem_of_filter in Hin. destruct Hin as [Hc Hin].
    apply elem_of_map_to_list in Hin. eauto.
  - intros (pg & Hp & Hc). exists (p, pg). split; [done|]. apply list_elem_of_filter.
    split; [done|]. by apply elem_of_map_to_list.
Qed.

Definition a_page (p c name : string) (start : Z) : page_row :=
  PageRow p c 3 [] 0 None ∅ ∅ {["t.a"]}
    {["pagename" := VStr name; "start_ts" := VNaive start]}.

Definition busy_registry : registry :=
  MkRegistry
    {["anna" := UserRow "anna" 1 {["c1"]} ∅; "bob" := UserRow "bob" 2 {["c2"]} ∅]}
    {["c1" := ConnectionRow "c1" "anna" {["p1"; "p2"]} ∅ None;
      "c2" := ConnectionRow "c2" "bob" {["p3"]} ∅ None]}
    {["p1" := a_page "p1" "c1" "index" 10; "p2" := a_page "p2" "c1" "report" 20;
      "p3" := a_page "p3" "c2" "index" 30]}
    {[1%positive := BagObject [] []; 2%positive := BagObject [] []; 3%positive := BagObject [] []]} ∅.

Lemma busy_stamped p page : page_register busy_registry !! p = Some page → stamped (RowPage page).
Proof.
  assert (map_Forall (λ _ page, stamped (RowPage page)) (page_register busy_registry)) as Hall
    by (apply (bool_decide_unpack _); by vm_compute).
  apply Hall.
Qed.

Lemma answer_is_projection_witness :
  ∃ d, _adapt_to_legacy (Some busy_registry) (Some (RowPage (a_page "p1" "c1" "index" 10))) "page"
         = Ok (Some d) ∧ dict_get "user" d = Some (VStr "anna") ∧
       d.*1 = ANSWER_HEAD ++ ["register_item_id"; "pagename"; "connection_id"; "start_ts";
                "subscribed_tables"; "user"; "user_ip"; "user_agent"; "relative_url"].
Proof.
  destruct (_adapt_to_legacy (Some busy_registry) (Some (RowPage (a_page "p1" "c1" "index" 10))) "page")
    as [[d|]|] eqn:E; [|by vm_compute in E..].
  exists d. split; [done|].
  destruct (answer_is_projection _ _ _ _ E) as (fields & Hf & Hk & _ & Hp & _).
  destruct (Hp eq_refl) as [Hu _]. split; [rewrite Hu; by vm_compute|].
  rewrite Hk. vm_compute in Hf. by injection Hf as <-.
Defined.

(** "user:anna AND pagename:index" keeps the report of anna and bob's index alike. *)
Lemma filters_select_any_witness :
  ∃ selected,
    _filter_items busy_registry (RowPage <$> [a_page "p2" "c1" "report" 20; a_page "p3" "c2" "index" 30])
      (Some "user:anna AND pagename:index") = Ok selected ∧
    RowPage (a_page "p2" "c1" "report" 20) ∈ selected ∧
    RowPage (a_page "p3" "c2" "index" 30) ∈ selected.
Proof.
  destruct (filters_select_any busy_registry
    (RowPage <$> [a_page "p2" "c1" "report" 20; a_page "p3" "c2" "index" 30])
    "user:anna AND pagename:index" [("user", "anna"); ("pagename", "index")])
    as (_ & _ & _ & HF & Hcut); [done|done|].
  change "user:anna AND pagename:index"
    with (filter_text [("user", "anna"); ("pagename", "index")]) in HF at 1.
  rewrite Hcut in HF; [|done| |].
  2-3: repeat constructor; apply (bool_decide_unpack _); by vm_compute.
  destruct HF as (sel & Hs & Hin). exists sel. split; [exact Hs|].
  split; apply Hin; (split; [set_solver|]).
  - exists "user", "anna". split; [|by vm_compute].
    exists [], [("pagename", "index")]. split; [done|]. apply (bool_decide_unpack _). by vm_compute.
  - exists "pagename", "index". split; [|by vm_compute].
    exists [("user", "anna")], []. split; [done|]. apply (bool_decide_unpack _). by vm_compute.
Defined.

Lemma pages_answer_the_query_witness :
  ∃ d, pages (Some busy_registry) None (Some "anna") (Some "pagename:rep") = Ok d ∧
    "p2" ∈ d.*1 ∧ (¬ "p1" ∈ d.*1) ∧ ¬ "p3" ∈ d.*1.
Proof.
  destruct (pages_answer_the_query busy_registry None (Some "anna") (Some "pagename:rep"))
    as (d & Hd & Hk & _).
  - apply edges_check_wf. by vm_compute.
  - apply busy_stamped.
  - by vm_compute.
  - exists d. split; [exact Hd|]. rewrite !Hk. split_and!.
    + exists (a_page "p2" "c1" "report" 20). split; [by vm_compute|]. split.
      * split; [done|]. by intros u [= <-].
      * exists [RowPage (a_page "p2" "c1" "report" 20)]. split; [by vm_compute | done].
    + intros (page & Hp & _ & sel & Hs & Hne).
      assert (page = a_page "p1" "c1" "index" 10) as -> by (apply (inj Some); by rewrite <-Hp).
      assert (_filter_items busy_registry [RowPage (a_page "p1" "c1" "index" 10)]
                (Some "pagename:rep") = Ok []) as E by by vm_compute.
      rewrite E in Hs. by injection Hs as <-.
    + intros (page & Hp & [_ Ho] & _). specialize (Ho "anna" eq_refl). by vm_compute in Ho.
Defined.
End ClientWitness.
End Client.
