(* ===== verification/DbEnv.v ===== *)
(** * DbEnv: the database environment of a page

    [GenropyRegisterClient.get_dbenv] of
    src/genropy_asgi/siteregister/siteregister_client.py.  The environment it fills is
    an object of the site's: the one the page's store holds under [dbenv] when there is
    one, so that filling it is writing that store, or a Bag made there and then.  What
    the object's own methods do, and which nodes [Bag.walk] hands to the callback while
    the callback writes, is the legacy's; the list of the nodes handed is an argument. *)

From S2P Require Export RegisterClient.

Module DbEnv.
Import LegacyBagCollector Registry Client.

(** The methods of an environment object - a Bag, or whatever the site stored: what the
    object is afterwards, the events a store that holds it hears, and the answer; and
    the nodes of a Bag once the object under a path has become another value. *)
Class SiteEnv : Type := {
  env_update : value → value → value * list node_event * res ();
  env_setitem : value → value → value → value * list node_event * res ();
  bag_became : bag → string → value → bag
}.

(** [Bag.update] and [bag[path] = value] of the legacy. *)
Class SiteEnvLaws `{BagApi, SiteEnv} : Type := {
  merged : bag → bag → bag;
  env_update_bag : ∀ b o, ∃ evs, env_update (VBag b) (VBag o) = (VBag (merged b o), evs, Ok ());
  env_setitem_bag : ∀ b p v, ∃ evs,
    env_setitem (VBag b) (VStr p) v = (VBag (bag_setItem b p v None None).1, evs, Ok ());
  became_get : ∀ b p v, bag_getItem (bag_became b p v) p = Some v
}.

(** The environment, and the store that holds it when it is the page's own. *)
Record db_env : Type := MkDbEnv {
  de_value : value;
  de_shared : option positive
}.

Section dbenv.
Context `{BagApi, SiteEnv}.

(** [data.getItem(path) or Bag()]: the value, and whether it is the store's own. *)
Definition or_new_bag (v : option value) : value * bool :=
  match v with
  | Some v => if truthy v then (v, true) else (VBag [], false)
  | None => (VBag [], false)
  end.

(** A method called on the environment: a shared one is written where it is. *)
Definition on_env (now : Z) (method : value → value * list node_event * res ()) (env : db_env)
    : PyM registry db_env := λ r,
  let '(v, evs, a) := method (de_value env) in
  let r := match de_shared env with
           | None => r
           | Some l => on_bag now l (λ b, (bag_became b "dbenv" v, evs)) r
           end in
  ((λ _, MkDbEnv v (de_shared env)) <$> a, r).

(** The key a visited node asks for: its label, or what its attribute says. *)
Definition dbenv_key (n : node) : option value :=
  match dict_get "dbenv" (node_attr n) with
  | None => None
  | Some v =>
      if truthy v then Some (match v with VBool true => VStr (node_label n) | v => v end) else None
  end.

(** The callback of the walk. *)
Definition add_to_dbenv (now : Z) (n : node) (env : db_env) : PyM registry db_env :=
  match dbenv_key n with
  | None => mret env
  | Some path => on_env now (λ v, env_setitem v path (node_value n)) env
  end.

(** [data.walk(add_to_dbenv)], over the nodes it hands the callback. *)
Fixpoint walked (clock : list Z) (visits : list node) (env : db_env) : PyM registry db_env :=
  match visits with
  | [] => mret env
  | n :: rest => add_to_dbenv (hd 0 clock) n env ≫= λ env, walked (tail clock) rest env
  end.

Definition get_dbenv (clock : list Z) (page_id : string) (visits : list node) : PyM registry db_env := λ r,
  match local_item (Some r) page_id (Some "page") with
  | Raise e => (Raise e, r)
  | Ok None => (Ok (MkDbEnv (VBag []) None), r)
  | Ok (Some item) =>
      (_ensure_item_data item ≫= λ l,
       py_reads (λ r, stores r !! l) ≫= λ data,
       match data with
       | None => py_raise AttributeError
       | Some o =>
           let '(env, shared) := or_new_bag (bag_getItem (bo_nodes o) "dbenv") in
           let '(rootenv, _) := or_new_bag (bag_getItem (bo_nodes o) "rootenv") in
           on_env (hd 0 clock) (λ v, env_update v rootenv)
             (MkDbEnv env (if shared then Some l else None)) ≫= λ env,
           walked (tail clock) visits env
       end) r
  end.

(** ** What it comes to *)

(** What the nodes of a walk ask the environment to hold, in its order: nothing, their
    value under their own label, or under the path their mark names. *)
Inductive asks : list node → list (string * value) → Prop :=
| asks_nothing : asks [] []
| asks_unmarked n visits ms :
    dict_get "dbenv" (node_attr n) = None ∨ (∃ v, dict_get "dbenv" (node_attr n) = Some v ∧ truthy v = false) →
    asks visits ms → asks (n :: visits) ms
| asks_by_label n visits ms :
    dict_get "dbenv" (node_attr n) = Some (VBool true) →
    asks visits ms → asks (n :: visits) ((node_label n, node_value n) :: ms)
| asks_by_path n p visits ms :
    dict_get "dbenv" (node_attr n) = Some (VStr p) → p ≠ "" →
    asks visits ms → asks (n :: visits) ((p, node_value n) :: ms).

(** A shared environment is what its store holds. *)
Definition env_there (env : db_env) (r : registry) : Prop :=
  match de_shared env with
  | None => True
  | Some l => ∃ o, stores r !! l = Some o ∧ bag_getItem (bo_nodes o) "dbenv" = Some (de_value env)
  end.
End dbenv.

Section laws.
Context `{SiteEnvLaws}.

(** A method that answers, on an environment that is where it says. *)
Lemma on_env_ok now method env r v evs :
  env_there env r → method (de_value env) = (v, evs, Ok ()) →
  ∃ r', on_env now method env r = (Ok (MkDbEnv v (de_shared env)), r') ∧
    env_there (MkDbEnv v (de_shared env)) r' ∧ (de_shared env = None → r' = r) ∧
    ∀ l, de_shared env ≠ Some l → stores r' !! l = stores r !! l.
Proof.
  intros Hin Hm. unfold on_env. rewrite Hm. unfold env_there in *. cbn [de_shared de_value].
  destruct (de_shared env) as [l|]; [|by exists r]. destruct Hin as (o & Ho & _).
  eexists. split; [done|]. rewrite (on_bag_stores _ _ _ _ _ Ho). cbn [fst]. split_and!; [|done|].
  - eexists. split; [by rewrite lookup_insert_eq|]. apply became_get.
  - intros k Hk. rewrite lookup_insert_ne; [done | congruence].
Qed.

Definition marked (b : bag) (ms : list (string * value)) : bag :=
  foldl (λ b m, (bag_setItem b m.1 m.2 None None).1) b ms.

(** [m] answers the environment with [b] in it, and touches nothing else. *)
Definition fills (shared : option positive) (b : bag) (m : PyM registry db_env) (r : registry) : Prop :=
  ∃ r', m r = (Ok (MkDbEnv (VBag b) shared), r') ∧ env_there (MkDbEnv (VBag b) shared) r' ∧
    (shared = None → r' = r) ∧ ∀ l, shared ≠ Some l → stores r' !! l = stores r !! l.

(** A method that answers, and what is done next with the environment. *)
Lemma fills_step shared b b1 b2 now method evs (k : db_env → PyM registry db_env) r :
  env_there (MkDbEnv (VBag b) shared) r → method (VBag b) = (VBag b1, evs, Ok ()) →
  (∀ r, env_there (MkDbEnv (VBag b1) shared) r → fills shared b2 (k (MkDbEnv (VBag b1) shared)) r) →
  fills shared b2 (on_env now method (MkDbEnv (VBag b) shared) ≫= k) r.
Proof.
  intros Hin Hm Hk. destruct (on_env_ok now method _ r _ _ Hin Hm) as (r1 & E1 & Hin1 & Hr1 & Hl1).
  cbn [de_shared] in *. destruct (Hk r1 Hin1) as (r2 & E2 & Hin2 & Hr2 & Hl2).
  exists r2. rewrite pym_bind_unfold, E1. split_and!; [done|done|..].
  - intros Hs. by rewrite Hr2, Hr1.
  - intros l Hl. by rewrite Hl2, Hl1.
Qed.

(** The walk over an environment that is a Bag, when every mark names a path. *)
Lemma walk_fills clock visits ms b shared r :
  asks visits ms → env_there (MkDbEnv (VBag b) shared) r →
  fills shared (marked b ms) (walked clock visits (MkDbEnv (VBag b) shared)) r.
Proof.
  intros HA. revert clock b r.
  assert (∀ n k, dbenv_key n = Some (VStr k) → ∀ visits ms,
    (∀ clock b r, env_there (MkDbEnv (VBag b) shared) r →
       fills shared (marked b ms) (walked clock visits (MkDbEnv (VBag b) shared)) r) →
    ∀ clock b r, env_there (MkDbEnv (VBag b) shared) r →
      fills shared (marked b ((k, node_value n) :: ms))
        (walked clock (n :: visits) (MkDbEnv (VBag b) shared)) r) as Hset.
  { intros n k Hk visits' ms' IH clock b r Hin. cbn [walked]. unfold add_to_dbenv. rewrite Hk.
    destruct (env_setitem_bag b k (node_value n)) as [evs E].
    eapply fills_step; [exact Hin | exact E |]. intros r1 Hin1. by apply IH. }
  induction HA as [|n visits ms Hn HA IH|n visits ms Hn HA IH|n p visits ms Hn Hp HA IH].
  - intros clock b r Hin. by exists r.
  - intros clock b r Hin. cbn [walked]. unfold fills, add_to_dbenv. rewrite pym_bind_unfold.
    assert (dbenv_key n = None) as ->; [|by apply IH]. unfold dbenv_key. by destruct Hn as [->|(v & -> & ->)].
  - apply Hset; [unfold dbenv_key; by rewrite Hn | exact IH].
  - apply Hset; [unfold dbenv_key; rewrite Hn; by destruct p | exact IH].
Qed.

(** A path marked last, no later mark touching it, answers what its node held. *)
Lemma marked_last `{!BagLaws} b ms p v later :
  p ≠ "" → Forall (λ m : string * value, under m.1 p = false ∧ under p m.1 = false) later →
  bag_getItem (marked b (ms ++ (p, v) :: later)) p = Some v.
Proof.
  intros Hp HF. unfold marked. rewrite foldl_app. cbn [foldl fst snd].
  set (b1 := foldl _ b ms). clearbody b1.
  assert (bag_getItem (bag_setItem b1 p v None None).1 p = Some v) as E by by apply bag_get_set.
  revert E. generalize (bag_setItem b1 p v None None).1. induction HF as [|[q w] later [H1' H2'] HF IH];
    intros b2 E; [done|]. cbn [foldl fst snd]. apply IH. by rewrite bag_get_set_other.
Qed.

(** C34: the environment of a page is what its store keeps under [dbenv] - a new Bag
    when there is nothing there - with the [rootenv] merged in and then every node the
    walk met that is marked, under its own label or the path its mark names, a later
    mark over an earlier one. A stored environment is filled where it is: the answer is
    the object in the page's store, which holds all of that afterwards; a new one leaves
    every register and store as they were. No other store is touched, and a page that
    is not here answers an empty Bag. *)
Theorem dbenv_built `{!BagLaws} clock pid visits ms r :
  asks visits ms →
  match page_register r !! pid with
  | None => get_dbenv clock pid visits r = (Ok (MkDbEnv (VBag []) None), r)
  | Some page => ∀ o stored root shared root_shared,
      stores r !! page_store page = Some o →
      or_new_bag (bag_getItem (bo_nodes o) "dbenv") = (VBag stored, shared) →
      or_new_bag (bag_getItem (bo_nodes o) "rootenv") = (VBag root, root_shared) →
      ∃ b r', get_dbenv clock pid visits r =
          (Ok (MkDbEnv (VBag b) (if shared then Some (page_store page) else None)), r') ∧
        b = marked (merged stored root) ms ∧
        (∀ before p v later, ms = before ++ (p, v) :: later → p ≠ "" →
           Forall (λ m : string * value, under m.1 p = false ∧ under p m.1 = false) later →
           bag_getItem b p = Some v) ∧
        (if shared
         then ∃ o', stores r' !! page_store page = Some o' ∧
                bag_getItem (bo_nodes o') "dbenv" = Some (VBag b)
         else r' = r) ∧
        ∀ l, l ≠ page_store page → stores r' !! l = stores r !! l
  end.
Proof.
  intros Hms. destruct (page_register r !! pid) as [page|] eqn:Hp.
  2: { unfold get_dbenv, local_item. simpl. by rewrite Hp. }
  intros o stored root shared root_shared Ho He Hr.
  set (sh := if shared then Some (page_store page) else None).
  assert (env_there (MkDbEnv (VBag stored) sh) r) as Hin.
  { unfold env_there, sh. cbn. destruct shared; [|done]. exists o. split; [done|].
    unfold or_new_bag in He. destruct (bag_getItem (bo_nodes o) "dbenv"); [|done]. by branch. }
  destruct (env_update_bag stored root) as [evs Hup].
  destruct (fills_step sh stored _ (marked (merged stored root) ms) (hd 0 clock) (λ v, env_update v (VBag root))
    evs (walked (tail clock) visits) r Hin Hup) as (r2 & E2 & Hin2 & Hr2 & Hl2).
  { intros r1 Hin1. by apply walk_fills. }
  exists (marked (merged stored root) ms), r2. split_and!.
  - unfold get_dbenv.
    assert (local_item (Some r) pid (Some "page") = Ok (Some (RowPage page))) as ->
      by (unfold local_item; simpl; by rewrite Hp).
    rewrite pym_bind_unfold. cbn [_ensure_item_data]. rewrite pym_bind_unfold. unfold py_reads at 1.
    rewrite Ho, He, Hr. exact E2.
  - done.
  - intros before p v later -> Hne HF. by apply marked_last.
  - unfold env_there, sh in *. cbn in *. destruct shared; [done | by apply Hr2].
  - intros l Hl. apply Hl2. unfold sh. destruct shared; congruence.
Qed.
End laws.

(** ** Concrete inputs *)

Module DbEnvWitness.
#[local] Existing Instance Witness.flat_bag.
#[local] Existing Instance Witness.flat_bag_laws.

(** A Bag merged node by node, written where it is; any other object refuses. *)
Definition flat_merge (b o : bag) : bag :=
  foldl (λ b n, Witness.flat_set b (node_label n) (node_value n) (node_attr n)) b o.

#[local] Instance flat_env : SiteEnv := {|
  env_update v o := match v, o with
                    | VBag b, VBag o => (VBag (flat_merge b o), [], Ok ())
                    | _, _ => (v, [], Raise AttributeError)
                    end;
  env_setitem v k x := match v, k with
                       | VBag b, VStr p => (VBag (Witness.flat_set b p x []), [], Ok ())
                       | _, _ => (v, [], Raise TypeError)
                       end;
  bag_became b p v := Witness.flat_set b p v []
|}.

#[local] Instance flat_env_laws : SiteEnvLaws.
Proof.
  refine {| merged := flat_merge |}.
  - by exists [].
  - by exists [].
  - intros b p v. apply Witness.flat_get_set_eq.
Defined.

(** A page whose store keeps an environment, a root one and two marked nodes. *)
Definition env_nodes : bag :=
  [("dbenv", VBag [("lang", VStr "en", [])], []); ("rootenv", VBag [("workdate", VInt 3, [])], []);
   ("who", VStr "anna", [("dbenv", VBool true)]); ("tongue", VStr "it", [("dbenv", VStr "lang")])].

Definition env_registry : registry :=
  MkRegistry ∅ ∅ {["p1" := PageRow "p1" "c1" 1 [] 0 None ∅ ∅ ∅ ∅]} {[1%positive := BagObject env_nodes []]} ∅.

Lemma env_asks : asks env_nodes [("who", VStr "anna"); ("lang", VStr "it")].
Proof.
  apply asks_unmarked; [by left|]. apply asks_unmarked; [by left|].
  apply (asks_by_label ("who", VStr "anna", [("dbenv", VBool true)])); [done|].
  by apply (asks_by_path ("tongue", VStr "it", [("dbenv", VStr "lang")])); [..|apply asks_nothing].
Qed.

Lemma dbenv_built_witness :
  ∃ b r', get_dbenv [] "p1" env_nodes env_registry = (Ok (MkDbEnv (VBag b) (Some 1%positive)), r') ∧
    bag_getItem b "lang" = Some (VStr "it") ∧ bag_getItem b "workdate" = Some (VInt 3).
Proof.
  pose proof (dbenv_built [] "p1" env_nodes [("who", VStr "anna"); ("lang", VStr "it")] env_registry env_asks) as HB.
  destruct (HB (BagObject env_nodes []) [("lang", VStr "en", [])] [("workdate", VInt 3, [])] true true)
    as (b & r' & E & Eb & HL & _); [done..|].
  exists b, r'. split; [exact E|]. split.
  - apply (HL [("who", VStr "anna")] "lang" (VStr "it") []); [done|done|constructor].
  - rewrite Eb. by vm_compute.
Defined.
End DbEnvWitness.
End DbEnv.
