(* ===== verification/ClientCommands.v ===== *)
(** * GenropyRegisterClient: the commands that change something

    src/genropy_asgi/siteregister/siteregister_client.py: the lifecycle commands,
    the datachange commands, the page-data commands, the pull and the ping, the
    commit gate and the maintenance flags.  Every command runs on the worker of the
    site, [None] before it has attached; what the core's own verbs do (genro-asgi)
    and the typed-text catalog are parameters. *)

From stdpp Require Import pretty.
From S2P Require Export RegisterClient.
#[local] Open Scope Z_scope.

Module Commands.
Import LegacyBagCollector Desk Registry Worker Client.

(** A command on the worker, and what it answers where there is none. *)
Definition on_worker {A} (absent : res A) (m : PyM worker A) : PyM (option worker) A := λ s,
  match s with
  | None => (absent, None)
  | Some w => let '(a, w) := m w in (a, Some w)
  end.

(** The core worker's lifecycle verbs: third-party, parameters. *)
Class CoreLifecycle : Type := {
  core_new_connection : string → gmap string value → PyM worker ();
  core_new_page :
    value → string → value → gmap string value → option positive → PyM worker ();
  worker_change_connection_user : string → string → gmap string value → PyM worker ();
  refresh_chain : string → PyM registry ()
}.

(** [item or "page"]. *)
Definition or_page (register_name : option string) : string :=
  match register_name with None | Some EmptyString => "page" | Some n => n end.

(** ** Lifecycle *)

(** The fields the registries want of a [Connection] and of a [WebPage]. *)
Definition CONNECTION_FIELDS : list string :=
  ["connection_name"; "user"; "user_id"; "user_tags"; "user_ip"; "user_agent"; "browser_name";
   "electron_static"; "user_name"].
Definition PAGE_FIELDS : list string :=
  ["pagename"; "connection_id"; "user"; "user_ip"; "user_agent"].

(** [getattr(obj, field, None)] for each field the caller did not pass. *)
Definition fill_fields (fields : list string) (obj out : gmap string value) : gmap string value :=
  foldl (λ out f, match out !! f with
                  | Some _ => out
                  | None => <[f := default VNone (obj !! f)]> out
                  end) out fields.

Definition _conn_kwargs (connection : option (gmap string value)) (kwargs : gmap string value)
    : gmap string value :=
  match connection with
  | None => kwargs
  | Some obj => fill_fields CONNECTION_FIELDS obj kwargs
  end.

(** A page's attributes, and the path of its request. *)
Record page_object : Type := PageObject {
  po_attrs : gmap string value;
  po_path_info : value
}.

Definition _page_kwargs (page : option page_object) (kwargs : gmap string value)
    : gmap string value :=
  match page with
  | None => kwargs
  | Some obj =>
      let out := fill_fields PAGE_FIELDS (po_attrs obj) kwargs in
      match out !! "relative_url" with
      | Some _ => out
      | None => <["relative_url" := po_path_info obj]> out
      end
  end.

Section lifecycle.
Context `{LocalZone, CoreRegistry, CoreWorker, CoreLifecycle}.

(** [datetime.datetime.now()], the instant being [now]. *)
Definition naive_now (now : Z) : value := VNaive (now + utc_offset now).

Definition new_connection (now : Z) (connection_id : string)
    (connection : option (gmap string value)) (kwargs : gmap string value)
    : PyM (option worker) (option answer) :=
  on_worker (Raise AttributeError)
    (py_reads (λ w, connection_register (registers w) !! connection_id) ≫= λ row,
     match row with
     | Some _ => mret ()
     | None =>
         let fields := _conn_kwargs connection kwargs in
         core_new_connection connection_id (<["start_ts" := naive_now now]> fields)
     end ≫= λ _,
     on_registers (_item_with_data connection_id "connection")).

(** [worker.connection_items.get(connection_id)["user"]]. *)
Definition user_of_connection (connection_id : value) (r : registry) : res value :=
  match connection_id with
  | VStr cid =>
      match connection_register r !! cid with
      | Some c => Ok (VStr (connection_user c))
      | None => Raise TypeError
      end
  | _ => Raise TypeError
  end.

(** [data] is the seed Bag the caller passes, which becomes the page's live store. *)
Definition new_page (now : Z) (page_id : string) (page : option page_object)
    (kwargs : gmap string value) (data : option positive) : PyM (option worker) (option answer) :=
  on_worker (Raise AttributeError) (
    let fields := _page_kwargs page kwargs in
    let user := default VNone (fields !! "user") in
    let connection_id := default VNone (fields !! "connection_id") in
    let fields := delete "connection_id" (delete "user" fields) in
    py_lift (λ w, (λ u, (u, w)) <$>
      (if is_none user then user_of_connection connection_id (registers w) else Ok user)) ≫= λ user,
    core_new_page user page_id connection_id (<["start_ts" := naive_now now]> fields) data ≫= λ _,
    on_registers (_item_with_data page_id "page")).

Definition change_connection_user (connection_id : string) (user : option string)
    (kwargs : gmap string value) : PyM (option worker) () :=
  match user with
  | None => py_raise KeyError
  | Some user =>
      on_worker (Raise AttributeError) (worker_change_connection_user connection_id user kwargs)
  end.

(** The tail of [drop_page]: the [KeyError] of a page that vanished meanwhile. *)
Definition unless_gone (page_id : string) (m : PyM worker ()) : PyM worker () := λ w,
  match m w with
  | (Raise KeyError, w) =>
      match page_register (registers w) !! page_id with
      | Some _ => (Raise KeyError, w)
      | None => (Ok (), w)
      end
  | other => other
  end.

Definition drop_page (page_id : string) (cascade : bool) : PyM (option worker) () :=
  on_worker (Raise AttributeError) (
    py_reads (λ w, _page_owner (registers w) page_id) ≫= λ user,
    match user with
    | None => mret ()
    | Some user => unless_gone page_id (Worker.drop_page user page_id cascade)
    end).

Definition drop_connection (connection_id : string) : PyM (option worker) () :=
  on_worker (Raise AttributeError) (
    py_reads (λ w, connection_register (registers w) !! connection_id) ≫= λ row,
    match row with
    | None => mret ()
    | Some _ => Worker.drop_connection connection_id connection_id
    end).
End lifecycle.

(** ** The clocks a client reports *)

(** A live row by its register and its id. *)
Inductive row_key : Type :=
| KPage (id : string)
| KConnection (id : string)
| KUser (id : string).

#[export] Instance row_key_eq_dec : EqDecision row_key.
Proof. solve_decision. Defined.

Definition live_fields (k : row_key) (r : registry) : option (gmap string value) :=
  match k with
  | KPage p => page_fields <$> page_register r !! p
  | KConnection c => connection_fields <$> connection_register r !! c
  | KUser u => user_fields <$> user_register r !! u
  end.

(** [row[field] = v], on a field the row keeps with the core's. *)
Definition set_field (k : row_key) (field : string) (v : value) (r : registry) : registry :=
  match k with
  | KPage p =>
      with_pages (alter (λ row, PageRow (page_register_item_id row) (page_connection_id row)
        (page_store row) (page_datachanges row) (page_datachanges_idx row) (page_user_view row)
        (page_subscribed_paths row) (page_store_subscriptions row) (page_table_subscriptions row)
        (<[field := v]> (page_fields row))) p (page_register r)) r
  | KConnection c =>
      MkRegistry (user_register r)
        (alter (λ row, ConnectionRow (connection_register_item_id row) (connection_user row)
           (connection_pages row) (<[field := v]> (connection_fields row)) (connection_data row)) c
           (connection_register r))
        (page_register r) (stores r) (views r)
  | KUser u =>
      MkRegistry
        (alter (λ row, UserRow (user_register_item_id row) (user_store row) (user_connections row)
           (<[field := v]> (user_fields row))) u (user_register r))
        (connection_register r) (page_register r) (stores r) (views r)
  end.

Section refresh.
Context `{LocalZone, BagApi, CoreLifecycle}.

(** [.timestamp()] of a datetime; anything else goes on as it came. *)
Definition epoch_of (ts : value) : value :=
  match ts with
  | VNaive clock => VInt (clock - local_offset clock)
  | VAware clock offset => VInt (clock - offset)
  | _ => ts
  end.

Definition as_number (v : value) : option Z :=
  match v with VInt n => Some n | VBool b => Some (if b then 1 else 0) | _ => None end.

(** [max(current, value)]: numbers, or two strings; other kinds do not compare. *)
Definition py_max (current v : value) : res value :=
  match as_number current, as_number v with
  | Some a, Some b => Ok (if a <? b then v else current)
  | _, _ =>
      match current, v with
      | VStr a, VStr b => Ok (if bool_decide (String.ltb a b = true) then v else current)
      | _, _ => Raise TypeError
      end
  end.

(** [max(current, value) if current else value]. *)
Definition merge_clock (current v : value) : res value :=
  if truthy current then py_max current v else Ok v.

(** One field of one row: nothing for a clock that was not reported; a row that is
    [None] has no [get]. *)
Definition stamp_clock (k : row_key) (field : string) (v : value) : PyM registry () := λ r,
  if is_none v then (Ok (), r)
  else match live_fields k r with
       | None => (Raise AttributeError, r)
       | Some fields =>
           match merge_clock (default VNone (fields !! field)) v with
           | Raise e => (Raise e, r)
           | Ok v => (Ok (), set_field k field v r)
           end
       end.

Definition stamp_row (last_user_ts last_rpc_ts : value) (k : row_key) : PyM registry () :=
  stamp_clock k "last_user_ts" last_user_ts ≫= λ _, stamp_clock k "last_rpc_ts" last_rpc_ts.

(** [connection_items.get(page["connection_id"])], the page row being the live one. *)
Definition connection_of (page_id : string) (r : registry) : option (string * connection_row) :=
  page_register r !! page_id ≫= λ page,
  (λ c, (page_connection_id page, c)) <$> connection_register r !! page_connection_id page.

Definition local_refresh (page_id : string) (last_user_ts last_rpc_ts : value)
    : PyM registry (option user_row) :=
  let last_user_ts := epoch_of last_user_ts in
  let last_rpc_ts := epoch_of last_rpc_ts in
  py_reads (λ r, page_register r !! page_id) ≫= λ page,
  match page with
  | None => mret None
  | Some _ =>
      refresh_chain page_id ≫= λ _,
      py_reads (connection_of page_id) ≫= λ connection,
      match connection with
      | None => py_raise TypeError
      | Some (cid, connection) =>
          let user := connection_user connection in
          py_for [KPage page_id; KConnection cid; KUser user]
            (stamp_row last_user_ts last_rpc_ts) ≫= λ _,
          py_reads (λ r, user_register r !! user)
      end
  end.

Definition _local_refresh (page_id : string) (last_user_ts last_rpc_ts : value)
    : PyM (option worker) (option user_row) :=
  on_worker (Ok None) (on_registers (local_refresh page_id last_user_ts last_rpc_ts)).

Definition refresh (page_id : string) (ts lastRpc : value) : PyM (option worker) (option user_row) :=
  _local_refresh page_id ts lastRpc.
End refresh.

(** ** The datachange commands *)

Definition kind_of (register_name : option string) : res string :=
  match dict_get (or_page register_name)
          [("page", "page"); ("user", "user_store"); ("connection", "connection_store")] with
  | Some k => Ok k
  | None => Raise KeyError
  end.

(** The change [set_datachange] shapes; [now] is its clock. *)
Definition client_change `{BagApi} (now : Z) (path : string) (v : value) (attributes : option attrs)
    (fired : value) (reason : option string) (delete : bool) : change :=
  Change (ChangeKey path reason (truthy fired)) v attributes delete now 0 None.

Section datachanges.
Context `{BagApi, CoreRegistry, Tytx}.

(** [identity] is the identity of the request served on this thread, if any; the
    three clocks are read when the change is shaped, when the row queues it and
    when the desk does. *)
Definition set_datachange (answered : bool) (now row_now desk_now : Z) (identity : option string)
    (item_id path : string) (v : value) (attributes : option attrs) (fired : value)
    (reason : option string) (replace delete : bool) (register_name : option string)
    : PyM (option worker) () :=
  on_worker (Ok ()) (λ w,
    match kind_of register_name with
    | Raise e => (Raise e, w)
    | Ok kind =>
        (Worker.set_datachange answered row_now desk_now identity
           (to_tytx (client_change now path v attributes fired reason delete)) kind (Some item_id)
           None replace ≫= λ _, mret ()) w
    end).

Definition only_page (register_name : option string) (m : PyM worker ()) : PyM (option worker) () :=
  on_worker (Ok ()) (if decide (or_page register_name = "page") then m else mret ()).

Definition reset_datachanges (answered : bool) (desk_now : Z) (identity : option string)
    (item_id : string) (register_name : option string) : PyM (option worker) () :=
  only_page register_name
    (Worker.reset_datachanges answered desk_now identity (Some item_id) None ≫= λ _, mret ()).

Definition drop_datachanges (answered : bool) (desk_now : Z) (identity : option string)
    (item_id path : string) (register_name : option string) : PyM (option worker) () :=
  only_page register_name
    (Worker.drop_datachanges answered desk_now identity path (Some item_id) None ≫= λ _, mret ()).

Definition subscribe_path (item_id path : string) (register_name : option string)
    : PyM (option worker) () :=
  only_page register_name
    (Worker.setStoreSubscription item_id "page" path true ≫= λ _, mret ()).

Definition subscribeTable (answered : bool) (page_id table : string) (subscribe : bool)
    : PyM (option worker) () :=
  on_worker (Ok ()) (Worker.subscribeTable answered table page_id subscribe ≫= λ _, mret ()).

Definition setStoreSubscription (page_id storename client_path : string) (active : value)
    : PyM (option worker) () :=
  on_worker (Ok ())
    (Worker.setStoreSubscription page_id storename client_path (truthy active) ≫= λ _, mret ()).

Definition notifyDbEvents (clock : list Z) (dbevents : list (string * value))
    (origin_page_id reason : option string) : PyM (option worker) () :=
  on_worker (Ok ()) (py_modify (λ w,
    (Worker.notifyDbEvents clock dbevents reason origin_page_id false w).2)).

(** What [setInClientData] is given as its path: one path, or the nodes of a Bag,
    each naming its own under [_client_path]. *)
Record change_node : Type := ChangeNode {
  cn_client_path : option string;
  cn_value : value;
  cn_attr : attrs                     (* the others *)
}.

Inductive client_path : Type :=
| OnePath (p : string)
| BagPath (nodes : list change_node).

Definition push_node (answered : bool) (now row_now desk_now : Z) (identity : option string)
    (pid : string) (n : change_node) : PyM (option worker) () :=
  match cn_client_path n with
  | None => py_raise KeyError
  | Some path =>
      let fired := default VNone (dict_get "fired" (cn_attr n)) in
      set_datachange answered now row_now desk_now identity pid path (cn_value n)
        (Some (dict_pop "fired" (cn_attr n))) fired None false false (Some "page")
  end.

Definition push_one (answered : bool) (now row_now desk_now : Z) (identity : option string)
    (path : client_path) (v : value) (attributes : option attrs) (fired : bool)
    (reason : option string) (replace : bool) (pid : string) : PyM (option worker) () :=
  if decide (pid = "") then mret ()
  else match path with
       | BagPath nodes => py_for nodes (push_node answered now row_now desk_now identity pid)
       | OnePath path =>
           set_datachange answered now row_now desk_now identity pid path v attributes (VBool fired)
             reason replace false (Some "page")
       end.

Definition setInClientData `{LocalZone, Regex, CoreKeys} (answered : bool)
    (now row_now desk_now : Z) (identity : option string) (path : client_path) (v : value)
    (attributes : option attrs) (page_id : option string) (filters : option string) (fired : bool)
    (reason : option string) (replace : bool) : PyM (option worker) () :=
  (λ s, (match given filters with
         | Some _ => (λ d, d.*1) <$> pages (registers <$> s) None None filters
         | None => Ok (match page_id with Some pid => [pid] | None => [] end)
         end, s)) ≫= λ page_ids,
  py_for page_ids
    (push_one answered now row_now desk_now identity path v attributes fired reason replace).

(** ** The page's live store *)

(** [GnrClassCatalog.fromTypedText]: third-party. *)
Class TypedText : Type := { fromTypedText : string → res value }.

Definition _parse_typed `{TypedText} (v : value) : res value :=
  match v with VStr s => fromTypedText s | _ => Ok v end.

(** [data.setItem(path, value, attr)] on a page's store. *)
Definition store_set (now : Z) (l : positive) (path : string) (v : value) (a : option attrs)
    : PyM worker () :=
  on_registers (py_modify (on_bag now l (λ b, bag_setItem b path v a None))).

Definition set_serverstore_changes `{TypedText} (now : Z) (page_id : string)
    (datachanges : list (string * value)) : PyM (option worker) () :=
  on_worker (Ok ()) (
    py_reads (λ w, page_register (registers w) !! page_id) ≫= λ item,
    match item with
    | None => mret ()
    | Some page =>
        py_for datachanges (λ '(path, v),
          py_lift (λ w, (λ v, (v, w)) <$> _parse_typed v) ≫= λ v,
          store_set now (page_store page) path v None)
    end).

Definition setPendingContext (now : Z) (page_id : string)
    (pendingContext : list (string * value * option attrs)) : PyM (option worker) () :=
  on_worker (Ok ()) (
    py_reads (λ w, page_register (registers w) !! page_id) ≫= λ item,
    match item with
    | None => mret ()
    | Some page =>
        py_for pendingContext (λ '(serverpath, v, attr),
          store_set now (page_store page) serverpath v attr ≫= λ _,
          Worker.setStoreSubscription page_id "page" serverpath true ≫= λ _, mret ())
    end).
End datachanges.

(** ** The pull *)

(** [ClientDataChange]: third-party, a class whose attributes are its constructor's
    arguments; the defaults of those a caller leaves out are parameters. *)
Record client_change_object : Type := ClientDataChange {
  cd_path : string;
  cd_value : value;
  cd_attributes : option attrs;
  cd_reason : option string;
  cd_fired : value;
  cd_change_ts : value;
  cd_change_idx : value;
  cd_delete : value
}.

Class ChangeDefaults : Type := {
  default_reason : option string;
  default_fired : value;
  default_change_ts : value;
  default_change_idx : value;
  default_delete : value
}.

Section pull.
Context `{LocalZone, BagApi, CoreRegistry, Tytx, ChangeDefaults}.

(** The aware UTC stamp of a change, made naive local. *)
Definition _change_to_client (c : change) : client_change_object :=
  let key := ch_key c in
  ClientDataChange (k_path key) (ch_value c) (ch_attributes c) (k_reason key)
    (VBool (k_fired key)) (VNaive (naive_local (ch_change_ts c) 0)) (VInt (ch_change_idx c))
    (VBool (ch_delete c)).

Definition _dbevent_to_client (d : deposit) : client_change_object :=
  let table_code := dots_to_underscores (dep_table d) in
  let attributes :=
    [("from_page_id", optional (dep_from_page_id d)); ("dbevent_reason", optional (dep_reason d))] in
  ClientDataChange ("gnr.dbchanges." +:+ table_code) (dep_batch d) (Some attributes)
    default_reason default_fired default_change_ts default_change_idx default_delete.

Definition dressed (changes : list change) : list client_change_object :=
  map _change_to_client (filter (λ raw, k_reason (ch_key raw) ≠ Some "autocreate") changes).

(** What one exchange finds outside the worker: whether the lane answers, the clocks
    read at the desk and here, and what the other threads do while it is up. *)
Record outside : Type := Outside {
  out_answered : bool;
  out_desk_clock : list Z;
  out_clock : list Z;
  out_between : registry → registry
}.

Definition collect_local (o : outside) (page_id : string)
    : PyM worker (list client_change_object) := λ w,
  match collect_page (out_answered o) (out_desk_clock o) (out_clock o) (out_between o) page_id w with
  | (Ok d, w) => (Ok (dressed (dl_datachanges d) ++ map _dbevent_to_client (dl_dbevents d)), w)
  | (Raise KeyError, w) => (Ok [], w)
  | (Raise e, w) => (Raise e, w)
  end.

Definition _collect_local_datachanges (o : outside) (page_id : string)
    : PyM (option worker) (list client_change_object) :=
  on_worker (Ok []) (collect_local o page_id).

(** The user plays no part in the read. *)
Definition subscription_storechanges (o : outside) (user page_id : string)
    : PyM (option worker) (list client_change_object) :=
  _collect_local_datachanges o page_id.

(** What the peek reads of one page: the row's queue, then its view's, not reset. *)
Definition peeked (r : registry) (page : page_row) : list change :=
  page_datachanges page ++
  match page_user_view page with
  | None => []
  | Some v => match views r !! v with
              | None => []
              | Some c => (drain false c).1
              end
  end.

Definition _pending_datachanges (worker : option registry) (item_id : string)
    (register_name : option string) : list client_change_object :=
  match worker with
  | None => []
  | Some r =>
      if decide (or_page register_name = "page") then
        match page_register r !! item_id with
        | None => []
        | Some page => dressed (py_sorted ch_change_ts (peeked r page))
        end
      else []
  end.

(** ** The envelope of the ping *)

Definition envelope_attrs (c : client_change_object) : attrs :=
  [("change_path", VStr (cd_path c)); ("change_reason", optional (cd_reason c));
   ("change_fired", cd_fired c);
   ("change_attr", match cd_attributes c with None => VNone | Some a => VDict a end);
   ("change_ts", cd_change_ts c); ("change_delete", cd_delete c)].

Fixpoint numbered (j : nat) (changes : list client_change_object) (result : bag) : bag :=
  match changes with
  | [] => result
  | c :: rest =>
      numbered (S j) rest
        (bag_setItem result ("sc_" +:+ pretty j) (cd_value c) (Some (envelope_attrs c)) None).1
  end.

Definition _changes_to_bag (changes : list client_change_object) : option bag :=
  match changes with [] => None | _ => Some (numbered 0 changes []) end.

(** Ticks are microseconds. *)
Definition RUNNING_BATCH_WINDOW : Z := 5.

(** [(a - b).seconds]: the seconds of the timedelta, its days apart. *)
Definition timedelta_seconds (ticks : Z) : Z := (ticks mod 86400000000) / 1000000.

Definition bag_put (b : bag) (path : string) (v : value) : bag := (bag_setItem b path v None None).1.

Definition _flag_running_batch (now : Z) (envelope : bag) (user_item : user_row)
    : PyM worker bag := λ w,
  let data := user_store user_item in
  let last_batch_update :=
    stores (registers w) !! data ≫= λ o, bag_getItem (bo_nodes o) "lastBatchUpdate" in
  match last_batch_update with
  | None => (Ok envelope, w)
  | Some v =>
      if negb (truthy v) then (Ok envelope, w)
      else match v with
           | VNaive last =>
               if timedelta_seconds (now + utc_offset now - last) <? RUNNING_BATCH_WINDOW
               then (Ok (bag_put envelope "runningBatch" (VBool true)), w)
               else (store_set now data "lastBatchUpdate" VNone None ≫= λ _, mret envelope) w
           | _ => (Raise TypeError, w)
           end
  end.

(** A child page's part of the ping's arguments: its clocks, the profilers nobody
    collects, and the changes of its store. *)
Definition child_ping `{CoreLifecycle, TypedText} (now : Z) (child_id : string)
    (child_changes : option (list (string * value))) : PyM (option worker) () :=
  let child_changes := default [] child_changes in
  let child_user_ts := default VNone (dict_get "_lastUserEventTs" child_changes) in
  let child_rpc := default VNone (dict_get "_lastRpc" child_changes) in
  let child_changes :=
    dict_pop "_pageProfilers" (dict_pop "_lastRpc" (dict_pop "_lastUserEventTs" child_changes)) in
  (match child_changes with
   | [] => mret ()
   | _ => set_serverstore_changes now child_id child_changes
   end) ≫= λ _,
  py_lift (λ s, (λ v, (v, s)) <$> _parse_typed child_user_ts) ≫= λ user_ts,
  py_lift (λ s, (λ v, (v, s)) <$> _parse_typed child_rpc) ≫= λ rpc_ts,
  _local_refresh child_id user_ts rpc_ts ≫= λ _, mret ().

Definition envelope_put (path : string) (changes : option bag) (envelope : bag) : bag :=
  match changes with None => envelope | Some b => bag_put envelope path (VBag b) end.

(** The children's changes, one collect each. *)
Fixpoint collect_children (outs : nat → outside) (n : nat) (children : list string) (envelope : bag)
    : PyM (option worker) bag :=
  match children with
  | [] => mret envelope
  | child_id :: rest =>
      _collect_local_datachanges (outs n) child_id ≫= λ changes,
      collect_children outs (S n) rest
        (envelope_put ("childDataChanges." +:+ child_id) (_changes_to_bag changes) envelope)
  end.

(** The ping's keyword arguments. *)
Record ping_args : Type := PingArgs {
  pa_user_ts : value;                                          (* _lastUserEventTs *)
  pa_rpc : value;                                              (* _lastRpc *)
  pa_changes : list (string * value);                          (* _serverstore_changes *)
  pa_children : list (string * option (list (string * value))) (* _children_pages_info *)
}.

(** [None] is the [False] of a dead page; [outs] numbers the ping's collects. *)
Definition handle_ping `{CoreLifecycle, TypedText} (outs : nat → outside) (now : Z)
    (page_id : string) (args : ping_args)
    : PyM (option worker) (option bag) :=
  _local_refresh page_id (pa_user_ts args) (pa_rpc args) ≫= λ user_item,
  match user_item with
  | None => mret None
  | Some user_item =>
      (match pa_changes args with
       | [] => mret ()
       | changes => set_serverstore_changes now page_id changes
       end) ≫= λ _,
      py_for (pa_children args) (λ '(child_id, child_changes),
        child_ping now child_id child_changes) ≫= λ _,
      _collect_local_datachanges (outs 0%nat) page_id ≫= λ changes,
      collect_children outs 1 (pa_children args).*1
        (envelope_put "dataChanges" (_changes_to_bag changes) [("result", VNone, [])])
      ≫= λ envelope,
      on_worker (Raise AttributeError) (_flag_running_batch now envelope user_item) ≫= λ envelope,
      mret (Some envelope)
  end.
End pull.

(** ** The commit gate, and the maintenance flags *)

Definition filter_subscribed_tables (worker : option worker) (member : bool)
    (table_list : list string) : list string :=
  match worker with
  | None => []
  | Some w =>
      if member then table_list
      else filter (λ table, table ∈ Worker.subscribed_tables w) table_list
  end.

Definition rows_tables `{CoreKeys} (r : registry) : gset string :=
  ⋃ ((λ page_id, match page_register r !! page_id with
                 | None => ∅
                 | Some page => page_table_subscriptions page
                 end) <$> page_keys r).

(** [subscribed_tables] of the client. *)
Definition all_subscribed_tables `{CoreKeys} (worker : option worker) (member : bool)
    : list string :=
  match worker with
  | None => []
  | Some w =>
      if member then sorted_strings (elements (Worker.subscribed_tables w))
      else sorted_strings (elements (rows_tables (registers w)))
  end.

Record maintenance_state : Type := MaintenanceState {
  _maintenance : bool;
  _allowed_users : option (list string)
}.

Definition setMaintenance `{BagApi} (status : value) (allowed_users : option (list string))
    : maintenance_state := MaintenanceState (truthy status) allowed_users.

Definition isInMaintenance (user : option string) (s : maintenance_state) : bool :=
  if negb (_maintenance s) || bool_decide (user = Some "*forced*") then false
  else match given user, _allowed_users s with
       | Some u, Some (a :: allowed) => negb (bool_decide (u ∈ a :: allowed))
       | _, _ => _maintenance s
       end.

Definition allowedUsers (s : maintenance_state) : option (list string) := _allowed_users s.

(** The cleanup lottery is never granted; the two expiries are the worker's. *)
Definition claim_cleanup : bool := false.
Definition expire_pages : list string := [].
Definition expire_connection : list string := [].

(** ** The refresh: the client's clocks only go forward, the server's is its own *)

Definition field_of (k : row_key) (f : string) (r : registry) : option value :=
  live_fields k r ≫= λ fields, fields !! f.

Definition is_live (k : row_key) (r : registry) : bool :=
  if live_fields k r is Some _ then true else false.

(** Whose connection a page is on, and whose user that connection is. *)
Definition chain_of (page_id : string) (r : registry) : option (string * string) :=
  (λ '(cid, c), (cid, connection_user c)) <$> connection_of page_id r.

(** What the core documents of [refresh_chain]: its own clock on the three rows. *)
Class CoreRefreshLaws `{CoreLifecycle} : Prop := {
  refresh_chain_stamps : ∀ page_id cid u r,
    chain_of page_id r = Some (cid, u) → is_live (KUser u) r = true →
    ∃ t, refresh_chain page_id r =
      (Ok (), foldl (λ r k, set_field k "last_refresh_ts" (VInt t) r) r
                [KPage page_id; KConnection cid; KUser u])
}.

Lemma live_set_field k k' f v r : is_live k' (set_field k f v r) = is_live k' r.
Proof.
  unfold is_live. destruct k as [i|i|i], k' as [j|j|j]; simpl; try done;
    (destruct (decide (i = j)) as [->|Hne];
     [rewrite lookup_alter_eq | by rewrite lookup_alter_ne]);
    by destruct (_ !! j).
Qed.

Lemma field_set_field k k' f f' v r :
  field_of k' f' (set_field k f v r) =
    if decide (k' = k ∧ f' = f ∧ is_live k r = true) then Some v else field_of k' f' r.
Proof.
  destruct (decide (k' = k)) as [->|Hk].
  - unfold is_live, field_of. destruct k as [i|i|i]; simpl; rewrite lookup_alter_eq;
      destruct (_ !! i) as [row|]; simpl;
      try (rewrite decide_False by (intros (_ & _ & ?); done); done);
      (destruct (decide (f' = f)) as [->|Hf];
       [by rewrite lookup_insert_eq, decide_True
       |rewrite lookup_insert_ne by done; rewrite decide_False by tauto; done]).
  - rewrite decide_False by tauto. unfold field_of.
    destruct k as [i|i|i], k' as [j|j|j]; simpl; try done;
      (rewrite lookup_alter_ne; [done | congruence]).
Qed.

Lemma chain_set_field page_id k f v r : chain_of page_id (set_field k f v r) = chain_of page_id r.
Proof.
  unfold chain_of, connection_of. destruct k as [i|i|i]; simpl; [| |done].
  - destruct (decide (i = page_id)) as [->|Hne].
    + rewrite lookup_alter_eq. by destruct (page_register r !! page_id).
    + by rewrite lookup_alter_ne.
  - destruct (page_register r !! page_id) as [page|]; simpl; [|done].
    destruct (decide (i = page_connection_id page)) as [->|Hne].
    + rewrite lookup_alter_eq. by destruct (connection_register r !! _).
    + by rewrite lookup_alter_ne.
Qed.

Section refresh_spec.
Context `{LocalZone, BagApi}.

(** A clock: none, or a number. *)
Definition clock (v : value) : Prop := match v with VNone | VInt _ => True | _ => False end.

(** What a report does to a clock of a row: the later of the two. *)
Definition moved (old : option value) (v : value) : option value :=
  match v with
  | VInt n => Some (VInt (match old with
                          | Some (VInt m) => if m =? 0 then n else Z.max m n
                          | _ => n
                          end))
  | _ => old
  end.

Lemma merge_clock_int old n :
  clock (default VNone old) →
  merge_clock (default VNone old) (VInt n) = Ok (default VNone (moved old (VInt n))).
Proof.
  unfold merge_clock. destruct old as [[]|]; simpl; try done. intros _.
  destruct (Z.eqb_spec n0 0); simpl; [done|]. unfold py_max; simpl. f_equal.
  destruct (Z.ltb_spec n0 n); f_equal; lia.
Qed.

Lemma stamp_clock_spec k f v r :
  clock v → is_live k r = true → clock (default VNone (field_of k f r)) →
  ∃ r', stamp_clock k f v r = (Ok (), r') ∧
    (∀ k', is_live k' r' = is_live k' r) ∧ (∀ p, chain_of p r' = chain_of p r) ∧
    (∀ k' f', field_of k' f' r' =
       if decide (k' = k ∧ f' = f) then moved (field_of k f r) v else field_of k' f' r).
Proof.
  intros Hv Hl Hc. unfold stamp_clock. destruct v; try done; simpl.
  - exists r. split_and!; [done..|]. intros k' f'. case_decide as E; [|done]. by destruct E as [-> ->].
  - unfold is_live in Hl. destruct (live_fields k r) as [fields|] eqn:E; [|done].
    unfold field_of in Hc. rewrite E in Hc. simpl in Hc.
    rewrite merge_clock_int by done. eexists. split; [done|]. split_and!.
    + intros k'. apply live_set_field.
    + intros p. apply chain_set_field.
    + intros k' f'. rewrite field_set_field. unfold is_live, field_of. rewrite E. simpl.
      repeat case_decide; try done; naive_solver.
Qed.

(** The clock a field is given by a report. *)
Definition report (lu lr : value) (f : string) (old : option value) : option value :=
  if decide (f = "last_user_ts") then moved old lu
  else if decide (f = "last_rpc_ts") then moved old lr
  else old.

Lemma stamp_row_spec lu lr k r :
  clock lu → clock lr → is_live k r = true →
  clock (default VNone (field_of k "last_user_ts" r)) →
  clock (default VNone (field_of k "last_rpc_ts" r)) →
  ∃ r', stamp_row lu lr k r = (Ok (), r') ∧
    (∀ k', is_live k' r' = is_live k' r) ∧ (∀ p, chain_of p r' = chain_of p r) ∧
    (∀ k' f, field_of k' f r' =
       if decide (k' = k) then report lu lr f (field_of k f r) else field_of k' f r).
Proof.
  intros Hu Hr Hl Cu Cr. unfold stamp_row.
  destruct (stamp_clock_spec k "last_user_ts" lu r Hu Hl Cu) as (r1 & E1 & L1 & C1 & F1).
  destruct (stamp_clock_spec k "last_rpc_ts" lr r1 Hr) as (r2 & E2 & L2 & C2 & F2).
  { by rewrite L1. }
  { rewrite F1, decide_False; [done|]. by intros []. }
  exists r2. split_and!.
  - by rewrite (pym_bind_ok _ _ _ _ _ E1).
  - intros k'. by rewrite L2, L1.
  - intros p. by rewrite C2, C1.
  - intros k' f. rewrite F2, !F1. unfold report. repeat case_decide; naive_solver.
Qed.

(** The rows of a list, each stamped once. *)
Lemma stamp_rows_spec lu lr ks r :
  clock lu → clock lr → NoDup ks →
  (∀ k, k ∈ ks → is_live k r = true ∧ clock (default VNone (field_of k "last_user_ts" r)) ∧
                 clock (default VNone (field_of k "last_rpc_ts" r))) →
  ∃ r', py_for ks (stamp_row lu lr) r = (Ok (), r') ∧
    (∀ k', is_live k' r' = is_live k' r) ∧ (∀ p, chain_of p r' = chain_of p r) ∧
    (∀ k' f, field_of k' f r' =
       if decide (k' ∈ ks) then report lu lr f (field_of k' f r) else field_of k' f r).
Proof.
  intros Hu Hr Hnd. revert r. induction Hnd as [|k ks Hk Hnd IH]; intros r Hks.
  { exists r. split_and!; try done. }
  destruct (Hks k (list_elem_of_here _ _)) as (Hl & Cu & Cr).
  destruct (stamp_row_spec lu lr k r Hu Hr Hl Cu Cr) as (r1 & E1 & L1 & C1 & F1).
  destruct (IH r1) as (r2 & E2 & L2 & C2 & F2).
  { intros k' Hk'. rewrite L1, !F1. rewrite !decide_False by (by intros ->).
    apply Hks. by apply list_elem_of_further. }
  exists r2. split_and!.
  - cbn [py_for]. by rewrite (pym_bind_ok _ _ _ _ _ E1).
  - intros k'. by rewrite L2, L1.
  - intros p. by rewrite C2, C1.
  - intros k' f. rewrite F2, !F1. destruct (decide (k' ∈ k :: ks)) as [Hin|Hin]; rewrite elem_of_cons in Hin;
      repeat case_decide; naive_solver.
Qed.

(** The server's stamp on a list of rows. *)
Lemma server_stamp ks v r :
  (∀ k, k ∈ ks → is_live k r = true) →
  let r1 := foldl (λ r k, set_field k "last_refresh_ts" v r) r ks in
  (∀ k, is_live k r1 = is_live k r) ∧ (∀ p, chain_of p r1 = chain_of p r) ∧
  (∀ k f, field_of k f r1 =
     if decide (k ∈ ks ∧ f = "last_refresh_ts") then Some v else field_of k f r).
Proof.
  revert r. induction ks as [|k ks IH]; intros r Hl; cbn [foldl].
  { split_and!; [done..|]. intros k f. rewrite decide_False; [done|]. by intros [?%elem_of_nil _]. }
  destruct (IH (set_field k "last_refresh_ts" v r)) as (L & C & F).
  { intros k' Hk'. rewrite live_set_field. apply Hl. by apply list_elem_of_further. }
  split_and!.
  - intros k'. by rewrite L, live_set_field.
  - intros p. by rewrite C, chain_set_field.
  - intros k' f. rewrite F, field_set_field, (Hl k (list_elem_of_here _ _)).
    clear. destruct (decide (k' ∈ ks ∧ f = "last_refresh_ts")) as [[Hin ->]|Hno].
    + rewrite decide_True; [done|]. split; [by apply list_elem_of_further|done].
    + destruct (decide (k' = k)) as [->|Hne], (decide (f = "last_refresh_ts")) as [->|Hf].
      * rewrite !decide_True; [done| |done]. split; [apply list_elem_of_here|done].
      * rewrite !decide_False; [done| |]; tauto.
      * rewrite !decide_False; [done| |tauto]. intros [[?|?]%elem_of_cons _]; [done|]. tauto.
      * rewrite !decide_False; [done| |]; tauto.
Qed.

(** A refresh, as the ping makes it. On a page whose chain is whole the three rows
    take the clocks the client reports - each only forward, a clock not reported
    staying as it is - while the server's own stamp is the core's alone, whatever
    the client said; no other field and no other row moves, and the answer is the
    user's row as it now is. A page that is gone answers nothing and moves nothing. *)
Theorem refresh_moves_clocks_forward `{CoreRefreshLaws} page_id cid u lu lr r :
  (page_register r !! page_id = None → local_refresh page_id lu lr r = (Ok None, r)) ∧
  (chain_of page_id r = Some (cid, u) → is_live (KUser u) r = true →
   clock (epoch_of lu) → clock (epoch_of lr) →
   let rows := [KPage page_id; KConnection cid; KUser u] in
   (∀ k, k ∈ rows → clock (default VNone (field_of k "last_user_ts" r)) ∧
                    clock (default VNone (field_of k "last_rpc_ts" r))) →
   ∃ r' entry t, local_refresh page_id lu lr r = (Ok (Some entry), r') ∧
     user_register r' !! u = Some entry ∧
     (∀ k f, k ∈ rows → field_of k f r' =
        if decide (f = "last_refresh_ts") then Some (VInt t)
        else report (epoch_of lu) (epoch_of lr) f (field_of k f r)) ∧
     (∀ k f, k ∉ rows → field_of k f r' = field_of k f r)).
Proof.
  split.
  { intros Hp. unfold local_refresh. rewrite pym_bind_unfold. unfold py_reads. by rewrite Hp. }
  intros Hch Hlu Cu Cr rows Hrows.
  assert (∀ k, k ∈ rows → is_live k r = true) as Hlive.
  { unfold chain_of, connection_of in Hch.
    destruct (page_register r !! page_id) as [page|] eqn:Hp; [|done]. simpl in Hch.
    destruct (connection_register r !! page_connection_id page) as [c|] eqn:Hc; [|done].
    simpl in Hch. injection Hch as <- <-. intros k Hk. unfold rows in Hk.
    rewrite !elem_of_cons in Hk. destruct Hk as [->|[->|[->|Hk]]]; [| |done|by apply elem_of_nil in Hk];
      unfold is_live; simpl; by rewrite ?Hp, ?Hc. }
  destruct (refresh_chain_stamps page_id cid u r Hch Hlu) as [t Ht]. fold rows in Ht.
  set (r1 := foldl _ r rows) in Ht.
  destruct (server_stamp rows (VInt t) r Hlive) as (HL & HC & HF). fold r1 in HL, HC, HF.
  destruct (stamp_rows_spec (epoch_of lu) (epoch_of lr) rows r1 Cu Cr) as (r2 & E2 & L2 & C2 & F2).
  { unfold rows. repeat (apply NoDup_cons; split;
      [intros Hin; rewrite ?elem_of_cons, elem_of_nil in Hin; naive_solver|]). apply NoDup_nil_2. }
  { intros k Hk. rewrite HL, !HF. rewrite !decide_False by (intros [_ ?]; done). auto. }
  assert (is_live (KUser u) r2 = true) as Hu2 by by rewrite L2, HL.
  unfold is_live in Hu2. simpl in Hu2. destruct (user_register r2 !! u) as [entry|] eqn:Hentry; [|done].
  exists r2, entry, t. split_and!; [|done| |].
  - unfold local_refresh. rewrite pym_bind_unfold. unfold py_reads at 1.
    assert (is_live (KPage page_id) r = true) as Hpl by (apply Hlive; apply list_elem_of_here).
    unfold is_live in Hpl. simpl in Hpl. destruct (page_register r !! page_id); [|done].
    rewrite (pym_bind_ok _ _ _ _ _ Ht), pym_bind_unfold. unfold py_reads at 1.
    pose proof (HC page_id) as Hc1. rewrite Hch in Hc1. unfold chain_of in Hc1.
    destruct (connection_of page_id r1) as [[c1 row1]|]; [|done]. simpl in Hc1.
    injection Hc1 as -> <-. rewrite (pym_bind_ok _ _ _ _ _ E2). unfold py_reads. by rewrite Hentry.
  - intros k f Hk. rewrite F2, HF. rewrite decide_True by done. unfold report.
    destruct (decide (f = "last_refresh_ts")) as [->|Hf].
    + by rewrite (decide_True (P := k ∈ rows ∧ "last_refresh_ts" = "last_refresh_ts")).
    + by rewrite (decide_False (P := k ∈ rows ∧ f = "last_refresh_ts")) by (by intros []).
  - intros k f Hk. rewrite F2, HF. rewrite !decide_False by tauto. done.
Qed.
End refresh_spec.

(** ** Who is whose, through the writes of a collect *)

(** The users, the connections and the pages, their queues apart, are what they were. *)
Record same_people (r r' : registry) : Prop := SamePeople {
  sp_users : user_register r' = user_register r;
  sp_connections : connection_register r' = connection_register r;
  sp_pages : ∀ p, set_queue [] 0 <$> page_register r' !! p =
                  set_queue [] 0 <$> page_register r !! p
}.

#[export] Instance same_people_preorder : PreOrder same_people.
Proof.
  split; [by intros r; split|]. intros r1 r2 r3 [U1 C1 P1] [U2 C2 P2].
  split; [by rewrite U2 | by rewrite C2 | intros p; by rewrite P2].
Qed.

Lemma same_people_foldl {A} (f : registry → A → registry) l r :
  (∀ r x, same_people r (f r x)) → same_people r (foldl f r l).
Proof.
  intros Hf. revert r. induction l as [|x l IH]; intros r; simpl; [done|].
  etrans; [apply Hf | apply IH].
Qed.

Section people.
Context `{BagApi}.

Lemma page_on_event_queue now e page :
  set_queue [] 0 (page_on_event now e page) = set_queue [] 0 page.
Proof. unfold page_on_event. branch. Qed.

Lemma dispatch_one_people now e r s : same_people r (dispatch_one now e r s).
Proof.
  destruct s as [p|v]; split; try done. intros q. simpl.
  destruct (decide (p = q)) as [->|Hne].
  - rewrite lookup_alter_eq. destruct (page_register r !! q); simpl; [|done].
    by rewrite page_on_event_queue.
  - by rewrite lookup_alter_ne.
Qed.

Lemma on_bag_people now l f r : same_people r (on_bag now l f r).
Proof.
  unfold on_bag. destruct (stores r !! l) as [o|]; [|done]. destruct (f (bo_nodes o)) as [nodes evs].
  etrans; [|apply same_people_foldl]; [by split|]. intros r' e. unfold dispatch.
  destruct (stores r' !! l) as [o'|]; [|done]. apply same_people_foldl.
  intros. apply dispatch_one_people.
Qed.

Lemma apply_forwarded_people now l c r : same_people r (apply_forwarded now l c r).2.
Proof.
  unfold apply_forwarded. destruct (ch_delete c); [apply on_bag_people|].
  destruct (k_fired (ch_key c)); [|apply on_bag_people].
  match goal with |- context[stores ?r1 !! l] => set (r2 := r1) end.
  assert (same_people r r2) as Hr2 by apply on_bag_people.
  destruct (stores r2 !! l); [|done]. destruct (bag_updateNode _ _ _); [|done].
  etrans; [exact Hr2 | by split].
Qed.

Lemma apply_all_people clock l cs r : same_people r (apply_all clock l cs r).2.
Proof.
  revert clock r. induction cs as [|c cs IH]; intros clock r; [done|].
  cbn [apply_all]. rewrite pym_bind_unfold. pose proof (apply_forwarded_people (hd 0 clock) l c r) as Hc.
  destruct (apply_forwarded _ l c r) as [[[]|e] r1]; [|done]. etrans; [exact Hc | apply IH].
Qed.

Lemma drain_page_people pid page dq r :
  page_register r !! pid = Some page → same_people r (drain_page pid page dq r).2.
Proof.
  intros Hp. destruct (drain_page_registry pid page dq r) as (HP & _ & HU & HC & _).
  split; [done..|]. intros q. rewrite HP. destruct (decide (q = pid)) as [->|Hne].
  - by rewrite lookup_insert_eq, Hp.
  - by rewrite lookup_insert_ne.
Qed.

Lemma same_people_owner `{CoreRegistryLaws} r r' p :
  same_people r r' → page_user p r' = page_user p r.
Proof.
  intros [_ HC HP]. rewrite !page_user_walk. specialize (HP p).
  destruct (page_register r !! p) as [row|], (page_register r' !! p) as [row'|]; try done.
  simpl in HP. apply (inj Some) in HP. apply (f_equal page_connection_id) in HP. simpl in HP.
  by rewrite HC, HP.
Qed.
End people.

(** ** A pull delivers once *)

(** Everything a drained page had is gone from it. *)
Lemma drained_again pid page dq r :
  page_register r !! pid = Some page →
  let r' := (drain_page pid page dq r).2 in
  page_register r' !! pid = Some (set_queue [] 0 page) ∧
  (drain_page pid (set_queue [] 0 page) [] r').1 = [].
Proof.
  intros Hp. destruct (drain_page_registry pid page dq r) as (HP & _ & _ & _ & HV & _).
  split; [by rewrite HP, lookup_insert_eq|].
  rewrite drain_page_list. simpl. unfold view_changes. simpl.
  destruct (page_user_view page) as [v|] eqn:Hv; [|done]. rewrite (HV v eq_refl).
  by destruct (views r !! v).
Qed.

Section pull_once.
Context `{LocalZone, BagApi, CoreRegistryLaws, TytxLaws, ChangeDefaults}.

(** C27: the pull, twice. The first pull of a page gets the changes that waited for it
    at its row, at the desk - as the wire carries them - and in its view, each queue in
    its own order, dressed and numbered, the autocreate ones left out, and then the table
    events; whatever it got, a second pull with nothing written in between gets nothing. *)
Theorem second_pull_is_empty o o' pid row user u r2 w :
  let r1 := out_between o (registers w) in
  out_answered o = true → out_answered o' = true → (∀ r, out_between o' r = r) →
  page_register (registers w) !! pid = Some row → page_user pid (registers w) = Ok user →
  desk_safe (lane w) →
  page_user pid r1 = Ok user → user_register r1 !! user = Some u →
  apply_all (out_clock o) (user_store u) (map trip_change (queue_of (user_store_change_map (lane w)) user)) r1
    = (Ok (), r2) →
  ∃ page l w1 w2, page_register r2 !! pid = Some page ∧
    (let queues := [page_datachanges page;
                    map trip_change (queue_of (page_datachange_map (lane w)) pid); view_changes r2 page] in
     l ≡ₚ concat queues ∧ ∀ q, q ∈ queues → q `sublist_of` l) ∧
    collect_local o pid w =
      (Ok (dressed (number_from 1 l) ++
           map _dbevent_to_client
             (queue_of (page_dbevent_map (lane w)) pid ++
              deposits_for (page_subscriptions (lane w)) pid (out_desk_clock o) (sl_dbevents (slot w)) ++
              sl_own_dbevents (slot w))), w1) ∧
    collect_local o' pid w1 = (Ok [], w2).
Proof.
  intros r1 Ho Ho' Hquiet Hrow Hpu Hsafe Hpu1 Hu Ha.
  assert (is_Some (page_register r1 !! pid)) as Hrow1.
  { rewrite page_user_walk in Hpu1. by destruct (page_register r1 !! pid). }
  pose proof (apply_all_people (out_clock o) (user_store u)
    (map trip_change (queue_of (user_store_change_map (lane w)) user)) r1) as HP2.
  rewrite Ha in HP2. cbn [snd] in HP2.
  assert (∃ page, page_register r2 !! pid = Some page) as [page Hpage].
  { pose proof (sp_pages _ _ HP2 pid) as Hc. destruct Hrow1 as [x Hx]. rewrite Hx in Hc.
    destruct (page_register r2 !! pid); [eauto | done]. }
  pose proof (collect_page_answered (out_desk_clock o) (out_clock o) (out_between o) pid row user u r2
    page w Hrow Hpu Hsafe Hrow1 Hu Ha Hpage) as HA.
  set (dq := map trip_change (queue_of (page_datachange_map (lane w)) pid)) in *.
  destruct (drained_again pid page dq r2 Hpage) as [Hp3 Hl3].
  pose proof (drain_page_people pid page dq r2 Hpage) as HP3.
  destruct (drain_merges pid page dq r2) as (HM1 & HM2 & _).
  destruct (drain_page pid page dq r2) as [l r3]. cbn [fst snd] in *. destruct HA as (w1 & Hw1 & HR & HS & HL).
  destruct (exchange_after (out_desk_clock o) pid user (sl_dbevents (slot w)) (lane w))
    as (_ & E4 & E5 & E6 & _).
  pose proof (exchange_safe (out_desk_clock o) pid user (sl_dbevents (slot w)) (lane w) Hsafe) as Hsafe1.
  rewrite <-HL in E4, E5, E6, Hsafe1.
  assert (same_people r1 r3) as HP by (etrans; eassumption).
  assert (page_user pid (registers w1) = Ok user) as Hpu3
    by (rewrite HR, (same_people_owner r1) by done; done).
  assert (user_register (registers w1) !! user = Some u) as Hu3
    by (rewrite HR, (sp_users _ _ HP); done).
  assert (page_register (registers w1) !! pid = Some (set_queue [] 0 page)) as Hrow3 by by rewrite HR.
  pose proof (collect_page_answered (out_desk_clock o') (out_clock o') (out_between o') pid
    (set_queue [] 0 page) user u r3 (set_queue [] 0 page) w1 Hrow3 Hpu3 Hsafe1) as HB.
  rewrite Hquiet, E4, E5, !queue_of_delete_eq, (queue_of_none _ _ E6), HS in HB.
  cbn [map] in HB.
  specialize (HB ltac:(by rewrite Hrow3) Hu3 ltac:(by rewrite HR) Hp3).
  destruct (drain_page pid (set_queue [] 0 page) [] r3) as [l3 r4]. cbn [fst] in Hl3. subst l3.
  destruct HB as (w2 & Hw2 & _).
  exists page, l, w1, w2. split; [done|]. split; [done|].
  unfold collect_local. rewrite Ho, Ho', Hw1, Hw2. done.
Qed.

(** The peek of a server batch and the pull agree: reading the pending changes
    moves nothing, and - the desk apart - what it shows is a permutation of what the
    next pull will deliver of them, the running index aside. *)
Theorem peek_agrees_with_pull r pid page :
  page_register r !! pid = Some page →
  let forget c := ClientDataChange (cd_path c) (cd_value c) (cd_attributes c) (cd_reason c)
                    (cd_fired c) (cd_change_ts c) VNone (cd_delete c) in
  map forget (_pending_datachanges (Some r) pid (Some "page")) ≡ₚ
  map forget (dressed (number_from 1 (drain_page pid page [] r).1)).
Proof.
  intros Hp forget. unfold _pending_datachanges. simpl. rewrite Hp, drain_page_list.
  rewrite heap_merge_nil_r.
  assert (∀ n l, map forget (dressed (number_from n l)) = map forget (dressed l)) as Hnum.
  { intros n l. revert n. unfold dressed. induction l as [|c l IH]; intros n; [done|].
    cbn [number_from]. rewrite !filter_cons. cbn [set_change_idx ch_key].
    case_decide; simpl; rewrite IH; done. }
  rewrite Hnum. unfold dressed. do 2 apply Permutation_map. apply filter_Permutation.
  rewrite py_sorted_perm, heap_merge_perm. unfold peeked, view_changes.
  by destruct (page_user_view page) as [v|]; [destruct (views r !! v)|].
Qed.

(** C38: the running-batch flag looks at the seconds of a timedelta, its days apart:
    with a naive stamp in the user's store it is raised exactly when the stamp's age
    taken modulo a day is under five seconds - a stamp a whole number of days old
    raises it again, and one a moment ahead of the clock does not - and otherwise
    the stamp is cleared; without a stamp nothing moves. *)
Theorem running_batch_wraps now envelope user_item o w :
  stores (registers w) !! user_store user_item = Some o →
  let age last := now + utc_offset now - last in
  (∀ last, bag_getItem (bo_nodes o) "lastBatchUpdate" = Some (VNaive last) →
     (age last mod 86400000000 < 5000000 →
        _flag_running_batch now envelope user_item w =
          (Ok (bag_put envelope "runningBatch" (VBool true)), w)) ∧
     (5000000 ≤ age last mod 86400000000 →
        _flag_running_batch now envelope user_item w =
          (Ok envelope, with_registers (on_bag now (user_store user_item)
             (λ b, bag_setItem b "lastBatchUpdate" VNone None None) (registers w)) w))) ∧
  (bag_getItem (bo_nodes o) "lastBatchUpdate" = None →
     _flag_running_batch now envelope user_item w = (Ok envelope, w)).
Proof.
  intros Ho age. unfold _flag_running_batch. rewrite Ho. simpl. split.
  - intros last ->. simpl. unfold timedelta_seconds. fold (age last).
    pose proof (Z.mod_pos_bound (age last) 86400000000 ltac:(lia)) as Hb. split; intros Hage.
    + rewrite (proj2 (Z.ltb_lt _ _)); [done|]. unfold RUNNING_BATCH_WINDOW.
      apply Z.div_lt_upper_bound; lia.
    + rewrite (proj2 (Z.ltb_ge _ _)); [done|]. unfold RUNNING_BATCH_WINDOW.
      apply Z.div_le_lower_bound; lia.
  - by intros ->.
Qed.
End pull_once.

(** ** Closing a page *)

(** What the core documents of its registry's own demolition of one page. *)
Class CoreDropLaws `{CoreWorker} : Prop := {
  registry_drop_page_row : ∀ p r, is_Some (page_register r !! p) → ∃ r',
    registry_drop_page p r = (Ok (), r') ∧ page_register r' = delete p (page_register r) ∧
    dom (connection_register r') = dom (connection_register r)
}.

Section drops.
Context `{CoreRegistryLaws, CoreDropLaws}.

Lemma page_owner_user r pid u : _page_owner r pid = Some u ↔ page_user pid r = Ok u.
Proof.
  unfold _page_owner. rewrite page_user_walk.
  destruct (page_register r !! pid) as [page|]; simpl; [|done].
  destruct (connection_register r !! page_connection_id page); simpl; naive_solver.
Qed.

Lemma worker_drop_page_alone ident pid page cid u w :
  page_register (registers w) !! pid = Some page → page_connection_id page = cid →
  page_user pid (registers w) = Ok u →
  ∃ w', Worker.drop_page ident pid false w = (Ok (), w') ∧
    page_register (registers w') = delete pid (page_register (registers w)) ∧
    worker_events w' = worker_events w ++ [WorkerEvent "drop_page" u pid] ∧
    disk w' = filter (λ p, ¬ [cid; pid] `prefix_of` p) (disk w).
Proof.
  intros Hp <- Hu.
  destruct (registry_drop_page_row pid (registers w)) as (r' & Hr & HP & HC); [by rewrite Hp|].
  unfold Worker.drop_page. rewrite pym_bind_unfold. unfold py_reads. rewrite Hp.
  assert (drop_rows ident pid false w =
    (Ok (), add_worker_event (WorkerEvent "drop_page" u pid) (with_registers r' w))) as Hd.
  { unfold drop_rows. rewrite pym_bind_unfold. unfold py_lift. rewrite Hu. simpl.
    rewrite pym_bind_unfold. unfold on_registers. by rewrite Hr. }
  rewrite (pym_bind_ok _ _ _ _ _ Hd). eexists. split; [reflexivity|]. simpl.
  rewrite page_user_walk, Hp in Hu.
  assert (is_Some (connection_register r' !! page_connection_id page)) as [c Hc].
  { apply elem_of_dom. rewrite HC. apply elem_of_dom.
    by destruct (connection_register (registers w) !! page_connection_id page). }
  rewrite Hc. simpl. done.
Qed.

(** C35: a page close is final and may be told twice. Closing a live page takes its row
    and its folder and announces it once, under its owner; any later close of it,
    cascading or not, is a no-op. A [KeyError] out of the demolition is swallowed
    exactly when the row is gone - the race with the sweep - and propagates while
    the row is still there. *)
Theorem drop_page_once pid page cid u w :
  page_register (registers w) !! pid = Some page → page_connection_id page = cid →
  page_user pid (registers w) = Ok u →
  (∃ w', drop_page pid false (Some w) = (Ok (), Some w') ∧
     page_register (registers w') = delete pid (page_register (registers w)) ∧
     worker_events w' = worker_events w ++ [WorkerEvent "drop_page" u pid] ∧
     disk w' = filter (λ p, ¬ [cid; pid] `prefix_of` p) (disk w) ∧
     ∀ cascade, drop_page pid cascade (Some w') = (Ok (), Some w')) ∧
  (∀ cascade w', Worker.drop_page u pid cascade w = (Raise KeyError, w') →
     drop_page pid cascade (Some w) =
       (if bool_decide (is_Some (page_register (registers w') !! pid)) then Raise KeyError else Ok (),
        Some w')).
Proof.
  intros Hp Hcid Hu.
  assert (∀ cascade, drop_page pid cascade (Some w) =
    let '(a, w') := unless_gone pid (Worker.drop_page u pid cascade) w in (a, Some w')) as Hstart.
  { intros cascade. unfold drop_page, on_worker. rewrite pym_bind_unfold. unfold py_reads.
    by rewrite (proj2 (page_owner_user _ _ _) Hu). }
  split.
  - destruct (worker_drop_page_alone u pid page cid u w Hp Hcid Hu) as (w' & Hw & HP & HE & HD).
    exists w'. rewrite Hstart. unfold unless_gone. rewrite Hw. split_and!; try done.
    intros cascade. unfold drop_page, on_worker. rewrite pym_bind_unfold. unfold py_reads, _page_owner.
    by rewrite HP, lookup_delete_eq.
  - intros cascade w' Hw. rewrite Hstart. unfold unless_gone. rewrite Hw.
    by destruct (page_register (registers w') !! pid).
Qed.
End drops.

(** ** The ping *)

Section ping.
Context `{LocalZone, BagApi, CoreRegistryLaws, TytxLaws, ChangeDefaults, CoreLifecycle, TypedText}.

(** A dead page's ping answers [False] and moves nothing at all - not its store,
    not a clock, not a child page - whatever it carries; so does any ping before
    the worker has attached. *)
Theorem dead_ping_moves_nothing outs now pid args s :
  (∀ w, s = Some w → page_register (registers w) !! pid = None) →
  handle_ping outs now pid args s = (Ok None, s).
Proof.
  intros Hdead. unfold handle_ping. rewrite pym_bind_unfold. unfold _local_refresh, on_worker.
  destruct s as [w|]; [|done]. unfold on_registers, local_refresh. rewrite pym_bind_unfold.
  unfold py_reads. rewrite (Hdead w eq_refl). by destruct w.
Qed.
End ping.

(** ** A worker the commands are evaluated on *)
Module CommandsWitness.
Import DeskWitness RegistryWitness WorkerWitness.
#[local] Existing Instance Witness.flat_bag.
#[local] Existing Instance Witness.zone_east.
#[local] Existing Instance RegistryWitness.plain_core.
#[local] Existing Instance TytxWitness.plain_tytx.
#[local] Existing Instance TytxWitness.plain_tytx_laws.
#[local] Existing Instance WorkerWitness.plain_worker.
#[local] Instance plain_core_laws_c : CoreRegistryLaws := plain_core_laws.

(** A core whose clock reads 99, and whose births do nothing. *)
#[local] Instance plain_lifecycle : CoreLifecycle := {|
  core_new_connection cid fields := mret ();
  core_new_page u p c fields data := mret ();
  worker_change_connection_user cid u fields := mret ();
  refresh_chain p r :=
    match chain_of p r with
    | None => (Raise KeyError, r)
    | Some (cid, u) =>
        (Ok (), foldl (λ r k, set_field k "last_refresh_ts" (VInt 99) r) r
                  [KPage p; KConnection cid; KUser u])
    end
|}.

#[local] Instance plain_refresh_laws : CoreRefreshLaws.
Proof. split. intros p cid u r Hc _. exists 99. simpl. by rewrite Hc. Qed.

#[local] Instance plain_drop_laws : CoreDropLaws.
Proof. split. intros p r _. by eexists. Qed.

#[local] Instance plain_defaults : ChangeDefaults := {|
  default_reason := None; default_fired := VBool false; default_change_ts := VNone;
  default_change_idx := VNone; default_delete := VBool false
|}.

#[local] Instance plain_typed : TypedText := {| fromTypedText s := Ok (VStr s) |}.

(** The page has reported 40 before; the client now says 30 on one clock, a naive
    local 50 on the other. *)
Definition seen_before : registry := set_field (KPage "p1") "last_user_ts" (VInt 40) login_registry.

Lemma refresh_moves_clocks_forward_witness :
  ∃ r', (local_refresh "p1" (VInt 30) (VNaive 7200000050) seen_before).2 = r' ∧
    field_of (KPage "p1") "last_user_ts" r' = Some (VInt 40) ∧
    field_of (KUser "guest") "last_rpc_ts" r' = Some (VInt 50).
Proof.
  destruct (refresh_moves_clocks_forward "p1" "c1" "guest" (VInt 30) (VNaive 7200000050) seen_before)
    as [_ H].
  destruct H as (r' & entry & t & Hr & _ & HF & _).
  - by vm_compute.
  - by vm_compute.
  - done.
  - done.
  - intros k Hk. rewrite !elem_of_cons in Hk.
    destruct Hk as [->|[->|[->|Hk]]]; [by vm_compute..|by apply elem_of_nil in Hk].
  - exists r'. split; [by rewrite Hr|]. split.
    + rewrite HF by (apply list_elem_of_here). by vm_compute.
    + rewrite HF by (do 2 apply list_elem_of_further; apply list_elem_of_here). by vm_compute.
Defined.

Definition calm : outside := Outside true [10; 11] [5] id.

Lemma second_pull_is_empty_witness :
  ∃ l w1 w2, collect_local calm "p1" a_worker = (Ok l, w1) ∧ length l = 6%nat ∧
    collect_local calm "p1" w1 = (Ok [], w2).
Proof.
  destruct (second_pull_is_empty calm calm "p1"
    (PageRow "p1" "c1" 3 [] 0 (Some 7%positive) {["gui"]} {["prefs"]} ∅ ∅) "guest"
    (UserRow "guest" 1 {["c1"]} ∅) collected a_worker) as (page & l & w1 & w2 & Hp & [HL _] & H1 & H2).
  - done.
  - done.
  - done.
  - by vm_compute.
  - by vm_compute.
  - apply waiting_desk_safe.
  - by vm_compute.
  - by vm_compute.
  - by vm_compute.
  - eexists _, w1, w2. split; [exact H1|]. split; [|exact H2].
    assert (length (default [] (match (collect_local calm "p1" a_worker).1 with
                                | Ok l => Some l | Raise _ => None end)) = 6%nat) as E by by vm_compute.
    by rewrite H1 in E.
Defined.

Lemma peek_agrees_with_pull_witness :
  length (_pending_datachanges (Some login_registry) "p1" (Some "page")) = 1%nat.
Proof.
  pose proof (peek_agrees_with_pull login_registry "p1"
    (PageRow "p1" "c1" 3 [] 0 (Some 7%positive) {["gui"]} {["prefs"]} ∅ ∅) eq_refl) as HP.
  apply Permutation_length in HP. rewrite !length_map in HP. rewrite HP. by vm_compute.
Defined.

(** A stamp exactly one day old raises the flag again. *)
Definition batch_user (last : Z) : worker :=
  with_registers (with_stores {[1%positive := BagObject [("lastBatchUpdate", VNaive last, [])] []]}
    login_registry) a_worker.

Lemma running_batch_wraps_witness :
  (_flag_running_batch 86400000000 [] (UserRow "guest" 1 {["c1"]} ∅) (batch_user 7200000000)).1 =
    Ok [("runningBatch", VBool true, [])].
Proof.
  destruct (running_batch_wraps 86400000000 [] (UserRow "guest" 1 {["c1"]} ∅)
    (BagObject [("lastBatchUpdate", VNaive 7200000000, [])] []) (batch_user 7200000000) eq_refl)
    as [H _].
  destruct (H 7200000000 eq_refl) as [H1 _]. rewrite H1; [by vm_compute | by vm_compute].
Defined.

Lemma drop_page_once_witness :
  ∃ w', drop_page "p1" false (Some a_worker) = (Ok (), Some w') ∧
    drop_page "p1" true (Some w') = (Ok (), Some w') ∧
    worker_events w' = [WorkerEvent "drop_page" "guest" "p1"].
Proof.
  destruct (drop_page_once "p1"
    (PageRow "p1" "c1" 3 [] 0 (Some 7%positive) {["gui"]} {["prefs"]} ∅ ∅) "c1" "guest" a_worker)
    as [(w' & H1 & _ & HE & _ & H2) _].
  1-3: by vm_compute.
  exists w'. split; [exact H1|]. split; [apply H2 | exact HE].
Defined.

Lemma dead_ping_moves_nothing_witness :
  handle_ping (λ _, calm) 5 "gone" (PingArgs (VInt 1) VNone [("a", VInt 1)] []) (Some a_worker) =
    (Ok None, Some a_worker).
Proof. apply dead_ping_moves_nothing. intros w [= <-]. by vm_compute. Defined.
End CommandsWitness.
End Commands.
