(* ===== verification/ServerStore.v ===== *)
(** * ServerStore: the context manager the site opens over one item

    src/genropy_asgi/siteregister/siteregister_client.py, the class [ServerStore]
    and the four factories of the client.  A store is a name and an id over the
    site's state: the worker, the adapter of the global store, the table of locks.
    On the global register every operation is the adapter's (GlobalStore.v); on the
    others it is the live Bag of the row, read and written through copies. *)

From S2P Require Export ClientCommands GlobalStore ItemLocks.

Module Store.
Import LegacyBagCollector Registry Worker Client Commands.

(** ** The state a store reaches *)

Record site `{Global.GlobalStoreClient} : Type := Site {
  si_worker : option worker;
  si_adapter : Global.adapter;
  si_locks : Locks.locks
}.
Arguments Site {_} _ _ _.

(** [triggered] is kept and read by nobody. *)
Record server_store : Type := ServerStore {
  register_name : string;
  register_item_id : string;
  triggered : bool;
  thread_id : Z
}.

(** ** The factories *)

Definition _make_store (thread : Z) (name item_id : string) (trig : bool) : server_store :=
  ServerStore name item_id trig thread.
Definition connectionStore (thread : Z) (connection_id : string) (trig : bool) : server_store :=
  _make_store thread "connection" connection_id trig.
Definition userStore (thread : Z) (user : string) (trig : bool) : server_store :=
  _make_store thread "user" user trig.
Definition pageStore (thread : Z) (page_id : string) (trig : bool) : server_store :=
  _make_store thread "page" page_id trig.
Definition globalStore (thread : Z) (trig : bool) : server_store :=
  _make_store thread "global" "*" trig.

Section store.
Context `{LocalZone, BagApi, Global.GlobalStoreClient}.

Definition with_worker (w : option worker) (s : site) : site := Site w (si_adapter s) (si_locks s).
Definition with_adapter (a : Global.adapter) (s : site) : site := Site (si_worker s) a (si_locks s).
Definition with_locks (l : Locks.locks) (s : site) : site := Site (si_worker s) (si_adapter s) l.

Definition on_adapter {A} (m : PyM Global.adapter A) : PyM site A := λ s,
  let '(a, ad) := m (si_adapter s) in (a, with_adapter ad s).
Definition on_client {A} (m : PyM (option worker) A) : PyM site A := λ s,
  let '(a, w) := m (si_worker s) in (a, with_worker w s).

Definition is_global (self : server_store) : bool := bool_decide (register_name self = "global").

(** ** The block *)

(** [__enter__] with what it slept: on the global register the turn of the adapter, off
    it the retries at the item's lock. *)
Definition entering (between : nat → Locks.locks → Locks.locks) (self : server_store) (s : site)
    : res () * list Z * site :=
  if is_global self then let '(r, s) := on_adapter Global.open_turn s in (r, [], s)
  else
    let '(r, slept, l) :=
      Locks.enter_item between (register_name self) (register_item_id self) (thread_id self)
        (si_locks s) in
    (r, slept, with_locks l s).

Definition __enter__ (between : nat → Locks.locks → Locks.locks) (self : server_store)
    : PyM site () := λ s, let '(r, _, s) := entering between self s in (r, s).

(** [failed] is whether the block leaves on an exception. *)
Definition __exit__ (failed : bool) (self : server_store) : PyM site () := λ s,
  if is_global self then on_adapter (Global.close_turn failed) s
  else
    (Ok (), with_locks (Locks.leave_item (register_name self) (register_item_id self) (thread_id self)
                          (si_locks s)) s).

(** ** The item and its Bag *)

(** What [data] is: a snapshot of the dictionary, or the live Bag of the row. *)
Inductive store_data : Type :=
| Snapshot (b : bag)
| LiveBag (l : positive).

(** [register_item] off the global register. *)
Definition register_item (self : server_store) : PyM site (option answer) :=
  on_client (on_worker (Ok None)
    (on_registers (get_item (register_item_id self) true (Some (register_name self))))).

Definition data (self : server_store) : PyM site (option store_data) :=
  if is_global self then on_adapter Global.store_bag ≫= λ b, mret (Some (Snapshot b))
  else register_item self ≫= λ item, mret (LiveBag <$> (item ≫= an_data)).

(** The value as the wire handed it over: a Bag rebuilt node by node, with each
    node's attributes in a dict of its own; what is mutable under a node copied. *)
Fixpoint _copied (v : value) : value :=
  match v with
  | VBag nodes => VBag (map (λ n, (n.1.1, _copied n.1.2, n.2)) nodes)
  | _ => v
  end.

(** The Bag at a location of the worker's heap. *)
Definition bag_at (l : positive) (s : site) : bag :=
  match si_worker s ≫= λ w, stores (registers w) !! l with
  | Some o => bo_nodes o
  | None => []
  end.

Definition getItem (self : server_store) (path : string) (default_ : value) : PyM site value :=
  if is_global self then on_adapter (Global.get_global_item (Some path) default_)
  else
    data self ≫= λ d,
    match d with
    | Some (LiveBag l) =>
        py_reads (λ s, _copied (default default_ (bag_getItem (bag_at l s) path)))
    | _ => mret default_
    end.

Definition write_at (now : Z) (l : positive) (f : bag → bag * list node_event) (s : site) : site :=
  with_worker ((λ w, with_registers (on_bag now l f (registers w)) w) <$> si_worker s) s.

Definition setItem (now : Z) (self : server_store) (path : string) (v : value)
    (kwargs : option attrs) : PyM site () :=
  if is_global self then on_adapter (Global.set_global_item (Some path) v)
  else
    data self ≫= λ d,
    match d with
    | Some (LiveBag l) =>
        py_modify (write_at now l (λ b, bag_setItem b path (_copied v) kwargs None))
    | _ => mret ()
    end.

Definition delItem (now : Z) (self : server_store) (path : string) : PyM site () :=
  if is_global self then on_adapter (Global.delete_global_item (Some path))
  else
    data self ≫= λ d,
    match d with
    | Some (LiveBag l) => py_modify (write_at now l (λ b, bag_delItem b path None))
    | _ => mret ()
    end.

(** ** The datachange delegates: the store's own item, under the store's register *)

Definition datachanges `{CoreRegistry, Tytx, ChangeDefaults} (self : server_store) (s : site)
    : list client_change_object :=
  _pending_datachanges (registers <$> si_worker s) (register_item_id self) (Some (register_name self)).

Definition subscribed_paths (self : server_store) (s : site) : gset string :=
  _item_subscribed_paths (registers <$> si_worker s) (register_item_id self) (register_name self).

Definition reset_datachanges `{CoreRegistry, Tytx} (answered : bool) (desk_now : Z)
    (identity : option string) (self : server_store) : PyM site () :=
  on_client (Commands.reset_datachanges answered desk_now identity (register_item_id self)
               (Some (register_name self))).

Definition set_datachange `{CoreRegistry, Tytx} (answered : bool) (now row_now desk_now : Z)
    (identity : option string) (self : server_store) (path : string) (v : value)
    (attributes : option attrs) (fired : value) (reason : option string) (replace delete : bool)
    : PyM site () :=
  on_client (Commands.set_datachange answered now row_now desk_now identity (register_item_id self)
               path v attributes fired reason replace delete (Some (register_name self))).

Definition drop_datachanges `{CoreRegistry, Tytx} (answered : bool) (desk_now : Z)
    (identity : option string) (self : server_store) (path : string) : PyM site () :=
  on_client (Commands.drop_datachanges answered desk_now identity (register_item_id self) path
               (Some (register_name self))).

Definition subscribe_path `{CoreRegistry} (self : server_store) (path : string) : PyM site () :=
  on_client (Commands.subscribe_path (register_item_id self) path (Some (register_name self))).
End store.

(** ** What a copy is *)

Lemma _copied_same v : _copied v = v.
Proof.
  induction v as [| | | | | | | | |ns IH|] using value_nested_ind; simpl; try done.
  f_equal. induction IH as [|[[l x] a] ns [Hn _] HF IH]; simpl; [done|].
  unfold node_value in Hn; simpl in Hn. by rewrite Hn, IH.
Qed.

(** ** The block gives the item back *)

Lemma lock_unlock n i t l l' :
  (∀ h, l !! (n, i) = Some h → 0 < Locks.hl_count h) →
  Locks.lock_item n i t l = (true, l') → Locks.leave_item n i t l' = l.
Proof.
  intros Hpos. unfold Locks.lock_item, Locks.leave_item, Locks.unlock_item.
  case_decide as Hg; [by intros [= <-]|].
  destruct (l !! (n, i)) as [[r c]|] eqn:E; simpl.
  - case_decide as Hr; [|done]. intros [= <-]. rewrite lookup_insert_eq. simpl.
    specialize (Hpos _ eq_refl). simpl in Hpos.
    destruct (Z.leb_spec (c + 1 - 1) 0); [lia|]. simpl.
    rewrite insert_insert_eq. replace (c + 1 - 1) with c by lia. by apply insert_id.
  - intros [= <-]. rewrite lookup_insert_eq. simpl. by apply delete_insert_id.
Qed.

Section block.
Context `{LocalZone, BagApi, Global.GlobalStoreClient}.

(** A block over an item ends as it began: the item's lock entered at the attempt
    that found it free or its own thread's is given back by the exit, the table being
    then exactly the one that attempt found, nested blocks of the thread included;
    a block that could not enter raised and had changed nothing itself. *)
Theorem block_gives_back between self s :
  is_global self = false →
  (∀ k h, Locks.table_from between 0 k (si_locks s) !! (register_name self, register_item_id self)
            = Some h → 0 < Locks.hl_count h) →
  let '(r, s1) := __enter__ between self s in
  si_worker s1 = si_worker s ∧ si_adapter s1 = si_adapter s ∧
  match r with
  | Ok _ => ∃ k, (k ≤ 50)%nat ∧ ∀ failed,
      __exit__ failed self s1 = (Ok (), with_locks (Locks.table_from between 0 k (si_locks s)) s1)
  | Raise e => e = GnrDaemonLocked ∧ si_locks s1 = Locks.table_from between 0 50 (si_locks s)
  end.
Proof.
  intros Hg Hpos. unfold __enter__, entering. rewrite Hg.
  pose proof (Locks.enter_loop_spec between (register_name self) (register_item_id self)
    (thread_id self) Locks.LOCK_MAX_RETRY 0 Locks.RETRY_DELAY (si_locks s)) as HS.
  fold (Locks.enter_item between (register_name self) (register_item_id self) (thread_id self)
    (si_locks s)) in HS.
  destruct (Locks.enter_item _ _ _ _ _) as [[r slept] l'].
  destruct HS as [(k & Hk & -> & _ & Hl & _)|(-> & _ & -> & _)]; [|done].
  split_and!; [done..|]. exists k. split; [done|]. intros failed. unfold __exit__. rewrite Hg.
  simpl. by rewrite (lock_unlock _ _ _ _ _ (Hpos k) Hl).
Qed.

End block.

(** ** A write is read back *)

Section readback.
Context `{LocalZone, BagLaws, Global.GlobalStoreClient}.

(** The answer of a page is read off its row, the queue apart. *)
Lemma projected_ext worker worker' item item' name fields :
  row_id item' = row_id item →
  _item_subscribed_paths worker' (row_id item) name = _item_subscribed_paths worker (row_id item) name →
  (∀ f, f ∈ fields → row_get item' f = row_get item f) →
  projected worker' item' name fields = projected worker item name fields.
Proof.
  intros Hid Hsp Hf. unfold projected. rewrite Hid, Hsp.
  generalize [("register_name", VStr name); ("datachanges", VList []); ("datachanges_idx", VInt 0);
    ("subscribed_paths", names (_item_subscribed_paths worker (row_id item) name))] as d.
  induction fields as [|f fields IH]; intros d; [done|]. cbn [foldl].
  rewrite (Hf f) by apply list_elem_of_here. apply IH. intros g Hg. apply Hf.
  by apply list_elem_of_further.
Qed.

Lemma same_people_page r r' p page :
  same_people r r' → page_register r !! p = Some page →
  ∃ q i, page_register r' !! p = Some (set_queue q i page).
Proof.
  intros HP Hp. pose proof (sp_pages _ _ HP p) as HE. rewrite Hp in HE.
  destruct (page_register r' !! p) as [page'|]; [|done]. simpl in HE. apply (inj Some) in HE.
  exists (page_datachanges page'), (page_datachanges_idx page'). f_equal.
  destruct page, page'. unfold set_queue in *. simpl in *. by injection HE as -> -> -> -> -> -> -> ->.
Qed.

Lemma same_people_owner_of r r' p : same_people r r' → _page_owner r' p = _page_owner r p.
Proof.
  intros HP. unfold _page_owner. destruct (page_register r !! p) as [page|] eqn:Hp.
  - destruct (same_people_page _ _ _ _ HP Hp) as (q & i & ->). simpl.
    by rewrite (sp_connections _ _ HP).
  - pose proof (sp_pages _ _ HP p) as HE. rewrite Hp in HE. by destruct (page_register r' !! p).
Qed.

Lemma same_people_answer r r' p page q i :
  same_people r r' → page_register r !! p = Some page → page_register_item_id page = p →
  page_register r' !! p = Some (set_queue q i page) →
  _adapt_to_legacy (Some r') (Some (RowPage (set_queue q i page))) "page" =
    _adapt_to_legacy (Some r) (Some (RowPage page)) "page".
Proof.
  intros HP Hp Hid Hp'. unfold _adapt_to_legacy.
  destruct (LEGACY_REGISTER_ITEM_FIELDS "page") as [fields|] eqn:HF; [|done].
  assert (projected (Some r') (RowPage (set_queue q i page)) "page" fields =
          projected (Some r) (RowPage page) "page" fields) as ->.
  { apply projected_ext; [done| |].
    - simpl. rewrite Hid, Hp, Hp'. done.
    - intros f Hf. assert (f ≠ "datachanges_idx") as Hne.
      { intros ->. vm_compute in HF. injection HF as <-. revert Hf.
        apply (bool_decide_unpack (_ ∉ _)). by vm_compute. }
      unfold row_get, named. simpl. repeat case_decide; done. }
  unfold overridden. simpl. by rewrite (same_people_owner_of _ _ _ HP).
Qed.

(** The row whose store a page's or a user's store is over, born whole. *)
Definition store_over (self : server_store) (r : registry) (l : positive) : Prop :=
  (register_name self = "page" ∧ ∃ page, page_register r !! register_item_id self = Some page ∧
     page_register_item_id page = register_item_id self ∧ page_store page = l ∧
     stamped (RowPage page)) ∨
  (register_name self = "user" ∧ ∃ row, user_register r !! register_item_id self = Some row ∧
     user_store row = l ∧ ∃ d, _adapt_to_legacy None (Some (RowUser row)) "user" = Ok (Some d)).

Lemma store_over_people self r r' l : same_people r r' → store_over self r l → store_over self r' l.
Proof.
  intros HP [(Hn & page & Hp & Hid & Hl & Hs)|(Hn & row & Hrow & Hrest)].
  - left. split; [done|]. destruct (same_people_page _ _ _ _ HP Hp) as (q & i & Hp').
    by exists (set_queue q i page).
  - right. split; [done|]. exists row. by rewrite (sp_users _ _ HP).
Qed.

Lemma get_item_live r item_id name item d l :
  local_item (Some r) item_id (Some name) = Ok (Some item) →
  _adapt_to_legacy (Some r) (Some item) name = Ok (Some d) →
  _ensure_item_data item r = (Ok l, r) →
  get_item item_id true (Some name) r = (Ok (Some (Answer d (Some l))), r).
Proof.
  intros Hi Hd Hl. unfold get_item. rewrite Hi. change (default "" (Some name)) with name. rewrite Hd.
  by rewrite (pym_bind_ok _ _ _ _ _ Hl).
Qed.

Lemma data_of_store self s w l :
  si_worker s = Some w → store_over self (registers w) l → data self s = (Ok (Some (LiveBag l)), s).
Proof.
  intros Hw Hover. unfold data, is_global.
  assert (∃ d, get_item (register_item_id self) true (Some (register_name self)) (registers w)
    = (Ok (Some (Answer d (Some l))), registers w)) as [d Hd].
  { destruct Hover as [(Hn & page & Hp & _ & Hl & Hs)|(Hn & row & Hrow & Hl & d & Hd)]; rewrite Hn.
    - destruct (adapt_stamped (Some (registers w)) page Hs) as [a Ha]. exists a.
      apply (get_item_live _ _ _ (RowPage page)); [|done|by rewrite <-Hl].
      unfold local_item. rewrite decide_True by done. by rewrite Hp.
    - exists d. apply (get_item_live _ _ _ (RowUser row)); [|done|by rewrite <-Hl].
      unfold local_item. simpl. by rewrite Hrow. }
  assert (register_name self ≠ "global") as Hg
    by (destruct Hover as [[-> _]|[-> _]]; done).
  rewrite bool_decide_eq_false_2 by done. rewrite pym_bind_unfold.
  unfold register_item, on_client, on_worker, on_registers. rewrite Hw, Hd.
  destruct w, s; simpl in *; by subst.
Qed.

Lemma not_global self r l : store_over self r l → is_global self = false.
Proof.
  intros Hover. unfold is_global. apply bool_decide_eq_false_2.
  destruct Hover as [[-> _]|[-> _]]; done.
Qed.

Lemma getItem_over self path d s w l :
  si_worker s = Some w → store_over self (registers w) l →
  getItem self path d s = (Ok (default d (bag_getItem (bag_at l s) path)), s).
Proof.
  intros Hw Hover. unfold getItem. rewrite (not_global _ _ _ Hover).
  rewrite (pym_bind_ok _ _ _ _ _ (data_of_store _ _ _ _ Hw Hover)). unfold py_reads.
  by rewrite _copied_same.
Qed.

(** C29: over a page or a user whose row is live, a store reads back what it wrote -
    the value, on the written path - and what every other path held before, deletes
    included; the write is one on the row's own live Bag, so whoever watches it hears
    it, and the other rows' Bags, the global store and the locks do not move. *)
Theorem store_write_then_read now self path v kwargs d s w l o :
  si_worker s = Some w → stores (registers w) !! l = Some o → NoDup (bo_subs o) →
  store_over self (registers w) l → path ≠ "" →
  let written := write_at now l (λ b, bag_setItem b path v kwargs None) s in
  let deleted := write_at now l (λ b, bag_delItem b path None) s in
  setItem now self path v kwargs s = (Ok (), written) ∧
  delItem now self path s = (Ok (), deleted) ∧
  getItem self path d written = (Ok v, written) ∧
  getItem self path d deleted = (Ok d, deleted) ∧
  (∀ q, under path q = false → under q path = false →
     (getItem self q d written).1 = (getItem self q d s).1 ∧
     (getItem self q d deleted).1 = (getItem self q d s).1) ∧
  (∀ l', l' ≠ l → bag_at l' written = bag_at l' s ∧ bag_at l' deleted = bag_at l' s) ∧
  si_adapter written = si_adapter s ∧ si_locks written = si_locks s.
Proof.
  intros Hw Ho Hnd Hover Hpath written deleted.
  pose proof (data_of_store _ _ _ _ Hw Hover) as Hd.
  assert (∀ f, let s' := write_at now l f s in ∃ w', si_worker s' = Some w' ∧
    store_over self (registers w') l ∧
    stores (registers w') = <[l := BagObject (f (bo_nodes o)).1 (bo_subs o)]> (stores (registers w)))
    as Hwrite.
  { intros f s'. unfold s', write_at. rewrite Hw. simpl. eexists. split; [done|]. simpl. split.
    - eapply store_over_people; [apply on_bag_people | done].
    - destruct (f (bo_nodes o)) as [nodes evs] eqn:Hf.
      destruct (on_bag_spec now l f (registers w) o nodes evs Ho Hnd Hf) as [HS _]. exact HS. }
  destruct (Hwrite (λ b, bag_setItem b path v kwargs None)) as (w1 & Hw1 & Ho1 & HS1).
  destruct (Hwrite (λ b, bag_delItem b path None)) as (w2 & Hw2 & Ho2 & HS2).
  fold written in Hw1. fold deleted in Hw2.
  assert (bag_at l s = bo_nodes o) as Hb by (unfold bag_at; rewrite Hw; simpl; by rewrite Ho).
  assert (bag_at l written = (bag_setItem (bo_nodes o) path v kwargs None).1) as Hb1
    by (unfold bag_at; rewrite Hw1; simpl; by rewrite HS1, lookup_insert_eq).
  assert (bag_at l deleted = (bag_delItem (bo_nodes o) path None).1) as Hb2
    by (unfold bag_at; rewrite Hw2; simpl; by rewrite HS2, lookup_insert_eq).
  rewrite (getItem_over _ _ _ _ _ _ Hw1 Ho1), (getItem_over _ _ _ _ _ _ Hw2 Ho2), Hb1, Hb2.
  split_and!.
  - unfold setItem. rewrite (not_global _ _ _ Hover), (pym_bind_ok _ _ _ _ _ Hd).
    unfold py_modify, written. by rewrite _copied_same.
  - unfold delItem. by rewrite (not_global _ _ _ Hover), (pym_bind_ok _ _ _ _ _ Hd).
  - by rewrite bag_get_set.
  - by rewrite bag_get_del.
  - intros q Hq1 Hq2. rewrite (getItem_over _ _ _ _ _ _ Hw1 Ho1), (getItem_over _ _ _ _ _ _ Hw2 Ho2),
      (getItem_over _ _ _ _ _ _ Hw Hover), Hb1, Hb2, Hb.
    by rewrite bag_get_set_other, bag_get_del_other.
  - intros l' Hl'. unfold bag_at. rewrite Hw, Hw1, Hw2. simpl.
    rewrite HS1, HS2, !lookup_insert_ne by done. done.
  - done.
  - done.
Qed.
End readback.

Module StoreWitness.
Import RegistryWitness WorkerWitness.
#[local] Existing Instance Witness.flat_bag.
#[local] Existing Instance Witness.zone_east.
#[local] Existing Instance Global.GlobalWitness.plain_client.
#[local] Instance flat_laws : BagLaws := Witness.flat_bag_laws.

(** The page is born with its stamp. *)
Definition a_site : site :=
  Site (Some (with_registers (set_field (KPage "p1") "start_ts" (VNaive 1) login_registry) a_worker))
    Global.GlobalWitness.attached ∅.

Definition p1_store : server_store := pageStore 1 "p1" false.

Lemma block_gives_back_witness :
  let s1 := (__enter__ (λ _ l, l) p1_store a_site).2 in
  si_locks s1 = {[("page", "p1") := Locks.HeldLock 1 1]} ∧
  (__exit__ true p1_store s1).2 = with_locks ∅ s1.
Proof.
  intros s1. split; [reflexivity|].
  pose proof (block_gives_back (λ _ l, l) p1_store a_site eq_refl) as HB.
  assert (∀ k, Locks.table_from (λ _ l, l) 0 k ∅ = ∅) as Htab.
  { assert (∀ k a, Locks.table_from (λ _ l, l) a k ∅ = ∅) as Hall by (induction k; intros; simpl; auto).
    intros k. apply Hall. }
  specialize (HB ltac:(intros k h; cbn [si_locks a_site]; by rewrite Htab)).
  unfold s1. destruct (__enter__ _ p1_store a_site) as [r s2] eqn:E.
  assert (r = Ok ()) as ->.
  { change r with ((r, s2).1). rewrite <-E. by vm_compute. }
  destruct HB as (_ & _ & k & _ & HX). cbn [si_locks a_site] in HX. rewrite Htab in HX.
  cbn [snd]. by rewrite (HX true).
Defined.

Lemma store_write_then_read_witness :
  ∃ s', setItem 5 p1_store "rootenv" (VStr "x") None a_site = (Ok (), s') ∧
    getItem p1_store "rootenv" VNone s' = (Ok (VStr "x"), s').
Proof.
  destruct (store_write_then_read 5 p1_store "rootenv" (VStr "x") None VNone a_site
    (with_registers (set_field (KPage "p1") "start_ts" (VNaive 1) login_registry) a_worker) 3%positive
    (BagObject [] [SubPage "p1"])) as (H1 & _ & H3 & _).
  - done.
  - by vm_compute.
  - apply NoDup_singleton.
  - left. split; [done|]. eexists. split; [by vm_compute|]. by split_and!.
  - done.
  - eexists. split; [exact H1 | exact H3].
Defined.
End StoreWitness.
End Store.
