(* ===== verification/Copies.v ===== *)
(** * Copies: who can write through what a store hands out

    The two walks that stand for the wire the in-process register no longer has:
    [ServerStore._copied] of src/genropy_asgi/siteregister/siteregister_client.py
    and [GlobalStoreAdapter.legacy_value] of global_store_adapter.py.  ServerStore.v
    and GlobalStore.v say what the copy holds; here the objects have identities, so
    that the copy and the original can be asked what they still share.  A value is
    a tree whose mutable objects carry their identity, the same object being the same
    identity wherever it is met, and the state of the walk is the next identity. *)

From S2P Require Export ServerStore.

Module Copies.

(** ** Objects with an identity *)

Inductive kind : Type :=
| KList
| KSet
| KDict
| KBag
| KOther (tag : Z) (truth : bool).   (* an instance of any other class *)

(** The items of an object: a label (of a dict or of a Bag), a value, and the
    attributes a Bag's node has. *)
Inductive obj : Type :=
| OAtom (v : value)                  (* nothing to write through: a str, a date, None *)
| OObj (l : positive) (k : kind) (items : list (string * obj * list (string * obj))).

Definition item : Type := string * obj * list (string * obj).

Section obj_ind.
Variable P : obj → Prop.
Hypothesis P_atom : ∀ v, P (OAtom v).
Hypothesis P_obj : ∀ l k (items : list item),
  Forall (λ it, P it.1.2 ∧ Forall (λ a, P a.2) it.2) items → P (OObj l k items).

Fixpoint obj_nested_ind (t : obj) : P t :=
  match t with
  | OAtom v => P_atom v
  | OObj l k items =>
      P_obj l k items
        ((fix go (its : list item) : Forall (λ it, P it.1.2 ∧ Forall (λ a, P a.2) it.2) its :=
            match its with
            | [] => List.Forall_nil _
            | (s, x, at_) :: its' =>
                List.Forall_cons _ (s, x, at_) _
                  (conj (obj_nested_ind x)
                     ((fix goa ats : Forall (λ a, P a.2) ats :=
                         match ats with
                         | [] => List.Forall_nil _
                         | (s, x) :: ats' => List.Forall_cons _ (s, x) _ (obj_nested_ind x) (goa ats')
                         end) at_))
                  (go its')
            end) items)
  end.
End obj_ind.

(** Every identity reachable from a value. *)
Fixpoint locs (t : obj) : list positive :=
  match t with
  | OAtom _ => []
  | OObj l _ items =>
      l :: concat (map (λ it : item, locs it.1.2 ++ concat (map (λ a, locs a.2) it.2)) items)
  end.

(** The value an object is, its identities forgotten. *)
Definition value_of (k : kind) (items : list (string * value * attrs)) : value :=
  match k with
  | KList => VList (map (λ it, it.1.2) items)
  | KSet => VSet (map (λ it, it.1.2) items)
  | KDict => VDict (map fst items)
  | KBag => VBag items
  | KOther tag truth => VOther tag truth
  end.

Fixpoint erase (t : obj) : value :=
  match t with
  | OAtom v => v
  | OObj _ k items =>
      value_of k (map (λ it : item, (it.1.1, erase it.1.2, map (λ a, (a.1, erase a.2)) it.2)) items)
  end.

(** What a holder of [l] does to the object: everybody who reaches [l] sees it. *)
Fixpoint mutate (l : positive) (f : list item → list item) (t : obj) : obj :=
  match t with
  | OAtom v => OAtom v
  | OObj l' k items =>
      let items :=
        map (λ it : item, (it.1.1, mutate l f it.1.2, map (λ a, (a.1, mutate l f a.2)) it.2)) items in
      OObj l' k (if decide (l = l') then f items else items)
  end.

(** ** [copy.deepcopy]

    Every object reachable from the value is made anew, an object met twice once (the
    memo): with every identity in use below [n], the copy of [l] is [n + l]. *)
Fixpoint relabel (ρ : positive → positive) (t : obj) : obj :=
  match t with
  | OAtom v => OAtom v
  | OObj l k items =>
      OObj (ρ l) k
        (map (λ it : item, (it.1.1, relabel ρ it.1.2, map (λ a, (a.1, relabel ρ a.2)) it.2)) items)
  end.

Definition deepcopy (n : positive) (t : obj) : obj * positive := (relabel (Pos.add n) t, (n + n)%positive).

(** ** The two walks

    [_copied] and [legacy_value] are the same loop but for the dates, which the second
    makes naive on the way: a new Bag, each node's value copied in turn, each node's
    attributes in a dict of its own with the values they had. *)
Definition walk_nodes (copy : positive → obj → obj * positive) : list item → positive → list item * positive :=
  fix nodes its n :=
    match its with
    | [] => ([], n)
    | (label, v, attr) :: rest =>
        let '(v, n) := copy n v in
        let '(rest, n) := nodes rest n in
        ((label, v, attr) :: rest, n)
    end.

Section walk.
Variable atom : value → value.

Fixpoint rebuilt (n : positive) (t : obj) : obj * positive :=
  match t with
  | OAtom v => (OAtom (atom v), n)
  | OObj l KBag items =>
      let '(items, n') := walk_nodes rebuilt items (Pos.succ n) in (OObj n KBag items, n')
  | OObj l (KOther _ _) items => (t, n)
  | OObj l _ items => deepcopy n t
  end.
End walk.

Definition _copied : positive → obj → obj * positive := rebuilt (λ v, v).
Definition legacy_value `{LocalZone} : positive → obj → obj * positive := rebuilt Global.legacy_value.

(** ** What the copy is: the value the pure models answer *)

Lemma relabel_erase ρ t : erase (relabel ρ t) = erase t.
Proof.
  induction t as [v|l k items IH] using obj_nested_ind; [done|]. simpl. f_equal. rewrite map_map.
  apply map_ext_Forall. eapply Forall_impl; [exact IH|]. intros [[s x] at_] [Hx Ha]. simpl in *.
  rewrite Hx. f_equal. rewrite map_map.
  apply map_ext_Forall. eapply Forall_impl; [exact Ha|]. intros [k' y] Hy. simpl in *. by rewrite Hy.
Qed.

(** A walk of the nodes, node by node: labels and attributes kept, each value copied
    from some identity on. *)
Lemma walk_nodes_spec (copy : positive → obj → obj * positive) items n :
  (∀ m t, (m ≤ (copy m t).2)%positive) →
  let '(items', n') := walk_nodes copy items n in
  (n ≤ n')%positive ∧
  Forall2 (λ it it' : item, it'.1.1 = it.1.1 ∧ it'.2 = it.2 ∧
    ∃ m, (n ≤ m)%positive ∧ it'.1.2 = (copy m it.1.2).1 ∧ ((copy m it.1.2).2 ≤ n')%positive) items items'.
Proof.
  intros Hmono. revert n. induction items as [|[[label v] attr] rest IH]; intros n; simpl.
  { split; [lia | constructor]. }
  pose proof (Hmono n v) as Hn. destruct (copy n v) as [v' n1] eqn:Ev.
  specialize (IH n1). destruct (walk_nodes copy rest n1) as [rest' n2]. destruct IH as [Hle HF].
  cbn [snd] in Hn. split; [lia|]. constructor; simpl.
  - split_and!; [done..|]. exists n. rewrite Ev. split_and!; [lia|done|done].
  - eapply Forall2_impl; [exact HF|]. intros it it' (E1 & E2 & m & Hm & E3 & E4).
    split_and!; [done..|]. exists m. split_and!; [lia|done|done].
Qed.

Section walks.
Variable atom : value → value.

Lemma rebuilt_mono t n : (n ≤ (rebuilt atom n t).2)%positive.
Proof.
  revert n. induction t as [v|l k items IH] using obj_nested_ind; intros n; simpl; [lia|].
  destruct k; simpl; try lia.
  assert (∀ its m, Forall (λ it : item, (∀ n, (n ≤ (rebuilt atom n it.1.2).2)%positive)) its →
    (m ≤ (walk_nodes (rebuilt atom) its m).2)%positive) as Hw.
  { induction its as [|[[label v] attr] its IHs]; intros m HF; simpl; [lia|].
    apply Forall_cons in HF as [Hv HF]. specialize (Hv m). simpl in Hv.
    destruct (rebuilt atom m v) as [v' n1]. specialize (IHs n1 HF).
    destruct (walk_nodes _ its n1). simpl in *. lia. }
  specialize (Hw items (Pos.succ n)). destruct (walk_nodes _ items (Pos.succ n)) as [its' n']. simpl in *.
  assert (Forall (λ it : item, ∀ n, (n ≤ (rebuilt atom n it.1.2).2)%positive) items) as HF.
  { eapply Forall_impl; [exact IH|]. by intros it [Hit _]. }
  specialize (Hw HF). lia.
Qed.

(** What the copy still has of the original: the values of the attributes of its
    nodes, and what is no container at all. *)
Fixpoint shared (t : obj) : list positive :=
  match t with
  | OObj _ KBag items =>
      concat (map (λ it : item, shared it.1.2 ++ concat (map (λ a, locs a.2) it.2)) items)
  | OObj _ (KOther _ _) _ => locs t
  | _ => []
  end.

Lemma elem_concat_map {A B} (f : A → list B) (l : list A) x :
  x ∈ concat (map f l) ↔ ∃ y, y ∈ l ∧ x ∈ f y.
Proof.
  induction l as [|y l IH]; simpl; [set_solver|]. rewrite elem_of_app, IH. set_solver.
Qed.

Definition attr_locs (it : item) : list positive := concat (map (λ a, locs a.2) it.2).

Lemma locs_obj l k items x :
  x ∈ locs (OObj l k items) ↔ x = l ∨ ∃ it, it ∈ items ∧ (x ∈ locs it.1.2 ∨ x ∈ attr_locs it).
Proof. simpl. rewrite elem_of_cons, elem_concat_map. by setoid_rewrite elem_of_app. Qed.

Lemma shared_bag l items x :
  x ∈ shared (OObj l KBag items) ↔ ∃ it, it ∈ items ∧ (x ∈ shared it.1.2 ∨ x ∈ attr_locs it).
Proof. simpl. rewrite elem_concat_map. by setoid_rewrite elem_of_app. Qed.

Lemma relabel_locs ρ t : locs (relabel ρ t) = map ρ (locs t).
Proof.
  induction t as [v|l k items IH] using obj_nested_ind; [done|]. simpl. f_equal.
  rewrite concat_map, !map_map. f_equal. apply map_ext_Forall. eapply Forall_impl; [exact IH|].
  intros [[s x] at_] [Hx Ha]. simpl in *. rewrite map_app, Hx. f_equal.
  rewrite concat_map, !map_map. f_equal. apply map_ext_Forall. eapply Forall_impl; [exact Ha|].
  intros [k' y] Hy. exact Hy.
Qed.

(** The identities of a copy: those it shares, and new ones. *)
Lemma rebuilt_locs t n :
  Forall (λ l, l < n)%positive (locs t) →
  let '(t', n') := rebuilt atom n t in
  (∀ x, x ∈ locs t' → x ∈ shared t ∨ (n ≤ x < n')%positive) ∧ (∀ x, x ∈ shared t → x ∈ locs t').
Proof.
  revert n. induction t as [v|l k items IH] using obj_nested_ind; intros n Hn; [simpl; set_solver|].
  destruct k; try (unfold rebuilt, deepcopy; split; [|set_solver]; intros x Hx; right;
    rewrite relabel_locs in Hx; apply list_elem_of_fmap in Hx as (y & -> & Hy);
    pose proof (proj1 (Forall_forall _ _) Hn y Hy); simpl in *; lia).
  2: { simpl. split; intros x Hx; [by left | done]. }
  cbn [rebuilt]. pose proof (walk_nodes_spec (rebuilt atom) items (Pos.succ n) (λ m t, rebuilt_mono t m)) as Hw.
  destruct (walk_nodes (rebuilt atom) items (Pos.succ n)) as [items' n']. destruct Hw as [Hle HF].
  assert (∀ it, it ∈ items → ∀ m, (n ≤ m)%positive →
    (∀ x, x ∈ locs (rebuilt atom m it.1.2).1 →
       x ∈ shared it.1.2 ∨ (m ≤ x < (rebuilt atom m it.1.2).2)%positive) ∧
    (∀ x, x ∈ shared it.1.2 → x ∈ locs (rebuilt atom m it.1.2).1)) as Hit.
  { intros it Hin m Hm. pose proof (proj1 (Forall_forall _ _) IH it Hin) as [Hx _].
    specialize (Hx m). destruct (rebuilt atom m it.1.2) as [x' m']. apply Hx.
    apply Forall_forall. intros y Hy. apply (Pos.lt_le_trans _ n); [|done].
    apply (proj1 (Forall_forall _ _) Hn). apply locs_obj. right. exists it. auto. }
  split.
  - intros x [->|(it' & Hin & Hx)]%locs_obj; [right; lia|].
    apply list_elem_of_lookup in Hin as [i Hi].
    destruct (Forall2_lookup_r _ _ _ _ _ HF Hi) as (it & Hi' & E1 & E2 & m & Hm & E3 & E4).
    assert (it ∈ items) as Hin by by eapply list_elem_of_lookup_2.
    rewrite shared_bag. unfold attr_locs in Hx. rewrite E2, E3 in Hx. destruct Hx as [Hx|Hx].
    + destruct (Hit it Hin m ltac:(lia)) as [Ha _]. destruct (Ha x Hx); [left; eauto | right; lia].
    + left. exists it. auto.
  - intros x (it & Hin & Hx)%shared_bag. apply locs_obj. right.
    apply list_elem_of_lookup in Hin as [i Hi].
    destruct (Forall2_lookup_l _ _ _ _ _ HF Hi) as (it' & Hi' & E1 & E2 & m & Hm & E3 & E4).
    assert (it ∈ items) as Hin by by eapply list_elem_of_lookup_2.
    exists it'. split; [by eapply list_elem_of_lookup_2|]. unfold attr_locs. rewrite E2, E3.
    destruct Hx as [Hx|Hx]; [left | by right]. apply (Hit it Hin m ltac:(lia)). done.
Qed.

(** An identity a value does not reach changes nothing of it. *)
Lemma mutate_absent l f t : l ∉ locs t → mutate l f t = t.
Proof.
  induction t as [v|l' k items IH] using obj_nested_ind; [done|]. intros Hl. simpl.
  assert (map (λ it : item, (it.1.1, mutate l f it.1.2, map (λ a, (a.1, mutate l f a.2)) it.2)) items = items)
    as ->.
  { rewrite <- (map_id items) at 2. apply map_ext_Forall. apply Forall_forall. intros [[s x] at_] Hin.
    pose proof (proj1 (Forall_forall _ _) IH _ Hin) as [Hx Ha]. simpl in *.
    assert (∀ y, y ∈ locs x ∨ y ∈ attr_locs (s, x, at_) → y ≠ l) as Hne.
    { intros y Hy ->. apply Hl, (locs_obj l' k items l). right. by exists (s, x, at_). }
    rewrite Hx by (intros Hin'; by apply (Hne l); [left|]). f_equal.
    rewrite <- (map_id at_) at 2. apply map_ext_Forall. apply Forall_forall. intros [k' y] Hin'.
    pose proof (proj1 (Forall_forall _ _) Ha _ Hin') as Hy. simpl in *. rewrite Hy; [done|].
    intros Hl'. apply (Hne l); [|done]. right. apply elem_concat_map. by exists (k', y). }
  rewrite decide_False; [done|]. intros ->. apply Hl, (locs_obj l' k items l'). by left.
Qed.

(** What a holder may do with its own part of a copy, and the store with its own,
    reaches the other side through the shared identities alone. *)
Definition private_copy (t t' : obj) : Prop :=
  (∀ l, l ∈ locs t → l ∈ locs t' ↔ l ∈ shared t) ∧
  (∀ l f, l ∈ locs t' → l ∉ shared t → mutate l f t = t) ∧
  (∀ l f, l ∈ locs t → l ∉ shared t → mutate l f t' = t').

Lemma rebuilt_private t n :
  Forall (λ l, l < n)%positive (locs t) → private_copy t (rebuilt atom n t).1.
Proof.
  intros Hn. pose proof (rebuilt_locs t n Hn) as Hl. destruct (rebuilt atom n t) as [t' n'].
  destruct Hl as [H1 H2]. assert (∀ x, x ∈ locs t → (x < n)%positive) as Hlt by by apply Forall_forall.
  assert (∀ l, l ∈ locs t → l ∈ locs t' → l ∈ shared t) as Hboth.
  { intros l Hl Hl'. destruct (H1 l Hl') as [?|[Hge _]]; [done|]. specialize (Hlt l Hl). lia. }
  split_and!.
  - intros l Hl. split; [by apply Hboth | apply H2].
  - intros l f Hl' Hs. apply mutate_absent. intros Hl. by apply Hs, Hboth.
  - intros l f Hl Hs. apply mutate_absent. intros Hl'. by apply Hs, Hboth.
Qed.

Lemma walk_nodes_values items n :
  (∀ it, it ∈ items → ∀ m, erase (rebuilt atom m it.1.2).1 = atom (erase it.1.2)) →
  map (λ it : item, (it.1.1, erase it.1.2, map (λ a, (a.1, erase a.2)) it.2))
    (walk_nodes (rebuilt atom) items n).1 =
  map (λ it : item, (it.1.1, atom (erase it.1.2), map (λ a, (a.1, erase a.2)) it.2)) items.
Proof.
  revert n. induction items as [|[[label v] attr] rest IH]; intros n Hit; [done|]. simpl.
  pose proof (Hit (label, v, attr) ltac:(left) n) as Hv. simpl in Hv.
  destruct (rebuilt atom n v) as [v' n1]. specialize (IH n1 ltac:(intros; apply Hit; by right)).
  destruct (walk_nodes (rebuilt atom) rest n1) as [rest' n2]. simpl in *. by rewrite Hv, IH.
Qed.

Lemma rebuilt_erase t n :
  (∀ ns, atom (VBag ns) = VBag (map (λ x : node, (x.1.1, atom x.1.2, x.2)) ns)) →
  (∀ k its, k ≠ KBag → atom (value_of k its) = value_of k its) →
  erase (rebuilt atom n t).1 = atom (erase t).
Proof.
  intros Hbag Hother. revert n. induction t as [v|l k items IH] using obj_nested_ind; intros n; [done|].
  destruct k; try (cbn [rebuilt deepcopy fst]; rewrite relabel_erase; symmetry; by apply Hother).
  2: { symmetry. by apply Hother. }
  pose proof (walk_nodes_values items (Pos.succ n)) as Hw. cbn [rebuilt].
  destruct (walk_nodes (rebuilt atom) items (Pos.succ n)) as [items' n']. cbn [fst erase value_of] in *.
  rewrite Hw, Hbag, map_map; [done|].
  intros it Hin m. by apply (proj1 (Forall_forall _ _) IH it Hin).
Qed.
End walks.

(** C30: what a store hands out is the caller's own: the copies the reads answer and the
    writes keep - the node-by-node walk of an item's store and that of the global
    dictionary - are the values the stores hold, and the only objects the two sides
    still have in common are what the nodes' attributes hold and instances of no
    container class. A write through anything else of the copy leaves what is stored as
    it was, and a write on the store leaves the copy. *)
Theorem copies_are_private `{LocalZone} t n :
  Forall (λ l, l < n)%positive (locs t) →
  private_copy t (_copied n t).1 ∧ erase (_copied n t).1 = Store._copied (erase t) ∧
  private_copy t (legacy_value n t).1 ∧ erase (legacy_value n t).1 = Global.legacy_value (erase t).
Proof.
  intros Hn. split_and!.
  - by apply rebuilt_private.
  - rewrite Store._copied_same. apply rebuilt_erase; [|done]. intros ns. f_equal.
    rewrite <- (map_id ns) at 1. apply map_ext. by intros [[? ?] ?].
  - by apply rebuilt_private.
  - apply rebuilt_erase; [done|]. by intros [].
Qed.

(** ** Concrete inputs *)

Module CopiesWitness.
#[local] Existing Instance Witness.zone_east.

(** The avatar the login caches - a dict in the page's store - and a node whose
    attribute is a list. *)
Definition avatar : obj :=
  OObj 2 KDict [("user_id", OAtom (VStr "anna"), []); ("tags", OAtom (VStr "admin"), [])].
Definition page_data : obj :=
  OObj 1 KBag [("avatar", avatar, []); ("menu", OAtom (VInt 1), [("pages", OObj 3 KList [("", OAtom (VInt 7), [])])])].

(** The site pops the avatar it read: the store keeps the three. *)
Lemma copies_are_private_witness :
  let copy := (_copied 10 page_data).1 in
  locs copy = [10; 13; 3]%positive ∧ mutate 13 (λ _, []) page_data = page_data ∧
  erase (mutate 13 (λ _, []) copy) ≠ erase copy.
Proof.
  split; [by vm_compute|]. split; [|by vm_compute].
  destruct (copies_are_private page_data 10) as ((_ & Hc & _) & _); [by repeat constructor|].
  apply Hc; apply (bool_decide_unpack _); by vm_compute.
Defined.

(** The list under an attribute is written through. *)
Lemma attribute_written_through :
  3%positive ∈ locs (_copied 10 page_data).1 ∧ mutate 3 (λ _, []) page_data ≠ page_data.
Proof. split; [apply (bool_decide_unpack _); by vm_compute | by vm_compute]. Qed.
End CopiesWitness.
End Copies.
