(* ===== verification/Recipe.v ===== *)
(** * The recipe: how one instance becomes a served pool

    src/genropy_asgi/spa/config.py, cli.py, site_engine_factory.py and
    genropy_spa_application.py, with proxy/genropy_proxy.py.  The environment is a
    map of strings, threaded from the command line to the recipe as the process
    does it; what is built is the recipe's own document.  The file system, the
    temp directory, the legacy name resolution and the parsing of a float are
    parameters; the paths are Python's posixpath. *)

From Stdlib Require Import QArith_base.
From stdpp Require Import pretty.
From S2P Require Export PyValue.
#[local] Open Scope Z_scope.

Module Recipe.

(** ** posixpath *)

Abbreviation slash := "/"%char (only parsing).

(** [(s[:i], s[i:])] with [i = s.rfind("/") + 1]. *)
Fixpoint split_slash (s : string) : string * string :=
  match s with
  | EmptyString => ("", "")
  | String c s' =>
      match split_slash s' with
      | (EmptyString, _) => if decide (c = slash) then (String c "", s') else ("", s)
      | (h, t) => (String c h, t)
      end
  end.

Definition basename (p : string) : string := (split_slash p).2.

(** [head.rstrip("/")]; what is all slashes becomes empty. *)
Fixpoint rstrip_slash (s : string) : string :=
  match s with
  | EmptyString => ""
  | String c s' =>
      match rstrip_slash s' with
      | EmptyString => if decide (c = slash) then "" else String c ""
      | t => String c t
      end
  end.

Definition dirname (p : string) : string :=
  let head := (split_slash p).1 in
  match rstrip_slash head with EmptyString => head | t => t end.

Fixpoint ends_with_slash (s : string) : bool :=
  match s with
  | EmptyString => false
  | String c EmptyString => bool_decide (c = slash)
  | String _ s' => ends_with_slash s'
  end.

Definition path_join (a b : string) : string :=
  if startswith b "/" then b
  else if bool_decide (a = "") || ends_with_slash a then a +:+ b
  else a +:+ "/" +:+ b.

(** [p.split("/")]. *)
Fixpoint split_on_slash (s : string) : list string :=
  match s with
  | EmptyString => [""]
  | String c s' =>
      if decide (c = slash) then "" :: split_on_slash s'
      else match split_on_slash s' with
           | [] => [String c ""]
           | h :: t => String c h :: t
           end
  end.

(** How many slashes a normal path keeps in front: POSIX gives exactly two a
    meaning of their own. *)
Definition initial_slashes (p : string) : nat :=
  if startswith p "/" then (if startswith p "//" && negb (startswith p "///") then 2 else 1) else 0.

(** The loop of [normpath], the components kept so far in reverse. *)
Fixpoint norm_comps (slashes : nat) (comps kept : list string) : list string :=
  match comps with
  | [] => rev kept
  | comp :: rest =>
      if bool_decide (comp = "") || bool_decide (comp = ".") then norm_comps slashes rest kept
      else if bool_decide (comp ≠ "..") then norm_comps slashes rest (comp :: kept)
      else match kept with
           | [] => if (slashes =? 0)%nat then norm_comps slashes rest [comp]
                   else norm_comps slashes rest []
           | last :: kept' =>
               if bool_decide (last = "..") then norm_comps slashes rest (comp :: kept)
               else norm_comps slashes rest kept'
           end
  end.

Definition normpath (p : string) : string :=
  if decide (p = "") then "."
  else
    let n := initial_slashes p in
    let path := (match n with 0 => "" | 1 => "/" | _ => "//" end%nat) +:+
                String.concat "/" (norm_comps n (split_on_slash p) []) in
    if decide (path = "") then "." else path.

Class FileSystem : Type := {
  isdir : string → bool;
  getcwd : string;
  gettempdir : string
}.

Definition abspath `{FileSystem} (p : string) : string :=
  normpath (if startswith p "/" then p else path_join getcwd p).

(** ** The environment *)

Abbreviation environ := (gmap string string).

(** [os.environ.get(name) or otherwise]; an empty value is no value. *)
Definition env_set (env : environ) (name : string) : option string :=
  match env !! name with Some EmptyString => None | v => v end.

Definition lower_char (c : ascii) : ascii :=
  let n := nat_of_ascii c in
  if (65 <=? n)%nat && (n <=? 90)%nat then ascii_of_nat (n + 32) else c.

Fixpoint lower (s : string) : string :=
  match s with EmptyString => "" | String c s' => String (lower_char c) (lower s') end.

Definition DEBUG_OFF_WORDS : gset string := {[""; "0"; "false"; "no"; "off"]}.

Definition debug_of (env : environ) : bool :=
  match env !! "GNR_ASGI_DEBUG" with
  | None => true
  | Some word => negb (bool_decide (lower (strip word) ∈ DEBUG_OFF_WORDS))
  end.

(** ** The document [ServerConfiguration.main] writes *)

(** An [EnvResolver]: the variable and its default, resolved by the core. *)
Record env_resolver : Type := EnvResolver { er_name : string; er_default : value }.

Record application : Type := Application {
  app_code : string;
  app_mount : string;
  app_class : string;
  app_folder : option string
}.

Record worker_kwargs : Type := WorkerKwargs {
  wk_source : string;
  wk_debug : bool;
  wk_debugger : bool
}.

Record group : Type := Group {
  gr_name : string;
  gr_entry_module : string;
  gr_worker_class : string;
  gr_worker_kwargs : worker_kwargs;
  gr_engine_factory : string;
  gr_engine_source : string;
  gr_engine_debug : bool;
  gr_cpu_retirement_quiet_seconds : Z;
  gr_user_idle_freeze_minutes : option Q;
  gr_worker_max_users : option Z
}.

Record recipe : Type := MkRecipe {
  rc_host : env_resolver;
  rc_port : env_resolver;
  rc_applications : list application;
  rc_frozen_users_path : string;
  rc_instance_dir : string;
  rc_groups : list group
}.

Class PyFloat : Type := { py_float : string → res Q }.

(** [if value: kwargs[word] = convert(value)]. *)
Definition optional_word {A} (convert : string → res A) (v : option string) : res (option A) :=
  match v with None => Ok None | Some s => Some <$> convert s end.

Section main.
Context `{FileSystem, PyFloat}.

Definition site_key (source : string) : string :=
  let k := basename (normpath source) in if decide (k = "") then "site" else k.

Definition recipe_applications (env : environ) (source : string) : list application :=
  [Application "site" "" "GenropySpaApplication" None] ++
  match env_set env "GNR_ASGI_ORCHESTRATION_PROFILES" with
  | None => []
  | Some _ =>
      [Application "_sysop" "_sysop" "ConfigurationProfilesApplication"
         (Some (default (path_join (path_join source "data") "_orchestration_profiles")
                  (env_set env "GNR_ASGI_ORCHESTRATION_PROFILES_PATH")))]
  end ++
  match env_set env "GNR_ASGI_CONSOLE" with
  | None => []
  | Some _ => [Application "console" "_console" "SpaConsoleMcpApplication" None]
  end.

Definition main (env : environ) : res recipe :=
  let source := default "" (env !! "GNR_ASGI_PATH") in
  let debug := debug_of env in
  let debugger := if env_set env "GNR_ASGI_DEBUGGER" is Some _ then true else false in
  let frozen_users_path :=
    default (path_join (path_join source "data") "_frozen_users")
      (env_set env "GNR_ASGI_FROZEN_USERS_PATH") in
  let instance_dir :=
    default (path_join gettempdir ("gnrasgi_" +:+ site_key source))
      (env_set env "GNR_ASGI_INSTANCE_DIR") in
  optional_word py_float (env_set env "GNR_ASGI_IDLE_FREEZE_MINUTES") ≫= λ idle,
  optional_word (λ s, py_int (VStr s)) (env_set env "GNR_ASGI_WORKER_MAX_USERS") ≫= λ max_users,
  Ok (MkRecipe (EnvResolver "GNR_ASGI_HOST" (VStr "127.0.0.1"))
        (EnvResolver "GNR_ASGI_PORT" (VInt 8000))
        (recipe_applications env source) frozen_users_path instance_dir
        [Group "pool" "genro_asgi_multiworker_spa.orchestration.worker_entry"
           "genropy_asgi.spa.genropy_worker:GenropyWorker" (WorkerKwargs source debug debugger)
           "genropy_asgi.spa.site_engine_factory:GenropySiteEngineFactory" source debug 60
           idle max_users]).
End main.

(** ** The command line *)

(** The namespace [argparse] answers. *)
Record options : Type := Options {
  op_instance : string;
  op_host : option string;
  op_port : option Z;
  op_reload : bool;
  op_nodebug : bool;
  op_fulldebug : bool;
  op_config : option string
}.

Class LegacyPaths : Type := { site_name_to_path : string → res string }.

Definition DAEMON_PROVIDER : string := "genropy-asgi".

Section cli.
Context `{FileSystem, LegacyPaths}.

Definition resolve_instance_path (instance : string) : res string :=
  if isdir instance then Ok (abspath instance) else site_name_to_path instance.

(** [os.environ.setdefault(name, v)]. *)
Definition setdefault (name v : string) (env : environ) : environ :=
  match env !! name with Some _ => env | None => <[name := v]> env end.

Definition set_when (b : bool) (name v : string) (env : environ) : environ :=
  if b then <[name := v]> env else env.

(** What the process does in order: what it prints, and the one server it starts. *)
Inductive cli_action : Type :=
| SayWorkersIgnored
| SayReloadIgnored
| Serve (config_path : string) (host : option string) (port : option Z).

(** [args.config], an empty one being none. *)
Definition config_option (opts : options) : option string :=
  match op_config opts with Some EmptyString => None | c => c end.

(** [CONFIG]: the built-in recipe's own path. *)
Definition cmd_serve (CONFIG : string) (opts : options) (env : environ)
    : res (list cli_action * environ) :=
  let env := setdefault "GNR_DAEMON_PROVIDER" DAEMON_PROVIDER env in
  resolve_instance_path (op_instance opts) ≫= λ path,
  let env := <["GNR_ASGI_PATH" := path]> env in
  let env := match op_host opts with
             | None | Some EmptyString => env
             | Some host => <["GNR_ASGI_HOST" := host]> env
             end in
  let env := match op_port opts with
             | None => env
             | Some port => set_when (negb (port =? 0)) "GNR_ASGI_PORT" (pretty port) env
             end in
  let env := set_when (op_nodebug opts) "GNR_ASGI_DEBUG" "" env in
  let env := set_when (op_fulldebug opts) "GNR_ASGI_DEBUGGER" "1"
               (set_when (op_fulldebug opts) "GNR_ASGI_DEBUG" "1" env) in
  let said :=
    (if env_set env "GNR_ASGI_WORKERS" is Some _ then [SayWorkersIgnored] else []) ++
    (if op_reload opts then [SayReloadIgnored] else []) in
  let config_path := default CONFIG (config_option opts) in
  Ok (said ++ [Serve config_path (op_host opts) (op_port opts)], env).
End cli.

(** ** GenropySiteEngineFactory *)

Section factory.
Context `{FileSystem}.

(** The name [build_site] hands to the site. *)
Definition site_name (source : string) : string :=
  if isdir source then
    let path := abspath source in
    let site := basename path in
    if decide (site = "site") then basename (dirname path) else site
  else source.

(** What is done to the site, in order, on both births. *)
Inductive site_step : Type :=
| CreateSite (name : string) (debug : bool)
| SetLocalMode
| RegisterAtExit
| ResolveResources
| ResolveStorage (name : string)
| CloseConnection.

Definition build_site (source : string) (debug : bool) : list site_step :=
  [CreateSite (site_name source) debug; SetLocalMode; RegisterAtExit].

Definition build_group_engine (source : string) (debug : bool) : list site_step :=
  build_site source debug ++ [ResolveResources; ResolveStorage "gnr"; CloseConnection].

(** Whether a connection of the calling thread is open after the steps: the storage
    opens the main db, the close is of every connection of the thread. *)
Definition connection_open (steps : list site_step) : bool :=
  foldl (λ opened step, match step with
                        | ResolveStorage _ => true
                        | CloseConnection => false
                        | _ => opened
                        end) false steps.
End factory.

(** ** GenropySpaApplication *)

(** The constructor's treatment of [mount]. *)
Definition application_init (mount : option string) : res () :=
  match mount with None | Some EmptyString => Ok () | Some _ => Raise ValueError end.

(** [on_startup]: every group's [worker_kwargs] names a source; [None] where a group
    has none of the two. *)
Fixpoint check_groups (groups : list (string * option string)) : res () :=
  match groups with
  | [] => Ok ()
  | (name, source) :: rest =>
      match source with
      | None | Some EmptyString => Raise ValueError
      | Some _ => check_groups rest
      end
  end.

Definition group_source (g : group) : string * option string :=
  (gr_name g, Some (wk_source (gr_worker_kwargs g))).

Definition on_startup (r : recipe) : res () := check_groups (group_source <$> rc_groups r).

Definition METRIC_PREFIX : string := "genropy_site_counters".
Definition EVENTS_PREFIX : string := "genropy_site_events".

(** The commander's own indexes and its event counters. *)
Record commander_reading : Type := CommanderReading {
  cr_user_map : gset string;
  cr_page_connection_map : gset string;
  cr_connection_user_map : gset string;
  cr_counters : gmap string Z
}.

Definition quote : string := String (ascii_of_nat 34) "".

Definition metric_line (prefix label name : string) (v : Z) : string :=
  prefix +:+ "{" +:+ label +:+ "=" +:+ quote +:+ name +:+ quote +:+ "} " +:+ pretty v.

Definition metric_lines (c : commander_reading) : list string :=
  map (λ '(name, v), metric_line METRIC_PREFIX "counter" name v)
    [("users", Z.of_nat (size (cr_user_map c)));
     ("pages", Z.of_nat (size (cr_page_connection_map c)));
     ("connections", Z.of_nat (size (cr_connection_user_map c)))] ++
  map (λ name, metric_line EVENTS_PREFIX "event" name (default 0 (cr_counters c !! name)))
    (sorted_strings (elements (dom (cr_counters c)))).

Definition metrics (c : commander_reading) : string :=
  String.concat (String (ascii_of_nat 10) "") (metric_lines c).

(** ** GenropyProxyMixin *)

(** What is done to the application's [GnrApp]; [db] tells whether it has one. *)
Inductive proxy_step : Type :=
| CreateApp (instance : string) (debug : bool)
| BaseInit
| CloseThreadConnection
| BaseShutdown.

Definition proxy_init (instance : option string) (debug : bool) : res (list proxy_step) :=
  match instance with
  | None | Some EmptyString => Raise ValueError
  | Some i => Ok [CreateApp i debug; BaseInit]
  end.

Definition route_cleanup (db : bool) : list proxy_step := if db then [CloseThreadConnection] else [].
Definition on_shutdown (db : bool) : list proxy_step :=
  (if db then [CloseThreadConnection] else []) ++ [BaseShutdown].

(** ** Absolute paths by their components *)

(** A component as a directory has one: a name with no slash, not a dot word. *)
Definition component (c : string) : Prop :=
  c ≠ "" ∧ c ≠ "." ∧ c ≠ ".." ∧ slash ∉ String.list_ascii_of_string c.

(** "/a/b/c" of its components. *)
Fixpoint abs_path (comps : list string) : string :=
  match comps with [] => "" | c :: rest => String slash (c +:+ abs_path rest) end.

Lemma abs_path_snoc l x : abs_path (l ++ [x]) = abs_path l +:+ String slash x.
Proof.
  induction l as [|c l IH]; simpl; [by rewrite string_app_nil_r|].
  by rewrite IH, <-string_app_assoc.
Qed.

Lemma split_slash_last a x :
  slash ∉ String.list_ascii_of_string x → split_slash (a +:+ String slash x) = (a +:+ String slash "", x).
Proof.
  intros Hx.
  assert (split_slash x = ("", x)) as E.
  { induction x as [|c x IH]; [done|]. cbn [String.list_ascii_of_string] in Hx.
    rewrite not_elem_of_cons in Hx. destruct Hx as [Hc Hx]. cbn [split_slash].
    rewrite IH by done. by rewrite decide_False by done. }
  induction a as [|c a IH].
  - change ("" +:+ String slash x) with (String slash x). cbn [split_slash]. rewrite E.
    by rewrite decide_True.
  - change (String c a +:+ String slash x) with (String c (a +:+ String slash x)).
    change (String c a +:+ String slash "") with (String c (a +:+ String slash "")).
    cbn [split_slash]. rewrite IH. by destruct a.
Qed.

Lemma rstrip_component a c :
  c ≠ "" → slash ∉ String.list_ascii_of_string c → rstrip_slash (a +:+ c +:+ String slash "") = a +:+ c.
Proof.
  intros Hne Hc.
  assert (rstrip_slash (c +:+ String slash "") = c) as E.
  { induction c as [|x c IH]; [done|]. cbn [String.list_ascii_of_string] in Hc.
    rewrite not_elem_of_cons in Hc. destruct Hc as [Hx Hc].
    change (String x c +:+ String slash "") with (String x (c +:+ String slash "")).
    cbn [rstrip_slash]. destruct c as [|y c]; [by rewrite decide_False by done|].
    by rewrite IH. }
  induction a as [|x a IH].
  - change ("" +:+ c +:+ String slash "") with (c +:+ String slash ""). exact E.
  - change (String x a +:+ c +:+ String slash "") with (String x (a +:+ c +:+ String slash "")).
    change (String x a +:+ c) with (String x (a +:+ c)). cbn [rstrip_slash]. rewrite IH.
    destruct (a +:+ c) eqn:Eac; [|done]. destruct a; [|done]. by destruct c.
Qed.

(** Splitting back. *)
Lemma split_component c s :
  slash ∉ String.list_ascii_of_string c →
  split_on_slash (c +:+ String slash s) = c :: split_on_slash s ∧ split_on_slash c = [c].
Proof.
  induction c as [|x c IH]; [by intros _; split|].
  cbn [String.list_ascii_of_string]. rewrite not_elem_of_cons. intros [Hx Hc].
  destruct (IH Hc) as [E1 E2].
  change (String x c +:+ String slash s) with (String x (c +:+ String slash s)).
  cbn [split_on_slash]. rewrite !decide_False by done. by rewrite E1, E2.
Qed.

Lemma split_abs_path l :
  Forall component l → split_on_slash (abs_path l) = "" :: l ∧
  split_on_slash (abs_path l +:+ String slash "") = "" :: l ++ [""].
Proof.
  destruct l as [|c l]; [done|]. revert c. induction l as [|d l IH]; intros c HF.
  - apply Forall_cons in HF. destruct HF as [(_ & _ & _ & Hc) _]. cbn [abs_path].
    rewrite string_app_nil_r. destruct (split_component c "" Hc) as [E1 E2].
    change (String slash c +:+ String slash "") with (String slash (c +:+ String slash "")).
    cbn [split_on_slash]. rewrite decide_True by done. by rewrite E1, E2.
  - apply Forall_cons in HF. destruct HF as [(_ & _ & _ & Hc) HF]. destruct (IH d HF) as [I1 I2].
    cbn [abs_path] in *. split.
    + cbn [split_on_slash]. rewrite decide_True by done.
      rewrite (proj1 (split_component c _ Hc)). cbn [split_on_slash] in I1.
      rewrite decide_True in I1 by done. injection I1 as I1. by rewrite I1.
    + change (String slash (c +:+ String slash (d +:+ abs_path l)) +:+ String slash "")
        with (String slash ((c +:+ String slash (d +:+ abs_path l)) +:+ String slash "")).
      rewrite string_app_assoc.
      change (String slash (d +:+ abs_path l) +:+ String slash "")
        with (String slash ((d +:+ abs_path l) +:+ String slash "")) in *.
      cbn [split_on_slash]. rewrite decide_True by done.
      rewrite (proj1 (split_component c _ Hc)). cbn [split_on_slash] in I2.
      rewrite decide_True in I2 by done. injection I2 as I2. by rewrite I2.
Qed.

Lemma norm_comps_keep n l kept :
  Forall component l → norm_comps n l kept = rev kept ++ l ∧
  norm_comps n (l ++ [""]) kept = rev kept ++ l.
Proof.
  revert kept. induction l as [|c l IH]; intros kept HF; [simpl; by rewrite app_nil_r|].
  apply Forall_cons in HF. destruct HF as [(H1 & H2 & H3 & _) HF].
  destruct (IH (c :: kept) HF) as [E1 E2]. cbn [app norm_comps].
  rewrite !bool_decide_eq_false_2 by done. rewrite bool_decide_eq_true_2 by done. simpl.
  rewrite E1, E2. simpl. by rewrite <-!app_assoc.
Qed.

Lemma concat_abs l : l ≠ [] → String slash (String.concat "/" l) = abs_path l.
Proof.
  induction l as [|c l IH]; [done|]. intros _. destruct l as [|d l].
  - simpl. by rewrite string_app_nil_r.
  - change (String.concat "/" (c :: d :: l)) with (c +:+ "/" +:+ String.concat "/" (d :: l)).
    change ("/" +:+ String.concat "/" (d :: l)) with (String slash (String.concat "/" (d :: l))).
    rewrite IH by done. done.
Qed.

Section naming.
Context `{FileSystem}.

(** A clean absolute path, with or without a slash at its end, is its own abspath. *)
Lemma abspath_abs l :
  l ≠ [] → Forall component l →
  abspath (abs_path l) = abs_path l ∧ abspath (abs_path l +:+ String slash "") = abs_path l.
Proof.
  intros Hne HF. destruct (split_abs_path l HF) as [S1 S2].
  assert (∀ t, initial_slashes (abs_path l +:+ t) = 1%nat) as Hinit.
  { intros t. destruct l as [|c l]; [done|]. apply Forall_cons in HF.
    destruct HF as [(Hc & _ & _ & Hs) _]. destruct c as [|x c]; [done|].
    cbn [String.list_ascii_of_string] in Hs. rewrite not_elem_of_cons in Hs. destruct Hs as [Hx _].
    change (abs_path (String x c :: l) +:+ t)
      with (String slash (String x ((c +:+ abs_path l) +:+ t))).
    unfold initial_slashes, startswith. cbn [String.prefix].
    destruct (Ascii.ascii_dec slash x); [done|]. done. }
  assert (∀ t, split_on_slash (abs_path l +:+ t) = "" :: l ∨
               split_on_slash (abs_path l +:+ t) = "" :: l ++ [""] →
    normpath (abs_path l +:+ t) = abs_path l) as Hnorm.
  { intros t Ht. unfold normpath. rewrite decide_False by (by destruct l). rewrite Hinit.
    assert (norm_comps 1 (split_on_slash (abs_path l +:+ t)) [] = l) as ->.
    { destruct (norm_comps_keep 1 l [] HF) as [N1 N2]. by destruct Ht as [-> | ->]. }
    change ("/" +:+ String.concat "/" l) with (String slash (String.concat "/" l)).
    rewrite concat_abs by done. rewrite decide_False; [done|]. by destruct l. }
  assert (∀ t, startswith (abs_path l +:+ t) "/" = true) as Hsw
    by (intros t; apply startswith_spec; destruct l; [done | by eexists]).
  unfold abspath. split.
  - rewrite <-(string_app_nil_r (abs_path l)) at 1. rewrite Hsw.
    rewrite <-(string_app_nil_r (abs_path l)) at 1. apply Hnorm. rewrite string_app_nil_r. by left.
  - rewrite Hsw. apply Hnorm. by right.
Qed.

(** The site's name off its directory, in both layouts of the legacy: a site's own
    folder gives its basename, the "site" folder of an instance gives the instance's
    name, and a slash at the end of the path changes neither; a source that is no
    directory is already a name. *)
Theorem site_name_by_layout l name p :
  Forall component l → component name →
  (p = "" ∨ p = "/") →
  (isdir (abs_path (l ++ [name]) +:+ p) = true → name ≠ "site" →
     site_name (abs_path (l ++ [name]) +:+ p) = name) ∧
  (isdir (abs_path (l ++ [name; "site"]) +:+ p) = true →
     site_name (abs_path (l ++ [name; "site"]) +:+ p) = name) ∧
  (isdir name = false → site_name name = name).
Proof.
  intros HF Hn Hp.
  assert (∀ l', l' ≠ [] → Forall component l' → abspath (abs_path l' +:+ p) = abs_path l') as Habs.
  { intros l' Hne HF'. destruct (abspath_abs l' Hne HF') as [A1 A2].
    destruct Hp as [-> | ->]; [by rewrite string_app_nil_r | exact A2]. }
  assert (component "site") as Hsite by (repeat split; try done; apply (bool_decide_unpack _); by vm_compute).
  pose proof Hn as (Hne & _ & _ & Hns). pose proof Hsite as (_ & _ & _ & Hss).
  assert (Forall component (l ++ [name])) as HF1 by (apply Forall_app_2; [done | by constructor]).
  unfold site_name. split_and!.
  - intros -> Hname. rewrite Habs; [|by destruct l|done].
    rewrite abs_path_snoc. unfold basename. rewrite split_slash_last by done. simpl.
    by rewrite decide_False.
  - intros ->. rewrite Habs; [|by destruct l|].
    2: { apply Forall_app_2; [done|]. constructor; [done | by constructor]. }
    assert (l ++ [name; "site"] = (l ++ [name]) ++ ["site"]) as -> by by rewrite <-app_assoc.
    rewrite abs_path_snoc. unfold basename, dirname. rewrite split_slash_last by done. simpl.
    rewrite abs_path_snoc.
    assert ((abs_path l +:+ String slash name) +:+ String slash "" =
            (abs_path l +:+ String slash "") +:+ name +:+ String slash "") as ->
      by by rewrite !string_app_assoc.
    rewrite rstrip_component by done.
    assert (∃ x t, (abs_path l +:+ String slash "") +:+ name = String x t) as (x & t & Ext)
      by (destruct l; simpl; eauto).
    rewrite Ext, <-Ext. rewrite string_app_assoc.
    change (String slash "" +:+ name) with (String slash name).
    by rewrite split_slash_last.
  - by intros ->.
Qed.
End naming.

(** ** From the command line to the pool *)

Section serving.
Context `{FileSystem, PyFloat, LegacyPaths}.

(** The two numeric words of the environment are absent, or read. *)
Definition words_read (env : environ) : Prop :=
  (∀ s, env_set env "GNR_ASGI_IDLE_FREEZE_MINUTES" = Some s → ∃ q, py_float s = Ok q) ∧
  (∀ s, env_set env "GNR_ASGI_WORKER_MAX_USERS" = Some s → ∃ n, py_int (VStr s) = Ok n).

(** What the command line leaves in the environment, and the one server it starts
    after what it says. *)
Lemma cmd_serve_env CONFIG opts env path :
  resolve_instance_path (op_instance opts) = Ok path →
  ∃ said env', cmd_serve CONFIG opts env =
      Ok (said ++ [Serve (default CONFIG (config_option opts)) (op_host opts) (op_port opts)], env') ∧
    Forall (λ a, a = SayWorkersIgnored ∨ a = SayReloadIgnored) said ∧
    env' !! "GNR_ASGI_PATH" = Some path ∧
    env' !! "GNR_ASGI_DEBUG" =
      (if op_fulldebug opts then Some "1" else if op_nodebug opts then Some ""
       else env !! "GNR_ASGI_DEBUG") ∧
    env' !! "GNR_ASGI_DEBUGGER" =
      (if op_fulldebug opts then Some "1" else env !! "GNR_ASGI_DEBUGGER") ∧
    (∀ k, k ∉ ["GNR_DAEMON_PROVIDER"; "GNR_ASGI_PATH"; "GNR_ASGI_HOST"; "GNR_ASGI_PORT";
               "GNR_ASGI_DEBUG"; "GNR_ASGI_DEBUGGER"] → env' !! k = env !! k) ∧
    env' !! "GNR_DAEMON_PROVIDER" = Some (default DAEMON_PROVIDER (env !! "GNR_DAEMON_PROVIDER")).
Proof.
  intros Hp. unfold cmd_serve. rewrite Hp. simpl. eexists _, _. split; [reflexivity|].
  unfold set_when, setdefault.
  assert (∀ (m : environ) k v k', k ≠ k' → <[k := v]> m !! k' = m !! k') as Hne
    by (intros; by apply lookup_insert_ne).
  assert (∀ (m : environ) k v, <[k := v]> m !! k = Some v) as Heq by (intros; apply lookup_insert_eq).
  split_and!.
  - apply Forall_app_2; case_match; repeat apply Forall_cons_2; auto using Forall_nil_2.
  - repeat first [rewrite Hne by done | rewrite Heq | case_match]; done.
  - destruct (op_fulldebug opts); [by rewrite Hne, Heq by done|].
    destruct (op_nodebug opts); [by rewrite Heq|].
    repeat first [rewrite Hne by done | rewrite Heq | case_match]; done.
  - destruct (op_fulldebug opts); [by rewrite Heq|].
    repeat first [rewrite Hne by done | rewrite Heq | case_match]; done.
  - intros k Hk. rewrite !not_elem_of_cons in Hk. destruct Hk as (K1 & K2 & K3 & K4 & K5 & K6 & _).
    repeat first [rewrite Hne by done | case_match]; done.
  - destruct (env !! "GNR_DAEMON_PROVIDER") eqn:E;
      repeat first [rewrite Hne by done | rewrite Heq | rewrite E | case_match]; done.
Qed.

Lemma optional_word_ok {A} (convert : string → res A) v :
  (∀ s, v = Some s → ∃ a, convert s = Ok a) → ∃ o, optional_word convert v = Ok o.
Proof.
  destruct v as [s|]; simpl; [|by exists None]. intros Hs. destruct (Hs s eq_refl) as [a ->].
  by exists (Some a).
Qed.

(** The pool the built-in recipe describes, of the instance at [path]. *)
Record pool_of (path : string) (opts : options) (env : environ) (r : recipe) : Prop := PoolOf {
  po_group : ∃ g, rc_groups r = [g] ∧ wk_source (gr_worker_kwargs g) = path ∧
    gr_engine_source g = path ∧ gr_engine_debug g = wk_debug (gr_worker_kwargs g) ∧
    wk_debug (gr_worker_kwargs g) =
      (if op_fulldebug opts then true else if op_nodebug opts then false else debug_of env) ∧
    wk_debugger (gr_worker_kwargs g) =
      (op_fulldebug opts || bool_decide (is_Some (env_set env "GNR_ASGI_DEBUGGER")));
  po_root : filter (λ a, app_mount a = "") (rc_applications r) =
    [Application "site" "" "GenropySpaApplication" None];
  po_startup : on_startup r = Ok () ↔ path ≠ ""
}.

Lemma main_pool_of opts env env' path :
  words_read env →
  env' !! "GNR_ASGI_PATH" = Some path →
  env' !! "GNR_ASGI_DEBUG" =
    (if op_fulldebug opts then Some "1" else if op_nodebug opts then Some ""
     else env !! "GNR_ASGI_DEBUG") →
  env' !! "GNR_ASGI_DEBUGGER" =
    (if op_fulldebug opts then Some "1" else env !! "GNR_ASGI_DEBUGGER") →
  (∀ k, k ∉ ["GNR_DAEMON_PROVIDER"; "GNR_ASGI_PATH"; "GNR_ASGI_HOST"; "GNR_ASGI_PORT";
             "GNR_ASGI_DEBUG"; "GNR_ASGI_DEBUGGER"] → env' !! k = env !! k) →
  ∃ r, main env' = Ok r ∧ pool_of path opts env r.
Proof.
  intros [Hidle Husers] HP HD HG HO.
  assert (∀ k, k ∉ ["GNR_DAEMON_PROVIDER"; "GNR_ASGI_PATH"; "GNR_ASGI_HOST"; "GNR_ASGI_PORT";
               "GNR_ASGI_DEBUG"; "GNR_ASGI_DEBUGGER"] → env_set env' k = env_set env k) as Hkept
    by (intros k Hk; unfold env_set; by rewrite HO).
  destruct (optional_word_ok py_float (env_set env "GNR_ASGI_IDLE_FREEZE_MINUTES") Hidle) as [idle Hi].
  destruct (optional_word_ok (λ s, py_int (VStr s)) (env_set env "GNR_ASGI_WORKER_MAX_USERS") Husers)
    as [users Hu].
  eexists. split.
  { unfold main.
    rewrite (Hkept "GNR_ASGI_IDLE_FREEZE_MINUTES"), Hi by (apply (bool_decide_unpack _); by vm_compute).
    rewrite (Hkept "GNR_ASGI_WORKER_MAX_USERS") by (apply (bool_decide_unpack _); by vm_compute).
    cbn [mbind res_bind]. rewrite Hu. reflexivity. }
  split; cbn [rc_groups rc_applications on_startup]; rewrite ?HP; cbn [default from_option].
  - eexists. split; [reflexivity|]. cbn. split_and!; try done.
    + unfold debug_of. rewrite HD. destruct (op_fulldebug opts); [by vm_compute|].
      destruct (op_nodebug opts); [by vm_compute | done].
    + unfold env_set at 1. rewrite HG. destruct (op_fulldebug opts); [done|]. simpl.
      fold (env_set env "GNR_ASGI_DEBUGGER").
      by destruct (env_set env "GNR_ASGI_DEBUGGER").
  - unfold recipe_applications.
    destruct (env_set env' "GNR_ASGI_ORCHESTRATION_PROFILES"), (env_set env' "GNR_ASGI_CONSOLE"); done.
  - unfold on_startup. cbn. by destruct path.
Qed.

(** C39: whatever the environment held before, serving an instance from the command line
    starts one server, after nothing but what it says: on the recipe [--config] names,
    or on the built-in one. The path the instance's name resolves to is left in the
    environment, and the daemon provider is named there - the one already named, the
    bridge's own where there was none. Without [--config] the recipe it serves builds a
    pool of that instance: the path is the source of the workers and of the engine
    factory alike - so the startup check passes - under one and the same debug flag,
    the two numeric words being readable; [--fulldebug] turns on debug and the
    debugger, [--nodebug] alone turns debug off, neither leaves both to the
    environment; one application owns the root. An instance that resolves to nothing
    is refused before a server exists. *)
Theorem instance_becomes_pool CONFIG opts env :
  words_read env →
  match resolve_instance_path (op_instance opts) with
  | Raise e => cmd_serve CONFIG opts env = Raise e
  | Ok path =>
      ∃ said config env',
        cmd_serve CONFIG opts env =
          Ok (said ++ [Serve config (op_host opts) (op_port opts)], env') ∧
        Forall (λ a, a = SayWorkersIgnored ∨ a = SayReloadIgnored) said ∧
        env' !! "GNR_ASGI_PATH" = Some path ∧
        env' !! "GNR_DAEMON_PROVIDER" =
          Some (match env !! "GNR_DAEMON_PROVIDER" with
                | Some provider => provider
                | None => "genropy-asgi"
                end) ∧
        match op_config opts with
        | None | Some EmptyString => config = CONFIG ∧ ∃ r, main env' = Ok r ∧ pool_of path opts env r
        | Some named => config = named
        end
  end.
Proof.
  intros Hw. destruct (resolve_instance_path (op_instance opts)) as [path|e] eqn:Hp.
  2: { unfold cmd_serve. by rewrite Hp. }
  destruct (cmd_serve_env CONFIG opts env path Hp) as (said & env' & Hc & Hs & HP & HD & HG & HO & HPr).
  exists said, (default CONFIG (config_option opts)), env'.
  split; [done|]. split; [done|]. split; [done|].
  split; [rewrite HPr; by destruct (env !! "GNR_DAEMON_PROVIDER")|].
  pose proof (main_pool_of opts env env' path Hw HP HD HG HO) as HM. unfold config_option.
  destruct (op_config opts) as [[|c cs]|]; [by split|done|by split].
Qed.
End serving.

Module RecipeWitness.
#[local] Instance one_disk : FileSystem := {|
  isdir p := bool_decide (p = "/srv/sites/shop/"); getcwd := "/home/anna"; gettempdir := "/tmp"
|}.
#[local] Instance no_floats : PyFloat := {| py_float s := Raise ValueError |}.
#[local] Instance named_shop : LegacyPaths := {|
  site_name_to_path s := if bool_decide (s = "shop") then Ok "/srv/sites/shop" else Raise ValueError
|}.

Lemma site_name_by_layout_witness : site_name "/srv/sites/shop/" = "shop".
Proof.
  assert (∀ c, bool_decide (c ≠ "" ∧ c ≠ "." ∧ c ≠ ".." ∧ slash ∉ String.list_ascii_of_string c) = true
    → component c) as Hc by (intros c Hb; by apply bool_decide_eq_true in Hb).
  destruct (site_name_by_layout ["srv"; "sites"] "shop" "/") as (H & _).
  - repeat constructor; apply Hc; by vm_compute.
  - apply Hc. by vm_compute.
  - by right.
  - apply H; [by vm_compute | done].
Defined.

Lemma instance_becomes_pool_witness :
  let opts := Options "shop" None (Some 8000) false true false None in
  let env := {["GNR_ASGI_PATH" := "/old"; "GNR_DAEMON_PROVIDER" := "own"]} : environ in
  ∃ said env' r, cmd_serve "config.py" opts env =
      Ok (said ++ [Serve "config.py" None (Some 8000)], env') ∧
    env' !! "GNR_DAEMON_PROVIDER" = Some "own" ∧ main env' = Ok r ∧ on_startup r = Ok ().
Proof.
  intros opts env. pose proof (instance_becomes_pool "config.py" opts env) as HI.
  assert (words_read env) as Hw by (split; intros s Hs; by vm_compute in Hs).
  specialize (HI Hw).
  change (resolve_instance_path _) with (Ok "/srv/sites/shop") in HI.
  destruct HI as (said & config & env' & Hc & _ & _ & Hp & -> & r & Hm & HR).
  exists said, env', r. split; [exact Hc|]. split; [exact Hp|]. split; [exact Hm|].
  by apply (po_startup _ _ _ _ HR).
Defined.
End RecipeWitness.
End Recipe.
